(** * AUF analyzer: the seeding and standings engine of [storage/db.py]

    A shallow embedding of the schedule generator, the fixtures and the
    seeding transaction, the standings aggregator and the query layer of
    [src/backend/auf_analyzer/storage/db.py], with the properties the
    specification states about them.

    Conventions of the embedding:
    - Python [int] is [Z]; list positions and loop counters are [nat];
    - Python [str] and SQLite [TEXT] are [string] (the UTF-8 bytes; both
      Python and SQLite's BINARY collation order strings by code point,
      which is the bytewise order of [String.compare]);
    - Python [float] is a binary64 [spec_float] (prec 53, emax 1024);
    - a table of the SQLite store is the list of its rows in rowid
      (insertion) order;
    - a raised exception is the [Err] case of [result];
    - [random.Random] is a type class of random sources, and code that
      works on a connection passes the committed and the pending store.

    The file has two parts: the embedding (definitions only), then the
    properties. *)

From Stdlib Require Import String Ascii.
From Stdlib Require DecimalString.
From Stdlib Require Import ZArith Lia Bool Arith List.
From Stdlib Require Import Permutation Sorted SpecFloat ListDec.
Import ListNotations.

Set Implicit Arguments.
Open Scope Z_scope.

(** * Part I: the embedding *)

(** ** Counting in lists *)

Definition count {A : Type} (f : A -> bool) (l : list A) : nat :=
  length (filter f l).

(** ** Exceptions *)

(** The exceptions the modelled code can raise. [HTTPException] carries the
    status code the boundary layer answers with. *)
Inductive exn : Type :=
| KeyError
| IndexError
| ValueError (msg : string)
| IntegrityError
| ZeroDivisionError
| OverflowError
| HTTPException (status : Z).

Inductive result (A : Type) : Type :=
| Ok (a : A)
| Err (e : exn).

Arguments Ok {A} a.
Arguments Err {A} e.

Definition bind {A B : Type} (c : result A) (k : A -> result B) : result B :=
  match c with
  | Ok a => k a
  | Err e => Err e
  end.

Notation "x <- c ;; k" := (bind c (fun x => k))
  (at level 61, c at next level, right associativity).

(** A [for] loop whose body can raise: the accumulator is threaded through
    the elements in order and the first exception ends the loop. *)
Fixpoint foldM {A S : Type} (body : S -> A -> result S) (s : S) (xs : list A)
  : result S :=
  match xs with
  | [] => Ok s
  | x :: rest => s' <- body s x ;; foldM body s' rest
  end.

(** A list comprehension whose element expression can raise. *)
Fixpoint mapM {A B : Type} (f : A -> result B) (xs : list A)
  : result (list B) :=
  match xs with
  | [] => Ok []
  | x :: rest => y <- f x ;; ys <- mapM f rest ;; Ok (y :: ys)
  end.

(** ** Python dictionaries

    A [dict] keeps its keys in insertion order; assigning to a key that is
    present keeps the key's place. *)
Section Dict.
Context {K V : Type}.
Variable eqb : K -> K -> bool.

Definition dict : Type := list (K * V).

Fixpoint dict_get (k : K) (d : dict) : option V :=
  match d with
  | [] => None
  | (k', v) :: rest => if eqb k k' then Some v else dict_get k rest
  end.

(** [d[k] = v] *)
Fixpoint dict_set (k : K) (v : V) (d : dict) : dict :=
  match d with
  | [] => [(k, v)]
  | (k', v') :: rest =>
      if eqb k k' then (k', v) :: rest else (k', v') :: dict_set k v rest
  end.

(** [d[k]], raising [KeyError] when the key is missing. *)
Definition dict_item (k : K) (d : dict) : result V :=
  match dict_get k d with
  | Some v => Ok v
  | None => Err KeyError
  end.

(** [d.get(k, default)] *)
Definition dict_get_default (k : K) (default : V) (d : dict) : V :=
  match dict_get k d with
  | Some v => v
  | None => default
  end.

Definition dict_mem (k : K) (d : dict) : bool :=
  match dict_get k d with
  | Some _ => true
  | None => false
  end.

Definition dict_keys (d : dict) : list K := map fst d.

(** A dict comprehension [{k: v for ...}] over a list of pairs. *)
Definition dict_of_list (kvs : list (K * V)) : dict :=
  fold_left (fun d kv => dict_set (fst kv) (snd kv) d) kvs [].
End Dict.

(** ** Stable sorting

    [list.sort(key=...)] and a SQL [ORDER BY] over rows taken in a fixed
    order: a stable insertion sort for the order [leb]. *)
Section Sort.
Context {A : Type}.
Variable leb : A -> A -> bool.

Fixpoint insert_sorted (x : A) (l : list A) : list A :=
  match l with
  | [] => [x]
  | y :: rest => if leb x y then x :: l else y :: insert_sorted x rest
  end.

Definition sort_by (l : list A) : list A :=
  fold_right insert_sorted [] l.
End Sort.

Definition comparison_then (c1 c2 : comparison) : comparison :=
  match c1 with
  | Eq => c2
  | _ => c1
  end.

Definition not_gt (c : comparison) : bool :=
  match c with
  | Gt => false
  | _ => true
  end.

(** ** Python floats

    A [float] is a binary64 number.  [int / int] is the correctly rounded
    quotient; [round(x, 2)] rounds the exact value of [x] to two decimals,
    half to even, and returns the float nearest to that decimal. *)
Definition float : Type := spec_float.

Definition float_div : float -> float -> float := SFdiv 53 1024.

Definition float_of_nonzero (z : Z) : float :=
  match z with
  | Z0 => S754_zero false
  | Zpos p => S754_finite false p 0
  | Zneg p => S754_finite true p 0
  end.

Definition float_zero : float := S754_zero false.

(** The least magnitude that rounds to infinity: [2^1024 - 2^970]. *)
Definition float_overflow_threshold : Z := 2 ^ 1024 - 2 ^ 970.

(** [a / b] on integers. *)
Definition py_truediv (a b : Z) : result float :=
  if b =? 0 then Err ZeroDivisionError
  else if a =? 0 then Ok (S754_zero (b <? 0))
  else if float_overflow_threshold * Z.abs b <=? Z.abs a then Err OverflowError
  else Ok (float_div (float_of_nonzero a) (float_of_nonzero b)).

(** [m * 2^e * 100], rounded to the nearest integer, half to even. *)
Definition hundredths (m : positive) (e : Z) : Z :=
  match e with
  | Zneg k =>
      let den := 2 ^ Zpos k in
      let num := Zpos m * 100 in
      let q := num / den in
      let r := num mod den in
      match 2 * r ?= den with
      | Lt => q
      | Gt => q + 1
      | Eq => if Z.even q then q else q + 1
      end
  | _ => Zpos m * 2 ^ e * 100
  end.

(** [round(x, 2)] *)
Definition py_round2 (x : float) : float :=
  match x with
  | S754_finite s m e =>
      match hundredths m e with
      | Zpos h => float_div (S754_finite s h 0) (S754_finite false 100 0)
      | _ => S754_zero s
      end
  | _ => x
  end.

(** ** Comparisons that order

    The laws a three-way comparison needs for the sort by it to be a sort:
    it is antisymmetric, [Eq] is a congruence for it, and [Lt] is
    transitive. *)
Record OrderCmp {A : Type} (c : A -> A -> comparison) : Prop := mkOrderCmp {
  cmp_antisym : forall x y, c y x = CompOpp (c x y);
  cmp_eq_l : forall x y z, c x y = Eq -> c x z = c y z;
  cmp_lt_trans : forall x y z, c x y = Lt -> c y z = Lt -> c x z = Lt
}.

(** ** Schedule generator: the circle method of [_round_robin] *)

(** The bye placeholder appended when the number of participants is odd. *)
Definition BYE : Z := -1.

(** [ids = [ids[0]] + [ids[-1]] + ids[1:-1]] *)
Definition rotate_ids (ids : list Z) : list Z :=
  match ids with
  | [] => []
  | x :: rest => x :: last ids x :: removelast rest
  end.

(** One step [j] of the inner loop: the pairing of position [j] with
    position [n-1-j] in round [i], or nothing when one of them is the bye. *)
Definition pairing_at (i : nat) (ids : list Z) (j : nat) : list (Z * Z) :=
  let n := length ids in
  let home := nth j ids 0 in
  let away := nth (n - 1 - j) ids 0 in
  if (home =? BYE) || (away =? BYE) then []
  else if Nat.even i then [(home, away)] else [(away, home)].

(** The inner loop [for j in range(n // 2)]. *)
Definition round_pairings (i : nat) (ids : list Z) : list (Z * Z) :=
  flat_map (pairing_at i ids) (seq 0 (length ids / 2)).

(** The outer loop, [k] rounds left, the current round being number [i]. *)
Fixpoint rounds_from (k i : nat) (ids : list Z) : list (list (Z * Z)) :=
  match k with
  | O => []
  | S k' => round_pairings i ids :: rounds_from k' (S i) (rotate_ids ids)
  end.

(** [ids = team_ids[:]; if len(ids) % 2: ids.append(-1)] *)
Definition pad_ids (team_ids : list Z) : list Z :=
  if Nat.odd (length team_ids) then team_ids ++ [BYE] else team_ids.

Definition _round_robin (team_ids : list Z) : list (list (Z * Z)) :=
  let ids := pad_ids team_ids in
  rounds_from (length ids - 1) 0 ids.

(** Vocabulary of the schedule properties: a pairing is a meeting of [a]
    and [b] (in either home/away order); a pairing involves [a]. *)
Definition meet (a b : Z) (p : Z * Z) : bool :=
  ((fst p =? a) && (snd p =? b)) || ((fst p =? b) && (snd p =? a)).

Definition involves (a : Z) (p : Z * Z) : bool :=
  (fst p =? a) || (snd p =? a).

(** Bookkeeping of the rotation on positions [0..m] (with [m = n-1]):
    [orig m i p] is the position, in the initial list, of the participant
    that stands at position [p] after [i] rotations; [pos m i q] is where
    the participant initially at [q] stands after [i] rotations. *)
Definition orig (m i p : nat) : nat :=
  if (p =? 0)%nat then 0%nat
  else if (i <? p)%nat then (p - i)%nat else (p + m - i)%nat.

Definition pos (m i q : nat) : nat :=
  if (q =? 0)%nat then 0%nat
  else if (q + i <=? m)%nat then (q + i)%nat else (q + i - m)%nat.

(** ** The relational store

    One record per table of [create_schema]; a table is the list of its
    rows in insertion order.  [option] marks a nullable column. *)

Record TeamRow : Type := mkTeam {
  t_id : Z;
  t_name : string;
  t_short_name : string;
  t_city : string;
  t_stadium : string;
  t_logo_key : string;
  t_is_placeholder : bool
}.

Record MatchRow : Type := mkMatch {
  m_id : Z;
  m_season_year : Z;
  m_stage_code : string;
  m_round : string;
  m_date : string;
  m_time : string;
  m_home_team_id : Z;
  m_away_team_id : Z;
  m_home_goals : Z;
  m_away_goals : Z;
  m_home_xg : float;
  m_away_xg : float;
  m_attendance : Z;
  m_venue : string;
  m_referee : string
}.

Record PlayerRow : Type := mkPlayer {
  p_id : Z;
  p_full_name : string;
  p_team_id : Z;
  p_position : option string;
  p_nationality : option string;
  p_birth_year : option Z
}.

Record EventRow : Type := mkEvent {
  e_id : Z;
  e_match_id : Z;
  e_minute : Z;
  e_team_id : Z;
  e_player_id : option Z;
  e_type : string;
  e_detail : string
}.

Record PlayerStatRow : Type := mkPlayerStat {
  ps_match_id : Z;
  ps_player_id : Z;
  ps_team_id : Z;
  ps_minutes : Z;
  ps_goals : Z;
  ps_assists : Z;
  ps_shots : Z;
  ps_shots_on_target : Z;
  ps_xg : float;
  ps_xa : float;
  ps_yellow : Z;
  ps_red : Z;
  ps_starts : Z
}.

Record StandingsRow : Type := mkStandings {
  s_season_year : Z;
  s_stage_code : string;
  s_team_id : Z;
  s_mp : Z;
  s_w : Z;
  s_d : Z;
  s_l : Z;
  s_gf : Z;
  s_ga : Z;
  s_gd : Z;
  s_pts : Z;
  s_ppg : float;
  s_last5 : string;
  s_top_scorer : string;
  s_goalkeeper : string;
  s_avg_attendance : float
}.

Record DB : Type := mkDB {
  metadata : list (string * string);
  teams : list TeamRow;
  seasons : list Z;
  stages : list (string * string);
  matches : list MatchRow;
  players : list PlayerRow;
  match_events : list EventRow;
  player_match_stats : list PlayerStatRow;
  standings : list StandingsRow
}.

Definition empty_db : DB := mkDB [] [] [] [] [] [] [] [] [].

Definition set_standings (db : DB) (rows : list StandingsRow) : DB :=
  mkDB (metadata db) (teams db) (seasons db) (stages db) (matches db)
       (players db) (match_events db) (player_match_stats db) rows.

(** [@dataclass MatchResult] *)
Record MatchResult : Type := mkMatchResult {
  match_id : Z;
  season_year : Z;
  stage_code : string;
  home_team_id : Z;
  away_team_id : Z;
  home_goals : Z;
  away_goals : Z;
  date : string
}.

(** Strings compared as Python and SQLite compare them. *)
Definition string_leb (a b : string) : bool := not_gt (String.compare a b).

Definition key_eqb (k1 k2 : Z * string) : bool :=
  (fst k1 =? fst k2) && String.eqb (snd k1) (snd k2).

(** [_stages_for_query] *)
Definition _stages_for_query (stage : string) : list string :=
  if String.eqb stage "anual" then ["apertura"; "clausura"]%string
  else [stage].

Definition stage_in (stage : string) (stages : list string) : bool :=
  existsb (String.eqb stage) stages.

(** ** Standings aggregator: [_build_and_store_standings] *)

(** The running totals of one team in one stage: the dict
    [{"mp": .., "w": .., "d": .., "l": .., "gf": .., "ga": ..}]. *)
Record Stats : Type := mkStats {
  st_mp : Z;
  st_w : Z;
  st_d : Z;
  st_l : Z;
  st_gf : Z;
  st_ga : Z
}.

Definition zero_stats : Stats := mkStats 0 0 0 0 0 0.

(** A stage table: team id to totals; [standings_data]: (season, stage) to
    stage table. *)
Definition StageTable : Type := list (Z * Stats).
Definition StandingsData : Type := list ((Z * string) * StageTable).

(** [team_names = {row["id"]: row["name"] for row in SELECT id, name FROM
    teams}] *)
Definition team_names_of (db : DB) : list (Z * string) :=
  dict_of_list Z.eqb (map (fun t => (t_id t, t_name t)) (teams db)).

(** [{team_id: {"mp": 0, ...} for team_id in team_names}] *)
Definition zero_table (team_names : list (Z * string)) : StageTable :=
  map (fun kv => (fst kv, zero_stats)) team_names.

(** The body of the inner loop over the two sides of a match. *)
Definition update_side (gf ga : Z) (row : Stats) : Stats :=
  let mp' := st_mp row + 1 in
  let gf' := st_gf row + gf in
  let ga' := st_ga row + ga in
  if gf >? ga then mkStats mp' (st_w row + 1) (st_d row) (st_l row) gf' ga'
  else if gf =? ga then
    mkStats mp' (st_w row) (st_d row + 1) (st_l row) gf' ga'
  else mkStats mp' (st_w row) (st_d row) (st_l row + 1) gf' ga'.

(** [row = table[team_id]] followed by the in-place updates of [row]. *)
Fixpoint table_update (team_id : Z) (f : Stats -> Stats) (table : StageTable)
  : result StageTable :=
  match table with
  | [] => Err KeyError
  | (k, v) :: rest =>
      if team_id =? k then Ok ((k, f v) :: rest)
      else rest' <- table_update team_id f rest ;; Ok ((k, v) :: rest')
  end.

(** The body of [for m in matches]. *)
Definition fold_match (team_names : list (Z * string)) (data : StandingsData)
  (m : MatchResult) : result StandingsData :=
  let key := (season_year m, stage_code m) in
  let data :=
    if dict_mem key_eqb key data then data
    else dict_set key_eqb key (zero_table team_names) data in
  table <- dict_item key_eqb key data ;;
  table <- table_update (home_team_id m)
             (update_side (home_goals m) (away_goals m)) table ;;
  table <- table_update (away_team_id m)
             (update_side (away_goals m) (home_goals m)) table ;;
  Ok (dict_set key_eqb key table data).

(** [target[key] += stats[key]] for the six counting keys. *)
Definition add_stats (stats target : Stats) : Stats :=
  mkStats (st_mp target + st_mp stats) (st_w target + st_w stats)
          (st_d target + st_d stats) (st_l target + st_l stats)
          (st_gf target + st_gf stats) (st_ga target + st_ga stats).

(** The body of [for stage in ["apertura", "clausura"]]. *)
Definition add_stage_to_annual (season : Z) (data : StandingsData)
  (stage : string) : result StandingsData :=
  table <- dict_item key_eqb (season, stage) data ;;
  annual <- dict_item key_eqb (season, "anual"%string) data ;;
  annual <- foldM (fun annual kv =>
                     table_update (fst kv) (add_stats (snd kv)) annual)
                  annual table ;;
  Ok (dict_set key_eqb (season, "anual"%string) annual data).

(** The dictionaries of the totals, before anything is written. *)
Definition standings_data_of (team_names : list (Z * string)) (season : Z)
  (matches : list MatchResult) : result StandingsData :=
  let data :=
    fold_left (fun data stage =>
                 dict_set key_eqb (season, stage) (zero_table team_names) data)
              ["apertura"; "clausura"; "intermedio"]%string [] in
  data <- foldM (fold_match team_names) data matches ;;
  let data :=
    dict_set key_eqb (season, "anual"%string) (zero_table team_names) data in
  foldM (add_stage_to_annual season) data ["apertura"; "clausura"]%string.

(** The helper queries [_last5_strings], [_top_scorer_by_team],
    [_avg_attendance_by_team] and [_goalkeeper_map] only read the store and
    fill the four descriptive columns.  SQL leaves part of their answers
    open (the row a bare column of a [GROUP BY] is taken from, the order
    among equal counts), so their results are parameters of the embedding:
    each is the dict the helper returns for the given store, season and
    stage. *)
Record Helpers : Type := mkHelpers {
  _last5_strings : DB -> Z -> string -> list (Z * string);
  _top_scorer_by_team : DB -> Z -> string -> list (Z * string);
  _avg_attendance_by_team : DB -> Z -> string -> list (Z * float);
  _goalkeeper_map : DB -> list (Z * string)
}.

Section Aggregator.
Variable helpers : Helpers.

(** One tuple of [rows]: the derived fields next to the counts. *)
Definition standings_row (db : DB) (season_year : Z) (stage_code : string)
  (team_id : Z) (stats : Stats) : result StandingsRow :=
  let last5 := _last5_strings helpers db season_year stage_code in
  let top_scorers := _top_scorer_by_team helpers db season_year stage_code in
  let attendances :=
    _avg_attendance_by_team helpers db season_year stage_code in
  let gk_map := _goalkeeper_map helpers db in
  let gd := st_gf stats - st_ga stats in
  let pts := st_w stats * 3 + st_d stats in
  let mp := if st_mp stats =? 0 then 1 else st_mp stats in
  q <- py_truediv pts mp ;;
  let ppg := py_round2 q in
  Ok (mkStandings season_year stage_code team_id
        (st_mp stats) (st_w stats) (st_d stats) (st_l stats)
        (st_gf stats) (st_ga stats) gd pts ppg
        (dict_get_default Z.eqb team_id ""%string last5)
        (dict_get_default Z.eqb team_id ""%string top_scorers)
        (dict_get_default Z.eqb team_id ""%string gk_map)
        (dict_get_default Z.eqb team_id float_zero attendances)).

(** The sort key [(-r[10], -r[9], -r[7], team_names.get(r[2], ""))],
    compared as Python compares tuples. *)
Definition rank_compare (name1 name2 : string) (r1 r2 : StandingsRow)
  : comparison :=
  comparison_then (- s_pts r1 ?= - s_pts r2)
    (comparison_then (- s_gd r1 ?= - s_gd r2)
       (comparison_then (- s_gf r1 ?= - s_gf r2)
          (String.compare name1 name2))).

Definition rank_leb (team_names : list (Z * string)) (r1 r2 : StandingsRow)
  : bool :=
  not_gt (rank_compare
            (dict_get_default Z.eqb (s_team_id r1) ""%string team_names)
            (dict_get_default Z.eqb (s_team_id r2) ""%string team_names)
            r1 r2).

(** The primary key of [standings]. *)
Definition same_standings_key (r1 r2 : StandingsRow) : bool :=
  (s_season_year r1 =? s_season_year r2)
  && String.eqb (s_stage_code r1) (s_stage_code r2)
  && (s_team_id r1 =? s_team_id r2).

(** One [INSERT INTO standings]. *)
Definition insert_standings (db : DB) (row : StandingsRow) : result DB :=
  if existsb (same_standings_key row) (standings db) then Err IntegrityError
  else Ok (set_standings db (standings db ++ [row])).

(** The body of [for (season_year, stage_code), table in
    standings_data.items()]. *)
Definition store_stage (team_names : list (Z * string)) (db : DB)
  (entry : (Z * string) * StageTable) : result DB :=
  let '((season_year, stage_code), table) := entry in
  rows <- mapM (fun kv =>
                  standings_row db season_year stage_code (fst kv) (snd kv))
               table ;;
  let rows := sort_by (rank_leb team_names) rows in
  foldM insert_standings db rows.

(** [_build_and_store_standings(conn, season, matches)]: the store after
    the function, to be committed by its last statement (the transaction
    is followed in [seed_database]). *)
Definition _build_and_store_standings (db : DB) (season : Z)
  (matches : list MatchResult) : result DB :=
  let team_names := team_names_of db in
  data <- standings_data_of team_names season matches ;;
  let db :=
    set_standings db
      (filter (fun r => negb (s_season_year r =? season)) (standings db)) in
  foldM (store_stage team_names) db data.

End Aggregator.

(** Vocabulary of the aggregator's properties. *)

(** The totals of team [t] under [key] in [standings_data] (all zero when
    either is missing). *)
Definition stats_at (data : StandingsData) (key : Z * string) (t : Z)
  : Stats :=
  match dict_get key_eqb key data with
  | Some table => dict_get_default Z.eqb t zero_stats table
  | None => zero_stats
  end.

(** What one match adds to the totals of team [t]: its home side, then its
    away side. *)
Definition involved_update (t : Z) (m : MatchResult) (s : Stats) : Stats :=
  let s :=
    if home_team_id m =? t then update_side (home_goals m) (away_goals m) s
    else s in
  if away_team_id m =? t then update_side (away_goals m) (home_goals m) s
  else s.

Definition tally_step (key : Z * string) (t : Z) (s : Stats)
  (m : MatchResult) : Stats :=
  if key_eqb (season_year m, stage_code m) key then involved_update t m s
  else s.

(** The totals of team [t] over the matches of one (season, stage). *)
Definition tally (key : Z * string) (t : Z) (ms : list MatchResult) : Stats :=
  fold_left (tally_step key t) ms zero_stats.

(** The totals a stage table ends with: the tally of its matches, and for
    the ["anual"] table of the season the sum of the apertura and clausura
    tallies. *)
Definition final_stats (season : Z) (ms : list MatchResult)
  (key : Z * string) (t : Z) : Stats :=
  if key_eqb key (season, "anual"%string) then
    add_stats (tally (season, "clausura"%string) t ms)
      (add_stats (tally (season, "apertura"%string) t ms) zero_stats)
  else tally key t ms.

(** Team [t] plays in match [m] of stage [key]. *)
Definition plays_in (key : Z * string) (t : Z) (m : MatchResult) : bool :=
  key_eqb (season_year m, stage_code m) key
  && ((home_team_id m =? t) || (away_team_id m =? t)).

(** The counts the aggregator keeps are counts. *)
Definition stats_ok (s : Stats) : Prop :=
  0 <= st_w s /\ 0 <= st_d s /\ 0 <= st_l s /\
  st_mp s = st_w s + st_d s + st_l s.

(** Row [r] of [standings] is the row of team [t] with totals [s] in stage
    [(sy, st)]: the counts are copied and the derived fields computed from
    them. *)
Definition row_of_stats (sy : Z) (st : string) (t : Z) (s : Stats)
  (r : StandingsRow) : Prop :=
  s_season_year r = sy /\ s_stage_code r = st /\ s_team_id r = t /\
  s_mp r = st_mp s /\ s_w r = st_w s /\ s_d r = st_d s /\ s_l r = st_l s /\
  s_gf r = st_gf s /\ s_ga r = st_ga s /\
  s_gd r = st_gf s - st_ga s /\
  s_pts r = st_w s * 3 + st_d s /\
  exists q, py_truediv (st_w s * 3 + st_d s)
                       (if st_mp s =? 0 then 1 else st_mp s) = Ok q /\
            s_ppg r = py_round2 q.

(** The persisted table of one (season, stage), in insertion order. *)
Definition stage_rows (db : DB) (season : Z) (stage : string)
  : list StandingsRow :=
  filter (fun r => (s_season_year r =? season)
                   && String.eqb (s_stage_code r) stage)
         (standings db).

Definition STAGES : list string :=
  ["apertura"; "clausura"; "intermedio"; "anual"]%string.

(** The persisted rows of one team in one (season, stage). *)
Definition team_rows (db : DB) (season : Z) (stage : string) (t : Z)
  : list StandingsRow :=
  filter (fun r => s_team_id r =? t) (stage_rows db season stage).

(** Team [t] has no match in the stage (for ["anual"]: in the stages it
    stands for). *)
Definition played_none (season : Z) (ms : list MatchResult) (stage : string)
  (t : Z) : Prop :=
  forall m st, In m ms -> In st (_stages_for_query stage) ->
    plays_in (season, st) t m = false.

(** Every match handed to the aggregator is of the season and between
    teams of the store, as the matches [seed_database] collects are. *)
Definition matches_of_season (db : DB) (season : Z) (ms : list MatchResult)
  : Prop :=
  forall m, In m ms ->
    season_year m = season /\
    In (home_team_id m) (map t_id (teams db)) /\
    In (away_team_id m) (map t_id (teams db)).

Definition float_0_0 : float := S754_zero false.

(** ** Query layer

    A [SELECT] is read as SQL defines it: the rows of the [FROM] table in
    table order, joined with the matching rows of each [JOIN]ed table,
    filtered by [WHERE], grouped, ordered, limited.  Where SQL leaves the
    order among rows that compare equal open, the rows keep the order they
    were produced in. *)

Definition sql_join {A B : Type} (on : A -> B -> bool) (rows : list A)
  (table : list B) : list (A * B) :=
  flat_map (fun a => map (pair a) (filter (on a) table)) rows.

(** [LIMIT n]: SQLite reads a negative [n] as no limit. *)
Definition sql_limit {A : Type} (n : Z) (rows : list A) : list A :=
  if n <? 0 then rows else firstn (Z.to_nat n) rows.

(** The keys of a [GROUP BY], each once, in order of first appearance. *)
Fixpoint group_keys {K : Type} (eqb : K -> K -> bool) (keys : list K)
  : list K :=
  match keys with
  | [] => []
  | k :: rest => k :: filter (fun k' => negb (eqb k k')) (group_keys eqb rest)
  end.

(** *** [compute_table] *)

(** One element of ["rows"] in the answer of [compute_table], with the
    canonical keys and their legacy aliases. *)
Record TableRow : Type := mkTableRow {
  tr_pos : Z;
  tr_team : string;
  tr_team_id : Z;
  tr_logo_key : string;
  tr_mp : Z;
  tr_w : Z;
  tr_d : Z;
  tr_l : Z;
  tr_gf : Z;
  tr_ga : Z;
  tr_gc : Z;
  tr_gd : Z;
  tr_pts : Z;
  tr_ppg : float;
  tr_last5 : string;
  tr_avg_attendance : float;
  tr_pj : Z;
  tr_pg : Z;
  tr_pe : Z;
  tr_pp : Z;
  tr_dg : Z
}.

Record Table : Type := mkTable {
  tb_season : Z;
  tb_stage : string;
  tb_rows : list TableRow;
  tb_updated_at : string;
  tb_source : string
}.

(** [ORDER BY pts DESC, gd DESC, gf DESC, team ASC] on the joined rows. *)
Definition table_compare (x y : StandingsRow * TeamRow) : comparison :=
  rank_compare (t_name (snd x)) (t_name (snd y)) (fst x) (fst y).

Definition table_leb (x y : StandingsRow * TeamRow) : bool :=
  not_gt (table_compare x y).

(** The rows the [SELECT] of [compute_table] returns. *)
Definition ranked_rows (db : DB) (season : Z) (stage : string)
  : list (StandingsRow * TeamRow) :=
  sort_by table_leb
    (filter (fun x => (s_season_year (fst x) =? season)
                      && String.eqb (s_stage_code (fst x)) stage)
       (sql_join (fun s t => s_team_id s =? t_id t) (standings db) (teams db))).

Definition normalize_row (idx : nat) (x : StandingsRow * TeamRow) : TableRow :=
  let row := fst x in
  mkTableRow (Z.of_nat idx) (t_name (snd x)) (s_team_id row)
    (t_logo_key (snd x)) (s_mp row) (s_w row) (s_d row) (s_l row)
    (s_gf row) (s_ga row) (s_ga row) (s_gd row) (s_pts row) (s_ppg row)
    (s_last5 row) (s_avg_attendance row)
    (s_mp row) (s_w row) (s_d row) (s_l row) (s_gd row).

(** [enumerate(rows, start=1)] *)
Definition enumerate_from {A : Type} (start : nat) (rows : list A)
  : list (nat * A) :=
  combine (seq start (length rows)) rows.

(** [compute_table(season, stage)], reading the store [db]; [utcnow] is
    what [datetime.utcnow().isoformat()] gives at the call. *)
Definition compute_table (db : DB) (utcnow : string) (season : Z)
  (stage : string) : Table :=
  let rows := ranked_rows db season stage in
  let normalized :=
    map (fun ix => normalize_row (fst ix) (snd ix)) (enumerate_from 1 rows) in
  mkTable season stage normalized utcnow "seed".

(** *** [list_scorers] *)


Definition option_Z_eqb (o : option Z) (z : Z) : bool :=
  match o with
  | Some x => x =? z
  | None => false
  end.








(** *** The boundary: [api_scorers] *)

Definition DEFAULT_SEASON : Z := 2024.
Definition DEFAULT_STAGE : string := "apertura".

Record Metadata : Type := mkMetadata {
  md_seasons : list Z;
  md_stages : list string;
  md_default_season : Z;
  md_default_stage : string;
  md_teams : list TeamRow
}.

(** [get_metadata] *)
Definition get_metadata (db : DB) : Metadata :=
  mkMetadata (sort_by Z.leb (seasons db))
             (sort_by string_leb (map fst (stages db)))
             DEFAULT_SEASON DEFAULT_STAGE
             (sort_by (fun a b => string_leb (t_name a) (t_name b)) (teams db)).

(** [x or default] on an optional integer / string parameter. *)
Definition or_default_Z (x : option Z) (default : Z) : Z :=
  match x with
  | Some v => if v =? 0 then default else v
  | None => default
  end.

Definition or_default_string (x : option string) (default : string) : string :=
  match x with
  | Some v => if String.eqb v "" then default else v
  | None => default
  end.

(** [_resolve_params] *)
Definition _resolve_params (db : DB) (season : option Z) (stage : option string)
  : result (Z * string * Metadata) :=
  let meta := get_metadata db in
  let resolved_season := or_default_Z season (md_default_season meta) in
  let resolved_stage := or_default_string stage (md_default_stage meta) in
  if negb (existsb (String.eqb resolved_stage) (md_stages meta))
  then Err (HTTPException 400)
  else if negb (existsb (Z.eqb resolved_season) (md_seasons meta))
  then Err (HTTPException 400)
  else Ok (resolved_season, resolved_stage, meta).




(** *** [cards_by_team] and [discipline_table] *)

Record CardsRow : Type := mkCards {
  c_team_id : Z;
  c_team : string;
  c_logo_key : string;
  c_yellow : Z;
  c_red : Z
}.

(** [FROM match_events e JOIN matches m .. JOIN teams t ON e.team_id = t.id
    WHERE m.season_year = ? AND m.stage_code IN (..)] *)
Definition event_rows (db : DB) (season : Z) (stage : string)
  : list (EventRow * MatchRow * TeamRow) :=
  filter (fun x =>
            let '(e, m, t) := x in
            (m_season_year m =? season)
            && stage_in (m_stage_code m) (_stages_for_query stage))
    (sql_join (fun em t => e_team_id (fst em) =? t_id t)
       (sql_join (fun e m => e_match_id e =? m_id m)
          (match_events db) (matches db))
       (teams db)).

(** The key of [GROUP BY t.id, t.name, t.logo_key]. *)
Definition cards_key (x : EventRow * MatchRow * TeamRow)
  : Z * string * string :=
  let '(_, _, t) := x in (t_id t, t_name t, t_logo_key t).

Definition cards_key_eqb (k1 k2 : Z * string * string) : bool :=
  let '(i1, n1, l1) := k1 in
  let '(i2, n2, l2) := k2 in
  (i1 =? i2) && String.eqb n1 n2 && String.eqb l1 l2.

(** [SUM(CASE WHEN e.type = ty THEN 1 ELSE 0 END)] over a group. *)
Definition sum_type (ty : string)
  (group : list (EventRow * MatchRow * TeamRow)) : Z :=
  fold_right (fun x acc =>
                (if String.eqb (e_type (fst (fst x))) ty then 1 else 0) + acc)
             0 group.

Definition cards_group (rows : list (EventRow * MatchRow * TeamRow))
  (key : Z * string * string) : CardsRow :=
  let group := filter (fun x => cards_key_eqb (cards_key x) key) rows in
  let '(id, name, logo) := key in
  mkCards id name logo (sum_type "yellow" group) (sum_type "red" group).

Definition cards_by_team (db : DB) (season : Z) (stage : string)
  : list CardsRow :=
  let rows := event_rows db season stage in
  sort_by (fun a b => string_leb (c_team a) (c_team b))
    (map (cards_group rows) (group_keys cards_key_eqb (map cards_key rows))).

(** A number that is an [int] or a [float]. *)
Inductive number : Type :=
| Int (z : Z)
| Float (f : float).

Record DisciplineRow : Type := mkDiscipline {
  dr_Equipo : string;
  dr_PJ : Z;
  dr_Amarillas : Z;
  dr_Rojas : Z;
  dr_Tarjetas_totales : Z;
  dr_Tarjetas_partido : number
}.

(** [SELECT t.name as team, COUNT( * ) as pj FROM matches m JOIN teams t ON
    m.home_team_id = t.id OR m.away_team_id = t.id WHERE .. GROUP BY t.name]
    read into the dict [matches_map]. *)
Definition matches_map_of (db : DB) (season : Z) (stage : string)
  : list (string * Z) :=
  let rows :=
    filter (fun x => (m_season_year (fst x) =? season)
                     && stage_in (m_stage_code (fst x))
                                 (_stages_for_query stage))
      (sql_join (fun m t => (m_home_team_id m =? t_id t)
                            || (m_away_team_id m =? t_id t))
         (matches db) (teams db)) in
  dict_of_list String.eqb
    (map (fun name =>
            (name,
             Z.of_nat (length (filter (fun x => String.eqb (t_name (snd x)) name)
                                      rows))))
         (group_keys String.eqb (map (fun x => t_name (snd x)) rows))).

Definition discipline_row (matches_map : list (string * Z)) (row : CardsRow)
  : result DisciplineRow :=
  let pj := dict_get_default String.eqb (c_team row) 0 matches_map in
  let total := c_yellow row + c_red row in
  per_game <- (if pj =? 0 then Ok (Int 0)
               else q <- py_truediv total pj ;; Ok (Float (py_round2 q))) ;;
  Ok (mkDiscipline (c_team row) pj (c_yellow row) (c_red row) total per_game).

Definition discipline_table (db : DB) (season : Z) (stage : string)
  : result (list DisciplineRow) :=
  let stats := cards_by_team db season stage in
  let matches_map := matches_map_of db season stage in
  mapM (discipline_row matches_map) stats.

(** *** Calls of [compute_table] in time

    The query reads two things: the store and the clock.  A [World] holds
    the store and the readings [datetime.utcnow().isoformat()] gives, one
    per call, in the order of the calls. *)
Record World : Type := mkWorld {
  world_store : DB;
  world_clock : nat -> string;
  world_reads : nat
}.

Definition read_clock (w : World) : string * World :=
  (world_clock w (world_reads w),
   mkWorld (world_store w) (world_clock w) (S (world_reads w))).

(** One call of [compute_table(season, stage)]. *)
Definition call_compute_table (w : World) (season : Z) (stage : string)
  : Table * World :=
  let '(now, w') := read_clock w in
  (compute_table (world_store w) now season stage, w').

(** Two calls in a row. *)
Definition call_compute_table_twice (w : World) (season : Z) (stage : string)
  : Table * Table * World :=
  let '(first, w1) := call_compute_table w season stage in
  let '(second, w2) := call_compute_table w1 season stage in
  (first, second, w2).

(** The order of the ranked table on its rows: points, goal difference and
    goals for descending, then team name ascending. *)
Definition table_row_compare (x y : TableRow) : comparison :=
  comparison_then (- tr_pts x ?= - tr_pts y)
    (comparison_then (- tr_gd x ?= - tr_gd y)
       (comparison_then (- tr_gf x ?= - tr_gf y)
          (String.compare (tr_team x) (tr_team y)))).

(** The same order on persisted rows, the name of a team being the one
    [team_names] gives. *)
Definition team_name_of (db : DB) (team_id : Z) : string :=
  dict_get_default Z.eqb team_id ""%string (team_names_of db).

Definition standings_compare (db : DB) (x y : StandingsRow) : comparison :=
  rank_compare (team_name_of db (s_team_id x)) (team_name_of db (s_team_id y))
               x y.

(** Sorted for a three-way comparison: no element is followed, anywhere
    later, by one that compares smaller. *)
Definition sorted_by {A : Type} (c : A -> A -> comparison) (l : list A)
  : Prop :=
  StronglySorted (fun x y => not_gt (c x y) = true) l.

(** ** Vocabulary of the proofs *)

(** Every stage table has the teams of [team_names] as its keys. *)
Definition data_wf (K : list Z) (data : StandingsData) : Prop :=
  NoDup (dict_keys data) /\ Forall (fun e => map fst (snd e) = K) data.

Definition initial_data (tn : list (Z * string)) (season : Z) : StandingsData :=
  fold_left (fun data stage =>
               dict_set key_eqb (season, stage) (zero_table tn) data)
            ["apertura"; "clausura"; "intermedio"]%string [].

Definition standings_pk (r : StandingsRow) : Z * string * Z :=
  (s_season_year r, s_stage_code r, s_team_id r).

(** The block of rows one stage table is stored as. *)
Definition block_for (tn : list (Z * string))
  (entry : (Z * string) * StageTable) (block : list StandingsRow) : Prop :=
  exists rows,
    Forall2 (fun kv r =>
               row_of_stats (fst (fst entry)) (snd (fst entry))
                            (fst kv) (snd kv) r)
            (snd entry) rows /\
    block = sort_by (rank_leb tn) rows.

Definition stage_key_eqb (sy : Z) (st : string) (r : StandingsRow) : bool :=
  (s_season_year r =? sy) && String.eqb (s_stage_code r) st.


Definition cards_row_key (r : CardsRow) : Z * string * string :=
  (c_team_id r, c_team r, c_logo_key r).

Definition team_key (t : TeamRow) : Z * string * string :=
  (t_id t, t_name t, t_logo_key t).

(** The joined event rows of one team that are of type [ty]. *)
Definition team_events_of_type (db : DB) (season : Z) (stage : string)
  (key : Z * string * string) (ty : string) : nat :=
  count (fun x => cards_key_eqb (cards_key x) key
                  && String.eqb (e_type (fst (fst x))) ty)
        (event_rows db season stage).

(** ** The random source

    [random.Random] as the code uses it: seeded from an integer, then
    asked for [random()] and, through [randint] and [choice], for
    [_randbelow(n)].  The generator itself is left open; an instance says
    what the three primitives return and how the state moves on. *)
Class RandomSource (R : Type) : Type := {
  rng_seed : Z -> R;
  rng_random : R -> float * R;
  rng_randbelow : Z -> R -> Z * R
}.

(** What [_randbelow(n)] promises: a value in [0, n). *)
Definition RandomSourceLaws (R : Type) `{RandomSource R} : Prop :=
  forall n r, 0 < n -> 0 <= fst (rng_randbelow n r) < n.

Arguments RandomSourceLaws R {_}.

Definition float_add : float -> float -> float := SFadd 53 1024.
Definition float_sub : float -> float -> float := SFsub 53 1024.
Definition float_mul : float -> float -> float := SFmul 53 1024.
Definition float_ltb : float -> float -> bool := SFltb.

(** [float(z)] *)
Definition float_of_int (z : Z) : float := binary_normalize 53 1024 z 0 false.

(** The literals [0.6], [0.7], [1.4] and [1.5]. *)
Definition float_0_6 : float := S754_finite false 5404319552844595 (-53).
Definition float_0_7 : float := S754_finite false 6305039478318694 (-53).
Definition float_1_4 : float := S754_finite false 6305039478318694 (-52).
Definition float_1_5 : float := S754_finite false 6755399441055744 (-52).

Section Random.
Context {R : Type} `{RandomSource R}.

(** [uniform(a, b)]: [a + (b - a) * self.random()] *)
Definition uniform (a b : float) (rng : R) : float * R :=
  let '(u, rng) := rng_random rng in
  (float_add a (float_mul (float_sub b a) u), rng).

(** [randint(a, b)]: [randrange(a, b + 1)] *)
Definition randint (a b : Z) (rng : R) : result (Z * R) :=
  let width := b + 1 - a in
  if 0 <? width then
    let '(x, rng) := rng_randbelow width rng in Ok (a + x, rng)
  else Err (ValueError "empty range for randrange()").

(** [choice(seq)]: [seq[self._randbelow(len(seq))]] *)
Definition choice {A : Type} (seq : list A) (rng : R) : result (A * R) :=
  match seq with
  | [] => Err IndexError
  | d :: _ =>
      let '(i, rng) := rng_randbelow (Z.of_nat (length seq)) rng in
      Ok (nth (Z.to_nat i) seq d, rng)
  end.
End Random.

(** A random source that replays a tape of raw 53-bit draws: [random()]
    is the draw over [2^53], [_randbelow(n)] the draw modulo [n]; an
    exhausted tape gives zeros. *)
Definition tape_draw (tape : list Z) : Z * list Z :=
  match tape with
  | [] => (0, [])
  | x :: rest => (x mod 2 ^ 53, rest)
  end.

#[export] Instance TapeSource : RandomSource (list Z) := {
  rng_seed := fun seed => [];
  rng_random := fun tape =>
    let '(x, rest) := tape_draw tape in
    (binary_normalize 53 1024 x (-53) false, rest);
  rng_randbelow := fun n tape =>
    let '(x, rest) := tape_draw tape in (x mod n, rest)
}.

(** ** Fixtures: [_build_round_robin_schedule], [_build_intermedio_schedule] *)

(** A date kept as the [datetime(year, month, day)] the code starts from
    and the days added to it; [d_is_datetime] is false once [.date()] was
    taken.  The code adds days to 10 February, 5 June and 10 August
    only. *)
Record PyDate : Type := mkDate {
  d_year : Z;
  d_month : Z;
  d_day : Z;
  d_plus_days : Z;
  d_is_datetime : bool
}.

(** [datetime(year, month, day)], for a month and a day that exist: the
    year has to lie between [MINYEAR] and [MAXYEAR]. *)
Definition datetime (year month day : Z) : result PyDate :=
  if (1 <=? year) && (year <=? 9999) then Ok (mkDate year month day 0 true)
  else Err (ValueError "year is out of range").

(** The day of the year, in a year that is not a leap year. *)
Definition day_of_common_year (month day : Z) : Z :=
  nth (Z.to_nat (month - 1))
      [0; 31; 59; 90; 120; 151; 181; 212; 243; 273; 304; 334] 0 + day.

(** [start + timedelta(days=n)] for [n >= 0]: a date after the last day of
    the year 9999 is out of range. *)
Definition plus_days (start : PyDate) (n : Z) : result PyDate :=
  if (d_year start =? 9999)
     && (365 <? day_of_common_year (d_month start) (d_day start)
                + d_plus_days start + n)
  then Err OverflowError
  else Ok (mkDate (d_year start) (d_month start) (d_day start)
                  (d_plus_days start + n) (d_is_datetime start)).

(** [.date()] *)
Definition to_date (d : PyDate) : PyDate :=
  mkDate (d_year d) (d_month d) (d_day d) (d_plus_days d) false.

(** One fixture dict. *)
Record Fixture : Type := mkFixture {
  fx_round : string;
  fx_date : PyDate;
  fx_time : string;
  fx_home : Z;
  fx_away : Z;
  fx_home_goals : Z;
  fx_away_goals : Z
}.

Definition KICKOFF_TIMES : list string :=
  ["15:00"; "16:00"; "18:00"; "20:30"]%string.

Definition REFEREES : list string :=
  ["Esteban Ostojich"; "Andrés Matonte"; "Gustavo Tejera"; "Leodán González";
   "Christian Ferreyra"; "Daniel Fedorczuk"]%string.

(** [str(idx)] *)
Definition str_of_nat (n : nat) : string :=
  DecimalString.NilEmpty.string_of_uint (Nat.to_uint n).

Section Fixtures.
Context {R : Type} `{RandomSource R}.

(** The body of [for home, away in pairings] of
    [_build_round_robin_schedule]: the draws are the home advantage, the
    base goals, the away goals, then the kickoff time. *)
Definition round_robin_fixture (idx : nat) (round_date : PyDate)
  (acc : list Fixture * R) (pairing : Z * Z) : result (list Fixture * R) :=
  let '(fixtures, rng) := acc in
  let '(home, away) := pairing in
  let '(home_advantage, rng) := uniform float_zero (float_of_int 1) rng in
  x <- randint 0 3 rng ;;
  let '(base_goals, rng) := x in
  let home_goals :=
    base_goals + (if float_ltb float_0_6 home_advantage then 1 else 0) in
  x <- randint 0 3 rng ;;
  let '(away_goals, rng) := x in
  x <- choice KICKOFF_TIMES rng ;;
  let '(time, rng) := x in
  Ok (fixtures ++ [mkFixture (str_of_nat idx) (to_date round_date) time
                             home away home_goals away_goals],
      rng).

Definition round_robin_round (start_date : PyDate) (acc : list Fixture * R)
  (ip : nat * list (Z * Z)) : result (list Fixture * R) :=
  let '(idx, pairings) := ip in
  round_date <- plus_days start_date (7 * (Z.of_nat idx - 1)) ;;
  foldM (round_robin_fixture idx round_date) acc pairings.

Definition _build_round_robin_schedule (team_ids : list Z) (season : Z)
  (rng : R) (start_date : PyDate) : result (list Fixture * R) :=
  let rounds := _round_robin team_ids in
  foldM (round_robin_round start_date) ([], rng) (enumerate_from 1 rounds).

(** The body of [for home, away in pairings] of
    [_build_intermedio_schedule]: the draws are the kickoff time, the home
    goals, the away goals. *)
Definition intermedio_fixture (idx : nat) (round_date : PyDate)
  (acc : list Fixture * R) (pairing : Z * Z) : result (list Fixture * R) :=
  let '(fixtures, rng) := acc in
  let '(home, away) := pairing in
  x <- choice KICKOFF_TIMES rng ;;
  let '(time, rng) := x in
  x <- randint 0 3 rng ;;
  let '(home_goals, rng) := x in
  x <- randint 0 3 rng ;;
  let '(away_goals, rng) := x in
  Ok (fixtures ++ [mkFixture (str_of_nat idx) (to_date round_date) time
                             home away home_goals away_goals],
      rng).

Definition intermedio_round (start_date : PyDate) (acc : list Fixture * R)
  (ip : nat * list (Z * Z)) : result (list Fixture * R) :=
  let '(idx, pairings) := ip in
  round_date <- plus_days start_date (7 * (Z.of_nat idx - 1)) ;;
  foldM (intermedio_fixture idx round_date) acc pairings.

Definition intermedio_group (start_date : PyDate) (acc : list Fixture * R)
  (group : list Z) : result (list Fixture * R) :=
  foldM (intermedio_round start_date) acc
        (enumerate_from 1 (_round_robin group)).

(** [group[0]] *)
Definition first_of (group : list Z) : result Z :=
  match group with
  | [] => Err IndexError
  | x :: _ => Ok x
  end.

Definition _build_intermedio_schedule (team_ids : list Z) (season : Z)
  (rng : R) : result (list Fixture * R) :=
  let sorted_ids := sort_by Z.leb team_ids in
  let group_a := firstn 8 sorted_ids in
  let group_b := skipn 8 sorted_ids in
  start_date <- datetime season 6 5 ;;
  acc <- foldM (intermedio_group start_date) ([], rng) [group_a; group_b] ;;
  let '(fixtures, rng) := acc in
  final_date <- plus_days start_date (7 * 8) ;;
  x <- choice KICKOFF_TIMES rng ;;
  let '(time, rng) := x in
  home <- first_of group_a ;;
  away <- first_of group_b ;;
  x <- randint 0 3 rng ;;
  let '(home_goals, rng) := x in
  x <- randint 0 3 rng ;;
  let '(away_goals, rng) := x in
  Ok (fixtures ++ [mkFixture "Final" final_date time
                             home away home_goals away_goals],
      rng).

(** [_generate_fixture_blocks]: the dict of the three schedules, in the
    order the code assigns them. *)
Definition _generate_fixture_blocks (teams : list TeamRow) (season : Z)
  (rng : R) : result (list (string * list Fixture) * R) :=
  let team_ids := map t_id teams in
  start_date <- datetime season 2 10 ;;
  x <- _build_round_robin_schedule team_ids season rng start_date ;;
  let '(apertura, rng) := x in
  start_date <- datetime season 8 10 ;;
  x <- _build_round_robin_schedule team_ids season rng start_date ;;
  let '(clausura, rng) := x in
  x <- _build_intermedio_schedule team_ids season rng ;;
  let '(intermedio, rng) := x in
  Ok ([("apertura", apertura); ("clausura", clausura);
       ("intermedio", intermedio)]%string,
      rng).

End Fixtures.

(** A tape whose every draw is the largest: [random()] is just below 1 and
    [randint(0, 3)] is 3. *)
Definition high_tape (n : nat) : list Z := repeat (2 ^ 53 - 1) n.


(** The goals of a fixture lie in range: the home goals in [0, hmax], the
    away goals in [0, 3]. *)
Definition score_in (hmax : Z) (f : Fixture) : Prop :=
  0 <= fx_home_goals f <= hmax /\ 0 <= fx_away_goals f <= 3.

(** A tape whose every draw is [2^53 - 4]: [random()] is just below 1 and
    [randint(0, 3)] is 0. *)
Definition mixed_tape (n : nat) : list Z := repeat (2 ^ 53 - 4) n.



(** ** Seeding: the connection and its transaction

    [sqlite3] opens a transaction at the first [INSERT] and keeps the
    changes pending until [conn.commit()].  A connection is the pair of
    the store as committed and the store with the pending changes; when
    an exception leaves [seed_database], what the file holds is the
    committed store.  A statement that raises leaves the pending store as
    it was. *)
Record Conn : Type := mkConn {
  committed : DB;
  pending : DB
}.

(** Code that works on a connection and can raise. *)
Definition tx (A : Type) : Type := Conn -> Conn * result A.

Definition tx_ret {A : Type} (a : A) : tx A := fun c => (c, Ok a).

Definition tx_bind {A B : Type} (m : tx A) (k : A -> tx B) : tx B :=
  fun c =>
    match m c with
    | (c', Ok a) => k a c'
    | (c', Err e) => (c', Err e)
    end.

Notation "x <~ m ;; k" := (tx_bind m (fun x => k))
  (at level 61, m at next level, right associativity).

(** Code that does not touch the connection. *)
Definition tx_lift {A : Type} (r : result A) : tx A := fun c => (c, r).

(** [conn.execute(stmt)] for a statement that returns a value. *)
Definition execute {A : Type} (stmt : DB -> result (DB * A)) : tx A :=
  fun c =>
    match stmt (pending c) with
    | Ok (db, a) => (mkConn (committed c) db, Ok a)
    | Err e => (c, Err e)
    end.

(** [conn.execute(query).fetchall()] *)
Definition fetchall {A : Type} (q : DB -> A) : tx A :=
  fun c => (c, Ok (q (pending c))).

(** [conn.commit()] *)
Definition commit : tx unit :=
  fun c => (mkConn (pending c) (pending c), Ok tt).

(** A [for] loop over a connection. *)
Fixpoint tx_foldM {A S : Type} (body : S -> A -> tx S) (s : S) (xs : list A)
  : tx S :=
  match xs with
  | [] => tx_ret s
  | x :: rest => s' <~ body s x ;; tx_foldM body s' rest
  end.

(** [conn.executemany(stmt, rows)]: the statement once per row. *)
Definition executemany {A : Type} (stmt : A -> DB -> result DB)
  (rows : list A) : tx unit :=
  tx_foldM (fun _ row =>
              execute (fun db => db' <- stmt row db ;; Ok (db', tt)))
           tt rows.

(** *** The [INSERT] statements of the seeding

    [seed_database] runs on the connection of [create_schema], where
    [PRAGMA foreign_keys = ON] holds: a primary key, a [UNIQUE] column and
    a foreign key that fail raise [IntegrityError]. *)
Definition set_teams (db : DB) (rows : list TeamRow) : DB :=
  mkDB (metadata db) rows (seasons db) (stages db) (matches db)
       (players db) (match_events db) (player_match_stats db) (standings db).

Definition set_seasons (db : DB) (rows : list Z) : DB :=
  mkDB (metadata db) (teams db) rows (stages db) (matches db)
       (players db) (match_events db) (player_match_stats db) (standings db).

Definition set_stages (db : DB) (rows : list (string * string)) : DB :=
  mkDB (metadata db) (teams db) (seasons db) rows (matches db)
       (players db) (match_events db) (player_match_stats db) (standings db).

Definition set_matches (db : DB) (rows : list MatchRow) : DB :=
  mkDB (metadata db) (teams db) (seasons db) (stages db) rows
       (players db) (match_events db) (player_match_stats db) (standings db).

Definition set_players (db : DB) (rows : list PlayerRow) : DB :=
  mkDB (metadata db) (teams db) (seasons db) (stages db) (matches db)
       rows (match_events db) (player_match_stats db) (standings db).

Definition set_match_events (db : DB) (rows : list EventRow) : DB :=
  mkDB (metadata db) (teams db) (seasons db) (stages db) (matches db)
       (players db) rows (player_match_stats db) (standings db).

Definition set_player_match_stats (db : DB) (rows : list PlayerStatRow) : DB :=
  mkDB (metadata db) (teams db) (seasons db) (stages db) (matches db)
       (players db) (match_events db) rows (standings db).

Definition set_metadata (db : DB) (rows : list (string * string)) : DB :=
  mkDB rows (teams db) (seasons db) (stages db) (matches db)
       (players db) (match_events db) (player_match_stats db) (standings db).

(** The id an [AUTOINCREMENT] column gives the next row. *)
Definition next_id (ids : list Z) : Z := 1 + fold_right Z.max 0 ids.

Definition has_team (db : DB) (team_id : Z) : bool :=
  existsb (fun t => t_id t =? team_id) (teams db).

Definition insert_team (t : TeamRow) (db : DB) : result DB :=
  if existsb (fun t' => (t_id t' =? t_id t) || String.eqb (t_name t') (t_name t))
             (teams db)
  then Err IntegrityError
  else Ok (set_teams db (teams db ++ [t])).

Definition insert_season (year : Z) (db : DB) : result DB :=
  if existsb (Z.eqb year) (seasons db) then Err IntegrityError
  else Ok (set_seasons db (seasons db ++ [year])).

Definition insert_stage (row : string * string) (db : DB) : result DB :=
  if existsb (fun r => String.eqb (fst r) (fst row)) (stages db)
  then Err IntegrityError
  else Ok (set_stages db (stages db ++ [row])).

Definition insert_player
  (row : string * Z * option string * option string * option Z) (db : DB)
  : result DB :=
  let '(full_name, team_id, position, nationality, birth_year) := row in
  if has_team db team_id then
    Ok (set_players db
          (players db ++
           [mkPlayer (next_id (map p_id (players db))) full_name team_id
                     position nationality birth_year]))
  else Err IntegrityError.

(** The [INSERT INTO matches] of [_simulate_match]; the value is
    [lastrowid].  The row comes with a placeholder id. *)
Definition insert_match (row : MatchRow) (db : DB) : result (DB * Z) :=
  if has_team db (m_home_team_id row) && has_team db (m_away_team_id row)
     && existsb (Z.eqb (m_season_year row)) (seasons db)
     && existsb (fun r => String.eqb (fst r) (m_stage_code row)) (stages db)
  then
    let id := next_id (map m_id (matches db)) in
    Ok (set_matches db
          (matches db ++
           [mkMatch id (m_season_year row) (m_stage_code row) (m_round row)
                    (m_date row) (m_time row) (m_home_team_id row)
                    (m_away_team_id row) (m_home_goals row) (m_away_goals row)
                    (m_home_xg row) (m_away_xg row) (m_attendance row)
                    (m_venue row) (m_referee row)]),
        id)
  else Err IntegrityError.

(** An event tuple: match, minute, team, player, type, detail. *)
Definition EventTuple : Type := (Z * Z * Z * Z * string * string)%type.

Definition insert_event (row : EventTuple) (db : DB) : result DB :=
  let '(match_id, minute, team_id, player_id, type, detail) := row in
  if existsb (fun m => m_id m =? match_id) (matches db)
     && has_team db team_id
     && existsb (fun p => p_id p =? player_id) (players db)
  then
    Ok (set_match_events db
          (match_events db ++
           [mkEvent (next_id (map e_id (match_events db))) match_id minute
                    team_id (Some player_id) type detail]))
  else Err IntegrityError.

Definition insert_player_stat (row : PlayerStatRow) (db : DB) : result DB :=
  if existsb (fun m => m_id m =? ps_match_id row) (matches db)
     && has_team db (ps_team_id row)
     && existsb (fun p => p_id p =? ps_player_id row) (players db)
  then Ok (set_player_match_stats db (player_match_stats db ++ [row]))
  else Err IntegrityError.

(** [INSERT OR REPLACE INTO metadata(key, value)] *)
Definition replace_metadata (key value : string) (db : DB) : result DB :=
  Ok (set_metadata db
        (filter (fun r => negb (String.eqb (fst r) key)) (metadata db)
         ++ [(key, value)])).

(** *** The seed files *)

(** One player entry of a roster file; a key the entry lacks is [None]. *)
Record RosterPlayer : Type := mkRosterPlayer {
  rp_full_name : option string;
  rp_position : option string;
  rp_nationality : option string;
  rp_birth_year : option Z
}.

(** One team entry of a roster file. *)
Record RosterTeam : Type := mkRosterTeam {
  rt_name : string;
  rt_players : option (list RosterPlayer)
}.

(** What the seed directory holds: [teams.json] as [_load_teams] reads it,
    the years of the [rosters_*.json] files, and the team entries of each
    roster file.  A file that is missing or malformed raises. *)
Record SeedFiles : Type := mkSeedFiles {
  teams_json : result (list TeamRow);
  roster_years : list Z;
  roster_json : Z -> result (list RosterTeam)
}.

Definition _load_teams (files : SeedFiles) : result (list TeamRow) :=
  teams_json files.

Definition _load_roster_seasons (files : SeedFiles) : list Z :=
  sort_by Z.leb (roster_years files).

Definition _load_rosters_for_season (files : SeedFiles) (season : Z)
  : result (list (string * RosterTeam)) :=
  entries <- roster_json files season ;;
  Ok (fold_left (fun teams_data team_entry =>
                   dict_set String.eqb (rt_name team_entry) team_entry
                            teams_data)
                entries []).

(** *** Text

    A [str] is kept as its UTF-8 bytes.  [lower] folds the ASCII capitals
    only: no character outside ASCII lower-cases to a letter of
    ["placeholder"], so a name contains that word after [str.lower()]
    exactly when its bytes do after [lower].  [strip], [upper] and [len]
    are those of ASCII text, which the nationality codes are. *)
Definition lower_ascii (c : ascii) : ascii :=
  let n := nat_of_ascii c in
  if ((65 <=? n) && (n <=? 90))%nat then ascii_of_nat (n + 32) else c.

Definition upper_ascii (c : ascii) : ascii :=
  let n := nat_of_ascii c in
  if ((97 <=? n) && (n <=? 122))%nat then ascii_of_nat (n - 32) else c.

Fixpoint map_string (f : ascii -> ascii) (s : string) : string :=
  match s with
  | EmptyString => EmptyString
  | String c rest => String (f c) (map_string f rest)
  end.

Definition lower (s : string) : string := map_string lower_ascii s.
Definition upper (s : string) : string := map_string upper_ascii s.

(** [needle in hay] *)
Fixpoint contains (needle hay : string) : bool :=
  String.prefix needle hay
  || match hay with
     | EmptyString => false
     | String _ rest => contains needle rest
     end.

Definition is_space (c : ascii) : bool :=
  let n := nat_of_ascii c in
  (((9 <=? n) && (n <=? 13)) || ((28 <=? n) && (n <=? 32)))%nat.

Fixpoint lstrip (s : string) : string :=
  match s with
  | EmptyString => EmptyString
  | String c rest => if is_space c then lstrip rest else s
  end.

Fixpoint rstrip (s : string) : string :=
  match s with
  | EmptyString => EmptyString
  | String c rest =>
      match rstrip rest with
      | EmptyString => if is_space c then EmptyString else String c EmptyString
      | rest' => String c rest'
      end
  end.

Definition strip (s : string) : string := rstrip (lstrip s).

(** The nested [_normalize_nationality] of [_insert_players]. *)
Definition _normalize_nationality (code : option string) : option string :=
  match code with
  | None => None
  | Some EmptyString => None
  | Some code =>
      let normalized := upper (strip code) in
      let map3_to_2 :=
        [("URU", "UY"); ("ARG", "AR"); ("BRA", "BR");
         ("COL", "CO"); ("PAR", "PY"); ("CHI", "CL")]%string in
      match (if (String.length normalized =? 3)%nat
             then dict_get String.eqb normalized map3_to_2 else None) with
      | Some two => Some two
      | None =>
          if (String.length normalized =? 2)%nat then Some normalized
          else Some (String.substring 0 2 normalized)
      end
  end.

Definition SEED_INVALIDA : string :=
  "Seed inválida: nombre Placeholder detectado".

(** [not team_id] on the value of [team_lookup.get(team_name)] *)
Definition known_team_id (team_lookup : list (string * Z)) (team_name : string)
  : option Z :=
  match dict_get String.eqb team_name team_lookup with
  | Some team_id => if team_id =? 0 then None else Some team_id
  | None => None
  end.

(** One turn of [for player in team_data.get("players", [])]: the tuple
    appended to [rows]. *)
Definition player_tuple (team_id : Z) (player : RosterPlayer)
  : result (string * Z * option string * option string * option Z) :=
  name <- match rp_full_name player with
          | Some name => Ok name
          | None => Err KeyError
          end ;;
  if contains "placeholder" (lower name) then Err (ValueError SEED_INVALIDA)
  else Ok (name, team_id, rp_position player,
           _normalize_nationality (rp_nationality player),
           rp_birth_year player).

Definition roster_players (team_data : RosterTeam) : list RosterPlayer :=
  match rt_players team_data with
  | Some ps => ps
  | None => []
  end.

(** One turn of [for team_name, team_data in roster.items()]. *)
Definition insert_team_players (team_lookup : list (string * Z))
  (player_map : list (Z * list Z)) (item : string * RosterTeam)
  : tx (list (Z * list Z)) :=
  let '(team_name, team_data) := item in
  match known_team_id team_lookup team_name with
  | None => tx_ret player_map
  | Some team_id =>
      rows <~ tx_lift (mapM (player_tuple team_id) (roster_players team_data)) ;;
      _ <~ executemany insert_player rows ;;
      ids <~ fetchall (fun db =>
                         map p_id
                             (filter (fun p => p_team_id p =? team_id)
                                     (players db))) ;;
      tx_ret (dict_set Z.eqb team_id ids player_map)
  end.

(** [_insert_players(conn, teams, roster)] *)
Definition _insert_players (teams : list TeamRow)
  (roster : list (string * RosterTeam)) : tx (list (Z * list Z)) :=
  let team_lookup :=
    dict_of_list String.eqb (map (fun t => (t_name t, t_id t)) teams) in
  let player_map :=
    dict_of_list Z.eqb (map (fun t => (t_id t, @nil Z)) teams) in
  player_map <~ tx_foldM (insert_team_players team_lookup) player_map roster ;;
  _ <~ commit ;;
  tx_ret player_map.

Definition STAGE_NAMES : list (string * string) :=
  [("apertura", "Torneo Apertura"); ("clausura", "Torneo Clausura");
   ("intermedio", "Torneo Intermedio"); ("anual", "Tabla Anual")]%string.

(** [_insert_base_rows(conn, teams, seasons)] *)
Definition _insert_base_rows (teams : list TeamRow) (seasons : list Z)
  : tx unit :=
  _ <~ executemany insert_team teams ;;
  _ <~ executemany insert_season seasons ;;
  _ <~ executemany insert_stage STAGE_NAMES ;;
  commit.

(** [_attendance_for_team] *)
Definition _attendance_for_team (team_id : Z) : Z * Z :=
  if existsb (Z.eqb team_id) [1; 2] then (18000, 35000)
  else if existsb (Z.eqb team_id) [3; 4; 5; 6; 10] then (8000, 18000)
  else (500, 12000).

(** [next((t.stadium for t in teams if t.id == home), "")] *)
Definition venue_of (teams : list TeamRow) (home : Z) : string :=
  match filter (fun t => t_id t =? home) teams with
  | t :: _ => t_stadium t
  | [] => ""%string
  end.

(** [_persist_events], [_persist_player_stats] *)
Definition _persist_events (events : list EventTuple) : tx unit :=
  _ <~ executemany insert_event events ;;
  commit.

Definition _persist_player_stats (stats : list PlayerStatRow) : tx unit :=
  _ <~ executemany insert_player_stat stats ;;
  commit.

Definition SCHEMA_VERSION : string := "3".

Section Seeding.
Context {R : Type} `{RandomSource R}.

(** [date.isoformat()], the calendar's. *)
Variable isoformat : PyDate -> string.

(** The helpers of the aggregator. *)
Variable helpers : Helpers.

(** The second half of [_simulate_match]: the line-ups, scorers, cards,
    events and statistics rows of the two sides, which go through
    [rng.sample]; given the random source, the match id, the fixture, the
    two expected-goals values and the player map, it yields the event
    tuples, the statistics rows and the random source it leaves. *)
Variable simulate_sides :
  R -> Z -> Fixture -> float -> float -> list (Z * list Z) ->
  list EventTuple * list PlayerStatRow * R.

(** [_simulate_match]; the random source is returned with the result. *)
Definition _simulate_match (rng : R) (season : Z) (stage_code : string)
  (match_info : Fixture) (player_map : list (Z * list Z))
  (teams : list TeamRow)
  : tx (Z * list EventTuple * list PlayerStatRow * R) :=
  let venue := venue_of teams (fx_home match_info) in
  let '(min_att, max_att) := _attendance_for_team (fx_home match_info) in
  x <~ tx_lift (randint min_att max_att rng) ;;
  let '(attendance, rng) := x in
  let '(u, rng) := uniform float_zero float_1_5 rng in
  let home_xg :=
    py_round2 (float_add (float_mul (float_of_int (fx_home_goals match_info))
                                    float_0_7) u) in
  let '(u, rng) := uniform float_zero float_1_4 rng in
  let away_xg :=
    py_round2 (float_add (float_mul (float_of_int (fx_away_goals match_info))
                                    float_0_7) u) in
  x <~ tx_lift (choice REFEREES rng) ;;
  let '(referee, rng) := x in
  match_id <~ execute (insert_match
                         (mkMatch 0 season stage_code (fx_round match_info)
                                  (isoformat (fx_date match_info))
                                  (fx_time match_info) (fx_home match_info)
                                  (fx_away match_info)
                                  (fx_home_goals match_info)
                                  (fx_away_goals match_info)
                                  home_xg away_xg attendance venue referee)) ;;
  let '(events, stats_rows, rng) :=
    simulate_sides rng match_id match_info home_xg away_xg player_map in
  tx_ret (match_id, events, stats_rows, rng).

(** The body of [for match_info in schedule]. *)
Definition seed_match (season : Z) (player_map : list (Z * list Z))
  (teams : list TeamRow) (stage_code : string)
  (acc : list MatchResult * list EventTuple * list PlayerStatRow * R)
  (match_info : Fixture)
  : tx (list MatchResult * list EventTuple * list PlayerStatRow * R) :=
  let '(all_matches, events_rows, stats_rows, rng) := acc in
  x <~ _simulate_match rng season stage_code match_info player_map teams ;;
  let '(match_id, match_events, match_stats, rng) := x in
  tx_ret (all_matches ++
          [mkMatchResult match_id season stage_code (fx_home match_info)
                         (fx_away match_info) (fx_home_goals match_info)
                         (fx_away_goals match_info)
                         (isoformat (fx_date match_info))],
          events_rows ++ match_events,
          stats_rows ++ match_stats,
          rng).

(** The body of [for stage_code, schedule in fixtures.items()]. *)
Definition seed_stage (season : Z) (player_map : list (Z * list Z))
  (teams : list TeamRow)
  (acc : list MatchResult * list EventTuple * list PlayerStatRow * R)
  (item : string * list Fixture)
  : tx (list MatchResult * list EventTuple * list PlayerStatRow * R) :=
  tx_foldM (seed_match season player_map teams (fst item)) acc (snd item).

(** The body of [for season in seasons]. *)
Definition seed_season (files : SeedFiles) (teams : list TeamRow)
  (_ : unit) (season : Z) : tx unit :=
  let rng := rng_seed (42 + season) in
  roster <~ tx_lift (_load_rosters_for_season files season) ;;
  player_map <~ _insert_players teams roster ;;
  x <~ tx_lift (_generate_fixture_blocks teams season rng) ;;
  let '(fixtures, rng) := x in
  acc <~ tx_foldM (seed_stage season player_map teams) ([], [], [], rng)
                  fixtures ;;
  let '(all_matches, events_rows, stats_rows, _) := acc in
  _ <~ _persist_events events_rows ;;
  _ <~ _persist_player_stats stats_rows ;;
  _ <~ execute (fun db =>
                  db' <- _build_and_store_standings helpers db season
                                                    all_matches ;;
                  Ok (db', tt)) ;;
  commit.

(** [seed_database(conn)] *)
Definition seed_database (files : SeedFiles) : tx unit :=
  teams <~ tx_lift (_load_teams files) ;;
  let seasons := _load_roster_seasons files in
  _ <~ _insert_base_rows teams seasons ;;
  _ <~ tx_foldM (seed_season files teams) tt seasons ;;
  _ <~ execute (fun db =>
                  db' <- replace_metadata "schema_version" SCHEMA_VERSION db ;;
                  Ok (db', tt)) ;;
  commit.

End Seeding.

(** The store [create_schema] leaves: every table empty, committed. *)
Definition fresh_conn : Conn := mkConn empty_db empty_db.


(** ** Vocabulary of the seeding properties *)

(** The name contains ["placeholder"], whatever the case. *)
Definition has_placeholder (name : string) : bool :=
  contains "placeholder" (lower name).

Definition team_lookup_of (teams : list TeamRow) : list (string * Z) :=
  dict_of_list String.eqb (map (fun t => (t_name t, t_id t)) teams).




(** Both the committed and the pending store have [m] as their metadata
    table. *)
Definition meta_inv (m : list (string * string)) (c : Conn) : Prop :=
  metadata (pending c) = m /\ metadata (committed c) = m.

(** Properties of connections that a step keeps, and steps that raise
    while keeping one. *)
Definition tx_keeps (P : Conn -> Prop) {A : Type} (m : tx A) : Prop :=
  forall c, P c -> P (fst (m c)).

Definition tx_aborts (P : Conn -> Prop) {A : Type} (m : tx A) : Prop :=
  forall c, P c -> (exists e, snd (m c) = Err e) /\ P (fst (m c)).

(** A property that looks at the pending store through [f] only. *)
Definition pending_frame {X : Type} (f : DB -> X) (P : Conn -> Prop) : Prop :=
  forall c db, P c -> f db = f (pending c) -> P (mkConn (committed c) db).


(** No player of the store has a placeholder name. *)
Definition no_placeholder_players (db : DB) : Prop :=
  Forall (fun p => has_placeholder (p_full_name p) = false) (players db).



(** ** Vocabulary of the fixture properties *)






(** ** Vocabulary of the totals of a stage table *)

Definition zsum (l : list Z) : Z := fold_right Z.add 0 l.

(** The total of a column over persisted rows. *)
Definition sum_of (f : StandingsRow -> Z) (rows : list StandingsRow) : Z :=
  zsum (map f rows).

(** The match counts for the stage table of [stage] in [season]; the
    ["anual"] table counts the apertura and clausura matches. *)
Definition stage_match (season : Z) (stage : string) (m : MatchResult)
  : bool :=
  (season_year m =? season) && stage_in (stage_code m) (_stages_for_query stage).

(** What a match adds to a count of team [t]: [home_part] if [t] is at
    home, [away_part] if it is away. *)
Definition gain (t : Z) (m : MatchResult) (home_part away_part : Z) : Z :=
  (if home_team_id m =? t then home_part else 0)
  + (if away_team_id m =? t then away_part else 0).

Definition drawn (m : MatchResult) : bool := home_goals m =? away_goals m.


(** ** The two sides of a simulated match

    The scorers, the assists, the cards, the events and the statistics
    rows that [_simulate_match] draws for a side once its line-up is
    chosen.  A counter is a dict from player id to count, in insertion
    order; the random source is threaded through every draw. *)

(** [range(n)] *)
Definition py_range (n : Z) : list Z := map Z.of_nat (seq 0 (Z.to_nat n)).

(** The literals [0.3], [0.15], [0.12] and [0.8]. *)
Definition float_0_3 : float := S754_finite false 5404319552844595 (-54).
Definition float_0_15 : float := S754_finite false 5404319552844595 (-55).
Definition float_0_12 : float := S754_finite false 8646911284551352 (-56).
Definition float_0_8 : float := S754_finite false 7205759403792794 (-53).

(** [d[k] = d.get(k, 0) + 1] *)
Definition count_up (k : Z) (d : list (Z * Z)) : list (Z * Z) :=
  dict_set Z.eqb k (dict_get_default Z.eqb k 0 d + 1) d.

(** [not seq] *)
Definition is_empty {A : Type} (l : list A) : bool :=
  match l with
  | [] => true
  | _ => false
  end.

Section Simulation.
Context {R : Type} `{RandomSource R}.

(** [_allocate_goals] *)
Definition _allocate_goals (players : list Z) (goals : Z) (rng : R)
  : result (list (Z * Z) * R) :=
  if is_empty players || (goals =? 0) then Ok ([], rng)
  else
    foldM (fun acc _ =>
             let '(res, rng) := acc in
             x <- choice players rng ;;
             let '(scorer, rng) := x in
             Ok (count_up scorer res, rng))
          ([], rng) (py_range goals).

(** [_allocate_assists] *)
Definition _allocate_assists (players : list Z)
  (goals_by_player : list (Z * Z)) (rng : R) : result (list (Z * Z) * R) :=
  foldM (fun acc item =>
           let '(scorer, goals) := item in
           foldM (fun acc _ =>
                    let '(assists, rng) := acc in
                    let candidates :=
                      filter (fun p => negb (p =? scorer)) players in
                    if is_empty candidates then Ok (assists, rng)
                    else
                      x <- choice candidates rng ;;
                      let '(assister, rng) := x in
                      Ok (count_up assister assists, rng))
                 acc (py_range goals))
        ([], rng) goals_by_player.

(** [_random_cards] *)
Definition _random_cards (players : list Z) (rng : R) (card_type : string)
  : result (list (Z * Z) * R) :=
  x <- randint 0 (if String.eqb card_type "red" then 1 else 3) rng ;;
  let '(count, rng) := x in
  foldM (fun acc _ =>
           let '(res, rng) := acc in
           if is_empty players then Ok (res, rng)
           else
             x <- choice players rng ;;
             let '(player, rng) := x in
             Ok (count_up player res, rng))
        ([], rng) (py_range count).

(** One of the three counter loops of [_events_for_team]: for every
    player of the counter, as many events of the type as the count, each
    with a minute drawn from [lo .. hi]. *)
Definition counted_events (match_id team_id lo hi : Z) (type : string)
  (counts : list (Z * Z)) (acc : list EventTuple * R)
  : result (list EventTuple * R) :=
  foldM (fun acc item =>
           let '(player_id, count) := item in
           foldM (fun acc _ =>
                    let '(events, rng) := acc in
                    x <- randint lo hi rng ;;
                    let '(minute, rng) := x in
                    Ok (events ++
                        [(match_id, minute, team_id, player_id, type,
                          ""%string)],
                        rng))
                 acc (py_range count))
        acc counts.

(** [_events_for_team] *)
Definition _events_for_team (match_id team_id : Z)
  (goals_by_player yellows reds : list (Z * Z)) (bench : list Z) (rng : R)
  : result (list EventTuple * R) :=
  acc <- counted_events match_id team_id 5 90 "goal" goals_by_player
                        ([], rng) ;;
  acc <- counted_events match_id team_id 10 88 "yellow" yellows acc ;;
  acc <- counted_events match_id team_id 30 90 "red" reds acc ;;
  foldM (fun acc player_id =>
           let '(events, rng) := acc in
           x <- randint 55 75 rng ;;
           let '(minute, rng) := x in
           Ok (events ++
               [(match_id, minute, team_id, player_id, "sub_on"%string,
                 ""%string)],
               rng))
        acc bench.

(** [_player_stat_rows] *)
Definition _player_stat_rows (match_id team_id : Z) (lineup bench : list Z)
  (goals assists yellows reds : list (Z * Z)) (team_xg : float) (rng : R)
  : result (list PlayerStatRow * R) :=
  let total_players := Z.of_nat (length lineup) + Z.of_nat (length bench) in
  let per_player_xg :=
    if total_players =? 0 then float_zero
    else float_div team_xg (float_of_int total_players) in
  acc <- foldM (fun acc player_id =>
                  let '(rows, rng) := acc in
                  x <- randint 70 95 rng ;;
                  let '(minutes, rng) := x in
                  x <- randint 0 3 rng ;;
                  let '(extra, rng) := x in
                  let shots :=
                    dict_get_default Z.eqb player_id 0 goals + extra in
                  x <- randint 0 shots rng ;;
                  let '(on_target, rng) := x in
                  let shots_on :=
                    Z.max (dict_get_default Z.eqb player_id 0 goals)
                          on_target in
                  let '(u, rng) := uniform float_zero float_0_3 rng in
                  Ok (rows ++
                      [mkPlayerStat
                         match_id player_id team_id minutes
                         (dict_get_default Z.eqb player_id 0 goals)
                         (dict_get_default Z.eqb player_id 0 assists)
                         shots shots_on
                         (py_round2 (float_add per_player_xg u))
                         (py_round2
                            (float_mul
                               (float_of_int
                                  (dict_get_default Z.eqb player_id 0
                                                    assists))
                               float_0_15))
                         (dict_get_default Z.eqb player_id 0 yellows)
                         (dict_get_default Z.eqb player_id 0 reds)
                         1],
                      rng))
               ([], rng) lineup ;;
  foldM (fun acc player_id =>
           let '(rows, rng) := acc in
           x <- randint 10 35 rng ;;
           let '(minutes, rng) := x in
           x <- randint 0 2 rng ;;
           let '(extra, rng) := x in
           let shots := dict_get_default Z.eqb player_id 0 goals + extra in
           x <- randint 0 shots rng ;;
           let '(on_target, rng) := x in
           let shots_on :=
             Z.max (dict_get_default Z.eqb player_id 0 goals) on_target in
           Ok (rows ++
               [mkPlayerStat
                  match_id player_id team_id minutes
                  (dict_get_default Z.eqb player_id 0 goals)
                  (dict_get_default Z.eqb player_id 0 assists)
                  shots shots_on
                  (py_round2 (float_mul per_player_xg float_0_8))
                  (py_round2
                     (float_mul
                        (float_of_int
                           (dict_get_default Z.eqb player_id 0 assists))
                        float_0_12))
                  (dict_get_default Z.eqb player_id 0 yellows)
                  (dict_get_default Z.eqb player_id 0 reds)
                  0],
               rng))
        acc bench.
(** [rng.sample(population, k)], the library's: the sample and the
    random source it leaves. *)
Variable sample : list Z -> Z -> R -> list Z * R.

(** [_lineup_for_team] *)
Definition _lineup_for_team (team_id : Z) (player_map : list (Z * list Z))
  (rng : R) : list Z * list Z * R :=
  let players := dict_get_default Z.eqb team_id [] player_map in
  if Z.of_nat (length players) <=? 11 then (players, [], rng)
  else
    let '(starters, rng) := sample players 11 rng in
    let bench_candidates :=
      filter (fun p => negb (existsb (Z.eqb p) starters)) players in
    let '(subs, rng) :=
      sample bench_candidates
             (Z.min 3 (Z.of_nat (length bench_candidates))) rng in
    (starters, subs, rng).

(** The body of [for team_id, goals, xg in [...]] of [_simulate_match]. *)
Definition simulate_side (match_id : Z) (player_map : list (Z * list Z))
  (acc : list EventTuple * list PlayerStatRow * R) (side : Z * Z * float)
  : result (list EventTuple * list PlayerStatRow * R) :=
  let '(events, stats_rows, rng) := acc in
  let '(team_id, goals, xg) := side in
  let '(lineup, bench, rng) := _lineup_for_team team_id player_map rng in
  x <- _allocate_goals lineup goals rng ;;
  let '(goals_by_player, rng) := x in
  x <- _allocate_assists lineup goals_by_player rng ;;
  let '(assists_by_player, rng) := x in
  x <- _random_cards lineup rng "yellow" ;;
  let '(yellows, rng) := x in
  x <- _random_cards lineup rng "red" ;;
  let '(reds, rng) := x in
  x <- _events_for_team match_id team_id goals_by_player yellows reds bench
                        rng ;;
  let '(side_events, rng) := x in
  x <- _player_stat_rows match_id team_id lineup bench goals_by_player
                         assists_by_player yellows reds xg rng ;;
  let '(side_rows, rng) := x in
  Ok (events ++ side_events, stats_rows ++ side_rows, rng).

(** The second half of [_simulate_match]: the home side, then the away
    side. *)
Definition match_sides (rng : R) (match_id : Z) (match_info : Fixture)
  (home_xg away_xg : float) (player_map : list (Z * list Z))
  : result (list EventTuple * list PlayerStatRow * R) :=
  foldM (simulate_side match_id player_map) ([], [], rng)
        [(fx_home match_info, fx_home_goals match_info, home_xg);
         (fx_away match_info, fx_away_goals match_info, away_xg)].
End Simulation.
(** ** The two sides of a simulated match: vocabulary *)

(** The sum of the counts of a counter. *)
Definition counter_total (d : list (Z * Z)) : Z := zsum (map snd d).

(** A counter over a pool of players: every player is counted once, is of
    the pool, and has a positive count. *)
Definition counter_ok (pool : list Z) (d : list (Z * Z)) : Prop :=
  NoDup (dict_keys d) /\ incl (dict_keys d) pool /\
  Forall (fun kv => 0 < snd kv) d.

(** The goals of a counter that can be assisted: its counts, negative
    ones read as no goal. *)
Definition goals_of (d : list (Z * Z)) : Z :=
  zsum (map (fun kv => Z.max 0 (snd kv)) d).

(** The columns of an event tuple. *)
Definition ev_match (e : EventTuple) : Z :=
  let '(match_id, _, _, _, _, _) := e in match_id.
Definition ev_minute (e : EventTuple) : Z :=
  let '(_, minute, _, _, _, _) := e in minute.
Definition ev_team (e : EventTuple) : Z :=
  let '(_, _, team_id, _, _, _) := e in team_id.
Definition ev_player (e : EventTuple) : Z :=
  let '(_, _, _, player_id, _, _) := e in player_id.
Definition ev_type (e : EventTuple) : string :=
  let '(_, _, _, _, type, _) := e in type.
Definition ev_detail (e : EventTuple) : string :=
  let '(_, _, _, _, _, detail) := e in detail.

(** Who an event is about, and what it is. *)
Definition ev_what (e : EventTuple) : Z * string := (ev_player e, ev_type e).

(** The events a counter asks for: for each player in turn, as many as
    the count. *)
Definition counted (type : string) (counts : list (Z * Z))
  : list (Z * string) :=
  flat_map (fun kv => repeat (fst kv, type) (Z.to_nat (snd kv))) counts.

(** The minutes an event of a type may carry. *)
Definition minute_range (type : string) : Z * Z :=
  if String.eqb type "goal" then (5, 90)
  else if String.eqb type "yellow" then (10, 88)
  else if String.eqb type "red" then (30, 90)
  else (55, 75).

Definition ev_in_range (e : EventTuple) : Prop :=
  fst (minute_range (ev_type e)) <= ev_minute e
  <= snd (minute_range (ev_type e)).

(** The number of events of a type. *)
Definition events_of (type : string) (events : list EventTuple) : Z :=
  Z.of_nat (count (fun e => String.eqb (ev_type e) type) events).

(** The assists that the goals of one scorer get: one per goal, none when
    the line-up has no other player. *)
Definition assisted (players : list Z) (kv : Z * Z) : Z :=
  if is_empty (filter (fun p => negb (p =? fst kv)) players) then 0
  else Z.max 0 (snd kv).

(** What a statistics row of a side says: the match and the team, the
    player's counts read from the four counters, the goals within the shots
    on target within the shots, and, for a starter, at most three shots
    more than goals and 70 to 95 minutes, for a substitute at most two and
    10 to 35 minutes. *)
Definition stat_row_ok (match_id team_id : Z)
  (goals assists yellows reds : list (Z * Z)) (r : PlayerStatRow) : Prop :=
  ps_match_id r = match_id /\ ps_team_id r = team_id /\
  ps_goals r = dict_get_default Z.eqb (ps_player_id r) 0 goals /\
  ps_assists r = dict_get_default Z.eqb (ps_player_id r) 0 assists /\
  ps_yellow r = dict_get_default Z.eqb (ps_player_id r) 0 yellows /\
  ps_red r = dict_get_default Z.eqb (ps_player_id r) 0 reds /\
  ps_goals r <= ps_shots_on_target r <= ps_shots r /\
  (ps_starts r = 1 /\ ps_shots r <= ps_goals r + 3 /\
   70 <= ps_minutes r <= 95 \/
   ps_starts r = 0 /\ ps_shots r <= ps_goals r + 2 /\
   10 <= ps_minutes r <= 35).

(** A row's player and whether the player started. *)
Definition ps_who (r : PlayerStatRow) : Z * Z := (ps_player_id r, ps_starts r).

(** What [rng.sample] promises: as many members of the population as
    asked for, and none twice when the population has none twice. *)
Definition SampleLaws {R : Type} (sample : list Z -> Z -> R -> list Z * R)
  : Prop :=
  forall population k rng,
    0 <= k <= Z.of_nat (length population) ->
    incl (fst (sample population k rng)) population /\
    Z.of_nat (length (fst (sample population k rng))) = k /\
    (NoDup population -> NoDup (fst (sample population k rng))).

(** A sample that takes the first members, for the examples. *)
Definition first_sample {R : Type} (population : list Z) (k : Z) (rng : R)
  : list Z * R :=
  (firstn (Z.to_nat k) population, rng).

(** The players of a team in the player map. *)
Definition squad (player_map : list (Z * list Z)) (team_id : Z) : list Z :=
  dict_get_default Z.eqb team_id [] player_map.

(** The events and the statistics rows of a team. *)
Definition side_events (team_id : Z) (events : list EventTuple)
  : list EventTuple :=
  filter (fun e => ev_team e =? team_id) events.

Definition side_rows (team_id : Z) (rows : list PlayerStatRow)
  : list PlayerStatRow :=
  filter (fun r => ps_team_id r =? team_id) rows.

(** The events and the rows of a side agree with each other and with the
    score. *)
Definition side_agrees (players : list Z) (match_id team_id goals : Z)
  (events : list EventTuple) (rows : list PlayerStatRow) : Prop :=
  let evs := side_events team_id events in
  let rs := side_rows team_id rows in
  events_of "goal" evs = (if is_empty players then 0 else Z.max 0 goals) /\
  zsum (map ps_goals rs) = events_of "goal" evs /\
  zsum (map ps_assists rs) <= events_of "goal" evs /\
  zsum (map ps_yellow rs) = events_of "yellow" evs /\
  events_of "yellow" evs <= 3 /\
  zsum (map ps_red rs) = events_of "red" evs /\
  events_of "red" evs <= 1 /\
  Forall (fun e => ev_match e = match_id /\ In (ev_player e) players) evs /\
  Forall (fun r => ps_match_id r = match_id /\ In (ps_player_id r) players)
         rs /\
  NoDup (map ps_player_id rs) /\
  Z.of_nat (count (fun r => ps_starts r =? 1) rs) <= 11 /\
  Z.of_nat (count (fun r => ps_starts r =? 0) rs) <= 3.

(** The events and the rows that [simulate_side] adds for a side with a
    given line-up and bench. *)
Definition side_drawn (lineup bench : list Z) (match_id team_id goals : Z)
  (evs : list EventTuple) (rows : list PlayerStatRow) : Prop :=
  events_of "goal" evs = (if is_empty lineup then 0 else Z.max 0 goals) /\
  zsum (map ps_goals rows) = events_of "goal" evs /\
  zsum (map ps_assists rows) <= events_of "goal" evs /\
  zsum (map ps_yellow rows) = events_of "yellow" evs /\
  events_of "yellow" evs <= 3 /\
  zsum (map ps_red rows) = events_of "red" evs /\
  events_of "red" evs <= 1 /\
  Forall (fun e => ev_match e = match_id /\ ev_team e = team_id /\
                   In (ev_player e) (lineup ++ bench)) evs /\
  Forall (fun r => ps_match_id r = match_id /\ ps_team_id r = team_id) rows /\
  map ps_who rows
  = map (fun p => (p, 1)) lineup ++ map (fun p => (p, 0)) bench.
(** ** The form of a team

    [_last5_strings] as the code has it, under the name [Helper]: the
    aggregator above takes its result as a parameter. *)

(** [WHERE season_year = ? AND (stage_code = ? OR (? = 'anual' AND
    stage_code IN ('apertura','clausura')))] *)
Definition stage_or_anual (season : Z) (stage : string) (m : MatchRow)
  : bool :=
  (m_season_year m =? season)
  && (String.eqb (m_stage_code m) stage
      || (String.eqb stage "anual"
          && stage_in (m_stage_code m) ["apertura"; "clausura"]%string)).

(** [ORDER BY date DESC, id DESC] *)
Definition recent_compare (x y : MatchRow) : comparison :=
  comparison_then (String.compare (m_date y) (m_date x))
                  (- m_id x ?= - m_id y).

Definition recent_leb (x y : MatchRow) : bool := not_gt (recent_compare x y).

(** The rows of the [SELECT] of [_last5_strings]. *)
Definition recent_matches (db : DB) (season : Z) (stage : string)
  : list MatchRow :=
  sort_by recent_leb (filter (stage_or_anual season stage) (matches db)).

(** [home_res, away_res] *)
Definition match_letters (m : MatchRow) : string * string :=
  if m_away_goals m <? m_home_goals m then ("W", "L")%string
  else if m_home_goals m =? m_away_goals m then ("D", "D")%string
  else ("L", "W")%string.

(** [history.setdefault(team, []).append(res)] *)
Definition history_add (team : Z) (res : string)
  (history : list (Z * list string)) : list (Z * list string) :=
  dict_set Z.eqb team (dict_get_default Z.eqb team [] history ++ [res])
           history.

Module Helper.

(** [_last5_strings] *)
Definition _last5_strings (db : DB) (season : Z) (stage : string)
  : list (Z * string) :=
  let rows := recent_matches db season stage in
  let history :=
    fold_left (fun history m =>
                 let '(home_res, away_res) := match_letters m in
                 history_add (m_away_team_id m) away_res
                   (history_add (m_home_team_id m) home_res history))
              rows [] in
  dict_of_list Z.eqb
    (map (fun item => (fst item, String.concat "" (firstn 5 (snd item))))
         history).

End Helper.

(** The results of a team in a list of matches, one letter per side it
    has in a match. *)
Definition letters_of (team : Z) (rows : list MatchRow) : list string :=
  flat_map (fun m =>
              (if m_home_team_id m =? team then [fst (match_letters m)]
               else [])
              ++ (if m_away_team_id m =? team then [snd (match_letters m)]
                  else []))
           rows.

(** A history entry with more results appended; no entry is made for no
    result. *)
Definition extend_history (entry : option (list string))
  (results : list string) : option (list string) :=
  match results with
  | [] => entry
  | _ => Some (match entry with
               | Some old => old
               | None => []
               end ++ results)
  end.

(** The team plays in the match. *)
Definition plays (team : Z) (m : MatchRow) : bool :=
  (m_home_team_id m =? team) || (m_away_team_id m =? team).

(** The result of the match for the team: [W], [D] or [L]. *)
Definition letter (team : Z) (m : MatchRow) : string :=
  if m_home_team_id m =? team then fst (match_letters m)
  else snd (match_letters m).
(** ** The discipline table: vocabulary *)

(** ** The best attacks

    [api_mejores_ataques]: the default table, sorted again by goals for,
    and cut to [top] rows by a slice; [top] is an integer that the
    endpoint does not constrain. *)

(** [rows[:top]]: a negative [top] counts from the end. *)
Definition py_prefix {A : Type} (top : Z) (rows : list A) : list A :=
  if top <? 0 then firstn (length rows - Z.to_nat (- top)) rows
  else firstn (Z.to_nat top) rows.

(** [key=lambda r: (-r["gf"], r["team"])] *)
Definition attack_compare (x y : TableRow) : comparison :=
  comparison_then (- tr_gf x ?= - tr_gf y)
                  (String.compare (tr_team x) (tr_team y)).

Definition attack_leb (x y : TableRow) : bool := not_gt (attack_compare x y).

Record AttackResponse : Type := mkAttackResponse {
  ar_count : Z;
  ar_equipos : list TableRow
}.

(** [api_mejores_ataques(top)] *)
Definition api_mejores_ataques (db : DB) (utcnow : string) (top : Z)
  : AttackResponse :=
  let table := compute_table db utcnow DEFAULT_SEASON DEFAULT_STAGE in
  let sorted_rows := sort_by attack_leb (tb_rows table) in
  mkAttackResponse (Z.of_nat (length (py_prefix top sorted_rows)))
                   (py_prefix top sorted_rows).
(** ** Fixtures and match events, as the queries list them *)

(** [ORDER BY date, id] *)
Definition by_date_compare (x y : MatchRow) : comparison :=
  comparison_then (String.compare (m_date x) (m_date y))
                  (m_id x ?= m_id y).

Definition by_date_leb (x y : MatchRow) : bool := not_gt (by_date_compare x y).

(** [get_matches_for_conn] *)
Definition get_matches_for_conn (db : DB) (season : Z) (stage : string)
  : list MatchRow :=
  sort_by by_date_leb
    (filter (fun m => (m_season_year m =? season)
                      && stage_in (m_stage_code m) (_stages_for_query stage))
            (matches db)).

(** One element of the answer of [list_fixtures]. *)
Record FixtureRow : Type := mkFixtureRow {
  fr_match_id : Z;
  fr_date : string;
  fr_time : string;
  fr_round : string;
  fr_home : string;
  fr_away : string;
  fr_home_team_id : Z;
  fr_away_team_id : Z;
  fr_home_logo_key : string;
  fr_away_logo_key : string;
  fr_home_goals : Z;
  fr_away_goals : Z;
  fr_attendance : Z;
  fr_venue : string;
  fr_referee : string
}.

(** [teams.get(id, {}).get("name", "")] and the same for the logo key, on
    the dict [{row["id"]: {"name": .., "logo_key": ..}}]. *)
Definition team_lookup (db : DB) : list (Z * (string * string)) :=
  dict_of_list Z.eqb
    (map (fun t => (t_id t, (t_name t, t_logo_key t))) (teams db)).

Definition lookup_name (lookup : list (Z * (string * string))) (id : Z)
  : string :=
  match dict_get Z.eqb id lookup with
  | Some entry => fst entry
  | None => ""%string
  end.

Definition lookup_logo_key (lookup : list (Z * (string * string))) (id : Z)
  : string :=
  match dict_get Z.eqb id lookup with
  | Some entry => snd entry
  | None => ""%string
  end.

(** The two [continue] tests of [list_fixtures], negated: the match is
    kept. *)
Definition fixture_kept (team_id : option Z) (round_filter : option string)
  (m : MatchRow) : bool :=
  negb (match team_id with
        | Some t => negb (t =? 0) && negb (m_home_team_id m =? t)
                    && negb (m_away_team_id m =? t)
        | None => false
        end)
  && negb (match round_filter with
           | Some r => negb (String.eqb r "")
                       && negb (String.eqb (m_round m) r)
           | None => false
           end).

(** [list_fixtures] *)
Definition list_fixtures (db : DB) (season : Z) (stage : string)
  (team_id : option Z) (round_number : option string) : list FixtureRow :=
  let matches := get_matches_for_conn db season stage in
  let teams := team_lookup db in
  let round_filter := round_number in
  map (fun m =>
         mkFixtureRow (m_id m) (m_date m) (m_time m) (m_round m)
                      (lookup_name teams (m_home_team_id m))
                      (lookup_name teams (m_away_team_id m))
                      (m_home_team_id m) (m_away_team_id m)
                      (lookup_logo_key teams (m_home_team_id m))
                      (lookup_logo_key teams (m_away_team_id m))
                      (m_home_goals m) (m_away_goals m) (m_attendance m)
                      (m_venue m) (m_referee m))
      (filter (fixture_kept team_id round_filter) matches).

(** [rows LEFT JOIN table ON ..]: a row without a match is kept, with
    nothing beside it. *)
Definition sql_left_join {A B : Type} (on : A -> B -> bool) (rows : list A)
  (table : list B) : list (A * option B) :=
  flat_map (fun a =>
              match filter (on a) table with
              | [] => [(a, None)]
              | found => map (fun b => (a, Some b)) found
              end)
           rows.

(** [ORDER BY e.minute ASC, e.id ASC] *)
Definition by_minute_compare (x y : EventRow * TeamRow * option PlayerRow)
  : comparison :=
  comparison_then (e_minute (fst (fst x)) ?= e_minute (fst (fst y)))
                  (e_id (fst (fst x)) ?= e_id (fst (fst y))).

Definition by_minute_leb (x y : EventRow * TeamRow * option PlayerRow)
  : bool :=
  not_gt (by_minute_compare x y).

(** The rows of the [SELECT] of [list_match_events]. *)
Definition match_event_rows (db : DB) (match_id : Z)
  : list (EventRow * TeamRow * option PlayerRow) :=
  sort_by by_minute_leb
    (filter (fun x => e_match_id (fst (fst x)) =? match_id)
       (sql_left_join
          (fun et p => option_Z_eqb (e_player_id (fst et)) (p_id p))
          (sql_join (fun e t => e_team_id e =? t_id t)
                    (match_events db) (teams db))
          (players db))).

(** One element of the answer of [list_match_events]. *)
Record MatchEventRow : Type := mkMatchEventRow {
  me_minute : Z;
  me_team_id : Z;
  me_team : string;
  me_player_id : option Z;
  me_player : option string;
  me_type : string;
  me_detail : string
}.

(** [list_match_events] *)
Definition list_match_events (db : DB) (match_id : Z) : list MatchEventRow :=
  map (fun x =>
         let '(e, t, p) := x in
         mkMatchEventRow (e_minute e) (e_team_id e) (t_name t)
                         (e_player_id e) (option_map p_full_name p)
                         (e_type e) (e_detail e))
      (match_event_rows db match_id).
(** ** Fixtures and match events: vocabulary *)

(** The team with an id. *)
Definition team_with (db : DB) (id : Z) : option TeamRow :=
  find (fun t => t_id t =? id) (teams db).

Definition name_or_empty (t : option TeamRow) : string :=
  match t with
  | Some t => t_name t
  | None => ""%string
  end.

Definition logo_or_empty (t : option TeamRow) : string :=
  match t with
  | Some t => t_logo_key t
  | None => ""%string
  end.

(** The fixture row of a match. *)
Definition fixture_row_of (db : DB) (m : MatchRow) : FixtureRow :=
  mkFixtureRow (m_id m) (m_date m) (m_time m) (m_round m)
               (name_or_empty (team_with db (m_home_team_id m)))
               (name_or_empty (team_with db (m_away_team_id m)))
               (m_home_team_id m) (m_away_team_id m)
               (logo_or_empty (team_with db (m_home_team_id m)))
               (logo_or_empty (team_with db (m_away_team_id m)))
               (m_home_goals m) (m_away_goals m) (m_attendance m)
               (m_venue m) (m_referee m).

(** The matches a request for fixtures asks for: those of the season and
    the (expanded) stage, of the team if one is given and is not 0, of the
    round if one is given and is not empty. *)
Definition fixture_wanted (season : Z) (stage : string) (team_id : option Z)
  (round_number : option string) (m : MatchRow) : Prop :=
  m_season_year m = season /\
  In (m_stage_code m) (_stages_for_query stage) /\
  (forall t, team_id = Some t -> t <> 0 ->
             m_home_team_id m = t \/ m_away_team_id m = t) /\
  (forall r, round_number = Some r -> r <> ""%string -> m_round m = r).

Definition fixture_wantedb (season : Z) (stage : string)
  (team_id : option Z) (round_number : option string) (m : MatchRow)
  : bool :=
  (m_season_year m =? season)
  && stage_in (m_stage_code m) (_stages_for_query stage)
  && fixture_kept team_id round_number m.

(** The order of the fixtures: date, then match id. *)
Definition fixture_row_compare (x y : FixtureRow) : comparison :=
  comparison_then (String.compare (fr_date x) (fr_date y))
                  (fr_match_id x ?= fr_match_id y).

(** The order of the events of a match: minute, then id. *)
Definition event_compare (x y : EventRow) : comparison :=
  comparison_then (e_minute x ?= e_minute y) (e_id x ?= e_id y).

(** The row of the answer of [list_match_events] that lists an event. *)
Definition lists_event (db : DB) (e : EventRow) (r : MatchEventRow) : Prop :=
  me_minute r = e_minute e /\ me_team_id r = e_team_id e /\
  me_player_id r = e_player_id e /\ me_type r = e_type e /\
  me_detail r = e_detail e /\
  (exists t, In t (teams db) /\ t_id t = e_team_id e /\
             me_team r = t_name t) /\
  (forall p, In p (players db) -> e_player_id e = Some (p_id p) ->
             me_player r = Some (p_full_name p)) /\
  ((forall p, In p (players db) -> e_player_id e <> Some (p_id p)) ->
   me_player r = None).
(** ** The adviser

    [summary_for_team], [_build_recommendation] and [consultor_advice].
    A summary is a dict with the eight keys below, or the empty dict for a
    team without a row in the table: [None] here. *)
Record Summary : Type := mkSummary {
  su_team : string;
  su_pts : Z;
  su_dg : Z;
  su_gf : Z;
  su_gc : Z;
  su_amarillas : Z;
  su_rojas : Z;
  su_last5 : string
}.

(** [summary_for_team]; the clock that [compute_table] reads does not
    reach the summary. *)
Definition summary_for_team (db : DB) (utcnow : string) (season : Z)
  (stage : string) (team : string) : option Summary :=
  let table := compute_table db utcnow season stage in
  match find (fun r => String.eqb (tr_team r) team) (tb_rows table) with
  | None => None
  | Some row =>
      let cards :=
        dict_of_list String.eqb
          (map (fun c => (c_team c, c)) (cards_by_team db season stage)) in
      let card_row :=
        match dict_get String.eqb team cards with
        | Some c => (c_yellow c, c_red c)
        | None => (0, 0)
        end in
      Some (mkSummary team (tr_pts row) (tr_dg row) (tr_gf row) (tr_ga row)
                      (fst card_row) (snd card_row) (tr_last5 row))
  end.

Definition NO_DATA : string :=
  "No hay datos suficientes para generar la recomendación."%string.

(** [_build_recommendation] *)
Definition _build_recommendation (a b : option Summary) : string :=
  match a, b with
  | Some a, Some b =>
      let score_a := su_pts a * 2 + su_dg a in
      let score_b := su_pts b * 2 + su_dg b in
      let diff := score_a - score_b in
      let base :=
        if Z.abs diff <? 3 then "Se espera un duelo parejo."%string
        else if 0 <? diff then
          (su_team a ++ " llega mejor posicionado que " ++ su_team b
           ++ ".")%string
        else
          (su_team b ++ " llega mejor posicionado que " ++ su_team a
           ++ ".")%string in
      let discipline_hint :=
        if su_amarillas b + su_rojas b <? su_amarillas a + su_rojas a then
          (" " ++ su_team a ++ " debe cuidar la disciplina.")%string
        else if su_amarillas a + su_rojas a <? su_amarillas b + su_rojas b
        then (" " ++ su_team b ++ " debe cuidar la disciplina.")%string
        else ""%string in
      let form_hint :=
        if negb (String.eqb (su_last5 a) "")
           && negb (String.eqb (su_last5 b) "")
        then (" Rachas: " ++ su_team a ++ " " ++ su_last5 a ++ " vs "
              ++ su_team b ++ " " ++ su_last5 b ++ ".")%string
        else ""%string in
      (base ++ discipline_hint ++ form_hint)%string
  | _, _ => NO_DATA
  end.

Record Advice : Type := mkAdvice {
  ad_season : Z;
  ad_stage : string;
  ad_equipo_a : option Summary;
  ad_equipo_b : option Summary;
  ad_recomendacion : string
}.

(** [consultor_advice] *)
Definition consultor_advice (db : DB) (utcnow : string)
  (team_a team_b : string) (season : Z) (stage : string) : result Advice :=
  let meta := get_metadata db in
  let valid_names := map t_name (md_teams meta) in
  if negb (existsb (String.eqb team_a) valid_names)
     || negb (existsb (String.eqb team_b) valid_names)
  then Err (ValueError "Equipo no válido")
  else
    let summary_a := summary_for_team db utcnow season stage team_a in
    let summary_b := summary_for_team db utcnow season stage team_b in
    let recommendation := _build_recommendation summary_a summary_b in
    Ok (mkAdvice season stage summary_a summary_b recommendation).
(** ** Seeding: the score of a match and its goal events *)

(** The goal events of a team in a match, in the store and among event
    tuples. *)
Definition is_goal_of (match_id team_id : Z) (e : EventRow) : bool :=
  (e_match_id e =? match_id) && (e_team_id e =? team_id)
  && String.eqb (e_type e) "goal".

Definition goal_events (db : DB) (match_id team_id : Z) : Z :=
  Z.of_nat (count (is_goal_of match_id team_id) (match_events db)).

Definition is_goal_tuple (match_id team_id : Z) (e : EventTuple) : bool :=
  (ev_match e =? match_id) && (ev_team e =? team_id)
  && String.eqb (ev_type e) "goal".

Definition goal_tuples (events : list EventTuple) (match_id team_id : Z)
  : Z :=
  Z.of_nat (count (is_goal_tuple match_id team_id) events).

(** The goal events a side gets: its goals, or none when the team has no
    player in the player map. *)
Definition expected_goals (player_map : list (Z * list Z))
  (team_id goals : Z) : Z :=
  if is_empty (squad player_map team_id) then 0 else Z.max 0 goals.

(** The goal events of the two sides of a match, counted by [goals_of_side],
    are what its score says. *)
Definition scored_as_drawn (goals_of_side : Z -> Z -> Z)
  (player_map : list (Z * list Z)) (m : MatchRow) : Prop :=
  m_home_team_id m <> m_away_team_id m ->
  goals_of_side (m_id m) (m_home_team_id m)
  = expected_goals player_map (m_home_team_id m) (m_home_goals m) /\
  goals_of_side (m_id m) (m_away_team_id m)
  = expected_goals player_map (m_away_team_id m) (m_away_goals m).

(** The state of the loops of a season: the matches inserted so far come
    after the matches the store had, are of the season, and their goal
    events among the tuples collected so far are what their scores say;
    every tuple is of one of them. *)
Definition sim_inv (season : Z) (player_map : list (Z * list Z))
  (old : list MatchRow) (db : DB) (events : list EventTuple) : Prop :=
  exists new,
    matches db = old ++ new /\
    Forall (fun m => m_season_year m = season /\
                     (forall m0, In m0 old -> m_id m0 < m_id m) /\
                     scored_as_drawn (goal_tuples events) player_map m)
           new /\
    Forall (fun e => In (ev_match e) (map m_id new)) events.

(** The total function that the second half of [_simulate_match]
    computes, for a random source with which it does not raise. *)
Definition sides_of {R : Type} `{RandomSource R}
  (sample : list Z -> Z -> R -> list Z * R)
  (rng : R) (match_id : Z) (match_info : Fixture) (home_xg away_xg : float)
  (player_map : list (Z * list Z))
  : list EventTuple * list PlayerStatRow * R :=
  match match_sides sample rng match_id match_info home_xg away_xg
                    player_map with
  | Ok out => out
  | Err _ => ([], [], rng)
  end.
(** ** Seeding: the row of a simulated match *)

(** The row that [_simulate_match] inserts for a fixture: the season, the
    stage and the fixture as given, an attendance within the band of the
    home team, one of the referees, and the stadium of the home team. *)
Definition match_row_of (isoformat : PyDate -> string)
  (team_list : list TeamRow) (season : Z) (stage_code : string)
  (match_info : Fixture) (row : MatchRow) : Prop :=
  m_season_year row = season /\ m_stage_code row = stage_code /\
  m_round row = fx_round match_info /\
  m_date row = isoformat (fx_date match_info) /\
  m_time row = fx_time match_info /\
  m_home_team_id row = fx_home match_info /\
  m_away_team_id row = fx_away match_info /\
  m_home_goals row = fx_home_goals match_info /\
  m_away_goals row = fx_away_goals match_info /\
  fst (_attendance_for_team (fx_home match_info)) <= m_attendance row
  <= snd (_attendance_for_team (fx_home match_info)) /\
  In (m_referee row) REFEREES /\
  m_venue row = venue_of team_list (fx_home match_info).

(** The foreign keys of a match row hold in the store. *)
Definition match_insertable (db : DB) (season : Z) (stage_code : string)
  (match_info : Fixture) : bool :=
  has_team db (fx_home match_info) && has_team db (fx_away match_info)
  && existsb (Z.eqb season) (seasons db)
  && existsb (fun r => String.eqb (fst r) stage_code) (stages db).
(** ** Seeding: the player map *)

(** [SELECT id FROM players WHERE team_id=?] on a store. *)
Definition team_player_ids (db : DB) (team_id : Z) : list Z :=
  map p_id (filter (fun p => p_team_id p =? team_id) (players db)).

(** Some entry of the roster names the team [team_id]: its name is one of
    [teams], with this id, and the id is not 0. *)
Definition in_roster (teams : list TeamRow)
  (roster : list (string * RosterTeam)) (team_id : Z) : bool :=
  existsb (fun item =>
             match known_team_id (team_lookup_of teams) (fst item) with
             | Some id => id =? team_id
             | None => false
             end)
          roster.
(** ** A small store, for the examples *)

Definition example_teams : list TeamRow :=
  [ mkTeam 1 "Nacional" "NAC" "Montevideo" "Gran Parque Central" "nacional" false;
    mkTeam 2 "Penarol" "PEN" "Montevideo" "Campeon del Siglo" "penarol" false;
    mkTeam 3 "Defensor Sporting" "DEF" "Montevideo" "Luis Franzini" "defensor" false ].

Definition example_db : DB :=
  mkDB [] example_teams [2024]
       [("apertura", "Torneo Apertura"); ("clausura", "Torneo Clausura");
        ("intermedio", "Torneo Intermedio"); ("anual", "Tabla Anual")]%string
       [] [] [] [] [].

(** Team 1 against team 2 in the apertura: three wins, a draw and a loss,
    nine goals for and four against; one clausura match against team 3. *)
Definition example_matches : list MatchResult :=
  [ mkMatchResult 1 2024 "apertura" 1 2 3 0 "2024-02-10";
    mkMatchResult 2 2024 "apertura" 2 1 0 2 "2024-02-17";
    mkMatchResult 3 2024 "apertura" 1 2 2 1 "2024-02-24";
    mkMatchResult 4 2024 "apertura" 2 1 1 1 "2024-03-02";
    mkMatchResult 5 2024 "apertura" 1 2 1 2 "2024-03-09";
    mkMatchResult 6 2024 "clausura" 1 3 1 0 "2024-08-10" ].

(** Helper queries that find nothing. *)
Definition no_helpers : Helpers :=
  mkHelpers (fun _ _ _ => []) (fun _ _ _ => []) (fun _ _ _ => []) (fun _ => []).

(** A world over the example store whose clock moves between two calls. *)
Definition example_world : World :=
  mkWorld example_db
    (fun n => match n with
              | O => "2024-06-01T12:00:00.000001"
              | _ => "2024-06-01T12:00:00.000350"
              end)%string
    0.

(** A store with four scorers, with 5, 5, 3 and 1 goals in the apertura of
    2024: the events of match 1, each a goal of the given player. *)
Definition goal_event (id player : Z) : EventRow :=
  mkEvent id 1 (10 + id) 1 (Some player) "goal" "".

Definition scorers_db : DB :=
  mkDB [] example_teams [2024]
       [("apertura", "Torneo Apertura"); ("anual", "Tabla Anual")]%string
       [ mkMatch 1 2024 "apertura" "1" "2024-02-10" "16:00" 1 2 9 5
                 float_0_0 float_0_0 20000 "Gran Parque Central"
                 "Esteban Ostojich" ]
       [ mkPlayer 1 "Zalazar" 1 (Some "FW") (Some "UY") (Some 1998);
         mkPlayer 2 "Acosta" 2 (Some "FW") (Some "UY") (Some 1997);
         mkPlayer 3 "Bentancur" 1 (Some "MF") (Some "UY") (Some 1999);
         mkPlayer 4 "Cardozo" 1 (Some "DF") (Some "PY") (Some 1995) ]%string
       (map (fun id => goal_event id 1) [1; 2; 3; 4; 5]
        ++ map (fun id => goal_event id 2) [6; 7; 8; 9; 10]
        ++ map (fun id => goal_event id 3) [11; 12; 13]
        ++ [goal_event 14 4;
            mkEvent 15 1 50 2 (Some 2) "yellow" "";
            mkEvent 16 1 60 2 None "red" ""])
       [] [].


(** Seeds for the seeding examples.  [club] is a team of [teams.json];
    the calendar and the line-ups play no part in them. *)
Definition club (id : Z) (name : string) : TeamRow :=
  mkTeam id name "" "" "" "" false.

Definition roster_player (name : string) : RosterPlayer :=
  mkRosterPlayer (Some name) None None None.

Definition no_calendar (d : PyDate) : string := ""%string.

Definition no_sides {R : Type} (rng : R) (match_id : Z) (f : Fixture)
  (home_xg away_xg : float) (player_map : list (Z * list Z))
  : list EventTuple * list PlayerStatRow * R :=
  ([], [], rng).

(** One club whose 2024 roster holds a placeholder name. *)
Definition placeholder_files : SeedFiles :=
  mkSeedFiles
    (Ok [club 1 "Nacional"])
    [2024]
    (fun season =>
       Ok [mkRosterTeam "Nacional"
             (Some [roster_player "Luis Suarez";
                    roster_player "Jugador PLACEHOLDER 7"])]).

(** Nine clubs; the 2024 roster has one entry, for a club that is not
    among them, with a placeholder name. *)
Definition nine_clubs : list TeamRow :=
  [club 1 "Nacional"; club 2 "Penarol"; club 3 "Defensor";
   club 4 "Danubio"; club 5 "Liverpool"; club 6 "Wanderers";
   club 7 "Cerro"; club 8 "Fenix"; club 9 "Progreso"]%string.

Definition ghost_roster : list RosterTeam :=
  [mkRosterTeam "Rampla" (Some [roster_player "Placeholder 1"])].

Definition ghost_files : SeedFiles :=
  mkSeedFiles (Ok nine_clubs) [2024] (fun season => Ok ghost_roster).

(** A fixture and a player map for the examples of the two sides: a home
    team with thirteen players, an away team with two. *)
Definition example_fixture : Fixture :=
  mkFixture "1" (mkDate 2024 2 10 0 false) "15:00" 1 2 3 1.

Definition example_player_map : list (Z * list Z) :=
  [(1, [101; 102; 103; 104; 105; 106; 107; 108; 109; 110; 111; 112; 113]);
   (2, [201; 202])].

(** Nine clubs, two of them with players in the 2024 roster. *)
Definition squad_roster : list RosterTeam :=
  [mkRosterTeam "Nacional"
     (Some [roster_player "Jugador Uno"; roster_player "Jugador Dos"]);
   mkRosterTeam "Penarol" (Some [roster_player "Jugador Tres"])].

Definition squad_files : SeedFiles :=
  mkSeedFiles (Ok nine_clubs) [2024] (fun season => Ok squad_roster).

(** A random source for the examples that counts: the state is an
    integer, a draw is a fixed scramble of it, and the state moves on by
    one. *)
Definition counter_draw (s : Z) : Z := (s * 2654435761 + 12345) mod 2 ^ 53.

#[export] Instance CounterSource : RandomSource Z := {
  rng_seed := fun seed => seed;
  rng_random := fun s =>
    (binary_normalize 53 1024 (counter_draw s) (-53) false, s + 1);
  rng_randbelow := fun n s => (counter_draw s mod n, s + 1)
}.

(** A store with the example teams, one player of team 1 and one of
    team 3. *)
Definition squad_db : DB :=
  mkDB [] example_teams [2024]
       [("apertura", "Torneo Apertura")]%string
       []
       [ mkPlayer 1 "Zalazar" 1 (Some "FW") (Some "UY") (Some 1998);
         mkPlayer 2 "Acosta" 3 (Some "FW") (Some "UY") (Some 1997) ]%string
       [] [] [].

(** A roster with two players of Nacional, one of a club that is not
    among the teams, and an entry of Penarol without players. *)
Definition squad_entries : list (string * RosterTeam) :=
  [ ("Nacional", mkRosterTeam "Nacional"
                   (Some [roster_player "Lopez"; roster_player "Coates"]));
    ("Cerro", mkRosterTeam "Cerro" (Some [roster_player "Franco"]));
    ("Penarol", mkRosterTeam "Penarol" None) ]%string.
(** * Part II: properties *)

(** ** Counting lemmas *)

Lemma count_app {A} (f : A -> bool) l1 l2 :
  count f (l1 ++ l2) = (count f l1 + count f l2)%nat.
Proof. unfold count. now rewrite filter_app, length_app. Qed.

Lemma count_flat_map {A B} (f : A -> bool) (F : B -> list A) l :
  count f (flat_map F l) = list_sum (map (fun x => count f (F x)) l).
Proof.
  induction l as [|x l IH]; simpl; [reflexivity|].
  now rewrite count_app, IH.
Qed.

Lemma count_concat_map {A B} (f : A -> bool) (F : B -> list A) l :
  count f (concat (map F l)) = list_sum (map (fun x => count f (F x)) l).
Proof. rewrite <- flat_map_concat_map. apply count_flat_map. Qed.

Lemma list_sum_zero {B} (g : B -> nat) l :
  (forall x, In x l -> g x = 0%nat) -> list_sum (map g l) = 0%nat.
Proof.
  induction l as [|x l IH]; simpl; intros H; [reflexivity|].
  rewrite (H x) by now left. apply IH. intros; apply H; now right.
Qed.

Lemma list_sum_single {B} (g : B -> nat) l x0 :
  NoDup l -> In x0 l -> g x0 = 1%nat ->
  (forall x, In x l -> x <> x0 -> g x = 0%nat) ->
  list_sum (map g l) = 1%nat.
Proof.
  induction l as [|x l IH]; simpl; intros Hnd Hin H1 H0; [contradiction|].
  inversion Hnd as [|? ? Hnx Hnd']; subst.
  destruct Hin as [->|Hin].
  - rewrite H1, list_sum_zero; [reflexivity|].
    intros y Hy. apply H0; [now right|]. intros ->. contradiction.
  - assert (Hx : g x = 0%nat) by (apply H0; [now left|]; intros ->; contradiction).
    rewrite Hx. apply IH; auto.
Qed.

Lemma nth_map_seq {B} (F : nat -> B) k i d :
  (i < k)%nat -> nth i (map F (seq 0 k)) d = F i.
Proof.
  intros Hi. rewrite nth_indep with (d' := F 0%nat)
    by now rewrite length_map, length_seq.
  rewrite map_nth, seq_nth by assumption. reflexivity.
Qed.

(** ** Round robin: examples *)

Example round_robin_4 :
  _round_robin [1; 2; 3; 4] =
  [[(1, 4); (2, 3)]; [(3, 1); (2, 4)]; [(1, 2); (3, 4)]].
Proof. reflexivity. Qed.

Example round_robin_3 :
  _round_robin [1; 2; 3] = [[(2, 3)]; [(3, 1)]; [(1, 2)]].
Proof. reflexivity. Qed.

Example round_robin_small :
  _round_robin [] = [] /\ _round_robin [7] = [[]] /\
  _round_robin [7; 9] = [[(7, 9)]].
Proof. repeat split. Qed.

(** ** Round robin: arithmetic of the rotation *)

Ltac no_test t :=
  lazymatch t with
  | context [ if _ then _ else _ ] => fail
  | _ => idtac
  end.

Ltac split_tests :=
  repeat match goal with
  | |- context [ Nat.eqb ?a ?b ] =>
      no_test a; no_test b; destruct (Nat.eqb_spec a b)
  | |- context [ Nat.ltb ?a ?b ] =>
      no_test a; no_test b; destruct (Nat.ltb_spec a b)
  | |- context [ Nat.leb ?a ?b ] =>
      no_test a; no_test b; destruct (Nat.leb_spec a b)
  end.

Section RotationArith.
Local Open Scope nat_scope.

Lemma orig_0 m p : orig m 0 p = p.
Proof. unfold orig. split_tests; lia. Qed.

Lemma orig_le m i p : i <= m -> p <= m -> orig m i p <= m.
Proof. unfold orig. intros. split_tests; lia. Qed.

Lemma orig_succ m i p :
  i < m -> p <= m -> orig m (S i) p = orig m i (orig m 1 p).
Proof.
  unfold orig. intros. split_tests; lia.
Qed.

Lemma orig_pos m i p q :
  i < m -> p <= m -> orig m i p = q -> p = pos m i q.
Proof. unfold orig, pos. intros Hi Hp <-. split_tests; lia. Qed.

Lemma pos_orig m i q :
  i < m -> q <= m -> orig m i (pos m i q) = q.
Proof. unfold orig, pos. intros. split_tests; lia. Qed.

Lemma pos_le m i q : i < m -> q <= m -> pos m i q <= m.
Proof. unfold pos. intros. split_tests; lia. Qed.

Lemma pos_inj m i q q' :
  i < m -> q <= m -> q' <= m -> pos m i q = pos m i q' -> q = q'.
Proof.
  intros Hi Hq Hq' E.
  rewrite <- (pos_orig Hi Hq), <- (pos_orig Hi Hq'). now rewrite E.
Qed.

Lemma pos_sum_unique h i i' qa qb :
  1 <= h -> i < 2 * h - 1 -> i' < 2 * h - 1 ->
  qa <= 2 * h - 1 -> qb <= 2 * h - 1 -> qa <> qb ->
  pos (2 * h - 1) i qa + pos (2 * h - 1) i qb = 2 * h - 1 ->
  pos (2 * h - 1) i' qa + pos (2 * h - 1) i' qb = 2 * h - 1 ->
  i = i'.
Proof.
  intros Hh Hi Hi' Ha Hb Hne. unfold pos.
  destruct (Nat.eqb_spec qa 0), (Nat.eqb_spec qb 0);
  destruct (Nat.leb_spec (qa+i) (2*h-1)), (Nat.leb_spec (qb+i) (2*h-1)),
   (Nat.leb_spec (qa+i') (2*h-1)), (Nat.leb_spec (qb+i') (2*h-1)); lia.
Qed.

Lemma pos_sum_exists_lt h a b :
  1 <= h -> a < b -> b <= 2 * h - 1 ->
  exists i, i < 2 * h - 1 /\
            pos (2 * h - 1) i a + pos (2 * h - 1) i b = 2 * h - 1.
Proof.
  intros Hh Hab Hb. destruct (Nat.eq_dec a 0) as [->|Ha0].
  - exists (2*h-1-b). unfold pos. split; [lia|]. split_tests; lia.
  - destruct (Nat.Even_or_Odd (a+b)) as [[k Hk]|[k Hk]].
    + exists (2*h-1-k). unfold pos. split; [lia|]. split_tests; lia.
    + destruct (Nat.le_gt_cases (a+b) (2*h-1)).
      * exists (h-1-k). unfold pos. split; [lia|]. split_tests; lia.
      * exists (3*h-2-k). unfold pos. split; [lia|]. split_tests; lia.
Qed.

Lemma pos_sum_exists h qa qb :
  1 <= h -> qa <= 2 * h - 1 -> qb <= 2 * h - 1 -> qa <> qb ->
  exists i, i < 2 * h - 1 /\
            pos (2 * h - 1) i qa + pos (2 * h - 1) i qb = 2 * h - 1.
Proof.
  intros Hh Ha Hb Hne.
  destruct (Nat.lt_total qa qb) as [H|[H|H]]; [ | lia | ].
  - now apply pos_sum_exists_lt.
  - destruct (pos_sum_exists_lt Hh H Ha) as [i [? ?]].
    exists i. split; [assumption | lia].
Qed.

End RotationArith.

(** ** Round robin: the rotation on lists *)

Section RotationLists.
Local Open Scope nat_scope.

Lemma last_nth (l : list Z) d d' :
  l <> [] -> last l d = nth (length l - 1) l d'.
Proof.
  induction l as [|x l IH]; [congruence|]. intros _.
  destruct l as [|y l]; [reflexivity|].
  change (last (x :: y :: l) d) with (last (y :: l) d).
  rewrite IH by discriminate. simpl. now rewrite Nat.sub_0_r.
Qed.

Lemma removelast_nth (l : list Z) p d :
  p < length l - 1 -> nth p (removelast l) d = nth p l d.
Proof.
  intros Hp. rewrite removelast_firstn_len, nth_firstn.
  destruct (Nat.ltb_spec p (Nat.pred (length l))); [reflexivity | lia].
Qed.

Lemma rotate_ids_length ids :
  2 <= length ids -> length (rotate_ids ids) = length ids.
Proof.
  destruct ids as [|x [|y rest]]; simpl; try lia. intros _.
  do 2 f_equal.
  change (match rest with [] => [] | _ :: _ => y :: removelast rest end)
    with (removelast (y :: rest)).
  rewrite removelast_firstn_len, length_firstn. simpl. lia.
Qed.

Lemma rotate_ids_nth ids m p d :
  length ids = S m -> 1 <= m -> p <= m ->
  nth p (rotate_ids ids) d = nth (orig m 1 p) ids d.
Proof.
  intros Hlen Hm Hp. destruct ids as [|x rest]; [discriminate|].
  simpl in Hlen. injection Hlen as Hlen.
  unfold rotate_ids, orig.
  destruct p as [|[|p]].
  - reflexivity.
  - cbn [nth]. rewrite (@last_nth (x :: rest) x d) by discriminate.
    cbn [length Nat.eqb Nat.ltb Nat.leb].
    replace (S (length rest) - 1) with m by lia.
    replace (1 + m - 1) with m by lia. reflexivity.
  - change (nth (S (S p)) (x :: last (x :: rest) x :: removelast rest) d)
      with (nth p (removelast rest) d).
    rewrite removelast_nth by lia.
    replace (S (S p) =? 0) with false by reflexivity.
    destruct (Nat.ltb_spec 1 (S (S p))); [|lia].
    replace (S (S p) - 1) with (S p) by lia. reflexivity.
Qed.

Lemma iter_rotate_length ids i :
  2 <= length ids -> length (Nat.iter i rotate_ids ids) = length ids.
Proof.
  intros H. induction i as [|i IH]; [reflexivity|].
  simpl. rewrite rotate_ids_length; lia.
Qed.

Lemma iter_rotate_nth ids m i p d :
  length ids = S m -> 1 <= m -> i <= m -> p <= m ->
  nth p (Nat.iter i rotate_ids ids) d = nth (orig m i p) ids d.
Proof.
  intros Hlen Hm. revert p. induction i as [|i IH]; intros p Hi Hp.
  - now rewrite orig_0.
  - simpl. rewrite (@rotate_ids_nth _ m) by
      (try rewrite iter_rotate_length; lia).
    rewrite IH by (try apply orig_le; lia).
    rewrite (@orig_succ m i p) by lia. reflexivity.
Qed.

Lemma rounds_from_map k : forall i ids,
  rounds_from k i ids =
  map (fun t => round_pairings (i + t) (Nat.iter t rotate_ids ids)) (seq 0 k).
Proof.
  induction k as [|k IH]; intros i ids; [reflexivity|].
  simpl. rewrite Nat.add_0_r. f_equal.
  rewrite IH, <- seq_shift, map_map.
  apply map_ext. intros t. rewrite Nat.iter_succ_r.
  f_equal. lia.
Qed.

End RotationLists.

(** ** Round robin: which positions a round pairs *)

Section PairedPositions.
Local Open Scope nat_scope.

Lemma min_pos_lt h x y : x + y = 2 * h - 1 -> 1 <= h -> Nat.min x y < h.
Proof. lia. Qed.

(** Positions [j] and [m-j] of round [i] hold the participants initially
    at [qa] and [qb] exactly when their positions add up to [m] and [j] is
    the smaller one. *)
Lemma paired_iff h i j qa qb :
  1 <= h -> i < 2 * h - 1 -> j < h ->
  qa <= 2 * h - 1 -> qb <= 2 * h - 1 ->
  ((orig (2 * h - 1) i j =? qa) && (orig (2 * h - 1) i (2 * h - 1 - j) =? qb)
   || (orig (2 * h - 1) i j =? qb) && (orig (2 * h - 1) i (2 * h - 1 - j) =? qa))
  = true
  <-> pos (2 * h - 1) i qa + pos (2 * h - 1) i qb = 2 * h - 1 /\
      j = Nat.min (pos (2 * h - 1) i qa) (pos (2 * h - 1) i qb).
Proof.
  intros Hh Hi Hj Ha Hb. set (m := 2 * h - 1) in *.
  rewrite orb_true_iff, !andb_true_iff, !Nat.eqb_eq. split.
  - intros [[E1 E2]|[E1 E2]];
      apply orig_pos in E1; try apply orig_pos in E2; try lia;
      rewrite <- E1, <- E2; lia.
  - intros [Hs ->].
    destruct (Nat.le_gt_cases (pos m i qa) (pos m i qb)) as [Hle|Hlt].
    + left. rewrite Nat.min_l by assumption.
      replace (m - pos m i qa) with (pos m i qb) by lia.
      split; apply pos_orig; lia.
    + right. rewrite Nat.min_r by lia.
      replace (m - pos m i qb) with (pos m i qa) by lia.
      split; apply pos_orig; lia.
Qed.

Lemma involved_iff h i j q :
  1 <= h -> i < 2 * h - 1 -> j < h -> q <= 2 * h - 1 ->
  ((orig (2 * h - 1) i j =? q) || (orig (2 * h - 1) i (2 * h - 1 - j) =? q))
  = true
  <-> j = Nat.min (pos (2 * h - 1) i q) (2 * h - 1 - pos (2 * h - 1) i q).
Proof.
  intros Hh Hi Hj Hq. set (m := 2 * h - 1) in *.
  assert (Hp := @pos_le m i q Hi Hq).
  rewrite orb_true_iff, !Nat.eqb_eq. split.
  - intros [E|E]; apply orig_pos in E; lia.
  - intros ->.
    destruct (Nat.le_gt_cases (pos m i q) (m - pos m i q)) as [Hle|Hlt].
    + left. rewrite Nat.min_l by assumption. apply pos_orig; lia.
    + right. rewrite Nat.min_r by lia.
      replace (m - (m - pos m i q)) with (pos m i q) by lia.
      apply pos_orig; lia.
Qed.

(** The partner of the participant initially at [q], in round [i]. *)
Lemma partner_of_min h i q :
  1 <= h -> i < 2 * h - 1 -> q <= 2 * h - 1 ->
  let m := 2 * h - 1 in
  let j := Nat.min (pos m i q) (m - pos m i q) in
  (orig m i j = q /\ orig m i (m - j) = orig m i (m - pos m i q)) \/
  (orig m i (m - j) = q /\ orig m i j = orig m i (m - pos m i q)).
Proof.
  intros Hh Hi Hq m j. subst j.
  assert (Hp := @pos_le m i q Hi Hq).
  destruct (Nat.le_gt_cases (pos m i q) (m - pos m i q)) as [Hle|Hlt].
  - left. rewrite Nat.min_l by assumption. split; [apply pos_orig; lia | reflexivity].
  - right. rewrite Nat.min_r by lia.
    replace (m - (m - pos m i q)) with (pos m i q) by lia.
    split; [apply pos_orig; lia | reflexivity].
Qed.

Lemma pos_of_orig m i p : i < m -> p <= m -> pos m i (orig m i p) = p.
Proof. intros Hi Hp. symmetry. now apply orig_pos. Qed.

End PairedPositions.

(** ** Round robin: counting meetings in one pairing *)

Lemma count_meet_cell (i : nat) (home away a b : Z) :
  a <> BYE -> b <> BYE ->
  count (meet a b)
    (if (home =? BYE) || (away =? BYE) then []
     else if Nat.even i then [(home, away)] else [(away, home)])
  = if ((home =? a) && (away =? b)) || ((home =? b) && (away =? a))
    then 1%nat else 0%nat.
Proof.
  intros Ha Hb. unfold count, meet.
  destruct (Z.eqb_spec home a), (Z.eqb_spec away b),
    (Z.eqb_spec home b), (Z.eqb_spec away a),
    (Z.eqb_spec home BYE), (Z.eqb_spec away BYE), (Nat.even i);
    subst; cbn [filter fst snd andb orb length];
    repeat rewrite Z.eqb_refl; cbn [andb orb length];
    try congruence;
    repeat match goal with
    | |- context [ Z.eqb ?x ?y ] => destruct (Z.eqb_spec x y); try congruence
    end; reflexivity.
Qed.

Lemma count_involves_cell (i : nat) (home away a : Z) :
  count (involves a)
    (if (home =? BYE) || (away =? BYE) then []
     else if Nat.even i then [(home, away)] else [(away, home)])
  = if (home =? BYE) || (away =? BYE) then 0%nat
    else if (home =? a) || (away =? a) then 1%nat else 0%nat.
Proof.
  unfold count, involves.
  destruct (Z.eqb_spec home BYE), (Z.eqb_spec away BYE), (Nat.even i);
    cbn [filter fst snd andb orb length]; try reflexivity;
    destruct (Z.eqb_spec home a), (Z.eqb_spec away a); reflexivity.
Qed.

(** ** Round robin: the rounds of an even, duplicate-free list *)

Section EvenSchedule.
Local Open Scope nat_scope.

Variable ids : list Z.
Variable h : nat.
Hypothesis Hh : 1 <= h.
Hypothesis Hlen : length ids = 2 * h.
Hypothesis Hnd : NoDup ids.

Let m := 2 * h - 1.
Let L (i : nat) := Nat.iter i rotate_ids ids.

Lemma ids_length_S : length ids = S m.
Proof. unfold m. lia. Qed.

Lemma nth_ids_eqb x q :
  x <= m -> q <= m -> Z.eqb (nth x ids 0%Z) (nth q ids 0%Z) = (x =? q).
Proof.
  intros Hx Hq. destruct (Nat.eqb_spec x q) as [->|Hne].
  - apply Z.eqb_refl.
  - apply Z.eqb_neq. intros E. apply Hne.
    apply (proj1 (NoDup_nth ids 0%Z) Hnd); unfold m in *; lia.
Qed.

Lemma pairing_at_L i j :
  i < m -> j < h ->
  pairing_at i (L i) j =
  (let home := nth (orig m i j) ids 0%Z in
   let away := nth (orig m i (m - j)) ids 0%Z in
   if (home =? BYE)%Z || (away =? BYE)%Z then []
   else if Nat.even i then [(home, away)] else [(away, home)]).
Proof.
  intros Hi Hj. unfold pairing_at, L.
  rewrite iter_rotate_length by lia.
  rewrite !(@iter_rotate_nth ids m) by (try apply ids_length_S; unfold m; lia).
  replace (length ids - 1 - j) with (m - j) by (unfold m; lia).
  reflexivity.
Qed.

Lemma round_pairings_L i :
  round_pairings i (L i) = flat_map (pairing_at i (L i)) (seq 0 h).
Proof.
  unfold round_pairings, L. rewrite iter_rotate_length by lia.
  rewrite Hlen. replace (2 * h / 2) with h; [reflexivity|].
  rewrite Nat.mul_comm. symmetry. apply Nat.div_mul. lia.
Qed.

Lemma round_meet i qa qb :
  i < m -> qa <= m -> qb <= m -> qa <> qb ->
  nth qa ids 0%Z <> BYE -> nth qb ids 0%Z <> BYE ->
  count (meet (nth qa ids 0%Z) (nth qb ids 0%Z)) (round_pairings i (L i)) =
  if pos m i qa + pos m i qb =? m then 1 else 0.
Proof.
  intros Hi Ha Hb Hne Hna Hnb.
  rewrite round_pairings_L, count_flat_map.
  assert (Hcell : forall j, j < h ->
    count (meet (nth qa ids 0%Z) (nth qb ids 0%Z)) (pairing_at i (L i) j) =
    if (orig m i j =? qa) && (orig m i (m - j) =? qb)
       || (orig m i j =? qb) && (orig m i (m - j) =? qa) then 1 else 0).
  { intros j Hj. rewrite pairing_at_L by assumption. cbv zeta.
    rewrite count_meet_cell by assumption.
    rewrite !nth_ids_eqb by (try apply orig_le; unfold m; lia).
    reflexivity. }
  destruct (Nat.eqb_spec (pos m i qa + pos m i qb) m) as [Hs|Hs].
  - apply list_sum_single with (x0 := Nat.min (pos m i qa) (pos m i qb)).
    + apply seq_NoDup.
    + apply in_seq. split; [lia|]. simpl. apply min_pos_lt; assumption.
    + rewrite Hcell by (apply min_pos_lt; assumption).
      replace (_ || _) with true; [reflexivity|]. symmetry.
      apply paired_iff; try assumption.
      * apply min_pos_lt; assumption.
      * split; [assumption | reflexivity].
    + intros j Hj Hjne. apply in_seq in Hj. rewrite Hcell by lia.
      destruct (_ || _) eqn:E; [|reflexivity].
      apply paired_iff in E; unfold m in *; try assumption; try lia.
  - apply list_sum_zero. intros j Hj. apply in_seq in Hj.
    rewrite Hcell by lia.
    destruct (_ || _) eqn:E; [|reflexivity].
    apply paired_iff in E; unfold m in *; try assumption; try lia.
Qed.

Lemma round_involves i q :
  i < m -> q <= m -> nth q ids 0%Z <> BYE ->
  count (involves (nth q ids 0%Z)) (round_pairings i (L i)) =
  if Z.eqb (nth (orig m i (m - pos m i q)) ids 0%Z) BYE then 0 else 1.
Proof.
  intros Hi Hq Hnq.
  rewrite round_pairings_L, count_flat_map.
  assert (Hp := @pos_le m i q Hi Hq).
  set (j0 := Nat.min (pos m i q) (m - pos m i q)).
  assert (Hj0 : j0 < h) by (unfold j0, m in *; lia).
  assert (Hcell : forall j, j < h ->
    count (involves (nth q ids 0%Z)) (pairing_at i (L i) j) =
    if (Z.eqb (nth (orig m i j) ids 0%Z) BYE)
       || (Z.eqb (nth (orig m i (m - j)) ids 0%Z) BYE) then 0
    else if (orig m i j =? q) || (orig m i (m - j) =? q) then 1 else 0).
  { intros j Hj. rewrite pairing_at_L by assumption. cbv zeta.
    rewrite count_involves_cell.
    rewrite !nth_ids_eqb by (try apply orig_le; unfold m; lia).
    reflexivity. }
  assert (Hzero : forall j, In j (seq 0 h) -> j <> j0 ->
    count (involves (nth q ids 0%Z)) (pairing_at i (L i) j) = 0).
  { intros j Hj Hjne. apply in_seq in Hj. rewrite Hcell by lia.
    destruct (_ || _); [reflexivity|].
    destruct (_ || _) eqn:E; [|reflexivity].
    apply involved_iff in E; unfold j0, m in *; try assumption; try lia. }
  destruct (partner_of_min Hh Hi Hq) as [[E1 E2]|[E1 E2]];
    fold m in E1, E2; fold j0 in E1, E2.
  - destruct (Z.eqb_spec (nth (orig m i (m - pos m i q)) ids 0%Z) BYE) as [Eb|Eb].
    + apply list_sum_zero. intros j Hj.
      destruct (Nat.eq_dec j j0) as [->|Hjne]; [|now apply Hzero].
      rewrite Hcell by assumption. rewrite E2, Eb.
      now rewrite Z.eqb_refl, orb_true_r.
    + apply list_sum_single with (x0 := j0); try assumption.
      * apply seq_NoDup.
      * apply in_seq. lia.
      * rewrite Hcell by assumption. rewrite E1, E2.
        rewrite (proj2 (Z.eqb_neq _ _) Hnq), (proj2 (Z.eqb_neq _ _) Eb).
        now rewrite Nat.eqb_refl.
  - destruct (Z.eqb_spec (nth (orig m i (m - pos m i q)) ids 0%Z) BYE) as [Eb|Eb].
    + apply list_sum_zero. intros j Hj.
      destruct (Nat.eq_dec j j0) as [->|Hjne]; [|now apply Hzero].
      rewrite Hcell by assumption. rewrite E2, Eb.
      now rewrite Z.eqb_refl.
    + apply list_sum_single with (x0 := j0); try assumption.
      * apply seq_NoDup.
      * apply in_seq. lia.
      * rewrite Hcell by assumption. rewrite E1, E2.
        rewrite (proj2 (Z.eqb_neq _ _) Hnq), (proj2 (Z.eqb_neq _ _) Eb).
        now rewrite Nat.eqb_refl, orb_true_r.
Qed.

(** Every pairing of every round is made of two entries of [ids] other
    than the bye. *)
Lemma round_members i p :
  i < m -> In p (round_pairings i (L i)) ->
  (In (fst p) ids /\ fst p <> BYE) /\ (In (snd p) ids /\ snd p <> BYE).
Proof.
  intros Hi Hp. rewrite round_pairings_L in Hp.
  apply in_flat_map in Hp. destruct Hp as [j [Hj Hp]].
  apply in_seq in Hj. rewrite pairing_at_L in Hp by lia. cbv zeta in Hp.
  assert (Ho1 : orig m i j < length ids)
    by (rewrite ids_length_S; apply Nat.lt_succ_r, orig_le; unfold m; lia).
  assert (Ho2 : orig m i (m - j) < length ids)
    by (rewrite ids_length_S; apply Nat.lt_succ_r, orig_le; unfold m; lia).
  destruct (Z.eqb_spec (nth (orig m i j) ids 0%Z) BYE) as [|N1];
    [contradiction|].
  destruct (Z.eqb_spec (nth (orig m i (m - j)) ids 0%Z) BYE) as [|N2];
    [contradiction|].
  cbn [orb] in Hp.
  destruct (Nat.even i); destruct Hp as [<-|[]]; cbn [fst snd];
    repeat split; try assumption; now apply nth_In.
Qed.

(** The schedule of [ids]: [m] rounds, the [i]-th one read off the list
    rotated [i] times. *)
Lemma rounds_of_ids :
  rounds_from (length ids - 1) 0 ids =
  map (fun i => round_pairings i (L i)) (seq 0 m).
Proof.
  rewrite rounds_from_map. replace (length ids - 1) with m by (unfold m; lia).
  reflexivity.
Qed.

Lemma schedule_meet_once qa qb :
  qa <= m -> qb <= m -> qa <> qb ->
  nth qa ids 0%Z <> BYE -> nth qb ids 0%Z <> BYE ->
  count (meet (nth qa ids 0%Z) (nth qb ids 0%Z))
        (concat (rounds_from (length ids - 1) 0 ids)) = 1.
Proof.
  intros Ha Hb Hne Hna Hnb.
  rewrite rounds_of_ids, count_concat_map.
  destruct (@pos_sum_exists h qa qb) as [i0 [Hi0 Hs0]]; try assumption.
  apply list_sum_single with (x0 := i0).
  - apply seq_NoDup.
  - apply in_seq. unfold m. lia.
  - rewrite round_meet by assumption. fold m in Hs0. rewrite Hs0.
    now rewrite Nat.eqb_refl.
  - intros i Hi Hine. apply in_seq in Hi.
    rewrite round_meet by (try assumption; lia).
    destruct (Nat.eqb_spec (pos m i qa + pos m i qb) m) as [Hs|Hs];
      [|reflexivity].
    exfalso. apply Hine.
    apply (@pos_sum_unique h i i0 qa qb); try assumption; unfold m in *; lia.
Qed.

End EvenSchedule.

(** ** Round robin: the schedule of a list of participants *)

Section Participants.
Local Open Scope nat_scope.

Variable team_ids : list Z.
Hypothesis Hnd : NoDup team_ids.
Hypothesis Hbye : ~ In BYE team_ids.

Lemma pad_ids_even : exists h, length (pad_ids team_ids) = 2 * h.
Proof.
  unfold pad_ids. destruct (Nat.odd (length team_ids)) eqn:E.
  - apply Nat.odd_spec in E. destruct E as [k Hk].
    exists (S k). rewrite length_app. simpl. lia.
  - assert (Ev : Nat.even (length team_ids) = true)
      by (rewrite <- Nat.negb_odd, E; reflexivity).
    apply Nat.even_spec in Ev. destruct Ev as [k Hk]. exists k. lia.
Qed.

Lemma pad_ids_NoDup : NoDup (pad_ids team_ids).
Proof.
  unfold pad_ids. destruct (Nat.odd (length team_ids)); [|assumption].
  apply NoDup_app; [assumption | repeat constructor; intros [] | ].
  intros a Ha [<-|[]]. contradiction.
Qed.

Lemma pad_ids_In a : In a team_ids -> In a (pad_ids team_ids).
Proof.
  unfold pad_ids. destruct (Nat.odd (length team_ids)); [|trivial].
  intros H. apply in_or_app. now left.
Qed.

Lemma pad_ids_In_inv a : In a (pad_ids team_ids) -> a <> BYE -> In a team_ids.
Proof.
  unfold pad_ids. destruct (Nat.odd (length team_ids)); [|trivial].
  intros H Hne. apply in_app_or in H. destruct H as [H|[<-|[]]]; congruence.
Qed.

Lemma participant_index a :
  In a team_ids ->
  exists q, q <= length (pad_ids team_ids) - 1 /\
            nth q (pad_ids team_ids) 0%Z = a /\ a <> BYE.
Proof.
  intros Ha. destruct (In_nth _ _ 0%Z (pad_ids_In _ Ha)) as [q [Hq E]].
  exists q. repeat split; [lia | assumption | ]. intros ->. contradiction.
Qed.

Lemma round_robin_rounds h :
  1 <= h -> length (pad_ids team_ids) = 2 * h ->
  _round_robin team_ids =
  map (fun i => round_pairings i (Nat.iter i rotate_ids (pad_ids team_ids)))
      (seq 0 (2 * h - 1)).
Proof. intros Hh Hlen. unfold _round_robin. now apply rounds_of_ids. Qed.

Lemma round_robin_empty : team_ids = [] -> _round_robin team_ids = [].
Proof. intros ->. reflexivity. Qed.

Lemma team_ids_nonempty h :
  length (pad_ids team_ids) = 2 * h -> team_ids <> [] -> 1 <= h.
Proof.
  intros Hlen Hne. destruct team_ids as [|x l]; [congruence|].
  unfold pad_ids in Hlen. destruct (Nat.odd _) in Hlen;
    try rewrite length_app in Hlen; simpl in Hlen; lia.
Qed.

Lemma In_team_nonempty a : In a team_ids -> team_ids <> [].
Proof. intros H ->. contradiction. Qed.

(** Each pair of participants meets in exactly one pairing of the whole
    schedule. *)
Lemma round_robin_meet_once a b :
  In a team_ids -> In b team_ids -> a <> b ->
  count (meet a b) (concat (_round_robin team_ids)) = 1.
Proof.
  intros Ha Hb Hab. destruct pad_ids_even as [h Hlen].
  assert (Hh := @team_ids_nonempty h Hlen (In_team_nonempty _ Ha)).
  destruct (@participant_index a Ha) as [qa [Hqa [Ea Na]]].
  destruct (@participant_index b Hb) as [qb [Hqb [Eb Nb]]].
  rewrite <- Ea, <- Eb. unfold _round_robin.
  apply schedule_meet_once with (h := h); try assumption;
    try apply pad_ids_NoDup; try lia; try congruence.
Qed.

(** ... and so in exactly one round. *)
Lemma round_robin_meet_one_round a b :
  In a team_ids -> In b team_ids -> a <> b ->
  exists i, i < length (_round_robin team_ids) /\
    count (meet a b) (nth i (_round_robin team_ids) []) = 1 /\
    forall i', i' < length (_round_robin team_ids) -> i' <> i ->
      count (meet a b) (nth i' (_round_robin team_ids) []) = 0.
Proof.
  intros Ha Hb Hab. destruct pad_ids_even as [h Hlen].
  assert (Hh := @team_ids_nonempty h Hlen (In_team_nonempty _ Ha)).
  destruct (@participant_index a Ha) as [qa [Hqa [Ea Na]]].
  destruct (@participant_index b Hb) as [qb [Hqb [Eb Nb]]].
  assert (Hne : qa <> qb) by congruence.
  rewrite (round_robin_rounds Hh Hlen), length_map, length_seq.
  destruct (@pos_sum_exists h qa qb) as [i0 [Hi0 Hs0]]; try lia.
  assert (Hround : forall i, i < 2 * h - 1 ->
    count (meet a b)
      (nth i (map (fun i => round_pairings i
                     (Nat.iter i rotate_ids (pad_ids team_ids)))
                  (seq 0 (2 * h - 1))) []) =
    if pos (2 * h - 1) i qa + pos (2 * h - 1) i qb =? 2 * h - 1
    then 1 else 0).
  { intros i Hi.
    rewrite nth_map_seq by assumption.
    rewrite <- Ea, <- Eb.
    apply round_meet with (h := h); try assumption;
      try apply pad_ids_NoDup; try lia; congruence. }
  exists i0. split; [assumption|]. split.
  - rewrite Hround by assumption. rewrite Hs0. now rewrite Nat.eqb_refl.
  - intros i Hi Hine. rewrite Hround by assumption.
    destruct (Nat.eqb_spec (pos (2*h-1) i qa + pos (2*h-1) i qb) (2*h-1));
      [|reflexivity].
    exfalso. apply Hine.
    apply (@pos_sum_unique h i i0 qa qb); try assumption; lia.
Qed.

Lemma round_robin_round_inv r :
  In r (_round_robin team_ids) ->
  exists h i, 1 <= h /\ length (pad_ids team_ids) = 2 * h /\ i < 2 * h - 1 /\
    r = round_pairings i (Nat.iter i rotate_ids (pad_ids team_ids)).
Proof.
  intros Hr. destruct pad_ids_even as [h Hlen].
  assert (Hne : team_ids <> [])
    by (intros E; rewrite (round_robin_empty E) in Hr; contradiction).
  assert (Hh := @team_ids_nonempty h Hlen Hne).
  rewrite (round_robin_rounds Hh Hlen) in Hr.
  apply in_map_iff in Hr. destruct Hr as [i [<- Hi]].
  apply in_seq in Hi. exists h, i. repeat split; try assumption; lia.
Qed.

(** Within a round, a participant sits in exactly one pairing unless its
    partner is the bye. *)
Lemma round_robin_appearances r a :
  In r (_round_robin team_ids) -> In a team_ids ->
  exists h i q, 1 <= h /\ length (pad_ids team_ids) = 2 * h /\
    i < 2 * h - 1 /\ q <= 2 * h - 1 /\ nth q (pad_ids team_ids) 0%Z = a /\
    count (involves a) r =
    if Z.eqb (nth (orig (2*h-1) i (2*h-1 - pos (2*h-1) i q))
                  (pad_ids team_ids) 0%Z) BYE
    then 0 else 1.
Proof.
  intros Hr Ha.
  destruct (round_robin_round_inv _ Hr) as [h [i [Hh [Hlen [Hi ->]]]]].
  destruct (@participant_index a Ha) as [q [Hq [Ea Na]]].
  exists h, i, q. repeat split; try assumption; try lia.
  rewrite <- Ea.
  apply round_involves; try assumption; try apply pad_ids_NoDup; try lia;
    try congruence.
Qed.

Lemma round_robin_at_most_once r a :
  In r (_round_robin team_ids) -> In a team_ids -> count (involves a) r <= 1.
Proof.
  intros Hr Ha.
  destruct (@round_robin_appearances r a Hr Ha) as [h [i [q [_ [_ [_ [_ [_ ->]]]]]]]].
  destruct (Z.eqb _ _); lia.
Qed.

Lemma round_robin_even_once r a :
  Nat.even (length team_ids) = true ->
  In r (_round_robin team_ids) -> In a team_ids -> count (involves a) r = 1.
Proof.
  intros Hev Hr Ha.
  destruct (@round_robin_appearances r a Hr Ha)
    as [h [i [q [Hh [Hlen [Hi [Hq [Ea ->]]]]]]]].
  assert (Hpad : pad_ids team_ids = team_ids).
  { unfold pad_ids. rewrite <- Nat.negb_even, Hev. reflexivity. }
  destruct (Z.eqb_spec (nth (orig (2*h-1) i (2*h-1 - pos (2*h-1) i q))
                            (pad_ids team_ids) 0%Z) BYE) as [E|E];
    [|reflexivity].
  exfalso. apply Hbye. rewrite <- E, Hpad. apply nth_In.
  rewrite <- Hpad, Hlen.
  assert (orig (2*h-1) i (2*h-1 - pos (2*h-1) i q) <= 2*h-1)
    by (apply orig_le; lia).
  lia.
Qed.

Lemma round_robin_odd_idle r :
  Nat.odd (length team_ids) = true ->
  In r (_round_robin team_ids) ->
  exists idle, In idle team_ids /\ count (involves idle) r = 0 /\
    forall a, In a team_ids -> a <> idle -> count (involves a) r = 1.
Proof.
  intros Hodd Hr.
  destruct (round_robin_round_inv _ Hr) as [h [i [Hh [Hlen [Hi ->]]]]].
  assert (Hpad : pad_ids team_ids = team_ids ++ [BYE])
    by (unfold pad_ids; now rewrite Hodd).
  set (m := 2 * h - 1) in *.
  assert (HN : length team_ids = m)
    by (rewrite Hpad, length_app in Hlen; simpl in Hlen; unfold m; lia).
  assert (Hbye_at : nth m (pad_ids team_ids) 0%Z = BYE)
    by (rewrite Hpad, <- HN; apply nth_middle).
  assert (Hbye_only : forall q, q <= m ->
            nth q (pad_ids team_ids) 0%Z = BYE -> q = m).
  { intros q Hq E. rewrite <- Hbye_at in E.
    apply (proj1 (NoDup_nth _ 0%Z) pad_ids_NoDup); unfold m in *; lia. }
  assert (Hpm := @pos_le m i m Hi (Nat.le_refl m)).
  set (qs := orig m i (m - pos m i m)).
  assert (Hqs : qs <= m) by (apply orig_le; lia).
  assert (Hposqs : pos m i qs = m - pos m i m)
    by (apply pos_of_orig; lia).
  assert (Hqsm : qs <> m) by (intros E; rewrite E in Hposqs; unfold m in *; lia).
  assert (Hidle_in : In (nth qs (pad_ids team_ids) 0%Z) team_ids).
  { rewrite Hpad, app_nth1 by lia. apply nth_In. lia. }
  assert (Hinv : forall q, q <= m -> nth q (pad_ids team_ids) 0%Z <> BYE ->
     count (involves (nth q (pad_ids team_ids) 0%Z))
       (round_pairings i (Nat.iter i rotate_ids (pad_ids team_ids))) =
     if Z.eqb (nth (orig m i (m - pos m i q)) (pad_ids team_ids) 0%Z) BYE
     then 0 else 1).
  { intros q Hq Hne. apply round_involves; try assumption.
    apply pad_ids_NoDup. }
  exists (nth qs (pad_ids team_ids) 0%Z). split; [assumption|]. split.
  - rewrite Hinv; try assumption.
    + rewrite Hposqs. replace (m - (m - pos m i m)) with (pos m i m) by lia.
      rewrite pos_orig by lia. rewrite Hbye_at. reflexivity.
    + intros E. apply Hbye. now rewrite <- E.
  - intros a Ha Hne. destruct (@participant_index a Ha) as [q [Hq [Ea Na]]].
    rewrite <- Ea. rewrite Hinv; try (unfold m; lia); try congruence.
    destruct (Z.eqb_spec (nth (orig m i (m - pos m i q))
                              (pad_ids team_ids) 0%Z) BYE) as [E|E];
      [|reflexivity].
    exfalso. apply Hne. rewrite <- Ea. f_equal.
    assert (Hq' : q <= m) by (unfold m; lia).
    assert (Hpq := @pos_le m i q Hi Hq').
    apply Hbye_only in E; [|apply orig_le; lia].
    apply orig_pos in E; try lia.
    apply (@pos_inj m i); try assumption. lia.
Qed.

Lemma round_robin_members r p :
  In r (_round_robin team_ids) -> In p r ->
  In (fst p) team_ids /\ In (snd p) team_ids.
Proof.
  intros Hr Hp.
  destruct (round_robin_round_inv _ Hr) as [h [i [Hh [Hlen [Hi ->]]]]].
  destruct (@round_members (pad_ids team_ids) h Hh Hlen i p Hi Hp)
    as [[H1 N1] [H2 N2]].
  split; now apply pad_ids_In_inv.
Qed.

End Participants.

(** ** Round robin: the schedule property *)

(** C2 (as the code has it). For every list of distinct participant
    identifiers none of which is the bye placeholder [-1], the schedule of
    [_round_robin] satisfies:
    - each unordered pair of participants meets in exactly one pairing of
      the whole schedule, hence in exactly one round;
    - within a round each participant is in at most one pairing: in exactly
      one when the number of participants is even, and when it is odd
      exactly one participant is idle in each round;
    - the pairings only hold participants (the bye is never output);
    - round [i] is read off the list rotated [i] times, pairing position
      [j] with position [n-1-j] for [j < n/2], swapped when [i] is odd;
    - there are [n-1] rounds, [n] being the padded (even) length. *)
Theorem round_robin_schedule (team_ids : list Z) :
  NoDup team_ids ->
  ~ In BYE team_ids ->
  let rounds := _round_robin team_ids in
  (forall a b, In a team_ids -> In b team_ids -> a <> b ->
     count (meet a b) (concat rounds) = 1%nat /\
     exists i, (i < length rounds)%nat /\
       count (meet a b) (nth i rounds []) = 1%nat /\
       forall i', (i' < length rounds)%nat -> i' <> i ->
         count (meet a b) (nth i' rounds []) = 0%nat) /\
  (forall r a, In r rounds -> In a team_ids ->
     (count (involves a) r <= 1)%nat) /\
  (Nat.even (length team_ids) = true ->
   forall r a, In r rounds -> In a team_ids ->
     count (involves a) r = 1%nat) /\
  (Nat.odd (length team_ids) = true ->
   forall r, In r rounds ->
     exists idle, In idle team_ids /\ count (involves idle) r = 0%nat /\
       forall a, In a team_ids -> a <> idle ->
         count (involves a) r = 1%nat) /\
  (forall r p, In r rounds -> In p r ->
     In (fst p) team_ids /\ In (snd p) team_ids) /\
  (forall i, (i < length rounds)%nat ->
     nth i rounds [] =
     round_pairings i (Nat.iter i rotate_ids (pad_ids team_ids))) /\
  length rounds = (length (pad_ids team_ids) - 1)%nat.
Proof.
  intros Hnd Hbye rounds. subst rounds.
  split; [|split; [|split; [|split; [|split; [|split]]]]].
  - intros a b Ha Hb Hab. split.
    + now apply round_robin_meet_once.
    + now apply round_robin_meet_one_round.
  - intros r a. now apply round_robin_at_most_once.
  - intros Hev r a. now apply round_robin_even_once.
  - intros Hodd r. now apply round_robin_odd_idle.
  - intros r p. now apply round_robin_members.
  - intros i Hi. unfold _round_robin in *.
    rewrite rounds_from_map in *. rewrite length_map, length_seq in Hi.
    now rewrite nth_map_seq.
  - unfold _round_robin. now rewrite rounds_from_map, length_map, length_seq.
Qed.

Lemma round_robin_schedule_witness :
  count (meet 1 3) (concat (_round_robin [1; 2; 3])) = 1%nat.
Proof.
  refine (proj1 (proj1 (@round_robin_schedule [1; 2; 3] _ _) 1 3 _ _ _)).
  - repeat constructor; simpl; intuition lia.
  - simpl. unfold BYE. intuition lia.
  - simpl. tauto.
  - simpl. tauto.
  - lia.
Defined.

(** C2 as stated quantifies over every list of distinct identifiers; an
    identifier equal to the placeholder [-1] is dropped with the bye, so
    its pairings never appear. *)
Lemma round_robin_bye_clash :
  NoDup [-1; 5] /\
  _round_robin [-1; 5] = [[]] /\
  count (meet (-1) 5) (concat (_round_robin [-1; 5])) <> 1%nat.
Proof.
  split; [|split].
  - repeat constructor; simpl; intuition lia.
  - reflexivity.
  - vm_compute. discriminate.
Qed.

(** ** Loops that can raise *)

Unset Implicit Arguments.

Lemma bind_Ok {A B} (c : result A) (k : A -> result B) b :
  bind c k = Ok b -> exists a, c = Ok a /\ k a = Ok b.
Proof. destruct c as [a|e]; simpl; [eauto | discriminate]. Qed.

Ltac bind_inv H :=
  let a := fresh "x" in
  let H1 := fresh H in
  apply bind_Ok in H; destruct H as [a [H1 H]].

Lemma mapM_Forall2 {A B} (f : A -> result B) xs ys :
  mapM f xs = Ok ys -> Forall2 (fun x y => f x = Ok y) xs ys.
Proof.
  revert ys. induction xs as [|x xs IH]; simpl; intros ys H.
  - injection H as <-. constructor.
  - bind_inv H. bind_inv H. injection H as <-. constructor; auto.
Qed.

Lemma mapM_total {A B} (f : A -> result B) xs :
  (forall x, In x xs -> exists y, f x = Ok y) -> exists ys, mapM f xs = Ok ys.
Proof.
  induction xs as [|x xs IH]; simpl; intros H; [eauto|].
  destruct (H x) as [y Hy]; [now left|].
  destruct IH as [ys Hys]; [intros; apply H; now right|].
  rewrite Hy, Hys. simpl. eauto.
Qed.

Lemma Forall2_map_eq {A B C} (f : A -> C) (g : B -> C) R xs ys :
  Forall2 R xs ys -> (forall x y, R x y -> f x = g y) -> map f xs = map g ys.
Proof.
  intros H HR. induction H; simpl; [reflexivity|]. f_equal; auto.
Qed.

Lemma Forall2_In_r {A B} (R : A -> B -> Prop) xs ys y :
  Forall2 R xs ys -> In y ys -> exists x, In x xs /\ R x y.
Proof.
  intros H. induction H as [|x y' xs ys HR H IH]; simpl; [contradiction|].
  intros [->|Hin]; [exists x; auto|].
  destruct (IH Hin) as [x' [? ?]]. exists x'. auto.
Qed.

Lemma Forall2_In_l {A B} (R : A -> B -> Prop) xs ys x :
  Forall2 R xs ys -> In x xs -> exists y, In y ys /\ R x y.
Proof.
  intros H. induction H as [|x' y xs ys HR H IH]; simpl; [contradiction|].
  intros [->|Hin]; [exists y; auto|].
  destruct (IH Hin) as [y' [? ?]]. exists y'. auto.
Qed.

(** ** Dictionaries *)

Section DictFacts.
Context {K V : Type}.
Variable eqb : K -> K -> bool.
Hypothesis eqb_spec : forall x y, reflect (x = y) (eqb x y).

Lemma dict_get_set_same k (v : V) d :
  dict_get eqb k (dict_set eqb k v d) = Some v.
Proof.
  induction d as [|[k' v'] d IH]; simpl.
  - destruct (eqb_spec k k); congruence.
  - destruct (eqb_spec k k') as [->|Hne]; simpl.
    + destruct (eqb_spec k' k'); congruence.
    + destruct (eqb_spec k k'); congruence.
Qed.

Lemma dict_get_set_other k k' (v : V) d :
  k <> k' -> dict_get eqb k' (dict_set eqb k v d) = dict_get eqb k' d.
Proof.
  intros Hne. induction d as [|[k0 v0] d IH]; simpl.
  - destruct (eqb_spec k' k); congruence.
  - destruct (eqb_spec k k0) as [->|Hne0]; simpl.
    + destruct (eqb_spec k' k0); congruence.
    + destruct (eqb_spec k' k0); congruence.
Qed.

Lemma dict_set_keys k (v : V) d :
  dict_keys (dict_set eqb k v d) =
  if dict_mem eqb k d then dict_keys d else dict_keys d ++ [k].
Proof.
  unfold dict_mem, dict_keys.
  induction d as [|[k0 v0] d IH]; simpl; [reflexivity|].
  destruct (eqb_spec k k0) as [->|Hne]; simpl; [reflexivity|].
  rewrite IH. destruct (dict_get eqb k d); reflexivity.
Qed.

Lemma dict_get_None k (d : list (K * V)) :
  dict_get eqb k d = None <-> ~ In k (dict_keys d).
Proof.
  unfold dict_keys. induction d as [|[k0 v0] d IH]; simpl; [tauto|].
  destruct (eqb_spec k k0) as [->|Hne].
  - split; [discriminate | intros H; exfalso; apply H; now left].
  - rewrite IH. split; intros H; [intros [E|E]; congruence | tauto].
Qed.

Lemma dict_mem_In k (d : list (K * V)) :
  dict_mem eqb k d = true <-> In k (dict_keys d).
Proof.
  unfold dict_mem. destruct (dict_get eqb k d) eqn:E.
  - split; [|reflexivity]. intros _.
    destruct (in_dec (fun x y => reflect_dec _ _ (eqb_spec x y)) k (dict_keys d))
      as [H|H]; [assumption|].
    apply dict_get_None in H. congruence.
  - apply dict_get_None in E. split; [discriminate | contradiction].
Qed.

Lemma dict_set_keys_NoDup k (v : V) d :
  NoDup (dict_keys d) -> NoDup (dict_keys (dict_set eqb k v d)).
Proof.
  intros H. rewrite dict_set_keys. destruct (dict_mem eqb k d) eqn:E; [assumption|].
  apply NoDup_app; [assumption | repeat constructor; intros [] | ].
  intros a Ha [<-|[]]. apply dict_mem_In in Ha. congruence.
Qed.

Lemma dict_get_In k (v : V) d : dict_get eqb k d = Some v -> In (k, v) d.
Proof.
  induction d as [|[k0 v0] d IH]; simpl; [discriminate|].
  destruct (eqb_spec k k0) as [->|Hne].
  - intros [= ->]. now left.
  - intros H. right. auto.
Qed.

Lemma dict_In_get k (v : V) d :
  NoDup (dict_keys d) -> In (k, v) d -> dict_get eqb k d = Some v.
Proof.
  unfold dict_keys. induction d as [|[k0 v0] d IH]; simpl; [contradiction|].
  intros Hnd Hin. inversion Hnd as [|? ? Hnin Hnd']; subst.
  destruct Hin as [[= -> ->]|Hin].
  - destruct (eqb_spec k k); congruence.
  - destruct (eqb_spec k k0) as [->|Hne]; [|auto].
    exfalso. apply Hnin. apply in_map_iff. exists (k0, v). auto.
Qed.

Lemma dict_of_list_NoDup (kvs : list (K * V)) :
  NoDup (map fst kvs) -> dict_of_list eqb kvs = kvs.
Proof.
  unfold dict_of_list.
  assert (G : forall acc, NoDup (map fst (acc ++ kvs)) ->
    fold_left (fun d kv => dict_set eqb (fst kv) (snd kv) d) kvs acc
    = acc ++ kvs).
  { induction kvs as [|[k v] kvs IH]; intros acc Hnd; simpl.
    - now rewrite app_nil_r.
    - assert (Hset : dict_set eqb k v acc = acc ++ [(k, v)]).
      { assert (Hk : ~ In k (map fst acc)).
        { rewrite map_app in Hnd. simpl in Hnd.
          apply NoDup_remove_2 in Hnd. intros Hin. apply Hnd.
          apply in_or_app. now left. }
        clear - Hk eqb_spec. induction acc as [|[k0 v0] acc IH]; simpl;
          [reflexivity|].
        destruct (eqb_spec k k0) as [->|Hne].
        - exfalso. apply Hk. now left.
        - f_equal. apply IH. intros H. apply Hk. now right. }
      rewrite Hset, IH; rewrite <- app_assoc; simpl; [reflexivity|assumption]. }
  intros H. apply (G []). assumption.
Qed.

End DictFacts.

Lemma key_eqb_spec (k1 k2 : Z * string) : reflect (k1 = k2) (key_eqb k1 k2).
Proof.
  destruct k1 as [a s], k2 as [b s']. unfold key_eqb. simpl.
  destruct (Z.eqb_spec a b), (String.eqb_spec s s'); simpl;
    constructor; congruence.
Qed.

(** ** Stable sorting *)

Section SortFacts.
Context {A : Type}.
Variable leb : A -> A -> bool.

Lemma insert_sorted_perm x l : Permutation (insert_sorted leb x l) (x :: l).
Proof.
  induction l as [|y l IH]; simpl; [reflexivity|].
  destruct (leb x y); [reflexivity|].
  rewrite IH. apply perm_swap.
Qed.

Lemma sort_by_perm l : Permutation (sort_by leb l) l.
Proof.
  induction l as [|x l IH]; simpl; [reflexivity|].
  rewrite insert_sorted_perm. now constructor.
Qed.

Lemma sort_by_In x l : In x (sort_by leb l) <-> In x l.
Proof.
  split; apply Permutation_in; [|symmetry]; apply sort_by_perm.
Qed.

Lemma sort_by_length l : length (sort_by leb l) = length l.
Proof. apply Permutation_length, sort_by_perm. Qed.

Hypothesis leb_total : forall x y, leb x y = true \/ leb y x = true.
Hypothesis leb_trans :
  forall x y z, leb x y = true -> leb y z = true -> leb x z = true.

Lemma insert_sorted_sorted x l :
  StronglySorted (fun a b => leb a b = true) l ->
  StronglySorted (fun a b => leb a b = true) (insert_sorted leb x l).
Proof.
  induction 1 as [|y l Hs IH Hall]; simpl.
  - repeat constructor.
  - destruct (leb x y) eqn:E.
    + constructor; [now constructor|]. constructor; [assumption|].
      eapply Forall_impl; [|exact Hall]. intros z. now apply leb_trans.
    + constructor; [assumption|].
      assert (Hyx : leb y x = true) by (destruct (leb_total x y); congruence).
      rewrite Forall_forall in *. intros z Hz.
      apply (Permutation_in _ (insert_sorted_perm x l)) in Hz.
      destruct Hz as [<-|Hz]; auto.
Qed.

Lemma sort_by_sorted l :
  StronglySorted (fun a b => leb a b = true) (sort_by leb l).
Proof.
  induction l as [|x l IH]; simpl; [constructor|].
  now apply insert_sorted_sorted.
Qed.

End SortFacts.

Lemma StronglySorted_nth {A} (R : A -> A -> Prop) l d i j :
  StronglySorted R l -> (i < j)%nat -> (j < length l)%nat ->
  R (nth i l d) (nth j l d).
Proof.
  intros H. revert i j. induction H as [|x l Hs IH Hall]; intros i j Hij Hj.
  - simpl in Hj. lia.
  - destruct j as [|j]; [lia|]. destruct i as [|i]; simpl.
    + rewrite Forall_forall in Hall. apply Hall, nth_In. simpl in Hj. lia.
    + apply IH; simpl in Hj; lia.
Qed.

(** ** Comparisons *)

Section OrderFacts.
Context {A : Type}.
Variable c : A -> A -> comparison.
Hypothesis Hc : OrderCmp c.

Lemma order_leb_total x y : not_gt (c x y) = true \/ not_gt (c y x) = true.
Proof.
  rewrite (cmp_antisym Hc x y). destruct (c x y); simpl; auto.
Qed.

Lemma order_leb_trans x y z :
  not_gt (c x y) = true -> not_gt (c y z) = true -> not_gt (c x z) = true.
Proof.
  destruct (c x y) eqn:E1; simpl; try discriminate; intros _.
  - now rewrite (cmp_eq_l Hc x y z E1).
  - destruct (c y z) eqn:E2; simpl; try discriminate; intros _.
    + assert (E3 : c z y = Eq) by (rewrite (cmp_antisym Hc), E2; reflexivity).
      assert (E4 : c z x = c y x) by (now apply (cmp_eq_l Hc)).
      rewrite (cmp_antisym Hc x z), (cmp_antisym Hc x y), E1 in E4.
      destruct (c x z); simpl in *; congruence.
    + now rewrite (cmp_lt_trans Hc x y z E1 E2).
Qed.

Lemma order_lt_not_leb x y : c x y = Lt -> not_gt (c y x) = false.
Proof. intros E. now rewrite (cmp_antisym Hc), E. Qed.

End OrderFacts.

Lemma OrderCmp_then {A} (c1 c2 : A -> A -> comparison) :
  OrderCmp c1 -> OrderCmp c2 ->
  OrderCmp (fun x y => comparison_then (c1 x y) (c2 x y)).
Proof.
  intros H1 H2. constructor.
  - intros x y. rewrite (cmp_antisym H1 x y), (cmp_antisym H2 x y).
    destruct (c1 x y); reflexivity.
  - intros x y z. destruct (c1 x y) eqn:E; simpl; try discriminate.
    intros E2. rewrite (cmp_eq_l H1 x y z E).
    destruct (c1 y z); simpl; auto. now apply (cmp_eq_l H2).
  - intros x y z. destruct (c1 x y) eqn:E1; simpl; try discriminate.
    + intros E2. rewrite (cmp_eq_l H1 x y z E1).
      destruct (c1 y z); simpl; try discriminate; auto.
      now apply (cmp_lt_trans H2).
    + intros _. destruct (c1 y z) eqn:E2; simpl; try discriminate.
      * intros _.
        assert (E3 : c1 z y = Eq) by (rewrite (cmp_antisym H1), E2; reflexivity).
        assert (E4 : c1 z x = c1 y x) by (now apply (cmp_eq_l H1)).
        rewrite (cmp_antisym H1 x z), (cmp_antisym H1 x y), E1 in E4.
        destruct (c1 x z); simpl in *; congruence.
      * intros _. now rewrite (cmp_lt_trans H1 x y z E1 E2).
Qed.

Lemma OrderCmp_Z_desc {A} (f : A -> Z) :
  OrderCmp (fun x y => - f x ?= - f y).
Proof.
  constructor.
  - intros x y. apply Z.compare_antisym.
  - intros x y z E. apply Z.compare_eq in E. now rewrite E.
  - intros x y z. rewrite !Z.compare_lt_iff. lia.
Qed.

Lemma string_compare_lt_trans (a b d : string) :
  String.compare a b = Lt -> String.compare b d = Lt ->
  String.compare a d = Lt.
Proof.
  revert b d. induction a as [|x a IH]; intros [|y b] [|z d]; simpl;
    try discriminate; auto.
  unfold Ascii.compare.
  destruct (N.compare_spec (N_of_ascii x) (N_of_ascii y)) as [E1|E1|E1];
    try discriminate;
  destruct (N.compare_spec (N_of_ascii y) (N_of_ascii z)) as [E2|E2|E2];
    try discriminate; intros H1 H2.
  - rewrite E1, E2, N.compare_refl. eauto.
  - rewrite E1. now apply N.compare_lt_iff in E2 as ->.
  - rewrite <- E2. now apply N.compare_lt_iff in E1 as ->.
  - assert (E3 : (N_of_ascii x < N_of_ascii z)%N) by lia.
    now apply N.compare_lt_iff in E3 as ->.
Qed.

Lemma OrderCmp_string {A} (f : A -> string) :
  OrderCmp (fun x y => String.compare (f x) (f y)).
Proof.
  constructor.
  - intros x y. apply String.compare_antisym.
  - intros x y z E. apply String.compare_eq_iff in E. now rewrite E.
  - intros x y z. apply string_compare_lt_trans.
Qed.

(** ** Aggregator: stage tables *)

Lemma table_update_keys t f tb tb' :
  table_update t f tb = Ok tb' -> map fst tb' = map fst tb.
Proof.
  revert tb'. induction tb as [|[k v] tb IH]; simpl; intros tb' H;
    [discriminate|].
  destruct (t =? k).
  - injection H as <-. reflexivity.
  - bind_inv H. injection H as <-. simpl. f_equal. auto.
Qed.

Lemma table_update_get t f tb tb' t' :
  table_update t f tb = Ok tb' ->
  dict_get_default Z.eqb t' zero_stats tb' =
  if t' =? t then f (dict_get_default Z.eqb t' zero_stats tb)
  else dict_get_default Z.eqb t' zero_stats tb.
Proof.
  unfold dict_get_default.
  revert tb'. induction tb as [|[k v] tb IH]; simpl; intros tb' H;
    [discriminate|].
  destruct (Z.eqb_spec t k) as [->|Hne].
  - injection H as <-. simpl. destruct (Z.eqb_spec t' k); reflexivity.
  - bind_inv H. injection H as <-. simpl.
    destruct (Z.eqb_spec t' k) as [->|Hne'].
    + destruct (Z.eqb_spec k t); congruence.
    + now apply IH.
Qed.

Lemma table_update_total t f tb :
  In t (map fst tb) -> exists tb', table_update t f tb = Ok tb'.
Proof.
  induction tb as [|[k v] tb IH]; simpl; [contradiction|].
  destruct (Z.eqb_spec t k) as [->|Hne]; [eauto|].
  intros [E|Hin]; [congruence|].
  destruct (IH Hin) as [tb' ->]. simpl. eauto.
Qed.

Lemma table_update_In t f tb tb' :
  table_update t f tb = Ok tb' -> In t (map fst tb).
Proof.
  revert tb'. induction tb as [|[k v] tb IH]; simpl; intros tb' H;
    [discriminate|].
  destruct (Z.eqb_spec t k) as [->|Hne]; [now left|].
  bind_inv H. right. eauto.
Qed.

Lemma zero_table_keys tn : map fst (zero_table tn) = map fst tn.
Proof. unfold zero_table. now rewrite map_map. Qed.

Lemma zero_table_get tn t :
  dict_get_default Z.eqb t zero_stats (zero_table tn) = zero_stats.
Proof.
  unfold dict_get_default, zero_table.
  induction tn as [|[k v] tn IH]; simpl; [reflexivity|].
  destruct (t =? k); [reflexivity | assumption].
Qed.

(** ** Aggregator: the dictionary of stage tables *)

Lemma dict_set_Forall_snd {KT V} (eqb : KT -> KT -> bool) (Q : V -> Prop)
  k v (d : list (KT * V)) :
  Forall (fun e => Q (snd e)) d -> Q v ->
  Forall (fun e => Q (snd e)) (dict_set eqb k v d).
Proof.
  intros H Hv. induction H as [|[k' v'] d Hx H IH]; simpl.
  - repeat constructor. assumption.
  - destruct (eqb k k'); constructor; auto.
Qed.

Lemma data_wf_set K data key table :
  data_wf K data -> map fst table = K ->
  data_wf K (dict_set key_eqb key table data).
Proof.
  intros [Hnd Hall] Ht. split.
  - now apply (dict_set_keys_NoDup _ key_eqb_spec).
  - now apply (dict_set_Forall_snd key_eqb (fun tb => map fst tb = K)).
Qed.

Lemma data_wf_get K data key table :
  data_wf K data -> dict_get key_eqb key data = Some table ->
  map fst table = K.
Proof.
  intros [_ Hall] H. apply (dict_get_In _ key_eqb_spec) in H.
  rewrite Forall_forall in Hall. exact (Hall _ H).
Qed.

Lemma stats_at_set_same data key table t :
  stats_at (dict_set key_eqb key table data) key t =
  dict_get_default Z.eqb t zero_stats table.
Proof.
  unfold stats_at. now rewrite (dict_get_set_same _ key_eqb_spec).
Qed.

Lemma stats_at_set_other data key key' table t :
  key <> key' ->
  stats_at (dict_set key_eqb key table data) key' t = stats_at data key' t.
Proof.
  intros H. unfold stats_at.
  now rewrite (dict_get_set_other _ key_eqb_spec) by assumption.
Qed.

Lemma fold_match_spec tn data m data' :
  fold_match tn data m = Ok data' ->
  data_wf (map fst tn) data ->
  data_wf (map fst tn) data' /\
  (forall key t,
     stats_at data' key t = tally_step key t (stats_at data key t) m) /\
  (forall key, In key (dict_keys data) -> In key (dict_keys data')).
Proof.
  unfold fold_match. intros H Hwf.
  set (mkey := (season_year m, stage_code m)) in *.
  set (data1 := if dict_mem key_eqb mkey data then data
                else dict_set key_eqb mkey (zero_table tn) data) in *.
  assert (Hwf1 : data_wf (map fst tn) data1).
  { unfold data1. destruct (dict_mem key_eqb mkey data); [assumption|].
    apply data_wf_set; [assumption | apply zero_table_keys]. }
  assert (Hs1 : forall key t, stats_at data1 key t = stats_at data key t).
  { intros key t. unfold data1.
    destruct (dict_mem key_eqb mkey data) eqn:E; [reflexivity|].
    destruct (key_eqb_spec mkey key) as [<-|Hne].
    - rewrite stats_at_set_same, zero_table_get. unfold stats_at.
      unfold dict_mem in E. destruct (dict_get key_eqb mkey data);
        [discriminate | reflexivity].
    - now apply stats_at_set_other. }
  assert (Hk1 : forall key, In key (dict_keys data) -> In key (dict_keys data1)).
  { intros key Hin. unfold data1.
    destruct (dict_mem key_eqb mkey data) eqn:E; [assumption|].
    rewrite (dict_set_keys _ key_eqb_spec), E. apply in_or_app. now left. }
  bind_inv H. rename x into table0. bind_inv H. rename x into table1.
  bind_inv H. rename x into table2. injection H as <-.
  unfold dict_item in H0. destruct (dict_get key_eqb mkey data1) as [tb|] eqn:Eg;
    [|discriminate]. injection H0 as ->.
  assert (Hk0 : map fst table0 = map fst tn) by (eapply data_wf_get; eauto).
  split; [|split].
  - apply data_wf_set; [assumption|].
    rewrite (table_update_keys _ _ _ _ H2), (table_update_keys _ _ _ _ H1).
    assumption.
  - intros key t. unfold tally_step. fold mkey.
    destruct (key_eqb_spec mkey key) as [<-|Hne].
    + rewrite stats_at_set_same.
      rewrite (table_update_get _ _ _ _ t H2), (table_update_get _ _ _ _ t H1).
      rewrite <- Hs1. unfold stats_at. rewrite Eg.
      unfold involved_update.
      rewrite (Z.eqb_sym (home_team_id m) t), (Z.eqb_sym (away_team_id m) t).
      destruct (t =? home_team_id m), (t =? away_team_id m); reflexivity.
    + rewrite stats_at_set_other by assumption. apply Hs1.
  - intros key Hin. rewrite (dict_set_keys _ key_eqb_spec).
    destruct (dict_mem key_eqb mkey data1); [auto|].
    apply in_or_app. left. auto.
Qed.

Lemma fold_matches_spec tn ms : forall data data',
  foldM (fold_match tn) data ms = Ok data' ->
  data_wf (map fst tn) data ->
  data_wf (map fst tn) data' /\
  (forall key t,
     stats_at data' key t = fold_left (tally_step key t) ms (stats_at data key t)) /\
  (forall key, In key (dict_keys data) -> In key (dict_keys data')).
Proof.
  induction ms as [|m ms IH]; simpl; intros data data' H Hwf.
  - injection H as <-. auto.
  - bind_inv H. rename x into data1.
    destruct (fold_match_spec _ _ _ _ H0 Hwf) as [Hwf1 [Hs1 Hk1]].
    destruct (IH _ _ H Hwf1) as [Hwf' [Hs' Hk']].
    split; [assumption|]. split.
    + intros key t. now rewrite Hs', Hs1.
    + auto.
Qed.

Lemma fold_match_total tn data m :
  data_wf (map fst tn) data ->
  In (home_team_id m) (map fst tn) -> In (away_team_id m) (map fst tn) ->
  exists data', fold_match tn data m = Ok data'.
Proof.
  intros Hwf Hh Ha. unfold fold_match.
  set (mkey := (season_year m, stage_code m)).
  set (data1 := if dict_mem key_eqb mkey data then data
                else dict_set key_eqb mkey (zero_table tn) data).
  assert (Hwf1 : data_wf (map fst tn) data1).
  { unfold data1. destruct (dict_mem key_eqb mkey data); [assumption|].
    apply data_wf_set; [assumption | apply zero_table_keys]. }
  assert (Hg : exists tb, dict_get key_eqb mkey data1 = Some tb).
  { unfold data1. destruct (dict_mem key_eqb mkey data) eqn:E.
    - unfold dict_mem in E. destruct (dict_get key_eqb mkey data); [eauto|discriminate].
    - rewrite (dict_get_set_same _ key_eqb_spec). eauto. }
  destruct Hg as [tb Hg]. unfold dict_item. rewrite Hg. simpl.
  assert (Hk : map fst tb = map fst tn) by (eapply data_wf_get; eauto).
  destruct (table_update_total (home_team_id m)
              (update_side (home_goals m) (away_goals m)) tb) as [tb1 H1];
    [now rewrite Hk|].
  rewrite H1. simpl.
  destruct (table_update_total (away_team_id m)
              (update_side (away_goals m) (home_goals m)) tb1) as [tb2 H2];
    [now rewrite (table_update_keys _ _ _ _ H1), Hk|].
  rewrite H2. simpl. eauto.
Qed.

Lemma fold_matches_total tn ms : forall data,
  data_wf (map fst tn) data ->
  (forall m, In m ms -> In (home_team_id m) (map fst tn) /\
                        In (away_team_id m) (map fst tn)) ->
  exists data', foldM (fold_match tn) data ms = Ok data'.
Proof.
  induction ms as [|m ms IH]; simpl; intros data Hwf Hms; [eauto|].
  destruct (Hms m (or_introl eq_refl)) as [Hh Ha].
  destruct (fold_match_total _ _ m Hwf Hh Ha) as [data1 H1]. rewrite H1. simpl.
  apply IH; [|intros; apply Hms; now right].
  now destruct (fold_match_spec _ _ _ _ H1 Hwf).
Qed.

(** ** Aggregator: the annual roll-up *)

Lemma add_stats_zero_l s : add_stats zero_stats s = s.
Proof. destruct s. unfold add_stats. simpl. f_equal; lia. Qed.

Lemma annual_fold_spec table : forall annual annual',
  foldM (fun annual kv => table_update (fst kv) (add_stats (snd kv)) annual)
        annual table = Ok annual' ->
  NoDup (map fst table) ->
  map fst annual' = map fst annual /\
  forall t, dict_get_default Z.eqb t zero_stats annual' =
            add_stats (dict_get_default Z.eqb t zero_stats table)
                      (dict_get_default Z.eqb t zero_stats annual).
Proof.
  induction table as [|[k s] table IH]; simpl; intros annual annual' H Hnd.
  - injection H as <-. split; [reflexivity|]. intros t.
    unfold dict_get_default. simpl. now rewrite add_stats_zero_l.
  - bind_inv H. rename x into annual1.
    inversion Hnd as [|? ? Hnin Hnd']; subst.
    destruct (IH _ _ H Hnd') as [Hk Hs]. split.
    + now rewrite Hk, (table_update_keys _ _ _ _ H0).
    + intros t. rewrite Hs, (table_update_get _ _ _ _ t H0).
      unfold dict_get_default. simpl.
      destruct (Z.eqb_spec t k) as [->|Hne]; [|reflexivity].
      assert (E : dict_get Z.eqb k table = None)
        by now apply (dict_get_None _ Z.eqb_spec).
      rewrite E. now rewrite add_stats_zero_l.
Qed.

Lemma annual_fold_total table : forall annual,
  incl (map fst table) (map fst annual) ->
  exists annual',
    foldM (fun annual kv => table_update (fst kv) (add_stats (snd kv)) annual)
          annual table = Ok annual'.
Proof.
  induction table as [|[k s] table IH]; simpl; intros annual Hincl; [eauto|].
  destruct (table_update_total k (add_stats s) annual) as [annual1 H1];
    [apply Hincl; now left|].
  rewrite H1. simpl. apply IH.
  rewrite (table_update_keys _ _ _ _ H1). intros x Hx. apply Hincl. now right.
Qed.

Lemma dict_set_keys_incl {V} key (v : V) (data : list ((Z * string) * V)) k :
  In k (dict_keys data) -> In k (dict_keys (dict_set key_eqb key v data)).
Proof.
  intros H. rewrite (dict_set_keys _ key_eqb_spec).
  destruct (dict_mem key_eqb key data); [assumption|].
  apply in_or_app. now left.
Qed.

Lemma dict_set_keys_In {V} key (v : V) (data : list ((Z * string) * V)) :
  In key (dict_keys (dict_set key_eqb key v data)).
Proof.
  rewrite (dict_set_keys _ key_eqb_spec).
  destruct (dict_mem key_eqb key data) eqn:E.
  - now apply (dict_mem_In _ key_eqb_spec).
  - apply in_or_app. right. now left.
Qed.

Lemma dict_get_Some_of_In {V} key (data : list ((Z * string) * V)) :
  In key (dict_keys data) -> exists v, dict_get key_eqb key data = Some v.
Proof.
  intros H. destruct (dict_get key_eqb key data) eqn:E; [eauto|].
  apply (dict_get_None _ key_eqb_spec) in E. contradiction.
Qed.

Lemma add_stage_to_annual_spec K season data stage data' :
  add_stage_to_annual season data stage = Ok data' ->
  data_wf K data -> NoDup K -> stage <> "anual"%string ->
  data_wf K data' /\
  (forall key, In key (dict_keys data) -> In key (dict_keys data')) /\
  forall key t,
    stats_at data' key t =
    if key_eqb key (season, "anual"%string)
    then add_stats (stats_at data (season, stage) t) (stats_at data key t)
    else stats_at data key t.
Proof.
  unfold add_stage_to_annual. intros H Hwf HK Hst.
  bind_inv H. rename x into table. bind_inv H. rename x into annual.
  bind_inv H. rename x into annual'. injection H as <-.
  unfold dict_item in H0, H1.
  destruct (dict_get key_eqb (season, stage) data) as [tb|] eqn:Et;
    [|discriminate]. injection H0 as ->.
  destruct (dict_get key_eqb (season, "anual"%string) data) as [an|] eqn:Ea;
    [|discriminate]. injection H1 as ->.
  assert (Hkt : map fst table = K) by (eapply data_wf_get; eauto).
  assert (Hka : map fst annual = K) by (eapply data_wf_get; eauto).
  destruct (annual_fold_spec _ _ _ H2) as [Hk Hs]; [now rewrite Hkt|].
  split; [|split].
  - apply data_wf_set; [assumption | congruence].
  - intros key. apply dict_set_keys_incl.
  - intros key t. destruct (key_eqb_spec key (season, "anual"%string)) as [->|Hne].
    + rewrite stats_at_set_same, Hs. unfold stats_at. now rewrite Et, Ea.
    + apply stats_at_set_other. congruence.
Qed.

Lemma add_stage_to_annual_total K season data stage :
  data_wf K data ->
  In (season, stage) (dict_keys data) ->
  In (season, "anual"%string) (dict_keys data) ->
  exists data', add_stage_to_annual season data stage = Ok data'.
Proof.
  intros Hwf Hs Ha. unfold add_stage_to_annual, dict_item.
  destruct (dict_get_Some_of_In _ _ Hs) as [table Et].
  destruct (dict_get_Some_of_In _ _ Ha) as [annual Ea].
  rewrite Et, Ea. simpl.
  destruct (annual_fold_total table annual) as [annual' H'].
  - rewrite (data_wf_get _ _ _ _ Hwf Et), (data_wf_get _ _ _ _ Hwf Ea).
    apply incl_refl.
  - rewrite H'. simpl. eauto.
Qed.

Lemma key_eqb_season season a b :
  key_eqb (season, a) (season, b) = String.eqb a b.
Proof. unfold key_eqb. simpl. now rewrite Z.eqb_refl. Qed.

(** ** Aggregator: the totals before they are stored *)

Lemma initial_data_spec tn season :
  data_wf (map fst tn) (initial_data tn season) /\
  (forall key t, stats_at (initial_data tn season) key t = zero_stats) /\
  (forall stage, In stage ["apertura"; "clausura"; "intermedio"]%string ->
     In (season, stage) (dict_keys (initial_data tn season))).
Proof.
  unfold initial_data. cbn [fold_left]. split; [|split].
  - repeat apply data_wf_set; try apply zero_table_keys.
    split; constructor.
  - intros key t.
    repeat match goal with
    | |- stats_at (dict_set _ ?k _ _) key t = _ =>
        destruct (key_eqb_spec k key) as [<-|?];
        [now rewrite stats_at_set_same, zero_table_get
        |rewrite stats_at_set_other by assumption]
    end.
    reflexivity.
  - intros stage [<-|[<-|[<-|[]]]].
    + do 2 apply dict_set_keys_incl. apply dict_set_keys_In.
    + apply dict_set_keys_incl. apply dict_set_keys_In.
    + apply dict_set_keys_In.
Qed.

Lemma standings_data_of_spec tn season ms data :
  standings_data_of tn season ms = Ok data ->
  NoDup (map fst tn) ->
  data_wf (map fst tn) data /\
  (forall stage, In stage STAGES -> In (season, stage) (dict_keys data)) /\
  (forall key t, stats_at data key t = final_stats season ms key t).
Proof.
  unfold standings_data_of. fold (initial_data tn season).
  intros H HK. bind_inv H. rename x into data1.
  destruct (initial_data_spec tn season) as [Hwf0 [Hz0 Hk0]].
  destruct (fold_matches_spec _ _ _ _ H0 Hwf0) as [Hwf1 [Hs1 Hk1]].
  simpl in H. bind_inv H. rename x into data3. bind_inv H. rename x into data4.
  injection H as <-.
  set (data2 := dict_set key_eqb (season, "anual"%string) (zero_table tn) data1) in *.
  assert (Hwf2 : data_wf (map fst tn) data2)
    by (apply data_wf_set; [assumption | apply zero_table_keys]).
  destruct (add_stage_to_annual_spec _ _ _ _ _ H1 Hwf2 HK) as [Hwf3 [Hk3 Hs3]];
    [discriminate|].
  destruct (add_stage_to_annual_spec _ _ _ _ _ H2 Hwf3 HK) as [Hwf4 [Hk4 Hs4]];
    [discriminate|].
  split; [assumption|]. split.
  - intros stage Hst. apply Hk4, Hk3. unfold STAGES in Hst.
    destruct Hst as [<-|[<-|[<-|[<-|[]]]]];
      try (apply dict_set_keys_incl, Hk1, Hk0; simpl; tauto).
    apply dict_set_keys_In.
  - assert (Hs2 : forall key t, stats_at data2 key t =
       if key_eqb key (season, "anual"%string) then zero_stats
       else tally key t ms).
    { intros key t. unfold data2.
      destruct (key_eqb_spec key (season, "anual"%string)) as [->|Hne].
      - now rewrite stats_at_set_same, zero_table_get.
      - rewrite stats_at_set_other by congruence.
        rewrite Hs1, Hz0. reflexivity. }
    intros key t. unfold final_stats. rewrite Hs4, Hs3.
    destruct (key_eqb_spec key (season, "anual"%string)) as [->|Hne].
    + rewrite !Hs3, !Hs2, !key_eqb_season. reflexivity.
    + rewrite Hs3.
      destruct (key_eqb_spec key (season, "anual"%string)); [contradiction|].
      rewrite Hs2.
      destruct (key_eqb_spec key (season, "anual"%string)); [contradiction|].
      reflexivity.
Qed.

Lemma standings_data_of_total tn season ms :
  NoDup (map fst tn) ->
  (forall m, In m ms -> In (home_team_id m) (map fst tn) /\
                        In (away_team_id m) (map fst tn)) ->
  exists data, standings_data_of tn season ms = Ok data.
Proof.
  intros HK Hms. unfold standings_data_of. fold (initial_data tn season).
  destruct (initial_data_spec tn season) as [Hwf0 [Hz0 Hk0]].
  destruct (fold_matches_total tn ms _ Hwf0 Hms) as [data1 H1].
  rewrite H1. simpl.
  destruct (fold_matches_spec _ _ _ _ H1 Hwf0) as [Hwf1 [Hs1 Hk1]].
  set (data2 := dict_set key_eqb (season, "anual"%string) (zero_table tn) data1).
  assert (Hwf2 : data_wf (map fst tn) data2)
    by (apply data_wf_set; [assumption | apply zero_table_keys]).
  destruct (add_stage_to_annual_total _ season data2 "apertura"%string Hwf2)
    as [data3 H3].
  { apply dict_set_keys_incl, Hk1, Hk0. simpl. tauto. }
  { apply dict_set_keys_In. }
  rewrite H3. simpl.
  destruct (add_stage_to_annual_spec _ _ _ _ _ H3 Hwf2 HK) as [Hwf3 [Hk3 _]];
    [discriminate|].
  destruct (add_stage_to_annual_total _ season data3 "clausura"%string Hwf3)
    as [data4 H4].
  { apply Hk3, dict_set_keys_incl, Hk1, Hk0. simpl. tauto. }
  { apply Hk3, dict_set_keys_In. }
  rewrite H4. simpl. eauto.
Qed.

(** ** Aggregator: the counts are counts *)

Lemma stats_ok_zero : stats_ok zero_stats.
Proof. unfold stats_ok. simpl. lia. Qed.

Lemma stats_ok_update gf ga s : stats_ok s -> stats_ok (update_side gf ga s).
Proof.
  unfold stats_ok, update_side. intros H.
  destruct (gf >? ga); [|destruct (gf =? ga)]; simpl; lia.
Qed.

Lemma stats_ok_add s1 s2 : stats_ok s1 -> stats_ok s2 -> stats_ok (add_stats s1 s2).
Proof. unfold stats_ok, add_stats. simpl. lia. Qed.

Lemma stats_ok_tally_step key t s m :
  stats_ok s -> stats_ok (tally_step key t s m).
Proof.
  intros H. unfold tally_step, involved_update.
  destruct (key_eqb _ key); [|assumption].
  destruct (home_team_id m =? t), (away_team_id m =? t);
    repeat apply stats_ok_update; assumption.
Qed.

Lemma stats_ok_tally key t ms : stats_ok (tally key t ms).
Proof.
  unfold tally. generalize stats_ok_zero. generalize zero_stats.
  induction ms as [|m ms IH]; simpl; intros s Hs; [assumption|].
  apply IH. now apply stats_ok_tally_step.
Qed.

Lemma stats_ok_final season ms key t : stats_ok (final_stats season ms key t).
Proof.
  unfold final_stats. destruct (key_eqb key _).
  - repeat apply stats_ok_add; try apply stats_ok_tally. apply stats_ok_zero.
  - apply stats_ok_tally.
Qed.

(** A team without a match in a stage keeps the zero totals. *)
Lemma tally_no_match key t ms :
  (forall m, In m ms -> plays_in key t m = false) -> tally key t ms = zero_stats.
Proof.
  unfold tally. generalize zero_stats.
  induction ms as [|m ms IH]; simpl; intros s H; [reflexivity|].
  assert (E : tally_step key t s m = s).
  { specialize (H m (or_introl eq_refl)). unfold plays_in in H.
    unfold tally_step, involved_update.
    destruct (key_eqb _ key); [|reflexivity]. simpl in H.
    apply orb_false_iff in H. destruct H as [-> ->]. reflexivity. }
  rewrite E. apply IH. intros; apply H; now right.
Qed.

(** ** Aggregator: one row *)

Lemma overflow_threshold_large : 4 <= float_overflow_threshold.
Proof. unfold float_overflow_threshold. apply Z.leb_le. vm_compute. reflexivity. Qed.

Lemma py_truediv_below a b :
  0 <= a -> 0 < b -> a < float_overflow_threshold * b ->
  exists q, py_truediv a b = Ok q.
Proof.
  intros Ha Hb Hab. unfold py_truediv.
  destruct (Z.eqb_spec b 0); [lia|].
  destruct (Z.eqb_spec a 0); [eauto|].
  destruct (Z.leb_spec (float_overflow_threshold * Z.abs b) (Z.abs a)) as [H|H];
    [|eauto].
  exfalso. rewrite !Z.abs_eq in H by lia. lia.
Qed.

Lemma py_truediv_total a b :
  0 <= a -> 0 < b -> a <= 3 * b -> exists q, py_truediv a b = Ok q.
Proof.
  intros Ha Hb Hab. apply py_truediv_below; try assumption.
  assert (H4 := overflow_threshold_large).
  assert (4 * b <= float_overflow_threshold * b)
    by (apply Z.mul_le_mono_nonneg_r; lia).
  lia.
Qed.

Section AggregatorRows.
Variable helpers : Helpers.

Lemma standings_row_spec db sy st t s r :
  standings_row helpers db sy st t s = Ok r -> row_of_stats sy st t s r.
Proof.
  unfold standings_row. intros H. bind_inv H. injection H as <-.
  unfold row_of_stats. simpl. repeat split; try reflexivity. eauto.
Qed.

Lemma standings_row_total db sy st t s :
  stats_ok s -> exists r, standings_row helpers db sy st t s = Ok r.
Proof.
  intros [Hw [Hd [Hl Hmp]]]. unfold standings_row.
  destruct (py_truediv_total (st_w s * 3 + st_d s)
              (if st_mp s =? 0 then 1 else st_mp s)) as [q Hq].
  - lia.
  - destruct (Z.eqb_spec (st_mp s) 0); lia.
  - destruct (Z.eqb_spec (st_mp s) 0); lia.
  - rewrite Hq. simpl. eauto.
Qed.

(** ** Aggregator: writing the rows *)

Lemma set_standings_twice db rows rows' :
  set_standings (set_standings db rows) rows' = set_standings db rows'.
Proof. reflexivity. Qed.

Lemma insert_all_spec rows : forall db db',
  foldM insert_standings db rows = Ok db' ->
  db' = set_standings db (standings db ++ rows).
Proof.
  induction rows as [|r rows IH]; simpl; intros db db' H.
  - injection H as <-. rewrite app_nil_r. now destruct db.
  - bind_inv H. unfold insert_standings in H0.
    destruct (existsb _ _); [discriminate|]. injection H0 as <-.
    rewrite (IH _ _ H). simpl. now rewrite <- app_assoc.
Qed.

Lemma same_standings_key_spec r1 r2 :
  same_standings_key r1 r2 = true <-> standings_pk r1 = standings_pk r2.
Proof.
  unfold same_standings_key, standings_pk.
  rewrite !andb_true_iff, !Z.eqb_eq, String.eqb_eq.
  split; [intros [[-> ->] ->]; reflexivity | intros [= -> -> ->]; auto].
Qed.

Lemma insert_all_total rows : forall db,
  NoDup (map standings_pk rows) ->
  (forall r r', In r rows -> In r' (standings db) ->
     standings_pk r <> standings_pk r') ->
  exists db', foldM insert_standings db rows = Ok db'.
Proof.
  induction rows as [|r rows IH]; simpl; intros db Hnd Hfresh; [eauto|].
  inversion Hnd as [|? ? Hnin Hnd']; subst.
  unfold insert_standings at 1.
  destruct (existsb (same_standings_key r) (standings db)) eqn:E.
  - exfalso. apply existsb_exists in E. destruct E as [r' [Hr' E]].
    apply same_standings_key_spec in E. exact (Hfresh r r' (or_introl eq_refl) Hr' E).
  - simpl. apply IH; [assumption|]. simpl. intros x x' Hx Hx'.
    apply in_app_or in Hx'. destruct Hx' as [Hx'|[<-|[]]].
    + apply Hfresh; auto.
    + intros Epk. apply Hnin. rewrite <- Epk. now apply in_map.
Qed.

Lemma store_stage_spec tn db entry db' :
  store_stage helpers tn db entry = Ok db' ->
  exists block, block_for tn entry block /\
                db' = set_standings db (standings db ++ block).
Proof.
  destruct entry as [[sy st] table]. unfold store_stage. intros H.
  bind_inv H. rename x into rows.
  exists (sort_by (rank_leb tn) rows). split.
  - exists rows. split; [|reflexivity]. simpl.
    apply mapM_Forall2 in H0.
    eapply Forall2_impl; [|exact H0]. simpl. intros kv r Hr.
    eapply standings_row_spec; eauto.
  - now apply insert_all_spec.
Qed.

Lemma store_all_spec tn data : forall db db',
  foldM (store_stage helpers tn) db data = Ok db' ->
  exists blocks, Forall2 (block_for tn) data blocks /\
                 db' = set_standings db (standings db ++ concat blocks).
Proof.
  induction data as [|entry data IH]; simpl; intros db db' H.
  - injection H as <-. exists []. split; [constructor|].
    simpl. rewrite app_nil_r. now destruct db.
  - bind_inv H. rename x into db1.
    destruct (store_stage_spec _ _ _ _ H0) as [block [Hb ->]].
    destruct (IH _ _ H) as [blocks [Hbs ->]].
    exists (block :: blocks). split; [now constructor|].
    simpl. now rewrite <- app_assoc.
Qed.

Lemma block_for_keys tn entry block r :
  block_for tn entry block -> In r block ->
  (s_season_year r, s_stage_code r) = fst entry /\
  In (s_team_id r) (map fst (snd entry)).
Proof.
  intros [rows [HF ->]] Hr. apply sort_by_In in Hr.
  destruct (Forall2_In_r _ _ _ _ HF Hr) as [kv [Hkv Hrow]].
  destruct Hrow as [E1 [E2 [E3 _]]]. split.
  - rewrite E1, E2. now destruct (fst entry).
  - rewrite E3. now apply in_map.
Qed.

Lemma block_for_team_ids tn entry block :
  block_for tn entry block ->
  Permutation (map s_team_id block) (map fst (snd entry)).
Proof.
  intros [rows [HF ->]].
  rewrite (Permutation_map s_team_id (sort_by_perm (rank_leb tn) rows)).
  assert (E : map fst (snd entry) = map s_team_id rows).
  { eapply Forall2_map_eq; [exact HF|]. intros kv r Hr.
    destruct Hr as [_ [_ [E3 _]]]. now rewrite E3. }
  now rewrite E.
Qed.

Lemma store_stage_total tn db entry :
  NoDup (map fst (snd entry)) ->
  (forall kv, In kv (snd entry) -> stats_ok (snd kv)) ->
  (forall r, In r (standings db) ->
     (s_season_year r, s_stage_code r) <> fst entry) ->
  exists db', store_stage helpers tn db entry = Ok db'.
Proof.
  destruct entry as [[sy st] table]. simpl. intros Hnd Hok Hfresh.
  unfold store_stage.
  destruct (mapM_total (fun kv => standings_row helpers db sy st (fst kv) (snd kv))
              table) as [rows Hrows].
  { intros kv Hkv. apply standings_row_total. auto. }
  rewrite Hrows. simpl.
  assert (Hb : block_for tn ((sy, st), table) (sort_by (rank_leb tn) rows)).
  { exists rows. split; [|reflexivity]. simpl.
    apply mapM_Forall2 in Hrows.
    eapply Forall2_impl; [|exact Hrows]. simpl. intros kv r Hr.
    eapply standings_row_spec; eauto. }
  apply insert_all_total.
  - assert (Hp := block_for_team_ids _ _ _ Hb). simpl in Hp.
    assert (Hnd' : NoDup (map s_team_id (sort_by (rank_leb tn) rows)))
      by (eapply Permutation_NoDup; [symmetry; exact Hp | exact Hnd]).
    clear - Hnd'. induction (sort_by (rank_leb tn) rows) as [|r l IH];
      simpl in *; [constructor|].
    inversion Hnd' as [|? ? Hnin Hnd'']; subst. constructor; [|auto].
    intros Hin. apply Hnin. apply in_map_iff in Hin.
    destruct Hin as [r' [E Hr']]. apply in_map_iff. exists r'. split; [|assumption].
    unfold standings_pk in E. congruence.
  - intros r r' Hr Hr' E.
    destruct (block_for_keys _ _ _ _ Hb Hr) as [Ek _]. simpl in Ek.
    apply (Hfresh r' Hr'). simpl. rewrite <- Ek.
    unfold standings_pk in E. congruence.
Qed.

Lemma store_all_total tn data : forall db,
  NoDup (dict_keys data) ->
  (forall entry, In entry data ->
     NoDup (map fst (snd entry)) /\
     forall kv, In kv (snd entry) -> stats_ok (snd kv)) ->
  (forall r entry, In r (standings db) -> In entry data ->
     (s_season_year r, s_stage_code r) <> fst entry) ->
  exists db', foldM (store_stage helpers tn) db data = Ok db'.
Proof.
  induction data as [|entry data IH]; simpl; intros db Hnd Hok Hfresh; [eauto|].
  unfold dict_keys in Hnd. simpl in Hnd.
  inversion Hnd as [|? ? Hnin Hnd']; subst.
  destruct (Hok entry (or_introl eq_refl)) as [Hnd1 Hok1].
  destruct (store_stage_total tn db entry Hnd1 Hok1) as [db1 H1].
  { intros r Hr. apply Hfresh; auto. }
  rewrite H1. simpl.
  destruct (store_stage_spec _ _ _ _ H1) as [block [Hb ->]].
  apply IH; [assumption | intros; apply Hok; now right |].
  simpl. intros r e Hr He. apply in_app_or in Hr. destruct Hr as [Hr|Hr].
  - apply Hfresh; auto.
  - destruct (block_for_keys _ _ _ _ Hb Hr) as [Ek _]. rewrite Ek.
    intros E. apply Hnin. apply in_map_iff. exists e.
    split; [symmetry; exact E | assumption].
Qed.

End AggregatorRows.

(** ** Aggregator: reading a stage back from the store *)

Lemma filter_all {A} (f : A -> bool) l :
  (forall x, In x l -> f x = true) -> filter f l = l.
Proof.
  induction l as [|x l IH]; simpl; intros H; [reflexivity|].
  rewrite (H x) by now left. f_equal. apply IH. intros; apply H; now right.
Qed.

Lemma filter_none {A} (f : A -> bool) l :
  (forall x, In x l -> f x = false) -> filter f l = [].
Proof.
  induction l as [|x l IH]; simpl; intros H; [reflexivity|].
  rewrite (H x) by now left. apply IH. intros; apply H; now right.
Qed.

Lemma Forall2_map_l {A B C} (f : A -> C) (R : C -> B -> Prop) l l' :
  Forall2 (fun a b => R (f a) b) l l' -> Forall2 R (map f l) l'.
Proof. induction 1; simpl; constructor; auto. Qed.

Lemma Forall2_impl_In {A B} (R R' : A -> B -> Prop) l l' :
  Forall2 R l l' -> (forall a b, In a l -> R a b -> R' a b) -> Forall2 R' l l'.
Proof.
  induction 1 as [|a b l l' HR H IH]; intros Himp; constructor.
  - apply Himp; [now left | assumption].
  - apply IH. intros; apply Himp; [now right | assumption].
Qed.

Lemma stage_key_eqb_spec sy st r :
  reflect ((s_season_year r, s_stage_code r) = (sy, st)) (stage_key_eqb sy st r).
Proof.
  unfold stage_key_eqb.
  destruct (Z.eqb_spec (s_season_year r) sy), (String.eqb_spec (s_stage_code r) st);
    simpl; constructor; congruence.
Qed.

Lemma block_filter tn entry block sy st :
  block_for tn entry block ->
  filter (stage_key_eqb sy st) block =
  if key_eqb (sy, st) (fst entry) then block else [].
Proof.
  intros Hb. destruct (key_eqb_spec (sy, st) (fst entry)) as [E|E].
  - apply filter_all. intros r Hr.
    destruct (block_for_keys _ _ _ _ Hb Hr) as [Ek _].
    destruct (stage_key_eqb_spec sy st r); congruence.
  - apply filter_none. intros r Hr.
    destruct (block_for_keys _ _ _ _ Hb Hr) as [Ek _].
    destruct (stage_key_eqb_spec sy st r); congruence.
Qed.

Lemma blocks_filter_absent tn data blocks sy st :
  Forall2 (block_for tn) data blocks ->
  ~ In (sy, st) (dict_keys data) ->
  filter (stage_key_eqb sy st) (concat blocks) = [].
Proof.
  unfold dict_keys. induction 1 as [|e b data blocks Hb H IH]; simpl; intros Hn;
    [reflexivity|].
  rewrite filter_app, (block_filter _ _ _ sy st Hb).
  destruct (key_eqb_spec (sy, st) (fst e)) as [E|E];
    [exfalso; apply Hn; left; now symmetry|].
  simpl. apply IH. tauto.
Qed.

Lemma blocks_filter tn data blocks sy st table :
  Forall2 (block_for tn) data blocks ->
  NoDup (dict_keys data) ->
  dict_get key_eqb (sy, st) data = Some table ->
  exists block, block_for tn ((sy, st), table) block /\
    filter (stage_key_eqb sy st) (concat blocks) = block.
Proof.
  unfold dict_keys.
  induction 1 as [|e b data blocks Hb H IH]; simpl; intros Hnd Hget;
    [discriminate|].
  inversion Hnd as [|? ? Hnin Hnd']; subst.
  destruct e as [k tb]. simpl in *.
  rewrite filter_app, (block_filter _ _ _ sy st Hb). simpl.
  destruct (key_eqb_spec (sy, st) k) as [<-|E].
  - injection Hget as <-. exists b. split; [assumption|].
    rewrite (blocks_filter_absent _ _ _ _ _ H Hnin). apply app_nil_r.
  - simpl. apply IH; assumption.
Qed.

(** ** Aggregator: [team_names] *)

Lemma dict_of_list_keys_NoDup {V} (kvs : list (Z * V)) :
  NoDup (dict_keys (dict_of_list Z.eqb kvs)).
Proof.
  unfold dict_of_list.
  assert (G : forall acc : list (Z * V), NoDup (dict_keys acc) ->
    NoDup (dict_keys (fold_left
      (fun d kv => dict_set Z.eqb (fst kv) (snd kv) d) kvs acc))).
  { induction kvs as [|kv kvs IH]; simpl; intros acc Hacc; [assumption|].
    apply IH. now apply (dict_set_keys_NoDup _ Z.eqb_spec). }
  apply G. constructor.
Qed.

Lemma team_names_NoDup db : NoDup (map fst (team_names_of db)).
Proof. apply dict_of_list_keys_NoDup. Qed.

Lemma team_names_of_pk db :
  NoDup (map t_id (teams db)) ->
  team_names_of db = map (fun t => (t_id t, t_name t)) (teams db).
Proof.
  intros H. unfold team_names_of. apply (dict_of_list_NoDup _ Z.eqb_spec).
  now rewrite map_map.
Qed.

Lemma team_names_keys_pk db :
  NoDup (map t_id (teams db)) ->
  map fst (team_names_of db) = map t_id (teams db).
Proof. intros H. rewrite team_names_of_pk by assumption. now rewrite map_map. Qed.

(** ** Aggregator: what [_build_and_store_standings] stores *)

Section AggregatorSpec.
Variable helpers : Helpers.

(** For each of the four stages the persisted table is the sorted list of
    one row per key of [team_names], each row derived from the final
    totals of its team. *)
Lemma build_spec db season ms db' :
  _build_and_store_standings helpers db season ms = Ok db' ->
  let tn := team_names_of db in
  (teams db' = teams db /\ matches db' = matches db /\
   match_events db' = match_events db /\ players db' = players db) /\
  forall stage, In stage STAGES ->
    exists rows,
      stage_rows db' season stage = sort_by (rank_leb tn) rows /\
      Forall2 (fun t r =>
                 row_of_stats season stage t
                   (final_stats season ms (season, stage) t) r)
              (map fst tn) rows.
Proof.
  unfold _build_and_store_standings. intros H. cbv zeta in *.
  set (tn := team_names_of db) in *.
  bind_inv H. rename x into data.
  destruct (standings_data_of_spec _ _ _ _ H0 (team_names_NoDup db))
    as [Hwf [Hkeys Hstats]]. fold tn in Hwf.
  destruct (store_all_spec _ _ _ _ _ H) as [blocks [Hbs ->]].
  split; [repeat split|].
  intros stage Hst.
  destruct (dict_get_Some_of_In _ _ (Hkeys stage Hst)) as [table Hget].
  destruct (blocks_filter _ _ _ season stage table Hbs (proj1 Hwf) Hget)
    as [block [Hb Hf]].
  destruct Hb as [rows [HF ->]]. exists rows. split.
  - unfold stage_rows. simpl. rewrite filter_app.
    fold (stage_key_eqb season stage). rewrite Hf.
    rewrite filter_none; [reflexivity|].
    intros r Hr. apply filter_In in Hr. destruct Hr as [_ Hr].
    unfold stage_key_eqb. destruct (s_season_year r =? season);
      [discriminate | reflexivity].
  - assert (Hk : map fst table = map fst tn) by (eapply data_wf_get; eauto).
    rewrite <- Hk. apply Forall2_map_l. simpl in HF.
    eapply Forall2_impl_In; [exact HF|]. simpl. intros [t s] r Hin Hrow.
    simpl in *.
    assert (E : s = final_stats season ms (season, stage) t).
    { rewrite <- Hstats. unfold stats_at, dict_get_default. rewrite Hget.
      rewrite (dict_In_get _ Z.eqb_spec t s table); [reflexivity| |assumption].
      unfold dict_keys. rewrite Hk. apply team_names_NoDup. }
    now rewrite <- E.
Qed.

End AggregatorSpec.

(** ** Aggregator: it does store *)

Lemma dict_set_keys_Forall {V} (P : Z * string -> Prop) key (v : V)
  (data : list ((Z * string) * V)) :
  Forall P (dict_keys data) -> P key ->
  Forall P (dict_keys (dict_set key_eqb key v data)).
Proof.
  intros H Hk. rewrite (dict_set_keys _ key_eqb_spec).
  destruct (dict_mem key_eqb key data); [assumption|].
  apply Forall_app. split; [assumption | repeat constructor; assumption].
Qed.

Lemma fold_match_keys (P : Z * string -> Prop) tn data m data' :
  fold_match tn data m = Ok data' ->
  Forall P (dict_keys data) -> P (season_year m, stage_code m) ->
  Forall P (dict_keys data').
Proof.
  unfold fold_match. intros H HP Hm.
  bind_inv H. bind_inv H. bind_inv H. injection H as <-.
  apply dict_set_keys_Forall; [|assumption].
  destruct (dict_mem key_eqb _ data); [assumption|].
  now apply dict_set_keys_Forall.
Qed.

Lemma fold_matches_keys (P : Z * string -> Prop) tn ms : forall data data',
  foldM (fold_match tn) data ms = Ok data' ->
  Forall P (dict_keys data) ->
  (forall m, In m ms -> P (season_year m, stage_code m)) ->
  Forall P (dict_keys data').
Proof.
  induction ms as [|m ms IH]; simpl; intros data data' H HP Hms.
  - now injection H as <-.
  - bind_inv H. eapply IH; [exact H | | intros; apply Hms; now right].
    eapply fold_match_keys; eauto.
Qed.

Lemma add_stage_to_annual_keys (P : Z * string -> Prop) season data stage data' :
  add_stage_to_annual season data stage = Ok data' ->
  Forall P (dict_keys data) -> P (season, "anual"%string) ->
  Forall P (dict_keys data').
Proof.
  unfold add_stage_to_annual. intros H HP Ha.
  bind_inv H. bind_inv H. bind_inv H. injection H as <-.
  now apply dict_set_keys_Forall.
Qed.

Lemma standings_data_of_keys tn season ms data :
  standings_data_of tn season ms = Ok data ->
  (forall m, In m ms -> season_year m = season) ->
  Forall (fun key => fst key = season) (dict_keys data).
Proof.
  unfold standings_data_of. intros H Hms.
  bind_inv H. rename x into data1. simpl in H.
  bind_inv H. bind_inv H. injection H as <-.
  eapply add_stage_to_annual_keys; [eassumption | | reflexivity].
  eapply add_stage_to_annual_keys; [eassumption | | reflexivity].
  apply dict_set_keys_Forall; [|reflexivity].
  eapply fold_matches_keys; [eassumption | | intros m Hm; now apply Hms].
  cbn [fold_left]. repeat apply dict_set_keys_Forall; try reflexivity.
  constructor.
Qed.

Lemma data_entry_stats tn season ms data key table t s :
  standings_data_of tn season ms = Ok data ->
  NoDup (map fst tn) ->
  In (key, table) data -> In (t, s) table ->
  map fst table = map fst tn /\ s = final_stats season ms key t.
Proof.
  intros H HK He Hkv.
  destruct (standings_data_of_spec _ _ _ _ H HK) as [Hwf [_ Hstats]].
  assert (Hget : dict_get key_eqb key data = Some table)
    by (apply (dict_In_get _ key_eqb_spec); [apply Hwf | assumption]).
  assert (Hk : map fst table = map fst tn) by (eapply data_wf_get; eauto).
  split; [assumption|].
  rewrite <- Hstats. unfold stats_at, dict_get_default. rewrite Hget.
  rewrite (dict_In_get _ Z.eqb_spec t s table); [reflexivity| |assumption].
  unfold dict_keys. now rewrite Hk.
Qed.

Section AggregatorTotal.
Variable helpers : Helpers.

(** When every match is of the season and between teams of the store, the
    aggregator raises nothing. *)
Lemma build_total db season ms :
  (forall m, In m ms ->
     season_year m = season /\
     In (home_team_id m) (map fst (team_names_of db)) /\
     In (away_team_id m) (map fst (team_names_of db))) ->
  exists db', _build_and_store_standings helpers db season ms = Ok db'.
Proof.
  intros Hms. unfold _build_and_store_standings.
  set (tn := team_names_of db) in *.
  assert (HK : NoDup (map fst tn)) by apply team_names_NoDup.
  destruct (standings_data_of_total tn season ms HK) as [data Hdata].
  { intros m Hm. destruct (Hms m Hm) as [_ ?]. assumption. }
  rewrite Hdata. simpl.
  destruct (standings_data_of_spec _ _ _ _ Hdata HK) as [Hwf _].
  assert (Hseason := standings_data_of_keys _ _ _ _ Hdata
                       (fun m Hm => proj1 (Hms m Hm))).
  apply store_all_total.
  - apply Hwf.
  - intros [key table] He. simpl. split.
    + destruct Hwf as [_ Hall]. rewrite Forall_forall in Hall.
      specialize (Hall _ He). simpl in Hall. rewrite Hall. assumption.
    + intros [t s] Hkv. simpl.
      destruct (data_entry_stats _ _ _ _ _ _ _ _ Hdata HK He Hkv) as [_ ->].
      apply stats_ok_final.
  - simpl. intros r [key table] Hr He. simpl.
    apply filter_In in Hr. destruct Hr as [_ Hr].
    rewrite Forall_forall in Hseason.
    assert (Ek : fst key = season)
      by (apply Hseason; unfold dict_keys; apply in_map_iff;
          exists (key, table); auto).
    intros E. rewrite <- E in Ek. simpl in Ek.
    rewrite Ek, Z.eqb_refl in Hr. discriminate.
Qed.

End AggregatorTotal.

(** ** Aggregator: the row of a team *)

Lemma filter_singleton {A} (f : A -> Z) l x :
  NoDup (map f l) -> In x l -> filter (fun y => f y =? f x) l = [x].
Proof.
  induction l as [|y l IH]; simpl; intros Hnd Hin; [contradiction|].
  inversion Hnd as [|? ? Hnin Hnd']; subst.
  destruct Hin as [->|Hin].
  - rewrite Z.eqb_refl. f_equal. apply filter_none. intros z Hz.
    apply Z.eqb_neq. intros E. apply Hnin. rewrite <- E. now apply in_map.
  - destruct (Z.eqb_spec (f y) (f x)) as [E|E]; [|auto].
    exfalso. apply Hnin. rewrite E. now apply in_map.
Qed.

Lemma dict_of_list_keys_In {V} (kvs : list (Z * V)) k :
  In k (map fst kvs) <-> In k (dict_keys (dict_of_list Z.eqb kvs)).
Proof.
  unfold dict_of_list.
  assert (G : forall acc : list (Z * V),
    In k (dict_keys (fold_left
      (fun d kv => dict_set Z.eqb (fst kv) (snd kv) d) kvs acc))
    <-> In k (dict_keys acc) \/ In k (map fst kvs)).
  { induction kvs as [|kv kvs IH]; simpl; intros acc; [tauto|].
    rewrite IH, (dict_set_keys _ Z.eqb_spec).
    destruct (dict_mem Z.eqb (fst kv) acc) eqn:E.
    - apply (dict_mem_In _ Z.eqb_spec) in E. split; [tauto|].
      intros [H|[<-|H]]; auto.
    - rewrite in_app_iff. simpl. tauto. }
  rewrite G. simpl. tauto.
Qed.

Lemma team_names_keys_In db t :
  In t (map t_id (teams db)) <-> In t (map fst (team_names_of db)).
Proof.
  unfold team_names_of. split; intros H.
  - apply (proj1 (dict_of_list_keys_In _ t)). now rewrite map_map.
  - apply (proj2 (dict_of_list_keys_In _ t)) in H. now rewrite map_map in H.
Qed.


Section AggregatorRowsOfTeams.
Variable helpers : Helpers.

Lemma build_rows db season ms db' :
  _build_and_store_standings helpers db season ms = Ok db' ->
  forall stage, In stage STAGES ->
    NoDup (map s_team_id (stage_rows db' season stage)) /\
    (forall r, In r (stage_rows db' season stage) ->
       In (s_team_id r) (map t_id (teams db)) /\
       row_of_stats season stage (s_team_id r)
         (final_stats season ms (season, stage) (s_team_id r)) r) /\
    (forall t, In t (map t_id (teams db)) ->
       exists r, team_rows db' season stage t = [r] /\
                 In r (stage_rows db' season stage) /\ s_team_id r = t).
Proof.
  intros H stage Hst.
  destruct (build_spec _ _ _ _ _ H) as [_ Hspec].
  destruct (Hspec stage Hst) as [rows [Erows HF]].
  assert (Hids : map s_team_id rows = map fst (team_names_of db)).
  { symmetry. rewrite <- (map_id (map fst (team_names_of db))).
    apply (Forall2_map_eq (fun t => t) s_team_id _ _ _ HF).
    intros t r [_ [_ [E _]]]. now rewrite E. }
  assert (Hperm : Permutation (map s_team_id (stage_rows db' season stage))
                              (map fst (team_names_of db))).
  { rewrite Erows, <- Hids. apply Permutation_map, sort_by_perm. }
  assert (Hnd : NoDup (map s_team_id (stage_rows db' season stage)))
    by (eapply Permutation_NoDup; [symmetry; exact Hperm|];
        apply team_names_NoDup).
  split; [assumption|]. split.
  - intros r Hr. rewrite Erows in Hr. apply sort_by_In in Hr.
    destruct (Forall2_In_r _ _ _ _ HF Hr) as [t [Ht Hrow]].
    assert (E : s_team_id r = t) by (destruct Hrow as [_ [_ [E _]]]; exact E).
    rewrite E. split; [now apply team_names_keys_In | assumption].
  - intros t Ht. apply team_names_keys_In in Ht.
    apply (Permutation_in _ (Permutation_sym Hperm)) in Ht.
    apply in_map_iff in Ht. destruct Ht as [r [E Hr]].
    exists r. split; [|auto]. unfold team_rows. rewrite <- E.
    now apply filter_singleton.
Qed.

Lemma build_total_of_season db season ms :
  matches_of_season db season ms ->
  exists db', _build_and_store_standings helpers db season ms = Ok db'.
Proof.
  intros Hms. apply build_total. intros m Hm.
  destruct (Hms m Hm) as [Hs [Hh Ha]].
  repeat split; try assumption; now apply team_names_keys_In.
Qed.

(** The row of team [t] in a stage, with its fields read off the final
    totals. *)
Lemma build_team_row db season ms db' stage t :
  _build_and_store_standings helpers db season ms = Ok db' ->
  In stage STAGES -> In t (map t_id (teams db)) ->
  exists r, team_rows db' season stage t = [r] /\
    row_of_stats season stage t (final_stats season ms (season, stage) t) r.
Proof.
  intros H Hst Ht.
  destruct (build_rows _ _ _ _ H stage Hst) as [_ [Hrows Hteam]].
  destruct (Hteam t Ht) as [r [E [Hr Et]]].
  exists r. split; [assumption|].
  destruct (Hrows r Hr) as [_ Hrow]. now rewrite Et in Hrow.
Qed.

End AggregatorRowsOfTeams.

(** ** Aggregator: the stated properties *)




Example example_matches_of_season :
  matches_of_season example_db 2024 example_matches.
Proof.
  intros m Hm. simpl in Hm.
  repeat (destruct Hm as [<-|Hm]; [simpl; intuition lia|]). contradiction.
Qed.

Section AggregatorClaims.
Variable helpers : Helpers.



(** C5. After the aggregator has run on the matches of a season, in each
    of the stages apertura, clausura, intermedio and anual every team of
    the store has exactly one persisted row, the rows are rows of teams
    of the store, and a team without a match in the stage has all its
    counting fields zero. *)
Theorem every_team_in_every_stage db season ms :
  matches_of_season db season ms ->
  exists db',
    _build_and_store_standings helpers db season ms = Ok db' /\
    teams db' = teams db /\
    forall stage, In stage STAGES ->
      (forall t, In t (map t_id (teams db)) ->
         exists r, team_rows db' season stage t = [r] /\
           (played_none season ms stage t ->
            s_mp r = 0 /\ s_w r = 0 /\ s_d r = 0 /\ s_l r = 0 /\
            s_gf r = 0 /\ s_ga r = 0 /\ s_gd r = 0 /\ s_pts r = 0)) /\
      (forall r, In r (stage_rows db' season stage) ->
         In (s_team_id r) (map t_id (teams db))).
Proof.
  intros Hms. destruct (build_total_of_season helpers db season ms Hms) as [db' H].
  exists db'. split; [assumption|].
  split; [exact (proj1 (proj1 (build_spec helpers _ _ _ _ H)))|].
  intros stage Hst. split.
  - intros t Ht.
    destruct (build_team_row helpers _ _ _ _ stage t H Hst Ht) as [r [Er Hrow]].
    exists r. split; [assumption|]. intros Hnone.
    assert (Ez : final_stats season ms (season, stage) t = zero_stats).
    { unfold final_stats. rewrite key_eqb_season.
      unfold played_none, _stages_for_query in Hnone.
      destruct (String.eqb stage "anual").
      - rewrite !tally_no_match; [reflexivity | |];
          intros m Hm; apply Hnone; simpl; auto.
      - apply tally_no_match. intros m Hm. apply Hnone; simpl; auto. }
    rewrite Ez in Hrow.
    destruct Hrow as (_ & _ & _ & Emp & Ew & Ed & El & Egf & Ega & Egd & Epts & _).
    simpl in *. repeat split; assumption.
  - intros r Hr.
    destruct (build_rows helpers _ _ _ _ H stage Hst) as [_ [Hrows _]].
    exact (proj1 (Hrows r Hr)).
Qed.

End AggregatorClaims.



Lemma every_team_in_every_stage_witness :
  exists db',
    _build_and_store_standings no_helpers example_db 2024 example_matches
    = Ok db' /\
    exists r, team_rows db' 2024 "apertura" 3 = [r] /\ s_mp r = 0 /\ s_pts r = 0.
Proof.
  destruct (every_team_in_every_stage no_helpers example_db 2024
              example_matches example_matches_of_season) as [db' [H [_ Hall]]].
  exists db'. split; [exact H|].
  destruct (Hall "apertura"%string) as [Hteam _]; [simpl; tauto|].
  destruct (Hteam 3) as [r [Er Hz]]; [simpl; tauto|].
  exists r. split; [assumption|].
  assert (Hnone : played_none 2024 example_matches "apertura" 3).
  { intros m st Hm Hst. simpl in Hst. destruct Hst as [<-|[]].
    simpl in Hm.
    repeat (destruct Hm as [<-|Hm]; [reflexivity|]). contradiction. }
  destruct (Hz Hnone) as [? [_ [_ [_ [_ [_ [_ ?]]]]]]]. split; assumption.
Defined.

(** ** Ranked table: the order *)

Lemma OrderCmp_rank (name : StandingsRow -> string) :
  OrderCmp (fun r1 r2 => rank_compare (name r1) (name r2) r1 r2).
Proof.
  unfold rank_compare.
  apply (OrderCmp_then (fun x y => - s_pts x ?= - s_pts y)); [apply OrderCmp_Z_desc|].
  apply (OrderCmp_then (fun x y => - s_gd x ?= - s_gd y)); [apply OrderCmp_Z_desc|].
  apply (OrderCmp_then (fun x y => - s_gf x ?= - s_gf y)); [apply OrderCmp_Z_desc|].
  apply OrderCmp_string.
Qed.

Lemma OrderCmp_standings db : OrderCmp (standings_compare db).
Proof. apply (OrderCmp_rank (fun r => team_name_of db (s_team_id r))). Qed.

Lemma OrderCmp_table : OrderCmp table_compare.
Proof.
  unfold table_compare, rank_compare.
  apply (OrderCmp_then (fun x y => - s_pts (fst x) ?= - s_pts (fst y)));
    [apply (OrderCmp_Z_desc (fun x => s_pts (fst x)))|].
  apply (OrderCmp_then (fun x y => - s_gd (fst x) ?= - s_gd (fst y)));
    [apply (OrderCmp_Z_desc (fun x => s_gd (fst x)))|].
  apply (OrderCmp_then (fun x y => - s_gf (fst x) ?= - s_gf (fst y)));
    [apply (OrderCmp_Z_desc (fun x => s_gf (fst x)))|].
  apply (OrderCmp_string (fun x => t_name (snd x))).
Qed.

Lemma OrderCmp_table_row : OrderCmp table_row_compare.
Proof.
  unfold table_row_compare.
  apply (OrderCmp_then (fun x y => - tr_pts x ?= - tr_pts y)); [apply OrderCmp_Z_desc|].
  apply (OrderCmp_then (fun x y => - tr_gd x ?= - tr_gd y)); [apply OrderCmp_Z_desc|].
  apply (OrderCmp_then (fun x y => - tr_gf x ?= - tr_gf y)); [apply OrderCmp_Z_desc|].
  apply OrderCmp_string.
Qed.

Lemma sort_by_sorted_by {A} (c : A -> A -> comparison) l :
  OrderCmp c -> sorted_by c (sort_by (fun x y => not_gt (c x y)) l).
Proof.
  intros Hc. unfold sorted_by.
  apply (sort_by_sorted (fun x y => not_gt (c x y))).
  - apply (order_leb_total c Hc).
  - apply (order_leb_trans c Hc).
Qed.

(** In a sorted list an element that compares strictly smaller stands
    strictly earlier. *)
Lemma sorted_by_before {A} (c : A -> A -> comparison) l d i j :
  OrderCmp c -> sorted_by c l ->
  (i < length l)%nat -> (j < length l)%nat ->
  c (nth i l d) (nth j l d) = Lt -> (i < j)%nat.
Proof.
  intros Hc Hs Hi Hj E.
  destruct (Nat.lt_total i j) as [H|[H|H]]; [assumption | |].
  - subst j. assert (E' := cmp_antisym Hc (nth i l d) (nth i l d)).
    rewrite E in E'. discriminate.
  - assert (H' := StronglySorted_nth _ l d j i Hs H Hi). simpl in H'.
    rewrite (order_lt_not_leb c Hc _ _ E) in H'. discriminate.
Qed.

Lemma sorted_by_map {A B} (f : A -> B) (cA : A -> A -> comparison)
  (cB : B -> B -> comparison) l :
  (forall x y, cB (f x) (f y) = cA x y) ->
  sorted_by cA l -> sorted_by cB (map f l).
Proof.
  intros Hf. unfold sorted_by. induction 1 as [|x l Hs IH Hall]; simpl;
    constructor; [assumption|].
  rewrite Forall_forall in *. intros y Hy. apply in_map_iff in Hy.
  destruct Hy as [z [<- Hz]]. rewrite Hf. auto.
Qed.

(** ** Ranked table: [compute_table] *)

Lemma nth_map_in {A B} (f : A -> B) l i d d' :
  (i < length l)%nat -> nth i (map f l) d = f (nth i l d').
Proof.
  intros Hi. rewrite nth_indep with (d' := f d') by now rewrite length_map.
  apply map_nth.
Qed.

Lemma enumerate_from_nth {A} (l : list A) start i d :
  (i < length l)%nat ->
  nth i (enumerate_from start l) (O, d) = ((start + i)%nat, nth i l d).
Proof.
  intros Hi. unfold enumerate_from.
  rewrite combine_nth by apply length_seq.
  now rewrite seq_nth.
Qed.

Lemma enumerate_from_length {A} (l : list A) start :
  length (enumerate_from start l) = length l.
Proof.
  unfold enumerate_from. rewrite length_combine, length_seq. apply Nat.min_id.
Qed.

Lemma compute_table_length db now season stage :
  length (tb_rows (compute_table db now season stage)) =
  length (ranked_rows db season stage).
Proof. simpl. now rewrite length_map, enumerate_from_length. Qed.

Lemma compute_table_nth db now season stage i d x :
  (i < length (ranked_rows db season stage))%nat ->
  nth i (tb_rows (compute_table db now season stage)) d =
  normalize_row (S i) (nth i (ranked_rows db season stage) x).
Proof.
  intros Hi. simpl.
  rewrite nth_map_in with (d' := (O, x)) by now rewrite enumerate_from_length.
  rewrite enumerate_from_nth by assumption. reflexivity.
Qed.

Lemma ranked_rows_sorted db season stage :
  sorted_by table_compare (ranked_rows db season stage).
Proof. unfold ranked_rows. apply sort_by_sorted_by, OrderCmp_table. Qed.

Lemma normalize_row_compare i j x y :
  table_row_compare (normalize_row i x) (normalize_row j y) = table_compare x y.
Proof. reflexivity. Qed.

Lemma compute_table_sorted db now season stage :
  sorted_by table_row_compare (tb_rows (compute_table db now season stage)).
Proof.
  simpl. unfold enumerate_from.
  assert (G : forall start l, sorted_by table_compare l ->
    sorted_by table_row_compare
      (map (fun ix : nat * (StandingsRow * TeamRow) =>
              normalize_row (fst ix) (snd ix))
           (combine (seq start (length l)) l))).
  { intros start l. revert start. unfold sorted_by.
    induction l as [|x l IH]; simpl; intros start Hs; [constructor|].
    inversion Hs as [|? ? Hs' Hall]; subst. constructor; [now apply IH|].
    rewrite Forall_forall in *. intros y Hy. apply in_map_iff in Hy.
    destruct Hy as [[k z] [<- Hz]]. simpl. rewrite normalize_row_compare.
    apply Hall. eapply in_combine_r; eauto. }
  apply G, ranked_rows_sorted.
Qed.

(** ** Ranked table: the stated properties *)

Lemma rank_compare_tie_break n1 n2 r1 r2 :
  s_pts r1 = s_pts r2 -> s_gd r1 = s_gd r2 ->
  (s_gf r1 > s_gf r2 \/ (s_gf r1 = s_gf r2 /\ String.compare n1 n2 = Lt)) ->
  rank_compare n1 n2 r1 r2 = Lt.
Proof.
  intros Ep Eg H. unfold rank_compare. rewrite Ep, Eg, !Z.compare_refl. simpl.
  destruct H as [H|[H1 H2]].
  - assert (E : (- s_gf r1 ?= - s_gf r2) = Lt) by (apply Z.compare_lt_iff; lia).
    now rewrite E.
  - now rewrite H1, Z.compare_refl.
Qed.

(** C3. The rows persisted for each stage of the season are in the order
    points descending, goal difference descending, goals for descending,
    team name ascending; the rows [compute_table] returns are in the same
    order and numbered from 1 in that order.  So of two teams level on
    points and goal difference the one with more goals for stands first
    (has the smaller position), and full ties are decided by the name. *)
Theorem ranking_order (helpers : Helpers) db season ms :
  matches_of_season db season ms ->
  exists db',
    _build_and_store_standings helpers db season ms = Ok db' /\
    (forall stage, In stage STAGES ->
       let rows := stage_rows db' season stage in
       sorted_by (standings_compare db) rows /\
       forall i j d, (i < length rows)%nat -> (j < length rows)%nat ->
         s_pts (nth i rows d) = s_pts (nth j rows d) ->
         s_gd (nth i rows d) = s_gd (nth j rows d) ->
         (s_gf (nth i rows d) > s_gf (nth j rows d) \/
          (s_gf (nth i rows d) = s_gf (nth j rows d) /\
           String.compare (team_name_of db (s_team_id (nth i rows d)))
                          (team_name_of db (s_team_id (nth j rows d))) = Lt)) ->
         (i < j)%nat) /\
    (forall store now season' stage',
       let rows := tb_rows (compute_table store now season' stage') in
       sorted_by table_row_compare rows /\
       (forall i d, (i < length rows)%nat ->
          tr_pos (nth i rows d) = Z.of_nat i + 1) /\
       forall i j d, (i < length rows)%nat -> (j < length rows)%nat ->
         tr_pts (nth i rows d) = tr_pts (nth j rows d) ->
         tr_gd (nth i rows d) = tr_gd (nth j rows d) ->
         (tr_gf (nth i rows d) > tr_gf (nth j rows d) \/
          (tr_gf (nth i rows d) = tr_gf (nth j rows d) /\
           String.compare (tr_team (nth i rows d)) (tr_team (nth j rows d)) = Lt)) ->
         tr_pos (nth i rows d) < tr_pos (nth j rows d)).
Proof.
  intros Hms. destruct (build_total_of_season helpers db season ms Hms) as [db' H].
  exists db'. split; [assumption|]. split.
  - intros stage Hst rows.
    destruct (build_spec helpers _ _ _ _ H) as [_ Hspec].
    destruct (Hspec stage Hst) as [rows0 [Erows _]].
    assert (Hs : sorted_by (standings_compare db) rows).
    { subst rows. rewrite Erows.
      apply (sort_by_sorted_by (standings_compare db)), OrderCmp_standings. }
    split; [assumption|]. intros i j d Hi Hj Ep Eg Hgf.
    apply (sorted_by_before (standings_compare db) rows d i j
             (OrderCmp_standings db) Hs Hi Hj).
    now apply rank_compare_tie_break.
  - intros store now season' stage' rows.
    assert (Hs : sorted_by table_row_compare rows)
      by apply compute_table_sorted.
    assert (Hpos : forall i d, (i < length rows)%nat ->
              tr_pos (nth i rows d) = Z.of_nat i + 1).
    { intros i d Hi. subst rows. rewrite compute_table_length in Hi.
      destruct (ranked_rows store season' stage') as [|x l] eqn:E;
        [simpl in Hi; lia|].
      rewrite (compute_table_nth store now season' stage' i d x)
        by (rewrite E; exact Hi).
      simpl. lia. }
    split; [assumption|]. split; [assumption|].
    intros i j d Hi Hj Ep Eg Hgf. rewrite !Hpos by assumption.
    assert (i < j)%nat; [|lia].
    apply (sorted_by_before table_row_compare rows d i j
             OrderCmp_table_row Hs Hi Hj).
    unfold table_row_compare. rewrite Ep, Eg, !Z.compare_refl. simpl.
    destruct Hgf as [Hgf|[H1 H2]].
    + assert (E : (- tr_gf (nth i rows d) ?= - tr_gf (nth j rows d)) = Lt)
        by (apply Z.compare_lt_iff; lia).
      now rewrite E.
    + now rewrite H1, Z.compare_refl.
Qed.

Lemma ranking_order_witness :
  exists db',
    _build_and_store_standings no_helpers example_db 2024 example_matches
    = Ok db' /\
    map s_team_id (stage_rows db' 2024 "apertura") = [1; 2; 3] /\
    map tr_team (tb_rows (compute_table db' "" 2024 "anual")) =
    ["Nacional"; "Penarol"; "Defensor Sporting"]%string.
Proof.
  destruct (ranking_order no_helpers example_db 2024 example_matches
              example_matches_of_season) as [db' [H _]].
  exists db'. split; [exact H|].
  vm_compute in H. injection H as <-. split; reflexivity.
Defined.

(** C8 (as the code has it). Two calls of [compute_table] in a row, for the
    same season and stage, leave the store as it was and return the same
    season, stage, rows and source; [updated_at] is the clock reading of
    each call, so the two answers are equal exactly when the two readings
    are. *)
Theorem compute_table_twice (w : World) (season : Z) (stage : string) :
  let '(first, second, w') := call_compute_table_twice w season stage in
  tb_rows first = tb_rows second /\
  tb_season first = tb_season second /\
  tb_stage first = tb_stage second /\
  tb_source first = tb_source second /\
  world_store w' = world_store w /\
  tb_updated_at first = world_clock w (world_reads w) /\
  tb_updated_at second = world_clock w (S (world_reads w)) /\
  (first = second <->
   world_clock w (world_reads w) = world_clock w (S (world_reads w))).
Proof.
  unfold call_compute_table_twice, call_compute_table, read_clock. simpl.
  repeat split; try reflexivity.
  - intros E. exact (f_equal tb_updated_at E).
  - intros E. unfold compute_table. now rewrite E.
Qed.

(** C8 as stated asks for the whole returned value to be the same; the
    second answer carries a later [updated_at]. *)
Lemma compute_table_twice_differs :
  let '(first, second, _) :=
    call_compute_table_twice example_world 2024 "apertura" in
  first <> second.
Proof.
  unfold call_compute_table_twice, call_compute_table, read_clock. simpl.
  intros E. apply (f_equal tb_updated_at) in E. discriminate.
Qed.

(** ** Query layer: joins, groups, limits *)

Lemma sql_join_In {A B} (on : A -> B -> bool) rows table a b :
  In (a, b) (sql_join on rows table) <->
  In a rows /\ In b table /\ on a b = true.
Proof.
  unfold sql_join. rewrite in_flat_map. split.
  - intros [x [Hx Hin]]. apply in_map_iff in Hin.
    destruct Hin as [y [[= -> ->] Hy]]. apply filter_In in Hy. tauto.
  - intros [Ha [Hb Hon]]. exists a. split; [assumption|].
    apply in_map, filter_In. auto.
Qed.

Section GroupKeys.
Context {K : Type}.
Variable eqb : K -> K -> bool.
Hypothesis eqb_spec : forall x y, reflect (x = y) (eqb x y).

Lemma group_keys_In keys k : In k (group_keys eqb keys) <-> In k keys.
Proof.
  induction keys as [|k0 keys IH]; simpl; [tauto|].
  rewrite filter_In, IH. destruct (eqb_spec k0 k) as [->|Hne]; simpl.
  - intuition discriminate.
  - intuition congruence.
Qed.

Lemma group_keys_NoDup keys : NoDup (group_keys eqb keys).
Proof.
  induction keys as [|k0 keys IH]; simpl; constructor.
  - rewrite filter_In. intros [_ H].
    destruct (eqb_spec k0 k0); [discriminate | congruence].
  - now apply NoDup_filter.
Qed.

End GroupKeys.



Lemma StronglySorted_firstn {A} (R : A -> A -> Prop) n l :
  StronglySorted R l -> StronglySorted R (firstn n l).
Proof.
  intros H. revert n. induction H as [|x l Hs IH Hall]; intros [|n]; simpl;
    try constructor; auto.
  rewrite Forall_forall in *. intros y Hy. apply Hall.
  revert Hy. clear. revert n. induction l as [|z l IH]; intros [|n]; simpl;
    try tauto. intros [->|H]; eauto.
Qed.


Lemma sql_limit_incl {A} n (l : list A) x : In x (sql_limit n l) -> In x l.
Proof.
  unfold sql_limit. destruct (n <? 0); [trivial|].
  revert l. induction (Z.to_nat n) as [|k IH]; intros [|y l]; simpl; try tauto.
  intros [->|H]; eauto.
Qed.


(** ** Scorers *)







(** ** Scorers: the stated properties *)






(** ** Cards by team *)

Lemma cards_key_eqb_spec k1 k2 : reflect (k1 = k2) (cards_key_eqb k1 k2).
Proof.
  destruct k1 as [[i1 n1] l1], k2 as [[i2 n2] l2]. unfold cards_key_eqb.
  destruct (Z.eqb_spec i1 i2), (String.eqb_spec n1 n2), (String.eqb_spec l1 l2);
    simpl; constructor; congruence.
Qed.

Lemma event_rows_In db season stage e m t :
  In (e, m, t) (event_rows db season stage) <->
  In e (match_events db) /\ In m (matches db) /\ In t (teams db) /\
  e_match_id e = m_id m /\ e_team_id e = t_id t /\
  m_season_year m = season /\
  In (m_stage_code m) (_stages_for_query stage).
Proof.
  unfold event_rows. rewrite filter_In, !sql_join_In. simpl.
  rewrite !andb_true_iff, !Z.eqb_eq.
  unfold stage_in. rewrite existsb_exists. split.
  - intros [[[He [Hm E1]] [Ht E2]] [E3 [st [Hst E4]]]].
    apply String.eqb_eq in E4. subst st. tauto.
  - intros (He & Hm & Ht & E1 & E2 & E3 & Hst).
    repeat split; try assumption.
    exists (m_stage_code m). split; [assumption | apply String.eqb_refl].
Qed.

Lemma sum_type_count ty group :
  sum_type ty group =
  Z.of_nat (count (fun x => String.eqb (e_type (fst (fst x))) ty) group).
Proof.
  unfold sum_type, count. induction group as [|x group IH]; simpl; [reflexivity|].
  rewrite IH. destruct (String.eqb _ ty); simpl length; lia.
Qed.

Lemma count_filter_and {A} (f g : A -> bool) l :
  count g (filter f l) = count (fun x => f x && g x) l.
Proof.
  unfold count. induction l as [|x l IH]; simpl; [reflexivity|].
  destruct (f x); simpl; [destruct (g x); simpl; now rewrite IH | assumption].
Qed.

Lemma cards_group_spec db season stage key :
  let row := cards_group (event_rows db season stage) key in
  cards_row_key row = key /\
  c_yellow row = Z.of_nat (team_events_of_type db season stage key "yellow") /\
  c_red row = Z.of_nat (team_events_of_type db season stage key "red").
Proof.
  unfold cards_group, team_events_of_type. destruct key as [[id name] logo].
  simpl. rewrite !sum_type_count, !count_filter_and. auto.
Qed.

Lemma cards_by_team_In db season stage row :
  In row (cards_by_team db season stage) <->
  exists x, In x (event_rows db season stage) /\
            row = cards_group (event_rows db season stage) (cards_key x).
Proof.
  unfold cards_by_team. rewrite sort_by_In, in_map_iff. split.
  - intros [key [<- Hk]].
    apply (proj1 (group_keys_In cards_key_eqb cards_key_eqb_spec _ _)) in Hk.
    apply in_map_iff in Hk. destruct Hk as [x [<- Hx]]. eauto.
  - intros [x [Hx ->]]. exists (cards_key x). split; [reflexivity|].
    apply (proj2 (group_keys_In cards_key_eqb cards_key_eqb_spec _ _)).
    now apply in_map.
Qed.

Lemma cards_by_team_keys db season stage :
  Permutation (map cards_row_key (cards_by_team db season stage))
    (group_keys cards_key_eqb (map cards_key (event_rows db season stage))).
Proof.
  unfold cards_by_team.
  rewrite (Permutation_map cards_row_key (sort_by_perm _ _)).
  rewrite map_map.
  rewrite (map_ext _ (fun k => k)); [now rewrite map_id|].
  intros k. exact (proj1 (cards_group_spec db season stage k)).
Qed.

Lemma count_zero_iff {A} (f : A -> bool) l :
  count f l = 0%nat <-> forall x, In x l -> f x = false.
Proof.
  unfold count. induction l as [|x l IH]; simpl.
  - split; [intros _ y [] | reflexivity].
  - destruct (f x) eqn:E; simpl.
    + split; [discriminate|]. intros H. specialize (H x (or_introl eq_refl)).
      congruence.
    + rewrite IH. split; [intros H y [<-|Hy]; auto | intros H y Hy; auto].
Qed.

Lemma count_le_length {A} (f : A -> bool) l : (count f l <= length l)%nat.
Proof. unfold count. apply filter_length_le. Qed.

Lemma count_disjoint_le {A} (f g : A -> bool) l :
  (forall x, f x = true -> g x = true -> False) ->
  (count f l + count g l <= length l)%nat.
Proof.
  intros H. unfold count. induction l as [|x l IH]; simpl; [lia|].
  destruct (f x) eqn:Ef, (g x) eqn:Eg; simpl; try lia.
  exfalso. eauto.
Qed.

Lemma discipline_row_spec mm row drow :
  discipline_row mm row = Ok drow ->
  dr_Equipo drow = c_team row /\ dr_Amarillas drow = c_yellow row /\
  dr_Rojas drow = c_red row /\
  dr_Tarjetas_totales drow = c_yellow row + c_red row /\
  dr_PJ drow = dict_get_default String.eqb (c_team row) 0 mm.
Proof.
  unfold discipline_row. intros H. bind_inv H. injection H as <-. simpl. auto.
Qed.

Lemma discipline_row_total mm row :
  0 <= c_yellow row + c_red row < float_overflow_threshold ->
  0 <= dict_get_default String.eqb (c_team row) 0 mm ->
  exists drow, discipline_row mm row = Ok drow.
Proof.
  intros Ht Hpj. unfold discipline_row.
  set (pj := dict_get_default String.eqb (c_team row) 0 mm) in *.
  destruct (Z.eqb_spec pj 0); cbn [bind]; [eauto|].
  destruct (py_truediv_below (c_yellow row + c_red row) pj) as [q Hq];
    try lia.
  - assert (float_overflow_threshold * 1 <= float_overflow_threshold * pj)
      by (apply Z.mul_le_mono_nonneg_l;
          [pose proof overflow_threshold_large|]; lia).
    lia.
  - rewrite Hq. cbn [bind]. eauto.
Qed.

Lemma dict_set_values {K V} (eqb : K -> K -> bool) (P : V -> Prop) k v
  (d : list (K * V)) :
  P v -> (forall kv, In kv d -> P (snd kv)) ->
  forall kv, In kv (dict_set eqb k v d) -> P (snd kv).
Proof.
  intros Hv. induction d as [|[k0 v0] d IH]; simpl; intros Hd kv Hkv.
  - destruct Hkv as [<-|[]]. exact Hv.
  - destruct (eqb k k0).
    + destruct Hkv as [<-|H]; [exact Hv | apply Hd; now right].
    + destruct Hkv as [<-|H]; [apply (Hd (k0, v0)); now left|].
      apply IH; [|assumption]. intros; apply Hd; now right.
Qed.

Lemma dict_of_list_values {K V} (eqb : K -> K -> bool) (P : V -> Prop)
  (kvs : list (K * V)) :
  (forall kv, In kv kvs -> P (snd kv)) ->
  forall kv, In kv (dict_of_list eqb kvs) -> P (snd kv).
Proof.
  unfold dict_of_list. intros Hk.
  assert (G : forall acc, (forall kv, In kv acc -> P (snd kv)) ->
    forall kv, In kv (fold_left
      (fun d kv => dict_set eqb (fst kv) (snd kv) d) kvs acc) -> P (snd kv)).
  { induction kvs as [|kv0 kvs IH]; simpl; intros acc Ha; [assumption|].
    apply IH; [intros; apply Hk; now right|].
    apply dict_set_values; [apply Hk; now left | assumption]. }
  apply G. intros kv [].
Qed.

Lemma matches_map_nonneg db season stage name :
  0 <= dict_get_default String.eqb name 0 (matches_map_of db season stage).
Proof.
  unfold dict_get_default.
  destruct (dict_get String.eqb name (matches_map_of db season stage)) as [v|] eqn:E;
    [|lia].
  apply (dict_get_In _ String.eqb_spec) in E.
  apply (dict_of_list_values String.eqb (fun v => 0 <= v)) in E; [exact E|].
  intros kv Hkv. apply in_map_iff in Hkv. destruct Hkv as [n [<- _]].
  simpl. lia.
Qed.

(** ** Cards by team: the stated properties *)

Lemma cards_key_team e m t : cards_key (e, m, t) = team_key t.
Proof. reflexivity. Qed.

(** C10. [cards_by_team] has a row for a team of the store exactly when
    the team has at least one event, of any type, in a match of the season
    and the (expanded) stage; each team has at most one row; the row
    counts the team's yellow and red events, so a team whose events are
    none of them cards has [yellow = 0] and [red = 0]; a team without
    events has no row.  [discipline_table] has one row per row of
    [cards_by_team], in the same order. *)
Theorem cards_by_team_rows db season stage :
  (forall t, In t (teams db) ->
     (exists row, In row (cards_by_team db season stage) /\
                  cards_row_key row = team_key t)
     <->
     (exists e m, In e (match_events db) /\ In m (matches db) /\
        e_match_id e = m_id m /\ e_team_id e = t_id t /\
        m_season_year m = season /\
        In (m_stage_code m) (_stages_for_query stage))) /\
  (forall row, In row (cards_by_team db season stage) ->
     exists t, In t (teams db) /\ cards_row_key row = team_key t) /\
  NoDup (map cards_row_key (cards_by_team db season stage)) /\
  (forall row, In row (cards_by_team db season stage) ->
     c_yellow row =
       Z.of_nat (team_events_of_type db season stage (cards_row_key row) "yellow") /\
     c_red row =
       Z.of_nat (team_events_of_type db season stage (cards_row_key row) "red") /\
     ((forall e m t, In (e, m, t) (event_rows db season stage) ->
         team_key t = cards_row_key row ->
         e_type e <> "yellow"%string /\ e_type e <> "red"%string) ->
      c_yellow row = 0 /\ c_red row = 0)) /\
  (forall drows, discipline_table db season stage = Ok drows ->
     map dr_Equipo drows = map c_team (cards_by_team db season stage) /\
     map dr_Amarillas drows = map c_yellow (cards_by_team db season stage) /\
     map dr_Rojas drows = map c_red (cards_by_team db season stage)) /\
  (Z.of_nat (length (event_rows db season stage)) < float_overflow_threshold ->
   exists drows, discipline_table db season stage = Ok drows).
Proof.
  assert (Hcounts : forall row, In row (cards_by_team db season stage) ->
     c_yellow row =
       Z.of_nat (team_events_of_type db season stage (cards_row_key row) "yellow") /\
     c_red row =
       Z.of_nat (team_events_of_type db season stage (cards_row_key row) "red")).
  { intros row Hrow. apply cards_by_team_In in Hrow.
    destruct Hrow as [x [_ ->]].
    destruct (cards_group_spec db season stage (cards_key x)) as [Ek [Ey Er]].
    cbv zeta in Ek, Ey, Er. rewrite Ek. auto. }
  repeat match goal with |- _ /\ _ => split end.
  - intros t Ht. split.
    + intros [row [Hrow Ek]]. apply cards_by_team_In in Hrow.
      destruct Hrow as [[[e m] t'] [Hx ->]].
      rewrite (proj1 (cards_group_spec db season stage _)) in Ek.
      rewrite cards_key_team in Ek.
      apply event_rows_In in Hx.
      destruct Hx as (He & Hm & Ht' & E1 & E2 & E3 & E4).
      exists e, m. repeat split; try assumption.
      unfold team_key in Ek. congruence.
    + intros [e [m (He & Hm & E1 & E2 & E3 & E4)]].
      exists (cards_group (event_rows db season stage) (cards_key (e, m, t))).
      split.
      * apply cards_by_team_In. exists (e, m, t). split; [|reflexivity].
        apply event_rows_In. tauto.
      * exact (proj1 (cards_group_spec db season stage _)).
  - intros row Hrow. apply cards_by_team_In in Hrow.
    destruct Hrow as [[[e m] t] [Hx ->]]. exists t. split.
    + apply event_rows_In in Hx. tauto.
    + exact (proj1 (cards_group_spec db season stage _)).
  - eapply Permutation_NoDup.
    + symmetry. apply cards_by_team_keys.
    + apply (group_keys_NoDup cards_key_eqb cards_key_eqb_spec).
  - intros row Hrow. destruct (Hcounts row Hrow) as [Ey Er].
    split; [assumption|]. split; [assumption|].
    intros Hnone. rewrite Ey, Er. unfold team_events_of_type.
    assert (Hz : forall ty, (ty = "yellow" \/ ty = "red")%string ->
      count (fun x => cards_key_eqb (cards_key x) (cards_row_key row)
                      && String.eqb (e_type (fst (fst x))) ty)
            (event_rows db season stage) = 0%nat).
    { intros ty Hty. apply count_zero_iff. intros [[e m] t] Hx.
      destruct (cards_key_eqb_spec (cards_key (e, m, t)) (cards_row_key row))
        as [Ek|]; [|reflexivity].
      simpl. apply String.eqb_neq.
      destruct (Hnone e m t Hx Ek) as [Hy Hr].
      destruct Hty as [->| ->]; assumption. }
    rewrite !Hz by auto. split; reflexivity.
  - intros drows H. unfold discipline_table in H. apply mapM_Forall2 in H.
    repeat split; symmetry;
      (eapply Forall2_map_eq; [exact H|]); intros row drow Hd;
      apply discipline_row_spec in Hd; symmetry; tauto.
  - intros Hbound. unfold discipline_table. apply mapM_total.
    intros row Hrow. apply discipline_row_total.
    + destruct (Hcounts row Hrow) as [-> ->]. unfold team_events_of_type.
      split; [lia|].
      assert (H := count_disjoint_le
        (fun x => cards_key_eqb (cards_key x) (cards_row_key row)
                  && String.eqb (e_type (fst (fst x))) "yellow")
        (fun x => cards_key_eqb (cards_key x) (cards_row_key row)
                  && String.eqb (e_type (fst (fst x))) "red")
        (event_rows db season stage)).
      assert (Hd : forall x : EventRow * MatchRow * TeamRow,
        cards_key_eqb (cards_key x) (cards_row_key row)
          && String.eqb (e_type (fst (fst x))) "yellow" = true ->
        cards_key_eqb (cards_key x) (cards_row_key row)
          && String.eqb (e_type (fst (fst x))) "red" = true -> False).
      { intros x H1 H2. apply andb_true_iff in H1, H2.
        destruct H1 as [_ H1]. destruct H2 as [_ H2].
        apply String.eqb_eq in H1, H2. congruence. }
      specialize (H Hd). lia.
    + apply matches_map_nonneg.
Qed.

Lemma cards_by_team_rows_witness :
  map c_team (cards_by_team scorers_db 2024 "apertura") =
    ["Nacional"; "Penarol"]%string /\
  exists drows, discipline_table scorers_db 2024 "apertura" = Ok drows /\
                map dr_Equipo drows = ["Nacional"; "Penarol"]%string.
Proof.
  destruct (cards_by_team_rows scorers_db 2024 "apertura")
    as (_ & _ & _ & _ & Hd & Htotal).
  split; [reflexivity|].
  destruct Htotal as [drows H].
  - apply Z.ltb_lt. vm_compute. reflexivity.
  - exists drows. split; [exact H|].
    rewrite (proj1 (Hd drows H)). reflexivity.
Defined.

(** ** Fixtures *)

(** The pairings of [_round_robin] are between the given ids. *)
Lemma last_In (l : list Z) (d : Z) : l <> [] -> In (last l d) l.
Proof.
  induction l as [| x rest IH]; intros Hne; [contradiction |].
  destruct rest as [| y rest'].
  - left. reflexivity.
  - right. apply IH. discriminate.
Qed.

Lemma removelast_In (l : list Z) (x : Z) : In x (removelast l) -> In x l.
Proof.
  induction l as [| y rest IH]; intros Hx; [contradiction |].
  destruct rest as [| z rest'].
  - contradiction.
  - destruct Hx as [-> | Hx]; [left; reflexivity | right; apply IH, Hx].
Qed.

Lemma rotate_ids_In (ids : list Z) (x : Z) :
  In x (rotate_ids ids) -> In x ids.
Proof.
  destruct ids as [| y rest]; [contradiction |].
  unfold rotate_ids. intros [-> | [<- | Hx]].
  - left. reflexivity.
  - apply last_In. discriminate.
  - right. apply removelast_In, Hx.
Qed.

Lemma pairing_at_In (i : nat) (ids : list Z) (j : nat) (p : Z * Z) :
  (j < length ids / 2)%nat -> In p (pairing_at i ids j) ->
  (In (fst p) ids /\ fst p <> BYE) /\ (In (snd p) ids /\ snd p <> BYE).
Proof.
  intros Hj. unfold pairing_at.
  assert (Hlen : (2 * (length ids / 2) <= length ids)%nat).
  { apply Nat.Div0.mul_div_le. }
  assert (H1 : In (nth j ids 0) ids) by (apply nth_In; lia).
  assert (H2 : In (nth (length ids - 1 - j) ids 0) ids) by (apply nth_In; lia).
  destruct (Z.eqb_spec (nth j ids 0) BYE) as [E1 | N1]; [contradiction |].
  destruct (Z.eqb_spec (nth (length ids - 1 - j) ids 0) BYE) as [E2 | N2];
    [contradiction |].
  simpl. destruct (Nat.even i); intros [<- | []]; simpl; auto.
Qed.

Lemma rounds_from_In (k i : nat) (ids : list Z) (r : list (Z * Z))
  (p : Z * Z) :
  In r (rounds_from k i ids) -> In p r ->
  (In (fst p) ids /\ fst p <> BYE) /\ (In (snd p) ids /\ snd p <> BYE).
Proof.
  revert i ids. induction k as [| k IH]; intros i ids Hr Hp; [contradiction |].
  destruct Hr as [<- | Hr].
  - unfold round_pairings in Hp. apply in_flat_map in Hp.
    destruct Hp as (j & Hj & Hp). apply in_seq in Hj.
    apply (pairing_at_In i ids j p); [lia | exact Hp].
  - destruct (IH (S i) (rotate_ids ids) Hr Hp) as [[H1 N1] [H2 N2]].
    repeat split; auto using rotate_ids_In.
Qed.

Lemma round_robin_pairs_in (team_ids : list Z) (r : list (Z * Z))
  (p : Z * Z) :
  In r (_round_robin team_ids) -> In p r ->
  In (fst p) team_ids /\ In (snd p) team_ids.
Proof.
  intros Hr Hp. unfold _round_robin in Hr.
  destruct (rounds_from_In _ _ _ r p Hr Hp) as [[H1 N1] [H2 N2]].
  assert (Hpad : forall x, In x (pad_ids team_ids) -> x <> BYE ->
                           In x team_ids).
  { intros x Hx Nx. unfold pad_ids in Hx.
    destruct (Nat.odd (length team_ids)); [| exact Hx].
    apply in_app_or in Hx. destruct Hx as [Hx | [<- | []]];
      [exact Hx | contradiction]. }
  split; apply Hpad; assumption.
Qed.

Lemma enumerate_from_In {A : Type} (start : nat) (rows : list A) (i : nat)
  (x : A) : In (i, x) (enumerate_from start rows) -> In x rows.
Proof. unfold enumerate_from. apply in_combine_r. Qed.

Section FixtureLemmas.
Context {R : Type} `{RandomSource R}.

Lemma randint_total (a b : Z) (rng : R) :
  a <= b -> exists x rng', randint a b rng = Ok (x, rng').
Proof.
  intros Hab. unfold randint.
  destruct (Z.ltb_spec 0 (b + 1 - a)) as [_ | Hw]; [| lia].
  destruct (rng_randbelow (b + 1 - a) rng) as [x rng']. eauto.
Qed.

Lemma randint_range (a b : Z) (rng : R) (x : Z) (rng' : R) :
  RandomSourceLaws R -> randint a b rng = Ok (x, rng') -> a <= x <= b.
Proof.
  intros Hlaws. unfold randint.
  destruct (Z.ltb_spec 0 (b + 1 - a)) as [Hw | Hw]; [| discriminate].
  pose proof (Hlaws (b + 1 - a) rng Hw) as Hr.
  destruct (rng_randbelow (b + 1 - a) rng) as [y rng1]. simpl in Hr.
  intros E. inversion E. subst. lia.
Qed.

Lemma choice_total {A : Type} (seq : list A) (rng : R) :
  seq <> [] -> exists x rng', choice seq rng = Ok (x, rng').
Proof.
  intros Hne. destruct seq as [| d rest]; [contradiction |].
  unfold choice.
  destruct (rng_randbelow (Z.of_nat (length (d :: rest))) rng) as [i rng'].
  eauto.
Qed.

(** A loop whose every turn appends fixtures with a property appends
    fixtures with that property. *)
Lemma foldM_appends {A : Type} (P : Fixture -> Prop)
  (body : list Fixture * R -> A -> result (list Fixture * R))
  (xs : list A) :
  (forall fs rng x, In x xs -> exists new rng',
      body (fs, rng) x = Ok (fs ++ new, rng') /\ Forall P new) ->
  forall fs rng, exists new rng',
    foldM body (fs, rng) xs = Ok (fs ++ new, rng') /\ Forall P new.
Proof.
  induction xs as [| x rest IH]; intros Hbody fs rng; simpl.
  - exists [], rng. rewrite app_nil_r. auto.
  - destruct (Hbody fs rng x (or_introl eq_refl)) as (new1 & rng1 & E1 & HP1).
    rewrite E1. cbn [bind].
    destruct (IH (fun fs rng y Hy => Hbody fs rng y (or_intror Hy))
                 (fs ++ new1) rng1) as (new2 & rng2 & E2 & HP2).
    exists (new1 ++ new2), rng2. rewrite E2, app_assoc. split; [reflexivity |].
    apply Forall_app. auto.
Qed.

Lemma plus_days_total (start : PyDate) (n : Z) :
  d_year start <> 9999 -> exists d, plus_days start n = Ok d.
Proof.
  intros Hy. unfold plus_days.
  destruct (Z.eqb_spec (d_year start) 9999) as [E | _]; [contradiction |].
  simpl. eauto.
Qed.

Lemma datetime_total (year month day : Z) :
  1 <= year <= 9999 ->
  datetime year month day = Ok (mkDate year month day 0 true).
Proof.
  intros Hy. unfold datetime.
  destruct (Z.leb_spec 1 year); [| lia].
  destruct (Z.leb_spec year 9999); [| lia]. reflexivity.
Qed.

Section Lawful.
Hypothesis Hlaws : RandomSourceLaws R.

(** A fixture of the two league stages: the home goals are the draw in
    0..3 plus the home advantage, the away goals a draw in 0..3. *)
Lemma round_robin_fixture_scores (idx : nat) (round_date : PyDate)
  (fs : list Fixture) (rng : R) (pairing : Z * Z) :
  exists new rng',
    round_robin_fixture idx round_date (fs, rng) pairing
    = Ok (fs ++ new, rng') /\
    Forall (fun f => score_in 4 f /\ (fx_home f, fx_away f) = pairing) new.
Proof.
  destruct pairing as [home away]. unfold round_robin_fixture.
  destruct (uniform float_zero (float_of_int 1) rng) as [u rng1].
  destruct (randint_total 0 3 rng1 ltac:(lia)) as (base & rng2 & E2).
  rewrite E2. cbn [bind].
  destruct (randint_total 0 3 rng2 ltac:(lia)) as (ag & rng3 & E3).
  rewrite E3. cbn [bind].
  destruct (choice_total KICKOFF_TIMES rng3 ltac:(discriminate))
    as (time & rng4 & E4).
  rewrite E4. cbn [bind].
  eexists _, rng4. split; [reflexivity |].
  constructor; [| constructor].
  pose proof (randint_range 0 3 rng1 base rng2 Hlaws E2).
  pose proof (randint_range 0 3 rng2 ag rng3 Hlaws E3).
  unfold score_in. simpl.
  destruct (float_ltb float_0_6 u); repeat split; lia.
Qed.

(** A fixture of the groups of the Intermedio: both scores are plain draws
    in 0..3. *)
Lemma intermedio_fixture_scores (idx : nat) (round_date : PyDate)
  (fs : list Fixture) (rng : R) (pairing : Z * Z) :
  exists new rng',
    intermedio_fixture idx round_date (fs, rng) pairing
    = Ok (fs ++ new, rng') /\
    Forall (fun f => score_in 3 f /\ (fx_home f, fx_away f) = pairing) new.
Proof.
  destruct pairing as [home away]. unfold intermedio_fixture.
  destruct (choice_total KICKOFF_TIMES rng ltac:(discriminate))
    as (time & rng1 & E1).
  rewrite E1. cbn [bind].
  destruct (randint_total 0 3 rng1 ltac:(lia)) as (hg & rng2 & E2).
  rewrite E2. cbn [bind].
  destruct (randint_total 0 3 rng2 ltac:(lia)) as (ag & rng3 & E3).
  rewrite E3. cbn [bind].
  eexists _, rng3. split; [reflexivity |].
  constructor; [| constructor].
  pose proof (randint_range 0 3 rng1 hg rng2 Hlaws E2).
  pose proof (randint_range 0 3 rng2 ag rng3 Hlaws E3).
  unfold score_in. simpl. repeat split; lia.
Qed.

(** The goals and the teams of a fixture. *)
Lemma round_robin_schedule_scores (team_ids : list Z) (season : Z) (rng : R)
  (start_date : PyDate) :
  d_year start_date <> 9999 ->
  exists fixtures rng',
    _build_round_robin_schedule team_ids season rng start_date
    = Ok (fixtures, rng') /\
    Forall (fun f => score_in 4 f /\
                     In (fx_home f) team_ids /\ In (fx_away f) team_ids)
           fixtures.
Proof.
  intros Hy. unfold _build_round_robin_schedule.
  apply (foldM_appends _ (round_robin_round start_date)
           (enumerate_from 1 (_round_robin team_ids))).
  intros fs rng0 [idx pairings] Hin. apply enumerate_from_In in Hin.
  unfold round_robin_round.
  destruct (plus_days_total start_date (7 * (Z.of_nat idx - 1)) Hy)
    as [round_date ->].
  cbn [bind]. apply foldM_appends.
  intros fs1 rng1 pairing Hp.
  destruct (round_robin_fixture_scores idx round_date fs1 rng1 pairing)
    as (new & rng2 & E & Hnew).
  exists new, rng2. split; [exact E |].
  apply Forall_impl with (2 := Hnew). intros f [Hs Hf].
  destruct (round_robin_pairs_in team_ids pairings pairing Hin Hp)
    as [H1 H2].
  rewrite <- Hf in H1, H2. simpl in H1, H2. auto.
Qed.

Lemma intermedio_group_scores (team_ids group : list Z)
  (start_date : PyDate) (fs : list Fixture) (rng : R) :
  d_year start_date <> 9999 ->
  (forall x, In x group -> In x team_ids) ->
  exists new rng',
    intermedio_group start_date (fs, rng) group = Ok (fs ++ new, rng') /\
    Forall (fun f => score_in 3 f /\
                     In (fx_home f) team_ids /\ In (fx_away f) team_ids)
           new.
Proof.
  intros Hy Hsub. unfold intermedio_group.
  apply (foldM_appends _ (intermedio_round start_date)
           (enumerate_from 1 (_round_robin group))).
  intros fs0 rng0 [idx pairings] Hin. apply enumerate_from_In in Hin.
  unfold intermedio_round.
  destruct (plus_days_total start_date (7 * (Z.of_nat idx - 1)) Hy)
    as [round_date ->].
  cbn [bind]. apply foldM_appends.
  intros fs1 rng1 pairing Hp.
  destruct (intermedio_fixture_scores idx round_date fs1 rng1 pairing)
    as (new & rng2 & E & Hnew).
  exists new, rng2. split; [exact E |].
  apply Forall_impl with (2 := Hnew). intros f [Hs Hf].
  destruct (round_robin_pairs_in group pairings pairing Hin Hp) as [H1 H2].
  rewrite <- Hf in H1, H2. simpl in H1, H2. auto.
Qed.


(** With eight teams or fewer there is no second group to take a finalist
    from. *)
Lemma intermedio_schedule_few (team_ids : list Z) (season : Z) (rng : R) :
  1 <= season <= 9998 -> (length team_ids <= 8)%nat ->
  _build_intermedio_schedule team_ids season rng = Err IndexError.
Proof.
  intros Hy Hlen. unfold _build_intermedio_schedule.
  rewrite datetime_total by lia. cbn [bind].
  set (start_date := mkDate season 6 5 0 true).
  set (sorted_ids := sort_by Z.leb team_ids).
  assert (Hyear : d_year start_date <> 9999) by (simpl; lia).
  assert (Hperm : Permutation sorted_ids team_ids).
  { apply sort_by_perm. }
  assert (Hlen' : (length sorted_ids <= 8)%nat).
  { rewrite (Permutation_length Hperm). exact Hlen. }
  assert (Ha : forall x, In x (firstn 8 sorted_ids) -> In x sorted_ids).
  { intros x Hx. rewrite <- (firstn_skipn 8 sorted_ids).
    apply in_or_app. auto. }
  assert (Eb : skipn 8 sorted_ids = []).
  { apply skipn_all2. exact Hlen'. }
  rewrite Eb. cbn [foldM].
  destruct (intermedio_group_scores sorted_ids (firstn 8 sorted_ids)
              start_date [] rng Hyear Ha) as (new1 & rng1 & E1 & P1).
  rewrite E1. cbn [bind].
  destruct (intermedio_group_scores sorted_ids []
              start_date ([] ++ new1) rng1 Hyear (fun x H => match H with end))
    as (new2 & rng2 & E2 & P2).
  rewrite E2. cbn [bind].
  destruct (plus_days_total start_date (7 * 8) Hyear) as [final_date ->].
  cbn [bind].
  destruct (choice_total KICKOFF_TIMES rng2 ltac:(discriminate))
    as (time & rng3 & E3).
  rewrite E3. cbn [bind].
  destruct (firstn 8 sorted_ids); reflexivity.
Qed.


End Lawful.
End FixtureLemmas.
(** ** The scores of the fixtures *)

Lemma TapeSource_laws : RandomSourceLaws (list Z).
Proof.
  intros n tape Hn. simpl. unfold tape_draw.
  destruct tape as [| x rest]; simpl; apply Z.mod_pos_bound; exact Hn.
Qed.



(** ** Seeding *)

Section Transactions.
Context {X : Type}.
Variable f : DB -> X.
Variable P : Conn -> Prop.

Lemma keeps_ret {A : Type} (a : A) : tx_keeps P (tx_ret a).
Proof. intros c Hc. exact Hc. Qed.

Lemma keeps_lift {A : Type} (r : result A) : tx_keeps P (tx_lift r).
Proof. intros c Hc. exact Hc. Qed.

Lemma keeps_fetchall {A : Type} (q : DB -> A) : tx_keeps P (fetchall q).
Proof. intros c Hc. exact Hc. Qed.

Lemma keeps_bind {A B : Type} (m : tx A) (k : A -> tx B) :
  tx_keeps P m -> (forall a, tx_keeps P (k a)) -> tx_keeps P (tx_bind m k).
Proof.
  intros Hm Hk c Hc. unfold tx_bind. specialize (Hm c Hc).
  destruct (m c) as [c' [a | e]]; simpl in *; [apply Hk, Hm | exact Hm].
Qed.

Lemma keeps_foldM {A S : Type} (body : S -> A -> tx S) (xs : list A) :
  (forall s x, tx_keeps P (body s x)) ->
  forall s, tx_keeps P (tx_foldM body s xs).
Proof.
  intros Hbody. induction xs as [| x rest IH]; intros s; simpl.
  - apply keeps_ret.
  - apply keeps_bind; [apply Hbody | exact IH].
Qed.

Lemma keeps_execute {A : Type} (stmt : DB -> result (DB * A)) :
  pending_frame f P ->
  (forall db db' a, stmt db = Ok (db', a) -> f db' = f db) ->
  tx_keeps P (execute stmt).
Proof.
  intros Hframe Hstmt c Hc. unfold execute.
  destruct (stmt (pending c)) as [[db a] | e] eqn:E; simpl; [| exact Hc].
  apply Hframe; [exact Hc | exact (Hstmt _ _ _ E)].
Qed.

Lemma keeps_executemany {A : Type} (stmt : A -> DB -> result DB)
  (rows : list A) :
  pending_frame f P ->
  (forall row db db', stmt row db = Ok db' -> f db' = f db) ->
  tx_keeps P (executemany stmt rows).
Proof.
  intros Hframe Hstmt. unfold executemany. apply keeps_foldM.
  intros _ row. eapply keeps_execute; [exact Hframe |].
  intros db db' a E. bind_inv E. injection E as <- _.
  exact (Hstmt _ _ _ E0).
Qed.

Lemma aborts_bind_l {A B : Type} (m : tx A) (k : A -> tx B) :
  tx_aborts P m -> tx_aborts P (tx_bind m k).
Proof.
  intros Hm c Hc. unfold tx_bind. destruct (Hm c Hc) as [[e He] Hp].
  destruct (m c) as [c' [a | e']]; simpl in *; [discriminate |].
  split; [eauto | exact Hp].
Qed.

Lemma aborts_bind_r {A B : Type} (m : tx A) (k : A -> tx B) :
  tx_keeps P m -> (forall a, tx_aborts P (k a)) ->
  tx_aborts P (tx_bind m k).
Proof.
  intros Hm Hk c Hc. unfold tx_bind. specialize (Hm c Hc).
  destruct (m c) as [c' [a | e]]; simpl in *.
  - apply Hk, Hm.
  - split; [eauto | exact Hm].
Qed.

Lemma aborts_foldM {A S : Type} (body : S -> A -> tx S) (xs : list A)
  (x : A) :
  In x xs ->
  (forall s y, tx_keeps P (body s y)) ->
  (forall s, tx_aborts P (body s x)) ->
  forall s, tx_aborts P (tx_foldM body s xs).
Proof.
  intros Hin Hkeeps Hx. induction xs as [| y rest IH]; [contradiction |].
  intros s. simpl. destruct Hin as [-> | Hin].
  - apply aborts_bind_l, Hx.
  - apply aborts_bind_r; [apply Hkeeps | exact (IH Hin)].
Qed.

End Transactions.

Lemma meta_inv_frame (m : list (string * string)) :
  pending_frame metadata (meta_inv m).
Proof.
  intros c db [Hp Hc] E. split; simpl; [congruence | exact Hc].
Qed.

Lemma keeps_commit (m : list (string * string)) :
  tx_keeps (meta_inv m) commit.
Proof. intros c [Hp Hc]. split; exact Hp. Qed.


(** The [INSERT] statements leave the metadata table alone. *)
Lemma insert_team_metadata t db db' :
  insert_team t db = Ok db' -> metadata db' = metadata db.
Proof.
  unfold insert_team. destruct (existsb _ _); [discriminate |].
  intros E. injection E as <-. reflexivity.
Qed.

Lemma insert_season_metadata y db db' :
  insert_season y db = Ok db' -> metadata db' = metadata db.
Proof.
  unfold insert_season. destruct (existsb _ _); [discriminate |].
  intros E. injection E as <-. reflexivity.
Qed.

Lemma insert_stage_metadata row db db' :
  insert_stage row db = Ok db' -> metadata db' = metadata db.
Proof.
  unfold insert_stage. destruct (existsb _ _); [discriminate |].
  intros E. injection E as <-. reflexivity.
Qed.

Lemma insert_player_metadata row db db' :
  insert_player row db = Ok db' -> metadata db' = metadata db.
Proof.
  destruct row as [[[[full_name team_id] position] nationality] birth_year].
  unfold insert_player. destruct (has_team db team_id); [| discriminate].
  intros E. injection E as <-. reflexivity.
Qed.

Lemma insert_match_metadata row db db' id :
  insert_match row db = Ok (db', id) -> metadata db' = metadata db.
Proof.
  unfold insert_match. destruct (_ && _); [| discriminate].
  intros E. injection E as <- _. reflexivity.
Qed.

Lemma insert_event_metadata row db db' :
  insert_event row db = Ok db' -> metadata db' = metadata db.
Proof.
  destruct row as [[[[[match_id minute] team_id] player_id] type] detail].
  unfold insert_event. destruct (_ && _); [| discriminate].
  intros E. injection E as <-. reflexivity.
Qed.

Lemma insert_player_stat_metadata row db db' :
  insert_player_stat row db = Ok db' -> metadata db' = metadata db.
Proof.
  unfold insert_player_stat. destruct (_ && _); [| discriminate].
  intros E. injection E as <-. reflexivity.
Qed.

Lemma build_metadata helpers db season ms db' :
  _build_and_store_standings helpers db season ms = Ok db' ->
  metadata db' = metadata db.
Proof.
  unfold _build_and_store_standings. intros E. cbv zeta in E.
  bind_inv E.
  destruct (store_all_spec helpers _ _ _ _ E) as [blocks [_ ->]].
  reflexivity.
Qed.

(** *** [_insert_players] *)





Section InsertPlayers.
Variable P : Conn -> Prop.
Hypothesis Hframe : pending_frame metadata P.

Lemma keeps_insert_team_players lookup pm item :
  tx_keeps P (insert_team_players lookup pm item).
Proof.
  destruct item as [team_name team_data]. unfold insert_team_players.
  destruct (known_team_id lookup team_name) as [team_id |];
    [| apply keeps_ret].
  apply keeps_bind; [apply keeps_lift | intros rows].
  apply keeps_bind;
    [eapply keeps_executemany;
       [exact Hframe | exact insert_player_metadata] | intros _].
  apply keeps_bind; [apply keeps_fetchall | intros ids].
  apply keeps_ret.
Qed.



End InsertPlayers.





(** *** [seed_database] *)

Lemma aborts_lift_Ok (P : Conn -> Prop) {A B : Type} (a : A)
  (k : A -> tx B) :
  tx_aborts P (k a) -> tx_aborts P (tx_bind (tx_lift (Ok a)) k).
Proof. intros Hk c Hc. exact (Hk c Hc). Qed.

Section SeedSteps.
Context {R : Type} `{RandomSource R}.
Variable isoformat : PyDate -> string.
Variable helpers : Helpers.
Variable simulate_sides :
  R -> Z -> Fixture -> float -> float -> list (Z * list Z) ->
  list EventTuple * list PlayerStatRow * R.
Variable mu : list (string * string).

Lemma keeps_insert_players teams roster :
  tx_keeps (meta_inv mu) (_insert_players teams roster).
Proof.
  unfold _insert_players. apply keeps_bind.
  - apply keeps_foldM. intros s x.
    apply keeps_insert_team_players, meta_inv_frame.
  - intros pm. apply keeps_bind; [apply keeps_commit | intros _].
    apply keeps_ret.
Qed.

Lemma keeps_insert_base_rows teams seasons :
  tx_keeps (meta_inv mu) (_insert_base_rows teams seasons).
Proof.
  unfold _insert_base_rows.
  apply keeps_bind;
    [eapply keeps_executemany;
       [apply meta_inv_frame | exact insert_team_metadata] | intros _].
  apply keeps_bind;
    [eapply keeps_executemany;
       [apply meta_inv_frame | exact insert_season_metadata] | intros _].
  apply keeps_bind;
    [eapply keeps_executemany;
       [apply meta_inv_frame | exact insert_stage_metadata] | intros _].
  apply keeps_commit.
Qed.

Lemma keeps_simulate_match rng season stage_code match_info player_map teams :
  tx_keeps (meta_inv mu)
    (_simulate_match isoformat simulate_sides rng season stage_code
                     match_info player_map teams).
Proof.
  unfold _simulate_match.
  destruct (_attendance_for_team (fx_home match_info)) as [min_att max_att].
  apply keeps_bind; [apply keeps_lift | intros [attendance rng1]].
  destruct (uniform float_zero float_1_5 rng1) as [u1 rng2].
  destruct (uniform float_zero float_1_4 rng2) as [u2 rng3].
  apply keeps_bind; [apply keeps_lift | intros [referee rng4]].
  apply keeps_bind.
  - eapply keeps_execute; [apply meta_inv_frame |].
    intros db db' id. apply insert_match_metadata.
  - intros match_id.
    destruct (simulate_sides _ _ _ _ _ _) as [[events stats_rows] rng5].
    apply keeps_ret.
Qed.

Lemma keeps_seed_stage season player_map teams acc item :
  tx_keeps (meta_inv mu)
    (seed_stage isoformat simulate_sides season player_map teams acc item).
Proof.
  unfold seed_stage. apply keeps_foldM.
  intros [[[all_matches events_rows] stats_rows] rng] match_info.
  unfold seed_match.
  apply keeps_bind; [apply keeps_simulate_match |].
  intros [[[match_id match_events] match_stats] rng']. apply keeps_ret.
Qed.

Lemma keeps_seed_season files teams u season :
  tx_keeps (meta_inv mu)
    (seed_season isoformat helpers simulate_sides files teams u season).
Proof.
  unfold seed_season.
  apply keeps_bind; [apply keeps_lift | intros roster].
  apply keeps_bind; [apply keeps_insert_players | intros player_map].
  apply keeps_bind; [apply keeps_lift | intros [fixtures rng]].
  apply keeps_bind.
  { apply keeps_foldM. intros acc item. apply keeps_seed_stage. }
  intros [[[all_matches events_rows] stats_rows] rng'].
  apply keeps_bind.
  { unfold _persist_events.
    apply keeps_bind;
      [eapply keeps_executemany;
         [apply meta_inv_frame | exact insert_event_metadata] | intros _].
    apply keeps_commit. }
  intros _. apply keeps_bind.
  { unfold _persist_player_stats.
    apply keeps_bind;
      [eapply keeps_executemany;
         [apply meta_inv_frame | exact insert_player_stat_metadata]
      | intros _].
    apply keeps_commit. }
  intros _. apply keeps_bind; [| intros _; apply keeps_commit].
  eapply keeps_execute; [apply meta_inv_frame |].
  intros db db' a E. bind_inv E. injection E as <- _.
  exact (build_metadata _ _ _ _ _ E0).
Qed.



End SeedSteps.

(** *** The outcome of [_insert_players] when every player read has a
    name and the teams are in the store *)

Lemma known_team_id_In teams team_name team_id :
  known_team_id (team_lookup_of teams) team_name = Some team_id ->
  In team_id (map t_id teams).
Proof.
  unfold known_team_id.
  destruct (dict_get String.eqb team_name (team_lookup_of teams))
    as [id |] eqn:E; [| discriminate].
  destruct (id =? 0); [discriminate |]. intros G. injection G as <-.
  apply (dict_get_In String.eqb String.eqb_spec) in E.
  apply (dict_of_list_values String.eqb (fun v => In v (map t_id teams))
           (map (fun t => (t_name t, t_id t)) teams)) in E; [exact E |].
  intros kv Hkv. apply in_map_iff in Hkv. destruct Hkv as (t & <- & Ht).
  simpl. apply in_map, Ht.
Qed.




(** ** Placeholder names in the rosters *)



(** ** The matches [seed_database] hands to the aggregator *)

Lemma tx_bind_Ok_inv {A B : Type} (m : tx A) (k : A -> tx B) (c c' : Conn)
  (b : B) :
  tx_bind m k c = (c', Ok b) ->
  exists c1 a, m c = (c1, Ok a) /\ k a c1 = (c', Ok b).
Proof.
  unfold tx_bind. destruct (m c) as [c1 [a | e]]; intros E;
    [eauto | discriminate].
Qed.

Lemma tx_lift_Ok_inv {A : Type} (r : result A) (c c' : Conn) (a : A) :
  tx_lift r c = (c', Ok a) -> c' = c /\ r = Ok a.
Proof. unfold tx_lift. intros E. injection E as <- ->. auto. Qed.

Lemma has_team_In db id :
  has_team db id = true -> In id (map t_id (teams db)).
Proof.
  unfold has_team. intros E. apply existsb_exists in E.
  destruct E as (t & Ht & E). apply Z.eqb_eq in E. subst id.
  apply in_map, Ht.
Qed.

Lemma matches_of_season_teams db1 db2 season ms :
  teams db1 = teams db2 ->
  matches_of_season db1 season ms -> matches_of_season db2 season ms.
Proof. unfold matches_of_season. intros E. rewrite E. auto. Qed.

Lemma teams_frame (T : list TeamRow) :
  pending_frame teams (fun c => teams (pending c) = T).
Proof. intros c db Hc E. simpl. congruence. Qed.

Lemma keeps_commit_teams (T : list TeamRow) :
  tx_keeps (fun c => teams (pending c) = T) commit.
Proof. intros c Hc. exact Hc. Qed.

Lemma insert_event_teams row db db' :
  insert_event row db = Ok db' -> teams db' = teams db.
Proof.
  destruct row as [[[[[match_id minute] team_id] player_id] type] detail].
  unfold insert_event. destruct (_ && _); [| discriminate].
  intros E. injection E as <-. reflexivity.
Qed.

Lemma insert_player_stat_teams row db db' :
  insert_player_stat row db = Ok db' -> teams db' = teams db.
Proof.
  unfold insert_player_stat. destruct (_ && _); [| discriminate].
  intros E. injection E as <-. reflexivity.
Qed.

Lemma keeps_persist_events_teams T events :
  tx_keeps (fun c => teams (pending c) = T) (_persist_events events).
Proof.
  unfold _persist_events. apply keeps_bind; [| intros _; apply keeps_commit_teams].
  eapply keeps_executemany; [apply teams_frame | exact insert_event_teams].
Qed.

Lemma keeps_persist_player_stats_teams T stats :
  tx_keeps (fun c => teams (pending c) = T) (_persist_player_stats stats).
Proof.
  unfold _persist_player_stats.
  apply keeps_bind; [| intros _; apply keeps_commit_teams].
  eapply keeps_executemany;
    [apply teams_frame | exact insert_player_stat_teams].
Qed.

Section SeedLink.
Context {R : Type} `{RandomSource R}.
Variable isoformat : PyDate -> string.
Variable helpers : Helpers.
Variable simulate_sides :
  R -> Z -> Fixture -> float -> float -> list (Z * list Z) ->
  list EventTuple * list PlayerStatRow * R.

(** A match that was inserted is between team_list of the store. *)
Lemma simulate_match_Ok rng season stage_code match_info player_map team_list
  c c' out :
  _simulate_match isoformat simulate_sides rng season stage_code match_info
                  player_map team_list c = (c', Ok out) ->
  In (fx_home match_info) (map t_id (teams (pending c))) /\
  In (fx_away match_info) (map t_id (teams (pending c))) /\
  teams (pending c') = teams (pending c).
Proof.
  unfold _simulate_match.
  destruct (_attendance_for_team (fx_home match_info)) as [min_att max_att].
  intros E. apply tx_bind_Ok_inv in E.
  destruct E as (c1 & [attendance rng1] & E1 & E).
  apply tx_lift_Ok_inv in E1. destruct E1 as [-> _].
  destruct (uniform float_zero float_1_5 rng1) as [u1 rng2].
  destruct (uniform float_zero float_1_4 rng2) as [u2 rng3].
  apply tx_bind_Ok_inv in E. destruct E as (c2 & [referee rng4] & E2 & E).
  apply tx_lift_Ok_inv in E2. destruct E2 as [-> _].
  apply tx_bind_Ok_inv in E. destruct E as (c3 & match_id & E3 & E).
  destruct (simulate_sides _ _ _ _ _ _) as [[events stats_rows] rng5].
  unfold tx_ret in E. injection E as <- _.
  unfold execute in E3.
  match type of E3 with
  | context [insert_match ?row (pending c)] =>
      destruct (insert_match row (pending c)) as [[db id] |] eqn:Ei;
        [| discriminate]
  end.
  injection E3 as <- _. unfold insert_match in Ei. simpl in Ei.
  destruct (has_team (pending c) (fx_home match_info)) eqn:Hh;
    [| discriminate].
  destruct (has_team (pending c) (fx_away match_info)) eqn:Ha;
    [| discriminate].
  simpl in Ei. destruct (_ && _); [| discriminate].
  injection Ei as <- _. simpl.
  repeat split; auto using has_team_In.
Qed.

Lemma seed_match_Ok season player_map team_list stage_code acc match_info
  c c' acc' :
  seed_match isoformat simulate_sides season player_map team_list stage_code
             acc match_info c = (c', Ok acc') ->
  matches_of_season (pending c) season (fst (fst (fst acc))) ->
  matches_of_season (pending c') season (fst (fst (fst acc'))) /\
  teams (pending c') = teams (pending c).
Proof.
  destruct acc as [[[all_matches events_rows] stats_rows] rng].
  unfold seed_match. intros E Hms. apply tx_bind_Ok_inv in E.
  destruct E as (c1 & [[[match_id match_events] match_stats] rng'] & E1 & E).
  unfold tx_ret in E. injection E as <- <-.
  destruct (simulate_match_Ok _ _ _ _ _ _ _ _ _ E1) as (Hh & Ha & Ht).
  split; [| exact Ht]. simpl.
  intros m Hm. apply in_app_or in Hm. destruct Hm as [Hm | [<- | []]].
  - apply (matches_of_season_teams (pending c) (pending c1) season
             all_matches (eq_sym Ht) Hms m Hm).
  - simpl. rewrite Ht. auto.
Qed.

Lemma seed_schedule_Ok season player_map team_list stage_code schedule :
  forall acc c c' acc',
  tx_foldM (seed_match isoformat simulate_sides season player_map team_list
                       stage_code) acc schedule c = (c', Ok acc') ->
  matches_of_season (pending c) season (fst (fst (fst acc))) ->
  matches_of_season (pending c') season (fst (fst (fst acc'))) /\
  teams (pending c') = teams (pending c).
Proof.
  induction schedule as [| match_info rest IH]; intros acc c c' acc' E Hms.
  - simpl in E. unfold tx_ret in E. injection E as <- <-. auto.
  - simpl in E. apply tx_bind_Ok_inv in E. destruct E as (c1 & acc1 & E1 & E).
    destruct (seed_match_Ok _ _ _ _ _ _ _ _ _ E1 Hms) as [Hms1 Ht1].
    destruct (IH _ _ _ _ E Hms1) as [Hms2 Ht2].
    split; [exact Hms2 | congruence].
Qed.

Lemma seed_stages_Ok season player_map team_list fixtures :
  forall acc c c' acc',
  tx_foldM (seed_stage isoformat simulate_sides season player_map team_list)
           acc fixtures c = (c', Ok acc') ->
  matches_of_season (pending c) season (fst (fst (fst acc))) ->
  matches_of_season (pending c') season (fst (fst (fst acc'))) /\
  teams (pending c') = teams (pending c).
Proof.
  induction fixtures as [| item rest IH]; intros acc c c' acc' E Hms.
  - simpl in E. unfold tx_ret in E. injection E as <- <-. auto.
  - simpl in E. apply tx_bind_Ok_inv in E. destruct E as (c1 & acc1 & E1 & E).
    unfold seed_stage in E1.
    destruct (seed_schedule_Ok _ _ _ _ _ _ _ _ _ E1 Hms) as [Hms1 Ht1].
    destruct (IH _ _ _ _ E Hms1) as [Hms2 Ht2].
    split; [exact Hms2 | congruence].
Qed.

(** A season that is seeded has, as its committed store, the store the
    aggregator builds from matches of that season between team_list of the
    store. *)
Lemma seed_season_standings files team_list u season c c' :
  seed_season isoformat helpers simulate_sides files team_list u season c
  = (c', Ok tt) ->
  exists db ms,
    matches_of_season db season ms /\
    _build_and_store_standings helpers db season ms = Ok (committed c') /\
    pending c' = committed c'.
Proof.
  unfold seed_season. intros E.
  apply tx_bind_Ok_inv in E. destruct E as (c1 & roster & E1 & E).
  apply tx_bind_Ok_inv in E. destruct E as (c2 & player_map & E2 & E).
  apply tx_bind_Ok_inv in E. destruct E as (c3 & [fixtures rng] & E3 & E).
  apply tx_lift_Ok_inv in E3. destruct E3 as [-> _].
  apply tx_bind_Ok_inv in E.
  destruct E as (c4 & [[[all_matches events_rows] stats_rows] rng'] & E4 & E).
  destruct (seed_stages_Ok _ _ _ _ _ _ _ _ E4) as [Hms Ht].
  { intros m []. }
  simpl in Hms.
  apply tx_bind_Ok_inv in E. destruct E as (c5 & [] & E5 & E).
  apply tx_bind_Ok_inv in E. destruct E as (c6 & [] & E6 & E).
  apply tx_bind_Ok_inv in E. destruct E as (c7 & [] & E7 & E).
  pose proof (keeps_persist_events_teams _ events_rows c4 eq_refl) as H5.
  rewrite E5 in H5. simpl in H5.
  pose proof (keeps_persist_player_stats_teams _ stats_rows c5 eq_refl) as H6.
  rewrite E6 in H6. simpl in H6.
  unfold execute in E7.
  destruct (_build_and_store_standings helpers (pending c6) season
              all_matches) as [db' |] eqn:Eb; [| discriminate].
  cbn [bind] in E7. injection E7 as <-.
  unfold commit in E. injection E as <-. simpl.
  exists (pending c6), all_matches. split; [| split; [exact Eb | reflexivity]].
  apply (matches_of_season_teams (pending c4)); [congruence | exact Hms].
Qed.

End SeedLink.
(** ** Round robin: the size of the schedule *)

Lemma count_cons {A : Type} (f : A -> bool) (x : A) (l : list A) :
  count f (x :: l) = ((if f x then 1 else 0) + count f l)%nat.
Proof. unfold count. simpl. destruct (f x); reflexivity. Qed.

Lemma list_sum_map_add {A : Type} (f g : A -> nat) (l : list A) :
  list_sum (map (fun a => (f a + g a)%nat) l)
  = (list_sum (map f l) + list_sum (map g l))%nat.
Proof. induction l as [| a l IH]; simpl; [reflexivity | lia]. Qed.

Lemma list_sum_map_ext {A : Type} (f g : A -> nat) (l : list A) :
  (forall a, In a l -> f a = g a) ->
  list_sum (map f l) = list_sum (map g l).
Proof.
  induction l as [| a l IH]; intros E; simpl; [reflexivity |].
  rewrite (E a (or_introl eq_refl)), IH; [reflexivity |].
  intros b Hb. apply E. right. exact Hb.
Qed.

Lemma list_sum_map_const {A : Type} (k : nat) (l : list A) :
  list_sum (map (fun _ => k) l) = (k * length l)%nat.
Proof. induction l as [| a l IH]; simpl; [lia | rewrite IH; lia]. Qed.

Lemma list_sum_indicator (ids : list Z) (x : Z) :
  NoDup ids -> In x ids ->
  list_sum (map (fun a => if Z.eqb x a then 1%nat else 0%nat) ids) = 1%nat.
Proof.
  intros Hnd Hx.
  apply (@list_sum_single _ (fun a => if Z.eqb x a then 1%nat else 0%nat) ids x Hnd Hx).
  - rewrite Z.eqb_refl. reflexivity.
  - intros a _ Ha. destruct (Z.eqb_spec x a); [congruence | reflexivity].
Qed.

(** Each pairing of distinct participants is seen from two participants. *)
Lemma involves_double_count (ids : list Z) (r : list (Z * Z)) :
  NoDup ids ->
  (forall p, In p r -> fst p <> snd p /\ In (fst p) ids /\ In (snd p) ids) ->
  list_sum (map (fun a => count (involves a) r) ids) = (2 * length r)%nat.
Proof.
  intros Hnd. induction r as [| p r IH]; intros Hr.
  - simpl. apply (@list_sum_zero _ (fun _ => 0%nat)). reflexivity.
  - destruct (Hr p (or_introl eq_refl)) as (Hne & H1 & H2).
    rewrite (list_sum_map_ext _
               (fun a => ((if Z.eqb (fst p) a then 1 else 0)
                          + (if Z.eqb (snd p) a then 1 else 0)
                          + count (involves a) r)%nat)).
    + rewrite !list_sum_map_add.
      rewrite (list_sum_indicator ids (fst p) Hnd H1).
      rewrite (list_sum_indicator ids (snd p) Hnd H2).
      rewrite IH; [simpl; lia |].
      intros q Hq. apply Hr. right. exact Hq.
    + intros a _. rewrite count_cons. unfold involves at 1.
      destruct (Z.eqb_spec (fst p) a) as [E1 | N1];
        destruct (Z.eqb_spec (snd p) a) as [E2 | N2]; simpl;
        try reflexivity.
      congruence.
Qed.

Lemma length_concat_const {A : Type} (k : nat) (ls : list (list A)) :
  (forall l, In l ls -> length l = k) ->
  length (concat ls) = (length ls * k)%nat.
Proof.
  induction ls as [| l ls IH]; intros Hl; simpl; [reflexivity |].
  rewrite length_app, (Hl l (or_introl eq_refl)), IH; [reflexivity |].
  intros l' Hl'. apply Hl. right. exact Hl'.
Qed.

Section ScheduleSize.
Variable team_ids : list Z.
Hypothesis Hnd : NoDup team_ids.
Hypothesis Hbye : ~ In BYE team_ids.

(** Nobody is paired with themselves. *)
Lemma round_robin_distinct r p :
  In r (_round_robin team_ids) -> In p r -> fst p <> snd p.
Proof.
  intros Hr Hp.
  destruct (@round_robin_round_inv team_ids Hnd Hbye r Hr)
    as (h & i & Hh & Hlen & Hi & ->).
  rewrite (@round_pairings_L (pad_ids team_ids) h Hh Hlen) in Hp.
  apply in_flat_map in Hp. destruct Hp as (j & Hj & Hp).
  apply in_seq in Hj.
  rewrite (@pairing_at_L (pad_ids team_ids) h Hh Hlen) in Hp by lia.
  cbv zeta in Hp.
  pose proof (@pad_ids_NoDup team_ids Hnd Hbye) as Hndp.
  assert (Hpos : orig (2 * h - 1) i j <> orig (2 * h - 1) i (2 * h - 1 - j)).
  { intros E.
    pose proof (@orig_pos (2 * h - 1) i j _ Hi ltac:(lia) E) as E1.
    pose proof (@orig_pos (2 * h - 1) i (2 * h - 1 - j) _ Hi ltac:(lia)
                  eq_refl) as E2.
    lia. }
  assert (Hval : nth (orig (2 * h - 1) i j) (pad_ids team_ids) 0
                 <> nth (orig (2 * h - 1) i (2 * h - 1 - j))
                        (pad_ids team_ids) 0).
  { intros E. apply Hpos.
    apply (proj1 (NoDup_nth (pad_ids team_ids) 0) Hndp);
      [| | exact E];
      rewrite Hlen;
      pose proof (@orig_le (2 * h - 1) i j ltac:(lia) ltac:(lia));
      pose proof (@orig_le (2 * h - 1) i (2 * h - 1 - j) ltac:(lia)
                    ltac:(lia));
      lia. }
  destruct (_ || _); [contradiction |].
  destruct (Nat.even i); destruct Hp as [<- | []]; cbn [fst snd];
    [exact Hval | intros E; apply Hval; symmetry; exact E].
Qed.

(** Every round has [N / 2] pairings, [N] being the number of
    participants. *)
Lemma round_robin_round_size r :
  In r (_round_robin team_ids) -> length r = (length team_ids / 2)%nat.
Proof.
  intros Hr.
  assert (Hsum : list_sum (map (fun a => count (involves a) r) team_ids)
                 = (2 * length r)%nat).
  { apply involves_double_count; [exact Hnd |].
    intros p Hp. split; [exact (round_robin_distinct r p Hr Hp) |].
    exact (@round_robin_members team_ids Hnd Hbye r p Hr Hp). }
  destruct (Nat.even (length team_ids)) eqn:Hev.
  - rewrite (list_sum_map_ext _ (fun _ => 1%nat)) in Hsum.
    + rewrite list_sum_map_const in Hsum.
      apply Nat.even_spec in Hev. destruct Hev as [k Hk].
      assert (Hdiv : (length team_ids / 2 = k)%nat).
      { symmetry. apply (Nat.div_unique _ 2 k 0); lia. }
      lia.
    + intros a Ha. exact (@round_robin_even_once team_ids Hnd Hbye r a Hev Hr Ha).
  - assert (Hodd : Nat.odd (length team_ids) = true).
    { unfold Nat.odd. rewrite Hev. reflexivity. }
    destruct (@round_robin_odd_idle team_ids Hnd Hbye r Hodd Hr)
      as (idle & Hidle & H0 & H1).
    rewrite (list_sum_map_ext _
               (fun a => (1 - (if Z.eqb idle a then 1 else 0))%nat)) in Hsum.
    + assert (Hadd : (list_sum (map (fun a => (1 - (if Z.eqb idle a then 1 else 0))%nat) team_ids)
                      + list_sum (map (fun a => if Z.eqb idle a then 1%nat else 0%nat) team_ids)
                      = length team_ids)%nat).
      { rewrite <- list_sum_map_add.
        rewrite (list_sum_map_ext _ (fun _ => 1%nat)).
        - rewrite list_sum_map_const. lia.
        - intros a _. destruct (Z.eqb idle a); reflexivity. }
      rewrite (list_sum_indicator team_ids idle Hnd Hidle) in Hadd.
      apply Nat.odd_spec in Hodd. destruct Hodd as [k Hk].
      assert (Hdiv : (length team_ids / 2 = k)%nat).
      { symmetry. apply (Nat.div_unique _ 2 k 1); lia. }
      lia.
    + intros a Ha. destruct (Z.eqb_spec idle a) as [<- | Hne].
      * rewrite H0. reflexivity.
      * rewrite (H1 a Ha ltac:(congruence)). reflexivity.
Qed.

Lemma round_robin_length :
  length (_round_robin team_ids) = (length (pad_ids team_ids) - 1)%nat.
Proof.
  unfold _round_robin. rewrite rounds_from_map, length_map, length_seq.
  reflexivity.
Qed.

Lemma round_robin_total :
  (2 * length (concat (_round_robin team_ids))
   = length team_ids * (length team_ids - 1))%nat.
Proof.
  rewrite (length_concat_const (length team_ids / 2)%nat)
    by exact round_robin_round_size.
  rewrite round_robin_length. unfold pad_ids.
  destruct (Nat.odd (length team_ids)) eqn:Hodd.
  - rewrite length_app. cbn [length].
    apply Nat.odd_spec in Hodd. destruct Hodd as [k Hk].
    assert (Hdiv : (length team_ids / 2 = k)%nat).
    { symmetry. apply (Nat.div_unique _ 2 k 1); lia. }
    rewrite Hdiv, Hk. nia.
  - assert (Hev : Nat.even (length team_ids) = true).
    { rewrite <- Nat.negb_odd, Hodd. reflexivity. }
    apply Nat.even_spec in Hev. destruct Hev as [k Hk].
    assert (Hdiv : (length team_ids / 2 = k)%nat).
    { symmetry. apply (Nat.div_unique _ 2 k 0); lia. }
    rewrite Hdiv, Hk. nia.
Qed.

End ScheduleSize.

(** X1.  For distinct participant ids none of which is the bye [-1], the
    schedule of [_round_robin] has [N - 1] rounds when their number [N] is
    even and [N] rounds when it is odd, none for an empty list; every
    round has [N / 2] pairings (integer division), so that the schedule
    has [N * (N - 1) / 2] pairings in all; and no pairing is of a
    participant with itself. *)
Theorem round_robin_size (team_ids : list Z) :
  NoDup team_ids ->
  ~ In BYE team_ids ->
  let n := length team_ids in
  let rounds := _round_robin team_ids in
  length rounds = (if Nat.even n then n - 1 else n)%nat /\
  (forall r, In r rounds -> length r = (n / 2)%nat) /\
  (2 * length (concat rounds) = n * (n - 1))%nat /\
  (forall r p, In r rounds -> In p r -> fst p <> snd p).
Proof.
  intros Hnd Hbye n rounds. subst n rounds.
  split; [| split; [| split]].
  - rewrite round_robin_length. unfold pad_ids.
    rewrite <- Nat.negb_odd.
    destruct (Nat.odd (length team_ids)); simpl.
    + rewrite length_app. simpl. lia.
    + reflexivity.
  - intros r Hr. exact (round_robin_round_size team_ids Hnd Hbye r Hr).
  - exact (round_robin_total team_ids Hnd Hbye).
  - intros r p. exact (round_robin_distinct team_ids Hnd Hbye r p).
Qed.

Lemma round_robin_size_witness :
  length (_round_robin [1; 2; 3; 4; 5]) = 5%nat /\
  (forall r, In r (_round_robin [1; 2; 3; 4; 5]) -> length r = 2%nat) /\
  (2 * length (concat (_round_robin [1; 2; 3; 4; 5]%Z)) = 20)%nat /\
  (forall r p, In r (_round_robin [1; 2; 3; 4; 5]) -> In p r ->
     fst p <> snd p).
Proof.
  apply (round_robin_size [1; 2; 3; 4; 5]).
  - repeat constructor; simpl; intuition lia.
  - simpl. unfold BYE. intuition lia.
Defined.
(** ** Fixtures: the schedule under the scores *)

Lemma flat_map_singleton {A B : Type} (f : A -> B) (l : list A) :
  flat_map (fun x => [f x]) l = map f l.
Proof. induction l as [| x l IH]; simpl; [reflexivity | now rewrite IH]. Qed.


Section FixtureSlots.
Context {R : Type} `{RandomSource R}.
Hypothesis Hlaws : RandomSourceLaws R.

Lemma choice_In {A : Type} (seq : list A) (rng : R) (x : A) (rng' : R) :
  choice seq rng = Ok (x, rng') -> In x seq.
Proof.
  unfold choice. destruct seq as [| d rest]; [discriminate |].
  pose proof (Hlaws (Z.of_nat (length (d :: rest))) rng
                ltac:(simpl length; lia)) as Hr.
  destruct (rng_randbelow (Z.of_nat (length (d :: rest))) rng) as [i rng1].
  simpl fst in Hr.
  assert (Hin : In (nth (Z.to_nat i) (d :: rest) d) (d :: rest))
    by (apply nth_In; lia).
  intros E. injection E as <- _. exact Hin.
Qed.







End FixtureSlots.




(** ** Seeding: fewer than nine teams *)

Section FewTeams.
Context {R : Type} `{RandomSource R}.

(** With eight ids or fewer the second group of the Intermedio is empty
    and the Final has no away team. *)
Lemma intermedio_schedule_few_any (team_ids : list Z) (season : Z) (rng : R) :
  (length team_ids <= 8)%nat ->
  exists e, _build_intermedio_schedule team_ids season rng = Err e.
Proof.
  intros Hlen. unfold _build_intermedio_schedule.
  destruct (datetime season 6 5) as [start_date | e]; cbn [bind]; [| eauto].
  destruct (foldM (intermedio_group start_date) ([], rng) _)
    as [[fixtures rng1] | e]; cbn [bind]; [| eauto].
  destruct (plus_days start_date (7 * 8)) as [final_date | e]; cbn [bind];
    [| eauto].
  destruct (choice KICKOFF_TIMES rng1) as [[time rng2] | e]; cbn [bind];
    [| eauto].
  destruct (first_of (firstn 8 (sort_by Z.leb team_ids))) as [home | e];
    cbn [bind]; [| eauto].
  rewrite skipn_all2 by (rewrite sort_by_length; exact Hlen).
  cbn [first_of bind]. eauto.
Qed.

Lemma fixture_blocks_few_any (teams : list TeamRow) (season : Z) (rng : R) :
  (length teams <= 8)%nat ->
  exists e, _generate_fixture_blocks teams season rng = Err e.
Proof.
  intros Hlen. unfold _generate_fixture_blocks.
  destruct (datetime season 2 10) as [d1 | e]; cbn [bind]; [| eauto].
  destruct (_build_round_robin_schedule _ season rng d1)
    as [[apertura rng1] | e]; cbn [bind]; [| eauto].
  destruct (datetime season 8 10) as [d2 | e]; cbn [bind]; [| eauto].
  destruct (_build_round_robin_schedule _ season rng1 d2)
    as [[clausura rng2] | e]; cbn [bind]; [| eauto].
  destruct (intermedio_schedule_few_any (map t_id teams) season rng2
              ltac:(rewrite length_map; exact Hlen)) as [e ->].
  cbn [bind]. eauto.
Qed.

Lemma fixture_blocks_few (teams : list TeamRow) (season : Z) (rng : R) :
  RandomSourceLaws R ->
  1 <= season <= 9998 -> (length teams <= 8)%nat ->
  _generate_fixture_blocks teams season rng = Err IndexError.
Proof.
  intros Hlaws Hy Hlen. unfold _generate_fixture_blocks.
  rewrite datetime_total by lia. cbn [bind].
  destruct (round_robin_schedule_scores Hlaws (map t_id teams) season rng
              (mkDate season 2 10 0 true) ltac:(simpl; lia))
    as (apertura & rng1 & E1 & _).
  rewrite E1. cbn [bind].
  rewrite datetime_total by lia. cbn [bind].
  destruct (round_robin_schedule_scores Hlaws (map t_id teams) season rng1
              (mkDate season 8 10 0 true) ltac:(simpl; lia))
    as (clausura & rng2 & E2 & _).
  rewrite E2. cbn [bind].
  rewrite (intermedio_schedule_few Hlaws (map t_id teams) season rng2 Hy)
    by (rewrite length_map; exact Hlen).
  reflexivity.
Qed.

Variable isoformat : PyDate -> string.
Variable helpers : Helpers.
Variable simulate_sides :
  R -> Z -> Fixture -> float -> float -> list (Z * list Z) ->
  list EventTuple * list PlayerStatRow * R.
Variable mu : list (string * string).

Lemma aborts_lift_Err {A : Type} (r : result A) :
  (exists e, r = Err e) -> tx_aborts (meta_inv mu) (tx_lift r).
Proof. intros [e ->] c Hc. split; [exists e; reflexivity | exact Hc]. Qed.

Lemma seed_season_few files teams u season :
  (length teams <= 8)%nat ->
  tx_aborts (meta_inv mu)
    (seed_season isoformat helpers simulate_sides files teams u season).
Proof.
  intros Hlen. unfold seed_season.
  apply aborts_bind_r; [apply keeps_lift | intros roster].
  apply aborts_bind_r; [apply keeps_insert_players | intros player_map].
  apply aborts_bind_l, aborts_lift_Err, fixture_blocks_few_any, Hlen.
Qed.

Lemma seed_database_few files teams :
  teams_json files = Ok teams ->
  (length teams <= 8)%nat ->
  roster_years files <> [] ->
  tx_aborts (meta_inv mu)
    (seed_database isoformat helpers simulate_sides files).
Proof.
  intros Hteams Hlen Hyears. unfold seed_database, _load_teams.
  rewrite Hteams. apply aborts_lift_Ok.
  apply aborts_bind_r; [apply keeps_insert_base_rows | intros _].
  apply aborts_bind_l.
  destruct (roster_years files) as [| season rest] eqn:Ey; [contradiction |].
  apply (aborts_foldM (meta_inv mu) _ _ season).
  - unfold _load_roster_seasons. rewrite Ey.
    apply (sort_by_In Z.leb). left. reflexivity.
  - intros u y. apply keeps_seed_season.
  - intros u. apply seed_season_few, Hlen.
Qed.

End FewTeams.

(** X4.  A seed of eight teams or fewer cannot be seeded.  For a random
    source that keeps the promise of [_randbelow] and a season between 1
    and 9998, [_generate_fixture_blocks] raises [IndexError] (the second
    group of the Intermedio is empty and has no finalist); and whatever
    the random source, when there is at least one roster season
    [seed_database] raises and leaves the committed metadata table as it
    was, with no schema version recorded. *)
Theorem seeding_needs_nine_teams (R : Type) `{RandomSource R}
  (isoformat : PyDate -> string) (helpers : Helpers)
  (simulate_sides :
     R -> Z -> Fixture -> float -> float -> list (Z * list Z) ->
     list EventTuple * list PlayerStatRow * R)
  (files : SeedFiles) (teams : list TeamRow) (c : Conn) :
  (length teams <= 8)%nat ->
  (RandomSourceLaws R ->
   forall season rng, 1 <= season <= 9998 ->
     _generate_fixture_blocks teams season rng = Err IndexError) /\
  (teams_json files = Ok teams ->
   roster_years files <> [] ->
   metadata (pending c) = metadata (committed c) ->
   (exists e,
       snd (seed_database isoformat helpers simulate_sides files c) = Err e) /\
   metadata (committed
               (fst (seed_database isoformat helpers simulate_sides files c)))
   = metadata (committed c)).
Proof.
  intros Hlen. split.
  - intros Hlaws season rng Hy. exact (fixture_blocks_few teams season rng Hlaws Hy Hlen).
  - intros Hteams Hyears Hmeta.
    destruct (seed_database_few isoformat helpers simulate_sides
                (metadata (committed c)) files teams Hteams Hlen Hyears
                c (conj Hmeta eq_refl)) as [He [_ Hc]].
    split; [exact He | exact Hc].
Qed.

Lemma seeding_needs_nine_teams_witness :
  (exists e,
      snd (seed_database no_calendar no_helpers (@no_sides (list Z))
             (mkSeedFiles (Ok (firstn 8 nine_clubs)) [2024]
                          (fun _ => Ok []))
             fresh_conn) = Err e) /\
  metadata (committed
              (fst (seed_database no_calendar no_helpers (@no_sides (list Z))
                      (mkSeedFiles (Ok (firstn 8 nine_clubs)) [2024]
                                   (fun _ => Ok []))
                      fresh_conn)))
  = [].
Proof.
  refine (proj2 (seeding_needs_nine_teams (list Z) no_calendar no_helpers
                   (@no_sides (list Z))
                   (mkSeedFiles (Ok (firstn 8 nine_clubs)) [2024]
                                (fun _ => Ok []))
                   (firstn 8 nine_clubs) fresh_conn _) _ _ _).
  - simpl. lia.
  - reflexivity.
  - discriminate.
  - reflexivity.
Defined.

(** ** Seeding: what a run leaves in the store *)

Lemma execute_Ok_inv {A : Type} (stmt : DB -> result (DB * A)) (c c' : Conn)
  (a : A) :
  execute stmt c = (c', Ok a) ->
  exists db, stmt (pending c) = Ok (db, a) /\ c' = mkConn (committed c) db.
Proof.
  unfold execute. destruct (stmt (pending c)) as [[db a'] | e];
    intros E; [| discriminate].
  injection E as <- <-. eauto.
Qed.

Lemma executemany_Ok_inv {A : Type} (stmt : A -> DB -> result DB)
  (rows : list A) : forall c c',
  executemany stmt rows c = (c', Ok tt) ->
  committed c' = committed c /\
  foldM (fun db row => stmt row db) (pending c) rows = Ok (pending c').
Proof.
  unfold executemany.
  induction rows as [| row rest IH]; intros c c' E; simpl in *.
  - unfold tx_ret in E. injection E as <-. auto.
  - apply tx_bind_Ok_inv in E. destruct E as (c1 & [] & E1 & E).
    apply execute_Ok_inv in E1. destruct E1 as (db & E1 & ->).
    destruct (stmt row (pending c)) as [db1 |]; [| discriminate].
    cbn [bind] in *. injection E1 as ->.
    destruct (IH _ _ E) as [Hc Hf]. simpl in *. auto.
Qed.





Lemma build_frame helpers db season ms db' :
  _build_and_store_standings helpers db season ms = Ok db' ->
  exists rows, db' = set_standings db rows.
Proof.
  unfold _build_and_store_standings. intros E. cbv zeta in E.
  bind_inv E.
  destruct (store_all_spec helpers _ _ _ _ E) as [blocks [_ ->]].
  rewrite set_standings_twice. eauto.
Qed.

Lemma insert_match_frame row db db' id :
  insert_match row db = Ok (db', id) ->
  exists rows, db' = set_matches db rows.
Proof.
  unfold insert_match. destruct (_ && _); [| discriminate].
  intros E. injection E as <- _. eauto.
Qed.

Lemma insert_event_frame row db db' :
  insert_event row db = Ok db' ->
  exists rows, db' = set_match_events db rows.
Proof.
  destruct row as [[[[[match_id minute] team_id] player_id] type] detail].
  unfold insert_event. destruct (_ && _); [| discriminate].
  intros E. injection E as <-. eauto.
Qed.

Lemma insert_player_stat_frame row db db' :
  insert_player_stat row db = Ok db' ->
  exists rows, db' = set_player_match_stats db rows.
Proof.
  unfold insert_player_stat. destruct (_ && _); [| discriminate].
  intros E. injection E as <-. eauto.
Qed.

(** A property of the pending store that the steps of a season keep, once
    [_insert_players] keeps it. *)
Section SeedFrame.
Context {R : Type} `{RandomSource R}.
Variable isoformat : PyDate -> string.
Variable helpers : Helpers.
Variable simulate_sides :
  R -> Z -> Fixture -> float -> float -> list (Z * list Z) ->
  list EventTuple * list PlayerStatRow * R.
Context {X : Type}.
Variable f : DB -> X.
Variable P : Conn -> Prop.
Hypothesis Hframe : pending_frame f P.
Hypothesis Hcommit : tx_keeps P commit.
Hypothesis Hplayers :
  forall teams_in roster, tx_keeps P (_insert_players teams_in roster).
Hypothesis Hmatches : forall db rows, f (set_matches db rows) = f db.
Hypothesis Hevents : forall db rows, f (set_match_events db rows) = f db.
Hypothesis Hstats : forall db rows, f (set_player_match_stats db rows) = f db.
Hypothesis Hstandings : forall db rows, f (set_standings db rows) = f db.

Lemma keeps_seed_season_frame files teams_in u season :
  tx_keeps P
    (seed_season isoformat helpers simulate_sides files teams_in u season).
Proof.
  unfold seed_season.
  apply keeps_bind; [apply keeps_lift | intros roster].
  apply keeps_bind; [apply Hplayers | intros player_map].
  apply keeps_bind; [apply keeps_lift | intros [fixtures rng]].
  apply keeps_bind.
  { apply keeps_foldM. intros acc item. unfold seed_stage.
    apply keeps_foldM.
    intros [[[all_matches events_rows] stats_rows] rng1] match_info.
    unfold seed_match. apply keeps_bind.
    - unfold _simulate_match.
      destruct (_attendance_for_team (fx_home match_info))
        as [min_att max_att].
      apply keeps_bind; [apply keeps_lift | intros [attendance rng2]].
      destruct (uniform float_zero float_1_5 rng2) as [u1 rng3].
      destruct (uniform float_zero float_1_4 rng3) as [u2 rng4].
      apply keeps_bind; [apply keeps_lift | intros [referee rng5]].
      apply keeps_bind.
      + eapply keeps_execute; [exact Hframe |].
        intros db db' id E. apply insert_match_frame in E.
        destruct E as [rows ->]. apply Hmatches.
      + intros match_id.
        destruct (simulate_sides _ _ _ _ _ _) as [[events stats] rng6].
        apply keeps_ret.
    - intros [[[match_id match_events] match_stats] rng']. apply keeps_ret. }
  intros [[[all_matches events_rows] stats_rows] rng'].
  apply keeps_bind.
  { unfold _persist_events. apply keeps_bind; [| intros _; exact Hcommit].
    eapply keeps_executemany; [exact Hframe |].
    intros row db db' E. apply insert_event_frame in E.
    destruct E as [rows ->]. apply Hevents. }
  intros _. apply keeps_bind.
  { unfold _persist_player_stats.
    apply keeps_bind; [| intros _; exact Hcommit].
    eapply keeps_executemany; [exact Hframe |].
    intros row db db' E. apply insert_player_stat_frame in E.
    destruct E as [rows ->]. apply Hstats. }
  intros _. apply keeps_bind; [| intros _; exact Hcommit].
  eapply keeps_execute; [exact Hframe |].
  intros db db' a E. bind_inv E. injection E as <- _.
  apply build_frame in E0. destruct E0 as [rows ->]. apply Hstandings.
Qed.

End SeedFrame.

Lemma insert_player_frame row db db' :
  insert_player row db = Ok db' ->
  exists p, db' = set_players db (players db ++ [p]) /\
            p_full_name p = fst (fst (fst (fst row))).
Proof.
  destruct row as [[[[full_name team_id] position] nationality] birth_year].
  unfold insert_player. destruct (has_team db team_id); [| discriminate].
  intros E. injection E as <-. eexists. split; reflexivity.
Qed.

Lemma insert_team_frame t db db' :
  insert_team t db = Ok db' -> exists rows, db' = set_teams db rows.
Proof.
  unfold insert_team. destruct (existsb _ _); [discriminate |].
  intros E. injection E as <-. eauto.
Qed.

Lemma insert_season_frame y db db' :
  insert_season y db = Ok db' -> exists rows, db' = set_seasons db rows.
Proof.
  unfold insert_season. destruct (existsb _ _); [discriminate |].
  intros E. injection E as <-. eauto.
Qed.

Lemma insert_stage_frame row db db' :
  insert_stage row db = Ok db' -> exists rows, db' = set_stages db rows.
Proof.
  unfold insert_stage. destruct (existsb _ _); [discriminate |].
  intros E. injection E as <-. eauto.
Qed.

Lemma keeps_bind_lift (P : Conn -> Prop) {A B : Type} (r : result A)
  (k : A -> tx B) :
  (forall a, r = Ok a -> tx_keeps P (k a)) ->
  tx_keeps P (tx_bind (tx_lift r) k).
Proof.
  intros Hk c Hc. unfold tx_bind, tx_lift.
  destruct r as [a | e]; [exact (Hk a eq_refl c Hc) | exact Hc].
Qed.


(** The tuples [_insert_players] builds carry the names of the players
    read, none of them a placeholder name. *)
Lemma player_tuples_Ok (team_id : Z) (ps : list RosterPlayer) rows :
  mapM (player_tuple team_id) ps = Ok rows ->
  map (fun row => Some (fst (fst (fst (fst row))))) rows
  = map rp_full_name ps /\
  Forall (fun row => has_placeholder (fst (fst (fst (fst row)))) = false
                     /\ snd (fst (fst (fst row))) = team_id) rows.
Proof.
  revert rows. induction ps as [| p rest IH]; intros rows E; simpl in E.
  - injection E as <-. split; constructor.
  - bind_inv E. bind_inv E. injection E as <-.
    destruct (IH _ E1) as [Hn Hf].
    unfold player_tuple in E0.
    destruct (rp_full_name p) as [name |] eqn:En; cbn [bind] in E0;
      [| discriminate].
    fold (has_placeholder name) in E0.
    destruct (has_placeholder name) eqn:Eh; [discriminate |].
    injection E0 as E0. subst x. simpl. rewrite Hn, En.
    split; [reflexivity |].
    constructor; [split; [exact Eh | reflexivity] | exact Hf].
Qed.

(** Seeding never leaves a placeholder name among the players. *)
Section NoPlaceholder.

Let clean (c : Conn) : Prop :=
  no_placeholder_players (pending c) /\ no_placeholder_players (committed c).

Lemma clean_frame : pending_frame players clean.
Proof.
  intros c db [Hp Hc] E. split; [| exact Hc].
  unfold no_placeholder_players in *. simpl. rewrite E. exact Hp.
Qed.

Lemma clean_commit : tx_keeps clean commit.
Proof. intros c [Hp Hc]. split; exact Hp. Qed.

Lemma clean_insert_rows rows :
  Forall (fun row => has_placeholder (fst (fst (fst (fst row)))) = false)
         rows ->
  tx_keeps clean (executemany insert_player rows).
Proof.
  unfold executemany. induction 1 as [| row rest Hrow Hrest IH]; simpl.
  - apply keeps_ret.
  - apply keeps_bind; [| intros []; exact IH].
    intros c [Hp Hc]. unfold execute.
    destruct (insert_player row (pending c)) as [db |] eqn:E;
      cbn [bind fst]; [| split; assumption].
    apply insert_player_frame in E. destruct E as (p & -> & En).
    split; [| exact Hc]. unfold no_placeholder_players in *. simpl.
    apply Forall_app. split; [exact Hp |].
    constructor; [rewrite En; exact Hrow | constructor].
Qed.

Lemma clean_insert_players teams_in roster :
  tx_keeps clean (_insert_players teams_in roster).
Proof.
  unfold _insert_players. apply keeps_bind.
  - apply keeps_foldM. intros pm [team_name team_data].
    unfold insert_team_players.
    destruct (known_team_id _ team_name) as [team_id |];
      [| apply keeps_ret].
    apply keeps_bind_lift. intros rows Hrows.
    apply player_tuples_Ok in Hrows. destruct Hrows as [_ Hrows].
    apply keeps_bind.
    + apply clean_insert_rows.
      apply Forall_impl with (2 := Hrows). tauto.
    + intros _. apply keeps_bind; [apply keeps_fetchall | intros ids].
      apply keeps_ret.
  - intros pm. apply keeps_bind; [apply clean_commit | intros _].
    apply keeps_ret.
Qed.

Context {R : Type} `{RandomSource R}.
Variable isoformat : PyDate -> string.
Variable helpers : Helpers.
Variable simulate_sides :
  R -> Z -> Fixture -> float -> float -> list (Z * list Z) ->
  list EventTuple * list PlayerStatRow * R.

Lemma clean_seed_database files :
  tx_keeps clean (seed_database isoformat helpers simulate_sides files).
Proof.
  unfold seed_database.
  apply keeps_bind; [apply keeps_lift | intros teams_in].
  apply keeps_bind.
  { unfold _insert_base_rows.
    apply keeps_bind.
    { eapply keeps_executemany; [exact clean_frame |].
      intros t db db' E. apply insert_team_frame in E.
      destruct E as [rows ->]. reflexivity. }
    intros _. apply keeps_bind.
    { eapply keeps_executemany; [exact clean_frame |].
      intros y db db' E. apply insert_season_frame in E.
      destruct E as [rows ->]. reflexivity. }
    intros _. apply keeps_bind; [| intros _; exact clean_commit].
    eapply keeps_executemany; [exact clean_frame |].
    intros row db db' E. apply insert_stage_frame in E.
    destruct E as [rows ->]. reflexivity. }
  intros _. apply keeps_bind.
  { apply keeps_foldM. intros u season.
    apply (keeps_seed_season_frame isoformat helpers simulate_sides
             players clean clean_frame clean_commit clean_insert_players);
      reflexivity. }
  intros _. apply keeps_bind; [| intros _; exact clean_commit].
  eapply keeps_execute; [exact clean_frame |].
  intros db db' a E. unfold replace_metadata in E. cbn [bind] in E.
  injection E as <- _. reflexivity.
Qed.

End NoPlaceholder.

(** X5.  When the seeding of a season returns, its committed store is the
    one [_build_and_store_standings] builds, from a store with the same
    teams, out of matches that all are of that season and between teams
    of the store, and nothing is left pending. *)
Theorem seeded_season_standings (R : Type) `{RandomSource R}
  (isoformat : PyDate -> string) (helpers : Helpers)
  (simulate_sides :
     R -> Z -> Fixture -> float -> float -> list (Z * list Z) ->
     list EventTuple * list PlayerStatRow * R)
  (files : SeedFiles) (teams_in : list TeamRow) (season : Z) (c c' : Conn) :
  seed_season isoformat helpers simulate_sides files teams_in tt season c
  = (c', Ok tt) ->
  exists db ms,
    matches_of_season db season ms /\
    _build_and_store_standings helpers db season ms = Ok (committed c') /\
    teams db = teams (committed c') /\
    pending c' = committed c'.
Proof.
  intros E.
  destruct (seed_season_standings isoformat helpers simulate_sides
              files teams_in tt season c c' E) as (db & ms & Hms & Hb & Hp).
  exists db, ms. split; [exact Hms |]. split; [exact Hb |].
  split; [| exact Hp].
  apply build_frame in Hb. destruct Hb as [rows ->]. reflexivity.
Qed.

(** X7.  Whether [seed_database] returns or raises, it never leaves a
    player whose name contains "placeholder" in the store: if neither the
    pending nor the committed store had one before, neither has one
    after. *)
Theorem seeding_keeps_players_clean (R : Type) `{RandomSource R}
  (isoformat : PyDate -> string) (helpers : Helpers)
  (simulate_sides :
     R -> Z -> Fixture -> float -> float -> list (Z * list Z) ->
     list EventTuple * list PlayerStatRow * R)
  (files : SeedFiles) (c : Conn) :
  no_placeholder_players (pending c) ->
  no_placeholder_players (committed c) ->
  no_placeholder_players
    (pending (fst (seed_database isoformat helpers simulate_sides files c))) /\
  no_placeholder_players
    (committed (fst (seed_database isoformat helpers simulate_sides files c))).
Proof.
  intros Hp Hc.
  exact (clean_seed_database isoformat helpers simulate_sides files c
           (conj Hp Hc)).
Qed.

Lemma seeded_season_standings_witness :
  exists db ms,
    matches_of_season db 2024 ms /\
    _build_and_store_standings no_helpers db 2024 ms
    = Ok (committed
            (fst (seed_season no_calendar no_helpers (@no_sides (list Z))
                    ghost_files nine_clubs tt 2024
                    (fst (_insert_base_rows nine_clubs [2024] fresh_conn))))) /\
    teams db
    = teams (committed
               (fst (seed_season no_calendar no_helpers (@no_sides (list Z))
                       ghost_files nine_clubs tt 2024
                       (fst (_insert_base_rows nine_clubs [2024]
                                               fresh_conn))))) /\
    pending
      (fst (seed_season no_calendar no_helpers (@no_sides (list Z))
              ghost_files nine_clubs tt 2024
              (fst (_insert_base_rows nine_clubs [2024] fresh_conn))))
    = committed
        (fst (seed_season no_calendar no_helpers (@no_sides (list Z))
                ghost_files nine_clubs tt 2024
                (fst (_insert_base_rows nine_clubs [2024] fresh_conn)))).
Proof.
  apply (seeded_season_standings (list Z) no_calendar no_helpers
           (@no_sides (list Z)) ghost_files nine_clubs 2024
           (fst (_insert_base_rows nine_clubs [2024] fresh_conn))).
  vm_compute. reflexivity.
Defined.

Lemma seeding_keeps_players_clean_witness :
  no_placeholder_players
    (pending (fst (seed_database no_calendar no_helpers (@no_sides (list Z))
                                 placeholder_files fresh_conn))) /\
  no_placeholder_players
    (committed (fst (seed_database no_calendar no_helpers
                                   (@no_sides (list Z))
                                   placeholder_files fresh_conn))).
Proof.
  apply (seeding_keeps_players_clean (list Z) no_calendar no_helpers
           (@no_sides (list Z)) placeholder_files fresh_conn);
    constructor.
Defined.


Section SeedSuccess.
Context {R : Type} `{RandomSource R}.
Variable isoformat : PyDate -> string.
Variable helpers : Helpers.
Variable simulate_sides :
  R -> Z -> Fixture -> float -> float -> list (Z * list Z) ->
  list EventTuple * list PlayerStatRow * R.





End SeedSuccess.


(** ** Seeding: the keys of the base rows *)


(** Rows with a unique key: an [INSERT] of each succeeds exactly when the
    keys are new and distinct. *)
Section UniqueKeys.
Context {A : Type}.
Variable clash : A -> A -> bool.
Variable get : DB -> list A.
Variable set : DB -> list A -> DB.
Variable insert : A -> DB -> result DB.
Hypothesis Hget : forall db rows, get (set db rows) = rows.
Hypothesis Hinsert : forall x db,
  insert x db = if existsb (fun y => clash y x) (get db)
                then Err IntegrityError
                else Ok (set db (get db ++ [x])).


End UniqueKeys.











(** ** Aggregator: the totals of a stage table *)

Lemma zsum_app l1 l2 : zsum (l1 ++ l2) = zsum l1 + zsum l2.
Proof. induction l1 as [| x l IH]; simpl; [reflexivity | rewrite IH; lia]. Qed.

Lemma zsum_map_add {A : Type} (f g : A -> Z) (l : list A) :
  zsum (map (fun a => f a + g a) l) = zsum (map f l) + zsum (map g l).
Proof. induction l as [| a l IH]; simpl; [reflexivity | rewrite IH; lia]. Qed.

Lemma zsum_map_ext {A : Type} (f g : A -> Z) (l : list A) :
  (forall a, In a l -> f a = g a) -> zsum (map f l) = zsum (map g l).
Proof.
  induction l as [| a l IH]; intros E; simpl; [reflexivity |].
  rewrite (E a (or_introl eq_refl)), IH; [reflexivity |].
  intros b Hb. apply E. right. exact Hb.
Qed.

Lemma zsum_map_zero {A : Type} (l : list A) : zsum (map (fun _ => 0) l) = 0.
Proof. induction l as [| a l IH]; simpl; [reflexivity | exact IH]. Qed.

Lemma zsum_pick (T : list Z) (x v : Z) :
  NoDup T -> In x T ->
  zsum (map (fun t => if x =? t then v else 0) T) = v.
Proof.
  induction T as [| t T IH]; intros Hnd Hx; [contradiction |].
  inversion Hnd as [| ? ? Hnin Hnd']. subst. simpl.
  destruct (Z.eqb_spec x t) as [-> | Hne].
  - rewrite (zsum_map_ext _ (fun _ => 0)).
    + rewrite zsum_map_zero. lia.
    + intros a Ha. destruct (Z.eqb_spec t a); [subst; contradiction | reflexivity].
  - destruct Hx as [E | Hx]; [congruence |]. rewrite (IH Hnd' Hx). lia.
Qed.

Lemma zsum_gain (T : list Z) (m : MatchResult) (x y : Z) :
  NoDup T -> In (home_team_id m) T -> In (away_team_id m) T ->
  zsum (map (fun t => gain t m x y) T) = x + y.
Proof.
  intros Hnd Hh Ha. unfold gain. rewrite zsum_map_add.
  rewrite (zsum_pick T (home_team_id m) x Hnd Hh).
  rewrite (zsum_pick T (away_team_id m) y Hnd Ha). reflexivity.
Qed.

(** One match in the running totals of a team. *)
Lemma tally_step_fields key t s m :
  let s' := tally_step key t s m in
  let hg := home_goals m in
  let ag := away_goals m in
  if key_eqb (season_year m, stage_code m) key then
    st_mp s' = st_mp s + gain t m 1 1 /\
    st_w s' = st_w s + gain t m (if hg >? ag then 1 else 0)
                              (if ag >? hg then 1 else 0) /\
    st_d s' = st_d s + gain t m (if hg =? ag then 1 else 0)
                              (if hg =? ag then 1 else 0) /\
    st_l s' = st_l s + gain t m (if ag >? hg then 1 else 0)
                              (if hg >? ag then 1 else 0) /\
    st_gf s' = st_gf s + gain t m hg ag /\
    st_ga s' = st_ga s + gain t m ag hg
  else s' = s.
Proof.
  cbv zeta. unfold tally_step.
  destruct (key_eqb (season_year m, stage_code m) key); [| reflexivity].
  unfold involved_update, gain, update_side.
  destruct (home_team_id m =? t), (away_team_id m =? t);
    destruct (Z.gtb_spec (home_goals m) (away_goals m));
    destruct (Z.gtb_spec (away_goals m) (home_goals m));
    destruct (Z.eqb_spec (home_goals m) (away_goals m));
    destruct (Z.eqb_spec (away_goals m) (home_goals m));
    simpl; repeat split; lia.
Qed.

Section TallySums.
Variable key : Z * string.
Variable T : list Z.
Hypothesis HT : NoDup T.

Let in_key (m : MatchResult) : bool :=
  key_eqb (season_year m, stage_code m) key.

Lemma tally_snoc t ms m :
  tally key t (ms ++ [m]) = tally_step key t (tally key t ms) m.
Proof. unfold tally. rewrite fold_left_app. reflexivity. Qed.

Lemma tally_sums ms :
  (forall m, In m ms -> in_key m = true ->
             In (home_team_id m) T /\ In (away_team_id m) T) ->
  zsum (map (fun t => st_w (tally key t ms)) T)
  = zsum (map (fun t => st_l (tally key t ms)) T) /\
  zsum (map (fun t => st_gf (tally key t ms)) T)
  = zsum (map (fun t => st_ga (tally key t ms)) T) /\
  zsum (map (fun t => st_mp (tally key t ms)) T)
  = 2 * Z.of_nat (count in_key ms) /\
  zsum (map (fun t => st_d (tally key t ms)) T)
  = 2 * Z.of_nat (count (fun m => in_key m && drawn m) ms).
Proof.
  induction ms as [| m ms IH] using rev_ind; intros Hin.
  - unfold tally. simpl. rewrite !zsum_map_zero. repeat split; reflexivity.
  - destruct IH as (Hw & Hg & Hmp & Hd).
    { intros m' Hm'. apply Hin. apply in_or_app. left. exact Hm'. }
    rewrite !count_app, !count_cons. simpl count.
    unfold count at 2 4. simpl length.
    pose proof (fun t => tally_step_fields key t (tally key t ms) m) as Hstep.
    cbv zeta in Hstep. fold (in_key m) in Hstep.
    destruct (in_key m) eqn:Ek.
    + destruct (Hin m (in_or_app ms [m] m (or_intror (or_introl eq_refl))) Ek)
        as [Hh Ha].
      rewrite (zsum_map_ext (fun t => st_w (tally key t (ms ++ [m])))
                 (fun t => st_w (tally key t ms)
                           + gain t m
                               (if home_goals m >? away_goals m then 1 else 0)
                               (if away_goals m >? home_goals m then 1 else 0)))
        by (intros t _; rewrite tally_snoc; apply (Hstep t)).
      rewrite (zsum_map_ext (fun t => st_l (tally key t (ms ++ [m])))
                 (fun t => st_l (tally key t ms)
                           + gain t m
                               (if away_goals m >? home_goals m then 1 else 0)
                               (if home_goals m >? away_goals m then 1 else 0)))
        by (intros t _; rewrite tally_snoc; apply (Hstep t)).
      rewrite (zsum_map_ext (fun t => st_gf (tally key t (ms ++ [m])))
                 (fun t => st_gf (tally key t ms)
                           + gain t m (home_goals m) (away_goals m)))
        by (intros t _; rewrite tally_snoc; apply (Hstep t)).
      rewrite (zsum_map_ext (fun t => st_ga (tally key t (ms ++ [m])))
                 (fun t => st_ga (tally key t ms)
                           + gain t m (away_goals m) (home_goals m)))
        by (intros t _; rewrite tally_snoc; apply (Hstep t)).
      rewrite (zsum_map_ext (fun t => st_mp (tally key t (ms ++ [m])))
                 (fun t => st_mp (tally key t ms) + gain t m 1 1))
        by (intros t _; rewrite tally_snoc; apply (Hstep t)).
      rewrite (zsum_map_ext (fun t => st_d (tally key t (ms ++ [m])))
                 (fun t => st_d (tally key t ms)
                           + gain t m
                               (if home_goals m =? away_goals m then 1 else 0)
                               (if home_goals m =? away_goals m then 1 else 0)))
        by (intros t _; rewrite tally_snoc; apply (Hstep t)).
      rewrite !zsum_map_add, !(zsum_gain T m _ _ HT Hh Ha).
      rewrite Hw, Hg, Hmp, Hd. unfold drawn. simpl andb.
      destruct (home_goals m =? away_goals m); cbv iota; repeat split; lia.
    + rewrite (zsum_map_ext (fun t => st_w (tally key t (ms ++ [m])))
                 (fun t => st_w (tally key t ms)))
        by (intros t _; rewrite tally_snoc, (Hstep t); reflexivity).
      rewrite (zsum_map_ext (fun t => st_l (tally key t (ms ++ [m])))
                 (fun t => st_l (tally key t ms)))
        by (intros t _; rewrite tally_snoc, (Hstep t); reflexivity).
      rewrite (zsum_map_ext (fun t => st_gf (tally key t (ms ++ [m])))
                 (fun t => st_gf (tally key t ms)))
        by (intros t _; rewrite tally_snoc, (Hstep t); reflexivity).
      rewrite (zsum_map_ext (fun t => st_ga (tally key t (ms ++ [m])))
                 (fun t => st_ga (tally key t ms)))
        by (intros t _; rewrite tally_snoc, (Hstep t); reflexivity).
      rewrite (zsum_map_ext (fun t => st_mp (tally key t (ms ++ [m])))
                 (fun t => st_mp (tally key t ms)))
        by (intros t _; rewrite tally_snoc, (Hstep t); reflexivity).
      rewrite (zsum_map_ext (fun t => st_d (tally key t (ms ++ [m])))
                 (fun t => st_d (tally key t ms)))
        by (intros t _; rewrite tally_snoc, (Hstep t); reflexivity).
      cbn [andb]. rewrite Hw, Hg, Hmp, Hd. repeat split; lia.
Qed.

End TallySums.

Lemma count_ext {A : Type} (f g : A -> bool) (l : list A) :
  (forall x, f x = g x) -> count f l = count g l.
Proof.
  intros E. unfold count. f_equal. apply filter_ext. exact E.
Qed.

Lemma count_or_disjoint {A : Type} (f g : A -> bool) (l : list A) :
  (forall x, f x = true -> g x = true -> False) ->
  count (fun x => f x || g x) l = (count f l + count g l)%nat.
Proof.
  intros Hd. induction l as [| x l IH]; [reflexivity |].
  rewrite !count_cons, IH.
  destruct (f x) eqn:Ef, (g x) eqn:Eg; simpl; try lia.
  exfalso. exact (Hd x Ef Eg).
Qed.

Lemma stage_match_key season stage m :
  String.eqb stage "anual" = false ->
  stage_match season stage m
  = key_eqb (season_year m, stage_code m) (season, stage).
Proof.
  intros E. unfold stage_match, _stages_for_query, stage_in, key_eqb.
  rewrite E. simpl. rewrite orb_false_r. reflexivity.
Qed.

Lemma stage_match_anual season m :
  stage_match season "anual" m
  = key_eqb (season_year m, stage_code m) (season, "apertura"%string)
    || key_eqb (season_year m, stage_code m) (season, "clausura"%string).
Proof.
  unfold stage_match, _stages_for_query, stage_in, key_eqb. simpl.
  rewrite orb_false_r.
  destruct (season_year m =? season); reflexivity.
Qed.

Section StageTotals.
Variable helpers : Helpers.
Variables (db db' : DB) (season : Z) (ms : list MatchResult).
Hypothesis Hbuild : _build_and_store_standings helpers db season ms = Ok db'.
Hypothesis Hms : matches_of_season db season ms.
Variable stage : string.
Hypothesis Hstage : In stage STAGES.

Let rows := stage_rows db' season stage.
Let T := map s_team_id rows.

Lemma stage_rows_T : NoDup T.
Proof.
  destruct (build_rows helpers _ _ _ _ Hbuild stage Hstage) as [Hnd _].
  exact Hnd.
Qed.

Lemma stage_rows_teams m :
  In m ms -> In (home_team_id m) T /\ In (away_team_id m) T.
Proof.
  intros Hm. destruct (Hms m Hm) as (_ & Hh & Ha).
  destruct (build_rows helpers _ _ _ _ Hbuild stage Hstage)
    as (_ & _ & Hteam).
  destruct (Hteam _ Hh) as (rh & _ & Hrh & Eh).
  destruct (Hteam _ Ha) as (ra & _ & Hra & Ea).
  split; [rewrite <- Eh | rewrite <- Ea]; apply in_map; assumption.
Qed.

Lemma sum_of_final (col : StandingsRow -> Z) (field : Stats -> Z) :
  (forall sy st t s r, row_of_stats sy st t s r -> col r = field s) ->
  sum_of col rows
  = zsum (map (fun t => field (final_stats season ms (season, stage) t)) T).
Proof.
  intros Hcol. unfold sum_of, T. rewrite map_map.
  apply zsum_map_ext. intros r Hr.
  destruct (build_rows helpers _ _ _ _ Hbuild stage Hstage)
    as (_ & Hrows & _).
  destruct (Hrows r Hr) as [_ Hrow]. exact (Hcol _ _ _ _ _ Hrow).
Qed.

Lemma final_totals :
  zsum (map (fun t => st_w (final_stats season ms (season, stage) t)) T)
  = zsum (map (fun t => st_l (final_stats season ms (season, stage) t)) T) /\
  zsum (map (fun t => st_gf (final_stats season ms (season, stage) t)) T)
  = zsum (map (fun t => st_ga (final_stats season ms (season, stage) t)) T) /\
  zsum (map (fun t => st_mp (final_stats season ms (season, stage) t)) T)
  = 2 * Z.of_nat (count (stage_match season stage) ms) /\
  zsum (map (fun t => st_d (final_stats season ms (season, stage) t)) T)
  = 2 * Z.of_nat (count (fun m => stage_match season stage m && drawn m) ms).
Proof.
  pose proof stage_rows_T as HT.
  assert (Hin : forall key m, In m ms ->
            key_eqb (season_year m, stage_code m) key = true ->
            In (home_team_id m) T /\ In (away_team_id m) T).
  { intros key m Hm _. exact (stage_rows_teams m Hm). }
  unfold final_stats. rewrite key_eqb_season.
  destruct (String.eqb stage "anual") eqn:Ea.
  - apply String.eqb_eq in Ea. subst stage.
    destruct (tally_sums (season, "apertura"%string) T HT ms
                (Hin _)) as (Aw & Ag & Amp & Ad).
    destruct (tally_sums (season, "clausura"%string) T HT ms
                (Hin _)) as (Cw & Cg & Cmp & Cd).
    unfold add_stats, zero_stats. cbn [st_w st_l st_gf st_ga st_mp st_d].
    rewrite (count_ext (stage_match season "anual") _ ms
               (stage_match_anual season)).
    rewrite (count_ext (fun m => stage_match season "anual" m && drawn m)
               (fun m => (key_eqb (season_year m, stage_code m)
                                  (season, "apertura"%string) && drawn m)
                         || (key_eqb (season_year m, stage_code m)
                                     (season, "clausura"%string) && drawn m))
               ms)
      by (intros m; rewrite stage_match_anual;
          destruct (key_eqb _ (season, "apertura"%string)),
                   (key_eqb _ (season, "clausura"%string)), (drawn m);
          reflexivity).
    rewrite !count_or_disjoint.
    + rewrite !zsum_map_add, !zsum_map_zero.
      rewrite Aw, Ag, Amp, Ad, Cw, Cg, Cmp, Cd. repeat split; lia.
    + intros m H1 H2. apply andb_prop in H1, H2.
      destruct H1 as [H1 _], H2 as [H2 _].
      destruct (key_eqb_spec (season_year m, stage_code m)
                  (season, "apertura"%string)) as [E1 |]; [| discriminate].
      destruct (key_eqb_spec (season_year m, stage_code m)
                  (season, "clausura"%string)) as [E2 |]; [| discriminate].
      rewrite E1 in E2. discriminate.
    + intros m H1 H2.
      destruct (key_eqb_spec (season_year m, stage_code m)
                  (season, "apertura"%string)) as [E1 |]; [| discriminate].
      destruct (key_eqb_spec (season_year m, stage_code m)
                  (season, "clausura"%string)) as [E2 |]; [| discriminate].
      rewrite E1 in E2. discriminate.
  - destruct (tally_sums (season, stage) T HT ms (Hin _))
      as (Xw & Xg & Xmp & Xd).
    rewrite (count_ext (stage_match season stage) _ ms
               (fun m => stage_match_key season stage m Ea)).
    rewrite (count_ext (fun m => stage_match season stage m && drawn m)
               (fun m => key_eqb (season_year m, stage_code m)
                                 (season, stage) && drawn m) ms)
      by (intros m; rewrite (stage_match_key season stage m Ea);
          reflexivity).
    auto.
Qed.

End StageTotals.

Lemma zsum_map_lin {A : Type} (k : Z) (f g : A -> Z) (l : list A) :
  zsum (map (fun a => k * f a + g a) l)
  = k * zsum (map f l) + zsum (map g l).
Proof. induction l as [| a l IH]; simpl; [lia | rewrite IH; lia]. Qed.

(** X9.  After the aggregator has run on the matches of a season, in the
    persisted table of each stage (apertura, clausura, intermedio, anual)
    the wins add up to the losses, the goals for to the goals against, the
    goal differences to 0, the matches played to twice the number of
    matches of the stage, the draws to twice the number of drawn matches,
    and the points to three per match less one per drawn match; the
    ["anual"] table counts the apertura and clausura matches. *)
Theorem standings_totals_balance (helpers : Helpers) (db db' : DB)
  (season : Z) (ms : list MatchResult) (stage : string) :
  _build_and_store_standings helpers db season ms = Ok db' ->
  matches_of_season db season ms ->
  In stage STAGES ->
  let rows := stage_rows db' season stage in
  let played := Z.of_nat (count (stage_match season stage) ms) in
  let draws :=
    Z.of_nat (count (fun m => stage_match season stage m && drawn m) ms) in
  sum_of s_w rows = sum_of s_l rows /\
  sum_of s_gf rows = sum_of s_ga rows /\
  sum_of s_gd rows = 0 /\
  sum_of s_mp rows = 2 * played /\
  sum_of s_d rows = 2 * draws /\
  sum_of s_pts rows = 3 * played - draws.
Proof.
  intros Hbuild Hms Hstage rows played draws.
  destruct (final_totals helpers db db' season ms Hbuild Hms stage Hstage)
    as (Hw & Hg & Hmp & Hd).
  pose proof (fun col field =>
                sum_of_final helpers db db' season ms Hbuild stage Hstage
                             col field) as Hsum.
  fold rows in Hsum.
  assert (Ew : sum_of s_w rows = _) by
    (apply (Hsum s_w st_w); intros sy st t s r Hr;
     destruct Hr as (_ & _ & _ & _ & E & _); exact E).
  assert (El : sum_of s_l rows = _) by
    (apply (Hsum s_l st_l); intros sy st t s r Hr;
     destruct Hr as (_ & _ & _ & _ & _ & _ & E & _); exact E).
  assert (Ed : sum_of s_d rows = _) by
    (apply (Hsum s_d st_d); intros sy st t s r Hr;
     destruct Hr as (_ & _ & _ & _ & _ & E & _); exact E).
  assert (Emp : sum_of s_mp rows = _) by
    (apply (Hsum s_mp st_mp); intros sy st t s r Hr;
     destruct Hr as (_ & _ & _ & E & _); exact E).
  assert (Egf : sum_of s_gf rows = _) by
    (apply (Hsum s_gf st_gf); intros sy st t s r Hr;
     destruct Hr as (_ & _ & _ & _ & _ & _ & _ & E & _); exact E).
  assert (Ega : sum_of s_ga rows = _) by
    (apply (Hsum s_ga st_ga); intros sy st t s r Hr;
     destruct Hr as (_ & _ & _ & _ & _ & _ & _ & _ & E & _); exact E).
  assert (Egd : sum_of s_gd rows = _) by
    (apply (Hsum s_gd (fun s => (-1) * st_ga s + st_gf s));
     intros sy st t s r Hr;
     destruct Hr as (_ & _ & _ & _ & _ & _ & _ & _ & _ & E & _);
     rewrite E; lia).
  assert (Epts : sum_of s_pts rows = _) by
    (apply (Hsum s_pts (fun s => 3 * st_w s + st_d s));
     intros sy st t s r Hr;
     destruct Hr as (_ & _ & _ & _ & _ & _ & _ & _ & _ & _ & E & _);
     rewrite E; lia).
  rewrite zsum_map_lin in Egd, Epts.
  assert (Esplit :
    zsum (map (fun t => st_mp (final_stats season ms (season, stage) t))
              (map s_team_id rows))
    = 1 * zsum (map (fun t => st_w (final_stats season ms (season, stage) t))
                    (map s_team_id rows))
      + (1 * zsum (map (fun t => st_d (final_stats season ms (season, stage) t))
                       (map s_team_id rows))
         + zsum (map (fun t => st_l (final_stats season ms (season, stage) t))
                     (map s_team_id rows)))).
  { rewrite <- !zsum_map_lin. apply zsum_map_ext. intros t _.
    destruct (stats_ok_final season ms (season, stage) t) as (_ & _ & _ & E).
    rewrite E. lia. }
  fold rows in Hw, Hg, Hmp, Hd.
  subst played draws. repeat split; lia.
Qed.

Lemma standings_totals_balance_witness :
  exists db',
    _build_and_store_standings no_helpers example_db 2024 example_matches
    = Ok db' /\
    sum_of s_w (stage_rows db' 2024 "apertura")
    = sum_of s_l (stage_rows db' 2024 "apertura").
Proof.
  destruct (build_total_of_season no_helpers example_db 2024 example_matches
              example_matches_of_season) as [db' Hb].
  exists db'. split; [exact Hb |].
  refine (proj1 (standings_totals_balance no_helpers example_db db' 2024
                   example_matches "apertura" Hb
                   example_matches_of_season _)).
  simpl. auto.
Defined.




(** ** The boundary: resolving the season and the stage *)

Lemma existsb_eqb_In_Z (x : Z) (l : list Z) :
  existsb (Z.eqb x) l = true <-> In x l.
Proof.
  rewrite existsb_exists. split.
  - intros (y & Hy & E). apply Z.eqb_eq in E. subst. exact Hy.
  - intros Hx. exists x. split; [exact Hx | apply Z.eqb_refl].
Qed.

Lemma existsb_eqb_In_string (x : string) (l : list string) :
  existsb (String.eqb x) l = true <-> In x l.
Proof.
  rewrite existsb_exists. split.
  - intros (y & Hy & E). apply String.eqb_eq in E. subst. exact Hy.
  - intros Hx. exists x. split; [exact Hx | apply String.eqb_refl].
Qed.

(** X11.  [_resolve_params] takes the season and the stage of the request,
    or 2024 and "apertura" for a parameter that is absent or falsy (the
    season 0, the empty stage); it returns them, with the metadata, exactly
    when the stage is a stage of the store and the season a season of the
    store, and raises the HTTP error 400 otherwise. *)
Theorem resolve_params_valid (db : DB) (season : option Z)
  (stage : option string) :
  let s := match season with
           | Some v => if v =? 0 then 2024 else v
           | None => 2024
           end in
  let st := match stage with
            | Some v => if String.eqb v "" then "apertura"%string else v
            | None => "apertura"%string
            end in
  (In st (map fst (stages db)) /\ In s (seasons db) ->
   _resolve_params db season stage = Ok (s, st, get_metadata db)) /\
  (~ (In st (map fst (stages db)) /\ In s (seasons db)) ->
   _resolve_params db season stage = Err (HTTPException 400)) /\
  (forall s' st' meta,
     _resolve_params db season stage = Ok (s', st', meta) ->
     In s' (seasons db) /\ In st' (map fst (stages db))).
Proof.
  intros s st.
  assert (Hrun : _resolve_params db season stage
                 = if negb (existsb (String.eqb st)
                                    (sort_by string_leb (map fst (stages db))))
                   then Err (HTTPException 400)
                   else if negb (existsb (Z.eqb s)
                                         (sort_by Z.leb (seasons db)))
                   then Err (HTTPException 400)
                   else Ok (s, st, get_metadata db)).
  { reflexivity. }
  rewrite Hrun.
  destruct (existsb (String.eqb st) (sort_by string_leb (map fst (stages db))))
    eqn:Est;
    destruct (existsb (Z.eqb s) (sort_by Z.leb (seasons db))) eqn:Es;
    cbn [negb].
  - apply existsb_eqb_In_string in Est. apply existsb_eqb_In_Z in Es.
    pose proof (proj1 (sort_by_In string_leb _ _) Est) as Hst.
    pose proof (proj1 (sort_by_In Z.leb _ _) Es) as Hs.
    split; [reflexivity |]. split; [tauto |].
    intros s' st' meta E. injection E as <- <- _. auto.
  - split; [| split; [reflexivity | discriminate]].
    intros [_ Hs].
    pose proof (proj2 (sort_by_In Z.leb _ _) Hs) as Hs'.
    apply existsb_eqb_In_Z in Hs'. congruence.
  - split; [| split; [reflexivity | discriminate]].
    intros [Hst _].
    pose proof (proj2 (sort_by_In string_leb _ _) Hst) as Hst'.
    apply existsb_eqb_In_string in Hst'. congruence.
  - split; [| split; [reflexivity | discriminate]].
    intros [Hst _].
    pose proof (proj2 (sort_by_In string_leb _ _) Hst) as Hst'.
    apply existsb_eqb_In_string in Hst'. congruence.
Qed.
(** ** The two sides of a simulated match: counters *)

Lemma py_range_length (n : Z) : Z.of_nat (length (py_range n)) = Z.max 0 n.
Proof. unfold py_range. rewrite length_map, length_seq. lia. Qed.

Lemma foldM_cons {A S : Type} (body : S -> A -> result S) (s : S) (x : A)
  (xs : list A) :
  foldM body s (x :: xs) = (s' <- body s x ;; foldM body s' xs).
Proof. reflexivity. Qed.

Lemma is_empty_nil {A : Type} (l : list A) : is_empty l = true <-> l = [].
Proof. destruct l; simpl; split; congruence. Qed.

Lemma count_up_cons (k k' v' : Z) (d : list (Z * Z)) :
  count_up k ((k', v') :: d)
  = if k =? k' then (k', v' + 1) :: d else (k', v') :: count_up k d.
Proof.
  unfold count_up, dict_get_default. simpl.
  destruct (k =? k'); reflexivity.
Qed.

Lemma count_up_total (k : Z) (d : list (Z * Z)) :
  counter_total (count_up k d) = counter_total d + 1.
Proof.
  induction d as [| [k' v'] d IH].
  - reflexivity.
  - rewrite count_up_cons. destruct (k =? k').
    + unfold counter_total. simpl. lia.
    + unfold counter_total in *. simpl. rewrite IH. lia.
Qed.

Lemma count_up_positive (k : Z) (d : list (Z * Z)) :
  Forall (fun kv => 0 < snd kv) d ->
  Forall (fun kv => 0 < snd kv) (count_up k d).
Proof.
  induction d as [| [k' v'] d IH]; intros Hd.
  - constructor; [simpl; lia | constructor].
  - apply Forall_cons_iff in Hd. destruct Hd as [Hv Hd].
    rewrite count_up_cons. destruct (k =? k').
    + constructor; [simpl in *; lia | exact Hd].
    + constructor; [exact Hv | exact (IH Hd)].
Qed.

Lemma count_up_keys (k : Z) (d : list (Z * Z)) :
  dict_keys (count_up k d)
  = if dict_mem Z.eqb k d then dict_keys d else dict_keys d ++ [k].
Proof. unfold count_up. apply (@dict_set_keys Z Z Z.eqb Z.eqb_spec). Qed.

Lemma count_up_ok (pool : list Z) (k : Z) (d : list (Z * Z)) :
  In k pool -> counter_ok pool d -> counter_ok pool (count_up k d).
Proof.
  intros Hk (Hnd & Hin & Hpos). split; [| split].
  - unfold count_up. apply (@dict_set_keys_NoDup Z Z Z.eqb Z.eqb_spec).
    exact Hnd.
  - rewrite count_up_keys. destruct (dict_mem Z.eqb k d); [exact Hin |].
    intros x Hx. apply in_app_iff in Hx. destruct Hx as [Hx | [<- | []]];
      [exact (Hin x Hx) | exact Hk].
  - apply count_up_positive. exact Hpos.
Qed.

Lemma counter_ok_nil (pool : list Z) : counter_ok pool [].
Proof.
  split; [constructor | split; [intros x [] | constructor]].
Qed.

Lemma counter_ok_incl (pool big : list Z) (d : list (Z * Z)) :
  incl pool big -> counter_ok pool d -> counter_ok big d.
Proof.
  intros Hi (Hnd & Hin & Hpos). split; [exact Hnd | split; [| exact Hpos]].
  intros x Hx. apply Hi, Hin, Hx.
Qed.

Lemma counter_ok_empty (d : list (Z * Z)) : counter_ok [] d -> d = [].
Proof.
  intros (_ & Hin & _). destruct d as [| [k v] d]; [reflexivity |].
  destruct (Hin k (or_introl eq_refl)).
Qed.

Lemma counter_total_nonneg (pool : list Z) (d : list (Z * Z)) :
  counter_ok pool d -> 0 <= counter_total d.
Proof.
  intros (_ & _ & Hpos). unfold counter_total.
  induction Hpos as [| [k v] d Hv _ IH]; simpl in *; lia.
Qed.

(** The sum, over distinct players that cover a counter, of the counts
    read with [get(player, 0)] is the total of the counter. *)
Lemma counter_get_sum (l : list Z) (d : list (Z * Z)) :
  NoDup l -> NoDup (dict_keys d) -> incl (dict_keys d) l ->
  zsum (map (fun p => dict_get_default Z.eqb p 0 d) l) = counter_total d.
Proof.
  intros Hl. induction d as [| [k v] d IH]; intros Hnd Hin.
  - unfold counter_total, dict_get_default. simpl.
    apply zsum_map_zero.
  - simpl in Hnd. apply NoDup_cons_iff in Hnd. destruct Hnd as [Hk Hnd].
    assert (Hin' : incl (dict_keys d) l).
    { intros x Hx. apply Hin. right. exact Hx. }
    specialize (IH Hnd Hin'). unfold counter_total in *. simpl.
    rewrite <- IH.
    assert (Hget : forall p,
               dict_get_default Z.eqb p 0 ((k, v) :: d)
               = (if k =? p then v else 0) + dict_get_default Z.eqb p 0 d).
    { intros p. unfold dict_get_default. simpl. rewrite (Z.eqb_sym k p).
      destruct (Z.eqb_spec p k) as [-> | Hne]; [| lia].
      rewrite (proj2 (@dict_get_None Z Z Z.eqb Z.eqb_spec k d) Hk). lia. }
    rewrite (zsum_map_ext _ _ l (fun a _ => Hget a)), zsum_map_add.
    f_equal. apply zsum_pick; [exact Hl |].
    apply Hin. left. reflexivity.
Qed.

Section Counters.
Context {R : Type} `{RandomSource R}.
Hypothesis Hlaws : RandomSourceLaws R.

(** One draw from a pool, counted. *)
Lemma draw_step (pool big : list Z) (res : list (Z * Z)) (rng : R) :
  incl pool big -> counter_ok big res -> pool <> [] ->
  exists res' rng',
    (y <- choice pool rng ;;
     let '(p, rng) := y in Ok (count_up p res, rng)) = Ok (res', rng') /\
    counter_ok big res' /\ counter_total res' = counter_total res + 1.
Proof.
  intros Hi Hok Hne.
  destruct (choice_total pool rng Hne) as (p & rng1 & E).
  pose proof (choice_In Hlaws _ _ _ _ E) as Hp.
  rewrite E. cbn [bind]. exists (count_up p res), rng1.
  split; [reflexivity |]. split.
  - apply count_up_ok; [apply Hi; exact Hp | exact Hok].
  - apply count_up_total.
Qed.

(** A loop of draws from one pool. *)
Lemma draw_loop {A : Type} (pool big : list Z)
  (body : list (Z * Z) * R -> A -> result (list (Z * Z) * R))
  (xs : list A) :
  incl pool big ->
  (forall res rng x,
     body (res, rng) x
     = if is_empty pool then Ok (res, rng)
       else (y <- choice pool rng ;;
             let '(p, rng) := y in Ok (count_up p res, rng))) ->
  forall res rng, counter_ok big res ->
  exists res' rng',
    foldM body (res, rng) xs = Ok (res', rng') /\ counter_ok big res' /\
    counter_total res'
    = counter_total res
      + (if is_empty pool then 0 else Z.of_nat (length xs)).
Proof.
  intros Hi Hbody. induction xs as [| x xs IH]; intros res rng Hok.
  - exists res, rng. split; [reflexivity |]. split; [exact Hok |].
    destruct (is_empty pool); simpl; lia.
  - cbn [foldM]. rewrite Hbody.
    destruct (is_empty pool) eqn:Ee.
    + cbn [bind]. destruct (IH res rng Hok) as (res' & rng' & E & Hok' & Ht).
      exists res', rng'. split; [exact E |]. split; [exact Hok' |]. lia.
    + assert (Hne : pool <> []).
      { intros ->. discriminate. }
      destruct (draw_step pool big res rng Hi Hok Hne)
        as (res1 & rng1 & E1 & Hok1 & Ht1).
      rewrite E1. cbn [bind].
      destruct (IH res1 rng1 Hok1) as (res' & rng' & E & Hok' & Ht).
      exists res', rng'. split; [exact E |]. split; [exact Hok' |].
      rewrite Ht, Ht1. cbn [length]. lia.
Qed.

Lemma allocate_goals_outcome (players : list Z) (goals : Z) (rng : R) :
  exists res rng',
    _allocate_goals players goals rng = Ok (res, rng') /\
    counter_ok players res /\
    counter_total res = if is_empty players then 0 else Z.max 0 goals.
Proof.
  unfold _allocate_goals.
  destruct (is_empty players) eqn:Ee; cbn [orb].
  - exists [], rng. split; [reflexivity |].
    split; [apply counter_ok_nil | reflexivity].
  - destruct (Z.eqb_spec goals 0) as [-> | Hg].
    + exists [], rng. split; [reflexivity |].
      split; [apply counter_ok_nil | reflexivity].
    + destruct (draw_loop players players
                  (fun acc (_ : Z) =>
                     let '(res, rng) := acc in
                     x <- choice players rng ;;
                     let '(scorer, rng) := x in
                     Ok (count_up scorer res, rng))
                  (py_range goals) (incl_refl _)
                  ltac:(intros; rewrite Ee; reflexivity)
                  [] rng (counter_ok_nil _))
        as (res & rng' & E & Hok & Ht).
      exists res, rng'. split; [exact E |]. split; [exact Hok |].
      rewrite Ht, Ee, py_range_length. reflexivity.
Qed.

Lemma assists_loop (players : list Z) (goals_by_player : list (Z * Z)) :
  forall res rng, counter_ok players res ->
  exists res' rng',
    foldM (fun acc item =>
             let '(scorer, goals) := item in
             foldM (fun acc _ =>
                      let '(assists, rng) := acc in
                      let candidates :=
                        filter (fun p => negb (p =? scorer)) players in
                      if is_empty candidates then Ok (assists, rng)
                      else
                        x <- choice candidates rng ;;
                        let '(assister, rng) := x in
                        Ok (count_up assister assists, rng))
                   acc (py_range goals))
          (res, rng) goals_by_player
    = Ok (res', rng') /\
    counter_ok players res' /\
    counter_total res'
    = counter_total res + zsum (map (assisted players) goals_by_player).
Proof.
  induction goals_by_player as [| [scorer goals] rest IH]; intros res rng Hok.
  - exists res, rng. split; [reflexivity |]. split; [exact Hok |].
    simpl. lia.
  - rewrite foldM_cons. cbv beta iota.
    destruct (draw_loop (filter (fun p => negb (p =? scorer)) players)
                players
                (fun acc (_ : Z) =>
                   let '(assists, rng) := acc in
                   let candidates :=
                     filter (fun p => negb (p =? scorer)) players in
                   if is_empty candidates then Ok (assists, rng)
                   else
                     x <- choice candidates rng ;;
                     let '(assister, rng) := x in
                     Ok (count_up assister assists, rng))
                (py_range goals) (incl_filter _ _)
                ltac:(intros; reflexivity) res rng Hok)
      as (res1 & rng1 & E1 & Hok1 & Ht1).
    rewrite E1. cbn [bind].
    destruct (IH res1 rng1 Hok1) as (res' & rng' & E & Hok' & Ht).
    exists res', rng'. split; [exact E |]. split; [exact Hok' |].
    rewrite Ht, Ht1, py_range_length. cbn [map zsum fold_right].
    unfold assisted at 2. cbn [fst snd].
    destruct (is_empty (filter (fun p => negb (p =? scorer)) players));
      unfold zsum; lia.
Qed.

Lemma random_cards_outcome (players : list Z) (rng : R)
  (card_type : string) :
  exists res rng',
    _random_cards players rng card_type = Ok (res, rng') /\
    counter_ok players res /\
    counter_total res <= if String.eqb card_type "red" then 1 else 3.
Proof.
  unfold _random_cards.
  set (top := if String.eqb card_type "red" then 1 else 3).
  assert (Htop : 0 <= top) by (unfold top; destruct String.eqb; lia).
  destruct (randint_total 0 top rng Htop) as (n & rng1 & E1).
  pose proof (randint_range 0 top rng n rng1 Hlaws E1) as Hn.
  rewrite E1. cbn [bind].
  destruct (draw_loop players players
              (fun acc (_ : Z) =>
                 let '(res, rng) := acc in
                 if is_empty players then Ok (res, rng)
                 else
                   x <- choice players rng ;;
                   let '(player, rng) := x in
                   Ok (count_up player res, rng))
              (py_range n) (incl_refl _)
              ltac:(intros; reflexivity) [] rng1 (counter_ok_nil _))
    as (res & rng' & E & Hok & Ht).
  exists res, rng'. split; [exact E |]. split; [exact Hok |].
  rewrite Ht, py_range_length. unfold counter_total. simpl.
  destruct (is_empty players); lia.
Qed.
End Counters.

(** X12.  With a random source that keeps the promise of [_randbelow],
    [_allocate_goals] returns a counter whose scorers are players of the
    line-up, each with a positive count, and whose counts add up to the
    goals of the side; with an empty line-up, or with goals that are not
    positive, nobody scores. *)
Theorem allocate_goals_total (R : Type) `{RandomSource R}
  (players : list Z) (goals : Z) (rng : R) :
  RandomSourceLaws R ->
  exists res rng',
    _allocate_goals players goals rng = Ok (res, rng') /\
    NoDup (dict_keys res) /\ incl (dict_keys res) players /\
    Forall (fun kv => 0 < snd kv) res /\
    counter_total res = (if is_empty players then 0 else Z.max 0 goals).
Proof.
  intros Hlaws.
  destruct (allocate_goals_outcome Hlaws players goals rng)
    as (res & rng' & E & (Hnd & Hin & Hpos) & Ht).
  exists res, rng'. auto.
Qed.

Lemma allocate_goals_total_witness :
  exists res rng',
    _allocate_goals [7; 8; 9] 4 (mixed_tape 4) = Ok (res, rng') /\
    NoDup (dict_keys res) /\ incl (dict_keys res) [7; 8; 9] /\
    Forall (fun kv => 0 < snd kv) res /\
    counter_total res = 4.
Proof.
  exact (allocate_goals_total (list Z) [7; 8; 9] 4 (mixed_tape 4)
           TapeSource_laws).
Defined.

(** X13.  With a random source that keeps the promise of [_randbelow],
    [_allocate_assists] returns a counter over players of the line-up with
    one assist for every goal whose scorer is not the only player of the
    line-up: never more assists than goals, as many as the goals when the
    line-up has two different players, and none when it has nobody but the
    scorers' single player. *)
Theorem allocate_assists_total (R : Type) `{RandomSource R}
  (players : list Z) (goals_by_player : list (Z * Z)) (rng : R) :
  RandomSourceLaws R ->
  exists res rng',
    _allocate_assists players goals_by_player rng = Ok (res, rng') /\
    NoDup (dict_keys res) /\ incl (dict_keys res) players /\
    Forall (fun kv => 0 < snd kv) res /\
    counter_total res = zsum (map (assisted players) goals_by_player) /\
    counter_total res <= goals_of goals_by_player /\
    ((exists p q, In p players /\ In q players /\ p <> q) ->
     counter_total res = goals_of goals_by_player) /\
    (forall p, (forall q, In q players -> q = p) ->
               Forall (fun kv => fst kv = p) goals_by_player -> res = []).
Proof.
  intros Hlaws. unfold _allocate_assists.
  destruct (assists_loop Hlaws players goals_by_player [] rng
              (counter_ok_nil _))
    as (res & rng' & E & (Hnd & Hin & Hpos) & Ht).
  exists res, rng'. split; [exact E |].
  split; [exact Hnd |]. split; [exact Hin |]. split; [exact Hpos |].
  assert (Ht' : counter_total res
                = zsum (map (assisted players) goals_by_player)).
  { rewrite Ht. unfold counter_total. simpl. lia. }
  split; [exact Ht' |]. split; [| split].
  - rewrite Ht'. unfold goals_of. clear.
    induction goals_by_player as [| kv rest IH]; simpl; [lia |].
    unfold assisted at 1.
    destruct (is_empty (filter (fun p => negb (p =? fst kv)) players)); lia.
  - intros (p & q & Hp & Hq & Hpq). rewrite Ht'. unfold goals_of.
    apply zsum_map_ext. intros kv _. unfold assisted.
    destruct (is_empty (filter (fun x => negb (x =? fst kv)) players))
      eqn:Ee; [| reflexivity].
    apply is_empty_nil in Ee. exfalso.
    destruct (Z.eq_dec p (fst kv)) as [Ep | Np].
    + assert (Hf : In q (filter (fun x => negb (x =? fst kv)) players)).
      { apply filter_In. split; [exact Hq |].
        apply negb_true_iff, Z.eqb_neq. congruence. }
      rewrite Ee in Hf. exact Hf.
    + assert (Hf : In p (filter (fun x => negb (x =? fst kv)) players)).
      { apply filter_In. split; [exact Hp |].
        apply negb_true_iff, Z.eqb_neq. exact Np. }
      rewrite Ee in Hf. exact Hf.
  - intros p Honly Hscorers.
    assert (Hz : counter_total res = 0).
    { rewrite Ht'. clear - Honly Hscorers.
      induction Hscorers as [| kv rest Hkv _ IH]; [reflexivity |].
      simpl. rewrite IH. unfold assisted.
      assert (Hf : filter (fun x => negb (x =? fst kv)) players = []).
      { apply filter_none. intros x Hx. rewrite (Honly x Hx), Hkv.
        rewrite Z.eqb_refl. reflexivity. }
      rewrite Hf. reflexivity. }
    destruct Hpos as [| [k v] rest Hv Hrest]; [reflexivity |].
    exfalso. unfold counter_total in Hz. simpl in Hz, Hv.
    assert (0 <= zsum (map snd rest)).
    { clear - Hrest. induction Hrest as [| [k' v'] r Hv' _ IH];
        simpl in *; lia. }
    lia.
Qed.

Lemma allocate_assists_total_witness :
  exists res rng',
    _allocate_assists [7; 8; 9] [(8, 2); (7, 1)] (mixed_tape 3)
    = Ok (res, rng') /\
    NoDup (dict_keys res) /\ incl (dict_keys res) [7; 8; 9] /\
    Forall (fun kv => 0 < snd kv) res /\
    counter_total res = zsum (map (assisted [7; 8; 9]) [(8, 2); (7, 1)]) /\
    counter_total res <= goals_of [(8, 2); (7, 1)] /\
    ((exists p q, In p [7; 8; 9] /\ In q [7; 8; 9] /\ p <> q) ->
     counter_total res = goals_of [(8, 2); (7, 1)]) /\
    (forall p, (forall q, In q [7; 8; 9] -> q = p) ->
               Forall (fun kv => fst kv = p) [(8, 2); (7, 1)] -> res = []).
Proof.
  exact (allocate_assists_total (list Z) [7; 8; 9] [(8, 2); (7, 1)]
           (mixed_tape 3) TapeSource_laws).
Defined.

(** X14.  With a random source that keeps the promise of [_randbelow],
    [_random_cards] returns a counter over players of the line-up, each
    with a positive count, whose counts add up to at most one for the red
    cards and at most three for any other type; an empty line-up gets no
    card. *)
Theorem random_cards_bounds (R : Type) `{RandomSource R}
  (players : list Z) (rng : R) (card_type : string) :
  RandomSourceLaws R ->
  exists res rng',
    _random_cards players rng card_type = Ok (res, rng') /\
    NoDup (dict_keys res) /\ incl (dict_keys res) players /\
    Forall (fun kv => 0 < snd kv) res /\
    0 <= counter_total res
    <= (if String.eqb card_type "red" then 1 else 3) /\
    (players = [] -> res = []).
Proof.
  intros Hlaws.
  destruct (random_cards_outcome Hlaws players rng card_type)
    as (res & rng' & E & Hok & Ht).
  pose proof (counter_total_nonneg _ _ Hok) as H0.
  exists res, rng'. split; [exact E |].
  destruct Hok as (Hnd & Hin & Hpos).
  split; [exact Hnd |]. split; [exact Hin |]. split; [exact Hpos |].
  split; [lia |].
  intros ->. apply counter_ok_empty. split; [exact Hnd | split; assumption].
Qed.

Lemma random_cards_bounds_witness :
  exists res rng',
    _random_cards [7; 8; 9] (high_tape 4) "yellow" = Ok (res, rng') /\
    NoDup (dict_keys res) /\ incl (dict_keys res) [7; 8; 9] /\
    Forall (fun kv => 0 < snd kv) res /\
    0 <= counter_total res <= 3 /\
    ([7; 8; 9] = [] -> res = []).
Proof.
  exact (random_cards_bounds (list Z) [7; 8; 9] (high_tape 4) "yellow"
           TapeSource_laws).
Defined.
(** ** The two sides of a simulated match: events and statistics rows *)

Lemma flat_map_const {A C : Type} (c : C) (l : list A) :
  flat_map (fun _ => [c]) l = repeat c (length l).
Proof. induction l as [| a l IH]; simpl; [| rewrite IH]; reflexivity. Qed.

Lemma py_range_count (n : Z) : length (py_range n) = Z.to_nat n.
Proof. unfold py_range. rewrite length_map, length_seq. reflexivity. Qed.

Section SideLoops.
Context {R : Type} `{RandomSource R}.

(** A loop whose body appends to a list and moves the random source on. *)
Lemma foldM_extends {A B C : Type} (g : B -> C) (h : A -> list C)
  (P : B -> Prop) (body : list B * R -> A -> result (list B * R))
  (xs : list A) :
  (forall acc rng x, In x xs -> exists new rng',
      body (acc, rng) x = Ok (acc ++ new, rng') /\
      map g new = h x /\ Forall P new) ->
  forall acc rng, exists new rng',
    foldM body (acc, rng) xs = Ok (acc ++ new, rng') /\
    map g new = flat_map h xs /\ Forall P new.
Proof.
  induction xs as [| x xs IH]; intros Hbody acc rng.
  - exists [], rng. rewrite app_nil_r. repeat split; constructor.
  - rewrite foldM_cons.
    destruct (Hbody acc rng x (or_introl eq_refl))
      as (new1 & rng1 & E1 & Hg1 & HP1).
    rewrite E1. cbn [bind].
    destruct (IH (fun a r y Hy => Hbody a r y (or_intror Hy))
                 (acc ++ new1) rng1) as (new2 & rng2 & E2 & Hg2 & HP2).
    exists (new1 ++ new2), rng2. rewrite app_assoc. split; [exact E2 |].
    split.
    + rewrite map_app, Hg1, Hg2. reflexivity.
    + apply Forall_app. split; assumption.
Qed.

Hypothesis Hlaws : RandomSourceLaws R.

(** One event with a minute drawn from [lo .. hi]. *)
Lemma timed_event (match_id team_id lo hi player_id : Z) (type : string)
  (events : list EventTuple) (rng : R) :
  lo <= hi ->
  exists new rng',
    (x <- randint lo hi rng ;;
     let '(minute, rng) := x in
     Ok (events ++ [(match_id, minute, team_id, player_id, type, ""%string)],
         rng))
    = Ok (events ++ new, rng') /\
    map ev_what new = [(player_id, type)] /\
    Forall (fun e => ev_match e = match_id /\ ev_team e = team_id /\
                     ev_detail e = ""%string /\ ev_type e = type /\
                     lo <= ev_minute e <= hi) new.
Proof.
  intros Hle.
  destruct (randint_total lo hi rng Hle) as (minute & rng1 & E).
  pose proof (randint_range lo hi rng minute rng1 Hlaws E) as Hm.
  rewrite E. cbn [bind].
  exists [(match_id, minute, team_id, player_id, type, ""%string)], rng1.
  split; [reflexivity |]. split; [reflexivity |].
  constructor; [| constructor]. simpl. auto.
Qed.

Lemma counted_events_outcome (match_id team_id lo hi : Z) (type : string)
  (counts : list (Z * Z)) (events : list EventTuple) (rng : R) :
  lo <= hi ->
  exists new rng',
    counted_events match_id team_id lo hi type counts (events, rng)
    = Ok (events ++ new, rng') /\
    map ev_what new = counted type counts /\
    Forall (fun e => ev_match e = match_id /\ ev_team e = team_id /\
                     ev_detail e = ""%string /\ ev_type e = type /\
                     lo <= ev_minute e <= hi) new.
Proof.
  intros Hle. unfold counted_events, counted.
  apply foldM_extends. intros acc rng0 [player_id n] _.
  destruct (foldM_extends ev_what (fun _ : Z => [(player_id, type)])
              (fun e => ev_match e = match_id /\ ev_team e = team_id /\
                        ev_detail e = ""%string /\ ev_type e = type /\
                        lo <= ev_minute e <= hi)
              (fun acc (_ : Z) =>
                 let '(events, rng) := acc in
                 x <- randint lo hi rng ;;
                 let '(minute, rng) := x in
                 Ok (events ++
                     [(match_id, minute, team_id, player_id, type,
                       ""%string)],
                     rng))
              (py_range n)
              (fun a r _ _ =>
                 timed_event match_id team_id lo hi player_id type a r Hle)
              acc rng0) as (new & rng' & E & Hg & HP).
  exists new, rng'. split; [exact E |]. split; [| exact HP].
  rewrite Hg, flat_map_const, py_range_count. reflexivity.
Qed.

Lemma events_for_team_outcome (match_id team_id : Z)
  (goals_by_player yellows reds : list (Z * Z)) (bench : list Z) (rng : R) :
  exists events rng',
    _events_for_team match_id team_id goals_by_player yellows reds bench rng
    = Ok (events, rng') /\
    map ev_what events
    = counted "goal" goals_by_player ++ counted "yellow" yellows
      ++ counted "red" reds ++ map (fun p => (p, "sub_on"%string)) bench /\
    Forall (fun e => ev_match e = match_id /\ ev_team e = team_id /\
                     ev_detail e = ""%string /\ ev_in_range e) events.
Proof.
  unfold _events_for_team.
  destruct (counted_events_outcome match_id team_id 5 90 "goal"
              goals_by_player [] rng ltac:(lia))
    as (ev1 & rng1 & E1 & Hg1 & HP1).
  rewrite E1. cbn [bind app].
  destruct (counted_events_outcome match_id team_id 10 88 "yellow"
              yellows ev1 rng1 ltac:(lia))
    as (ev2 & rng2 & E2 & Hg2 & HP2).
  rewrite E2. cbn [bind].
  destruct (counted_events_outcome match_id team_id 30 90 "red"
              reds (ev1 ++ ev2) rng2 ltac:(lia))
    as (ev3 & rng3 & E3 & Hg3 & HP3).
  rewrite E3. cbn [bind].
  destruct (foldM_extends ev_what (fun p : Z => [(p, "sub_on"%string)])
              (fun e => ev_match e = match_id /\ ev_team e = team_id /\
                        ev_detail e = ""%string /\
                        ev_type e = "sub_on"%string /\
                        55 <= ev_minute e <= 75)
              (fun acc player_id =>
                 let '(events, rng) := acc in
                 x <- randint 55 75 rng ;;
                 let '(minute, rng) := x in
                 Ok (events ++
                     [(match_id, minute, team_id, player_id,
                       "sub_on"%string, ""%string)],
                     rng))
              bench
              (fun a r p _ =>
                 timed_event match_id team_id 55 75 p "sub_on" a r
                             ltac:(lia))
              ((ev1 ++ ev2) ++ ev3) rng3) as (ev4 & rng4 & E4 & Hg4 & HP4).
  exists (((ev1 ++ ev2) ++ ev3) ++ ev4), rng4. split; [exact E4 |]. split.
  - rewrite !map_app, Hg1, Hg2, Hg3, Hg4, <- !app_assoc.
    rewrite (flat_map_singleton (fun p : Z => (p, "sub_on"%string))).
    reflexivity.
  - assert (Hweak : forall lo hi type,
               minute_range type = (lo, hi) ->
               forall l,
               Forall (fun e => ev_match e = match_id /\
                                ev_team e = team_id /\
                                ev_detail e = ""%string /\
                                ev_type e = type /\
                                lo <= ev_minute e <= hi) l ->
               Forall (fun e => ev_match e = match_id /\
                                ev_team e = team_id /\
                                ev_detail e = ""%string /\ ev_in_range e) l).
    { intros lo hi type Hr l. apply Forall_impl.
      intros e (Hm & Ht & Hd & Hty & Hmin). unfold ev_in_range.
      rewrite Hty, Hr. simpl. auto. }
    repeat (apply Forall_app; split).
    + exact (Hweak 5 90 "goal"%string eq_refl _ HP1).
    + exact (Hweak 10 88 "yellow"%string eq_refl _ HP2).
    + exact (Hweak 30 90 "red"%string eq_refl _ HP3).
    + exact (Hweak 55 75 "sub_on"%string eq_refl _ HP4).
Qed.
End SideLoops.

(** X15.  With a random source that keeps the promise of [_randbelow],
    [_events_for_team] returns, in this order, the goals of the scorers'
    counter, the yellow cards, the red cards (for each player in the
    counter's order as many events as the count) and one [sub_on] per
    bench player; every event carries the match, the team and an empty
    detail, and its minute lies in 5..90 for a goal, 10..88 for a yellow
    card, 30..90 for a red card and 55..75 for a substitution. *)
Theorem events_for_team_shape (R : Type) `{RandomSource R}
  (match_id team_id : Z) (goals_by_player yellows reds : list (Z * Z))
  (bench : list Z) (rng : R) :
  RandomSourceLaws R ->
  exists events rng',
    _events_for_team match_id team_id goals_by_player yellows reds bench rng
    = Ok (events, rng') /\
    map ev_what events
    = counted "goal" goals_by_player ++ counted "yellow" yellows
      ++ counted "red" reds ++ map (fun p => (p, "sub_on"%string)) bench /\
    Forall (fun e => ev_match e = match_id /\ ev_team e = team_id /\
                     ev_detail e = ""%string /\ ev_in_range e) events.
Proof.
  intros Hlaws.
  destruct (events_for_team_outcome Hlaws match_id team_id goals_by_player
              yellows reds bench rng) as (events & rng' & E & Hw & Hall).
  exists events, rng'. split; [exact E |]. split; [exact Hw | exact Hall].
Qed.

Lemma events_for_team_shape_witness :
  exists events rng',
    _events_for_team 40 3 [(8, 2); (7, 1)] [(9, 1)] [] [12; 13]
                     (mixed_tape 6)
    = Ok (events, rng') /\
    map ev_what events
    = [(8, "goal"); (8, "goal"); (7, "goal"); (9, "yellow");
       (12, "sub_on"); (13, "sub_on")]%string /\
    Forall (fun e => ev_match e = 40 /\ ev_team e = 3 /\
                     ev_detail e = ""%string /\ ev_in_range e) events.
Proof.
  exact (events_for_team_shape (list Z) 40 3 [(8, 2); (7, 1)] [(9, 1)] []
           [12; 13] (mixed_tape 6) TapeSource_laws).
Defined.

Lemma get_default_nonneg (p : Z) (d : list (Z * Z)) :
  Forall (fun kv => 0 <= snd kv) d -> 0 <= dict_get_default Z.eqb p 0 d.
Proof.
  unfold dict_get_default.
  induction 1 as [| [k v] d Hv _ IH]; simpl; [lia |].
  destruct (p =? k); [exact Hv | exact IH].
Qed.

Section StatRows.
Context {R : Type} `{RandomSource R}.
Hypothesis Hlaws : RandomSourceLaws R.

Variables (match_id team_id : Z) (goals assists yellows reds : list (Z * Z)).
Hypothesis Hgoals : Forall (fun kv => 0 <= snd kv) goals.

(** The three integer draws of a row: the minutes, the shots beyond the
    goals, and the shots on target. *)
Lemma stat_draws (lo hi top player_id : Z) (rng : R) :
  lo <= hi -> 0 <= top ->
  exists minutes extra on_target rng1 rng2 rng3,
    randint lo hi rng = Ok (minutes, rng1) /\
    randint 0 top rng1 = Ok (extra, rng2) /\
    randint 0 (dict_get_default Z.eqb player_id 0 goals + extra) rng2
    = Ok (on_target, rng3) /\
    lo <= minutes <= hi /\ 0 <= extra <= top /\
    0 <= on_target <= dict_get_default Z.eqb player_id 0 goals + extra.
Proof.
  intros Hle Htop.
  pose proof (get_default_nonneg player_id goals Hgoals) as Hg.
  destruct (randint_total lo hi rng Hle) as (minutes & rng1 & E1).
  pose proof (randint_range lo hi rng minutes rng1 Hlaws E1) as H1.
  destruct (randint_total 0 top rng1 Htop) as (extra & rng2 & E2).
  pose proof (randint_range 0 top rng1 extra rng2 Hlaws E2) as H2.
  destruct (randint_total
              0 (dict_get_default Z.eqb player_id 0 goals + extra) rng2
              ltac:(lia)) as (on_target & rng3 & E3).
  pose proof (randint_range _ _ rng2 on_target rng3 Hlaws E3) as H3.
  exists minutes, extra, on_target, rng1, rng2, rng3. auto 10.
Qed.

Lemma player_stat_rows_outcome (lineup bench : list Z) (team_xg : float)
  (rng : R) :
  exists rows rng',
    _player_stat_rows match_id team_id lineup bench goals assists yellows
                      reds team_xg rng
    = Ok (rows, rng') /\
    map ps_who rows
    = map (fun p => (p, 1)) lineup ++ map (fun p => (p, 0)) bench /\
    Forall (stat_row_ok match_id team_id goals assists yellows reds) rows.
Proof.
  unfold _player_stat_rows. cbv zeta.
  set (per_player_xg :=
         if Z.of_nat (length lineup) + Z.of_nat (length bench) =? 0
         then float_zero
         else float_div team_xg
                (float_of_int
                   (Z.of_nat (length lineup) + Z.of_nat (length bench)))).
  match goal with
  | |- context [foldM ?body ([], rng) lineup] =>
      destruct (foldM_extends ps_who (fun p : Z => [(p, 1)])
                  (stat_row_ok match_id team_id goals assists yellows reds)
                  body lineup) with (acc := @nil PlayerStatRow) (rng := rng)
        as (rows1 & rng1 & E1 & Hw1 & Hok1)
  end.
  { intros acc rng0 p _.
    destruct (stat_draws 70 95 3 p rng0 ltac:(lia) ltac:(lia))
      as (minutes & extra & on_target & r1 & r2 & r3 & E1 & E2 & E3
          & Hm & He & Ho).
    rewrite E1. cbn [bind]. rewrite E2. cbn [bind]. rewrite E3. cbn [bind].
    destruct (uniform float_zero float_0_3 r3) as [u r4].
    eexists _, r4. split; [reflexivity |]. split; [reflexivity |].
    constructor; [| constructor].
    unfold stat_row_ok. cbn [ps_match_id ps_team_id ps_goals ps_assists
                             ps_yellow ps_red ps_shots ps_shots_on_target
                             ps_starts ps_minutes ps_player_id].
    repeat (split; [reflexivity |]).
    split; [lia |]. left. split; [reflexivity |]. lia. }
  rewrite E1. cbn [bind app].
  match goal with
  | |- context [foldM ?body (rows1, rng1) bench] =>
      destruct (foldM_extends ps_who (fun p : Z => [(p, 0)])
                  (stat_row_ok match_id team_id goals assists yellows reds)
                  body bench) with (acc := rows1) (rng := rng1)
        as (rows2 & rng2 & E2 & Hw2 & Hok2)
  end.
  { intros acc rng0 p _.
    destruct (stat_draws 10 35 2 p rng0 ltac:(lia) ltac:(lia))
      as (minutes & extra & on_target & r1 & r2 & r3 & E1' & E2 & E3
          & Hm & He & Ho).
    rewrite E1'. cbn [bind]. rewrite E2. cbn [bind]. rewrite E3. cbn [bind].
    eexists _, r3. split; [reflexivity |]. split; [reflexivity |].
    constructor; [| constructor].
    unfold stat_row_ok. cbn [ps_match_id ps_team_id ps_goals ps_assists
                             ps_yellow ps_red ps_shots ps_shots_on_target
                             ps_starts ps_minutes ps_player_id].
    repeat (split; [reflexivity |]).
    split; [lia |]. right. split; [reflexivity |]. lia. }
  exists (rows1 ++ rows2), rng2. split; [exact E2 |]. split.
  - rewrite map_app, Hw1, Hw2, !flat_map_singleton. reflexivity.
  - apply Forall_app. split; assumption.
Qed.
End StatRows.

(** X16.  With a random source that keeps the promise of [_randbelow] and
    a goals counter without negative counts, [_player_stat_rows] returns
    one row per starter, marked as a starter, then one row per bench
    player, marked as a substitute, in the order of the line-up and of the
    bench.  Every row carries the match, the team and the player's goals,
    assists, yellow and red cards as the counters have them (0 when the
    player is not counted); its goals are at most its shots on target,
    which are at most its shots, which exceed the goals by at most three
    for a starter and two for a substitute; a starter plays 70 to 95
    minutes, a substitute 10 to 35. *)
Theorem player_stat_rows_shape (R : Type) `{RandomSource R}
  (match_id team_id : Z) (lineup bench : list Z)
  (goals assists yellows reds : list (Z * Z)) (team_xg : float) (rng : R) :
  RandomSourceLaws R ->
  Forall (fun kv => 0 <= snd kv) goals ->
  exists rows rng',
    _player_stat_rows match_id team_id lineup bench goals assists yellows
                      reds team_xg rng
    = Ok (rows, rng') /\
    map ps_who rows
    = map (fun p => (p, 1)) lineup ++ map (fun p => (p, 0)) bench /\
    Forall (stat_row_ok match_id team_id goals assists yellows reds) rows.
Proof.
  intros Hlaws Hgoals.
  destruct (player_stat_rows_outcome Hlaws match_id team_id goals assists
              yellows reds Hgoals lineup bench team_xg rng)
    as (rows & rng' & E & Hw & Hok).
  exists rows, rng'. split; [exact E |]. split; [exact Hw | exact Hok].
Qed.

Lemma player_stat_rows_shape_witness :
  exists rows rng',
    _player_stat_rows 40 3 [7; 8] [12] [(8, 2)] [(7, 1)] [] [(8, 1)]
                      float_1_5 (mixed_tape 10)
    = Ok (rows, rng') /\
    map ps_who rows = [(7, 1); (8, 1); (12, 0)] /\
    Forall (stat_row_ok 40 3 [(8, 2)] [(7, 1)] [] [(8, 1)]) rows.
Proof.
  apply (player_stat_rows_shape (list Z) 40 3 [7; 8] [12] [(8, 2)]
           [(7, 1)] [] [(8, 1)] float_1_5 (mixed_tape 10) TapeSource_laws).
  repeat constructor. simpl. lia.
Defined.
(** ** The two sides of a simulated match: what they agree on *)

Lemma count_map {A B : Type} (f : B -> bool) (g : A -> B) (l : list A) :
  count f (map g l) = count (fun a => f (g a)) l.
Proof.
  induction l as [| a l IH]; [reflexivity |].
  cbn [map]. rewrite !count_cons, IH. reflexivity.
Qed.

Lemma count_repeat {A : Type} (f : A -> bool) (x : A) (n : nat) :
  count f (repeat x n) = if f x then n else 0%nat.
Proof.
  induction n as [| n IH]; cbn [repeat].
  - destruct (f x); reflexivity.
  - rewrite count_cons, IH. destruct (f x); reflexivity.
Qed.

Lemma count_counted (t t' : string) (d : list (Z * Z)) :
  Forall (fun kv => 0 < snd kv) d ->
  Z.of_nat (count (fun w : Z * string => String.eqb (snd w) t)
                  (counted t' d))
  = if String.eqb t' t then counter_total d else 0.
Proof.
  unfold counted, counter_total.
  induction 1 as [| [k v] d Hv _ IH]; cbn [flat_map map zsum fold_right].
  - destruct (String.eqb t' t); reflexivity.
  - rewrite count_app, count_repeat, Nat2Z.inj_add, IH. cbn [fst snd] in *.
    destruct (String.eqb t' t); unfold zsum; lia.
Qed.

Lemma counted_In (t : string) (d : list (Z * Z)) (w : Z * string) :
  In w (counted t d) -> In (fst w) (dict_keys d).
Proof.
  unfold counted, dict_keys. intros Hw. apply in_flat_map in Hw.
  destruct Hw as (kv & Hkv & Hw). apply repeat_spec in Hw. subst w.
  cbn [fst]. apply (in_map fst). exact Hkv.
Qed.

Lemma events_of_what (t : string) (evs : list EventTuple) :
  events_of t evs
  = Z.of_nat (count (fun w : Z * string => String.eqb (snd w) t)
                    (map ev_what evs)).
Proof. unfold events_of. rewrite count_map. reflexivity. Qed.

(** The events of a side, counted by type. *)
Lemma events_of_counters (evs : list EventTuple)
  (g y r : list (Z * Z)) (bench : list Z) :
  map ev_what evs
  = counted "goal" g ++ counted "yellow" y ++ counted "red" r
    ++ map (fun p => (p, "sub_on"%string)) bench ->
  Forall (fun kv => 0 < snd kv) g -> Forall (fun kv => 0 < snd kv) y ->
  Forall (fun kv => 0 < snd kv) r ->
  events_of "goal" evs = counter_total g /\
  events_of "yellow" evs = counter_total y /\
  events_of "red" evs = counter_total r.
Proof.
  intros Hw Hg Hy Hr.
  assert (Hsub : forall t, String.eqb "sub_on" t = false ->
             count (fun w : Z * string => String.eqb (snd w) t)
                   (map (fun p : Z => (p, "sub_on"%string)) bench) = 0%nat).
  { intros t Ht. apply count_zero_iff. intros w Hin.
    apply in_map_iff in Hin. destruct Hin as (p & <- & _). exact Ht. }
  rewrite !events_of_what, Hw, !count_app, !Nat2Z.inj_add.
  rewrite !(count_counted _ _ g Hg), !(count_counted _ _ y Hy),
    !(count_counted _ _ r Hr), !Hsub by reflexivity.
  cbn. repeat split; lia.
Qed.

Lemma events_players (evs : list EventTuple) (g y r : list (Z * Z))
  (lineup bench : list Z) :
  map ev_what evs
  = counted "goal" g ++ counted "yellow" y ++ counted "red" r
    ++ map (fun p => (p, "sub_on"%string)) bench ->
  incl (dict_keys g) lineup -> incl (dict_keys y) lineup ->
  incl (dict_keys r) lineup ->
  Forall (fun e => In (ev_player e) (lineup ++ bench)) evs.
Proof.
  intros Hw Hg Hy Hr. apply Forall_forall. intros e He.
  assert (Hin : In (ev_what e) (map ev_what evs)) by (apply in_map; exact He).
  rewrite Hw in Hin. apply in_app_iff. rewrite !in_app_iff in Hin.
  destruct Hin as [Hin | [Hin | [Hin | Hin]]].
  - left. apply Hg. exact (counted_In _ _ _ Hin).
  - left. apply Hy. exact (counted_In _ _ _ Hin).
  - left. apply Hr. exact (counted_In _ _ _ Hin).
  - right. apply in_map_iff in Hin. destruct Hin as (p & E & Hp).
    unfold ev_what in E. injection E as E _. rewrite <- E. exact Hp.
Qed.

(** The sum of a column of the rows of a side is the total of the counter
    the column is read from. *)
Lemma rows_column_sum (rows : list PlayerStatRow) (col : PlayerStatRow -> Z)
  (d : list (Z * Z)) (lineup bench : list Z) :
  map ps_who rows
  = map (fun p => (p, 1)) lineup ++ map (fun p => (p, 0)) bench ->
  Forall (fun r => col r = dict_get_default Z.eqb (ps_player_id r) 0 d)
         rows ->
  NoDup (lineup ++ bench) -> counter_ok lineup d ->
  zsum (map col rows) = counter_total d.
Proof.
  intros Hw Hcol Hnd (Hk & Hin & _).
  assert (Hp : map ps_player_id rows = lineup ++ bench).
  { change ps_player_id with (fun r => fst (ps_who r)).
    rewrite <- (map_map ps_who fst), Hw, map_app, !map_map. cbn [fst].
    rewrite !map_id. reflexivity. }
  rewrite <- (counter_get_sum (lineup ++ bench) d Hnd Hk).
  - rewrite <- Hp, map_map. apply zsum_map_ext. intros r Hr.
    exact (proj1 (Forall_forall _ _) Hcol r Hr).
  - intros x Hx. apply in_app_iff. left. apply Hin. exact Hx.
Qed.

Lemma goals_of_total (pool : list Z) (d : list (Z * Z)) :
  counter_ok pool d -> goals_of d = counter_total d.
Proof.
  intros (_ & _ & Hpos). unfold goals_of, counter_total.
  apply zsum_map_ext. intros kv Hkv.
  pose proof (proj1 (Forall_forall _ _) Hpos kv Hkv) as Hv.
  cbv beta in Hv. lia.
Qed.

Lemma assisted_le (players : list Z) (d : list (Z * Z)) :
  zsum (map (assisted players) d) <= goals_of d.
Proof.
  unfold goals_of. induction d as [| kv d IH]; simpl; [lia |].
  unfold assisted at 1.
  destruct (is_empty (filter (fun p => negb (p =? fst kv)) players)); lia.
Qed.

Lemma positive_nonneg (d : list (Z * Z)) :
  Forall (fun kv => 0 < snd kv) d -> Forall (fun kv => 0 <= snd kv) d.
Proof. apply Forall_impl. intros kv Hkv. lia. Qed.

Section Sides.
Context {R : Type} `{RandomSource R}.
Hypothesis Hlaws : RandomSourceLaws R.
Variable sample : list Z -> Z -> R -> list Z * R.

(** A side with a line-up and a bench: the draws return. *)
Lemma side_returns (match_id team_id goals : Z) (xg : float)
  (lineup bench : list Z) (rng : R) :
  exists g a y r evs rows rng1 rng2 rng3 rng4 rng5 rng6,
    _allocate_goals lineup goals rng = Ok (g, rng1) /\
    _allocate_assists lineup g rng1 = Ok (a, rng2) /\
    _random_cards lineup rng2 "yellow" = Ok (y, rng3) /\
    _random_cards lineup rng3 "red" = Ok (r, rng4) /\
    _events_for_team match_id team_id g y r bench rng4 = Ok (evs, rng5) /\
    _player_stat_rows match_id team_id lineup bench g a y r xg rng5
    = Ok (rows, rng6) /\
    Forall (fun e => ev_team e = team_id) evs /\
    Forall (fun r => ps_team_id r = team_id) rows /\
    Forall (fun e => ev_match e = match_id) evs /\
    events_of "goal" evs = (if is_empty lineup then 0 else Z.max 0 goals) /\
    (NoDup (lineup ++ bench) ->
     side_drawn lineup bench match_id team_id goals evs rows).
Proof.
  destruct (allocate_goals_outcome Hlaws lineup goals rng)
    as (g & rng1 & Eg & Hg & Tg).
  destruct (assists_loop Hlaws lineup g [] rng1 (counter_ok_nil _))
    as (a & rng2 & Ea & Ha & Ta).
  destruct (random_cards_outcome Hlaws lineup rng2 "yellow")
    as (y & rng3 & Ey & Hy & Ty).
  destruct (random_cards_outcome Hlaws lineup rng3 "red")
    as (r & rng4 & Er & Hr & Tr).
  destruct (events_for_team_outcome Hlaws match_id team_id g y r bench rng4)
    as (evs & rng5 & Ee & Hw & Hev).
  destruct (player_stat_rows_outcome Hlaws match_id team_id g a y r
              (positive_nonneg g (proj2 (proj2 Hg))) lineup bench xg rng5)
    as (rows & rng6 & Es & Hwho & Hrows).
  exists g, a, y, r, evs, rows, rng1, rng2, rng3, rng4, rng5, rng6.
  repeat (split; [assumption |]).
  split; [revert Hev; apply Forall_impl; intros e He; apply He |].
  split; [revert Hrows; apply Forall_impl; intros row Hrow; apply Hrow |].
  split; [revert Hev; apply Forall_impl; intros e He; apply He |].
  destruct (events_of_counters evs g y r bench Hw (proj2 (proj2 Hg))
              (proj2 (proj2 Hy)) (proj2 (proj2 Hr))) as (Cg & Cy & Cr).
  split; [rewrite Cg; exact Tg |].
  intros Hnd.
  assert (Scol : forall col d,
             counter_ok lineup d ->
             (forall row,
                stat_row_ok match_id team_id g a y r row ->
                col row = dict_get_default Z.eqb (ps_player_id row) 0 d) ->
             zsum (map col rows) = counter_total d).
  { intros col d Hd Hcol.
    apply (rows_column_sum rows col d lineup bench Hwho); [| exact Hnd
                                                            | exact Hd].
    revert Hrows. apply Forall_impl. exact Hcol. }
  unfold side_drawn. rewrite Cg, Cy, Cr.
  split; [exact Tg |].
  split; [apply Scol; [exact Hg | intros row Hrow; apply Hrow] |].
  split.
  { rewrite (Scol ps_assists a Ha ltac:(intros row Hrow; apply Hrow)).
    rewrite Ta, <- (goals_of_total lineup g Hg).
    pose proof (assisted_le lineup g). unfold counter_total. simpl. lia. }
  split; [apply Scol; [exact Hy | intros row Hrow; apply Hrow] |].
  split; [exact Ty |].
  split; [apply Scol; [exact Hr | intros row Hrow; apply Hrow] |].
  split; [exact Tr |].
  split.
  { pose proof (events_players evs g y r lineup bench Hw
                  (proj1 (proj2 Hg)) (proj1 (proj2 Hy)) (proj1 (proj2 Hr)))
      as Hpl.
    apply Forall_forall. intros e He.
    destruct (proj1 (Forall_forall _ _) Hev e He) as (Hm & Ht & _).
    pose proof (proj1 (Forall_forall _ _) Hpl e He). auto. }
  split; [| exact Hwho].
  revert Hrows. apply Forall_impl. intros row Hrow.
  split; apply Hrow.
Qed.

(** [simulate_side] returns, whatever the line-up. *)
Lemma simulate_side_returns (match_id : Z) (player_map : list (Z * list Z))
  (events : list EventTuple) (stats_rows : list PlayerStatRow) (rng : R)
  (team_id goals : Z) (xg : float) :
  exists evs rows rng',
    simulate_side sample match_id player_map (events, stats_rows, rng)
                  (team_id, goals, xg)
    = Ok (events ++ evs, stats_rows ++ rows, rng') /\
    Forall (fun e => ev_team e = team_id) evs /\
    Forall (fun r => ps_team_id r = team_id) rows /\
    Forall (fun e => ev_match e = match_id) evs /\
    (forall lineup bench rng0,
       _lineup_for_team sample team_id player_map rng = (lineup, bench, rng0) ->
       events_of "goal" evs
       = (if is_empty lineup then 0 else Z.max 0 goals)) /\
    forall lineup bench rng0,
      _lineup_for_team sample team_id player_map rng = (lineup, bench, rng0) ->
      NoDup (lineup ++ bench) ->
      side_drawn lineup bench match_id team_id goals evs rows.
Proof.
  unfold simulate_side.
  destruct (_lineup_for_team sample team_id player_map rng)
    as [[lineup bench] rng0].
  destruct (side_returns match_id team_id goals xg lineup bench rng0)
    as (g & a & y & r & evs & rows & rng1 & rng2 & rng3 & rng4 & rng5 & rng6
        & Eg & Ea & Ey & Er & Ee & Es & Hte & Htr & Hm & Hgo & Hd).
  rewrite Eg. cbn [bind]. rewrite Ea. cbn [bind]. rewrite Ey. cbn [bind].
  rewrite Er. cbn [bind]. rewrite Ee. cbn [bind]. rewrite Es. cbn [bind].
  exists evs, rows, rng6. split; [reflexivity |].
  split; [exact Hte |]. split; [exact Htr |]. split; [exact Hm |].
  split; intros l b r0 E; injection E as <- <- _; assumption.
Qed.

Hypothesis Hsample : SampleLaws sample.

(** The line-up and the bench of a squad. *)
Lemma lineup_for_team_size (team_id : Z) (player_map : list (Z * list Z))
  (rng : R) (lineup bench : list Z) (rng' : R) :
  _lineup_for_team sample team_id player_map rng = (lineup, bench, rng') ->
  incl (lineup ++ bench) (squad player_map team_id) /\
  is_empty lineup = is_empty (squad player_map team_id) /\
  Z.of_nat (length lineup) <= 11 /\ Z.of_nat (length bench) <= 3 /\
  (NoDup (squad player_map team_id) -> NoDup (lineup ++ bench)).
Proof.
  unfold _lineup_for_team. fold (squad player_map team_id).
  set (players := squad player_map team_id) in *. cbv zeta.
  destruct (Z.leb_spec (Z.of_nat (length players)) 11) as [Hle | Hgt].
  - intros E. injection E as <- <- _. rewrite app_nil_r.
    split; [apply incl_refl |]. split; [reflexivity |].
    split; [exact Hle |]. split; [simpl; lia | auto].
  - destruct (Hsample players 11 rng ltac:(lia)) as (I1 & L1 & N1).
    destruct (sample players 11 rng) as [starters rng1]. cbn [fst] in *.
    set (bench_candidates :=
           filter (fun p => negb (existsb (Z.eqb p) starters)) players).
    destruct (Hsample bench_candidates
                (Z.min 3 (Z.of_nat (length bench_candidates))) rng1
                ltac:(lia)) as (I2 & L2 & N2).
    destruct (sample bench_candidates
                (Z.min 3 (Z.of_nat (length bench_candidates))) rng1)
      as [subs rng2]. cbn [fst] in *.
    intros E. injection E as <- <- _.
    split; [| split; [| split; [| split]]].
    + intros x Hx. apply in_app_iff in Hx. destruct Hx as [Hx | Hx].
      * apply I1. exact Hx.
      * apply I2, filter_In in Hx. apply Hx.
    + destruct starters; [simpl in L1; lia |].
      destruct players; [simpl in Hgt; lia | reflexivity].
    + lia.
    + lia.
    + intros Hnd.
      apply NoDup_app; [exact (N1 Hnd) | apply N2, NoDup_filter, Hnd |].
      intros x Hx Hx'. apply I2, filter_In in Hx'.
      destruct Hx' as [_ Hx']. apply negb_true_iff in Hx'.
      assert (Hex : existsb (Z.eqb x) starters = true).
      { apply existsb_exists. exists x. split; [exact Hx | apply Z.eqb_refl]. }
      congruence.
Qed.

(** The line-up and the bench of a squad without repetition. *)
Lemma lineup_for_team_outcome (team_id : Z) (player_map : list (Z * list Z))
  (rng : R) (lineup bench : list Z) (rng' : R) :
  NoDup (squad player_map team_id) ->
  _lineup_for_team sample team_id player_map rng = (lineup, bench, rng') ->
  NoDup (lineup ++ bench) /\
  incl (lineup ++ bench) (squad player_map team_id) /\
  is_empty lineup = is_empty (squad player_map team_id) /\
  Z.of_nat (length lineup) <= 11 /\ Z.of_nat (length bench) <= 3.
Proof.
  intros Hnd E.
  destruct (lineup_for_team_size _ _ _ _ _ _ E) as (I & Em & Ll & Lb & N).
  auto.
Qed.
End Sides.
(** ** The two sides of a simulated match, together *)

Lemma count_const {A : Type} (c : bool) (l : list A) :
  count (fun _ => c) l = if c then length l else 0%nat.
Proof.
  induction l as [| a l IH]; [destruct c; reflexivity |].
  rewrite count_cons, IH. destruct c; reflexivity.
Qed.

Lemma side_agrees_of_drawn (players lineup bench : list Z)
  (match_id team_id goals : Z) (evs : list EventTuple)
  (rs : list PlayerStatRow) (events : list EventTuple)
  (rows : list PlayerStatRow) :
  side_drawn lineup bench match_id team_id goals evs rs ->
  NoDup (lineup ++ bench) -> incl (lineup ++ bench) players ->
  is_empty lineup = is_empty players ->
  Z.of_nat (length lineup) <= 11 -> Z.of_nat (length bench) <= 3 ->
  side_events team_id events = evs -> side_rows team_id rows = rs ->
  side_agrees players match_id team_id goals events rows.
Proof.
  intros (D1 & D2 & D3 & D4 & D5 & D6 & D7 & D8 & D9 & D10)
         Hnd Hin He Hl Hb <- <-.
  assert (Hp : map ps_player_id (side_rows team_id rows) = lineup ++ bench).
  { change ps_player_id with (fun r => fst (ps_who r)).
    rewrite <- (map_map ps_who fst), D10, map_app, !map_map. cbn [fst].
    rewrite !map_id. reflexivity. }
  assert (Hstarts : forall b,
             count (fun r => ps_starts r =? b) (side_rows team_id rows)
             = Nat.add (if Z.eqb b 1 then length lineup else 0%nat)
                       (if Z.eqb b 0 then length bench else 0%nat)).
  { intros b.
    rewrite <- (count_map (fun w : Z * Z => snd w =? b) ps_who), D10.
    rewrite count_app, !count_map. cbn [snd].
    rewrite !count_const. rewrite (Z.eqb_sym 1 b), (Z.eqb_sym 0 b).
    reflexivity. }
  unfold side_agrees. cbv zeta. rewrite <- He.
  repeat (split; [assumption |]).
  split.
  { revert D8. apply Forall_impl. intros e (Hm & _ & Hp'). auto. }
  split.
  { apply Forall_forall. intros r Hr.
    split; [exact (proj1 (proj1 (Forall_forall _ _) D9 r Hr)) |].
    apply Hin. rewrite <- Hp. apply (in_map ps_player_id). exact Hr. }
  split; [rewrite Hp; exact Hnd |].
  rewrite !Hstarts. simpl. lia.
Qed.

Lemma first_sample_laws (R : Type) : SampleLaws (@first_sample R).
Proof.
  intros population k rng Hk. unfold first_sample. cbn [fst].
  split; [| split].
  - intros x Hx. rewrite <- (firstn_skipn (Z.to_nat k) population).
    apply in_app_iff. left. exact Hx.
  - rewrite length_firstn. lia.
  - intros Hnd.
    rewrite <- (firstn_skipn (Z.to_nat k) population) in Hnd.
    exact (NoDup_app_remove_r _ _ Hnd).
Qed.

Section MatchSides.
Context {R : Type} `{RandomSource R}.
Hypothesis Hlaws : RandomSourceLaws R.
Variable sample : list Z -> Z -> R -> list Z * R.
Hypothesis Hsample : SampleLaws sample.

Lemma match_sides_outcome (rng : R) (match_id : Z) (match_info : Fixture)
  (home_xg away_xg : float) (player_map : list (Z * list Z)) :
  exists evs_h rows_h evs_a rows_a rng',
    match_sides sample rng match_id match_info home_xg away_xg player_map
    = Ok (evs_h ++ evs_a, rows_h ++ rows_a, rng') /\
    Forall (fun e => ev_team e = fx_home match_info) evs_h /\
    Forall (fun r => ps_team_id r = fx_home match_info) rows_h /\
    Forall (fun e => ev_team e = fx_away match_info) evs_a /\
    Forall (fun r => ps_team_id r = fx_away match_info) rows_a /\
    (NoDup (squad player_map (fx_home match_info)) ->
     forall events rows,
       side_events (fx_home match_info) events = evs_h ->
       side_rows (fx_home match_info) rows = rows_h ->
       side_agrees (squad player_map (fx_home match_info)) match_id
                   (fx_home match_info) (fx_home_goals match_info)
                   events rows) /\
    (NoDup (squad player_map (fx_away match_info)) ->
     forall events rows,
       side_events (fx_away match_info) events = evs_a ->
       side_rows (fx_away match_info) rows = rows_a ->
       side_agrees (squad player_map (fx_away match_info)) match_id
                   (fx_away match_info) (fx_away_goals match_info)
                   events rows).
Proof.
  unfold match_sides. rewrite foldM_cons.
  destruct (simulate_side_returns Hlaws sample match_id player_map [] [] rng
              (fx_home match_info) (fx_home_goals match_info) home_xg)
    as (evs_h & rows_h & rng1 & E1 & Te1 & Tr1 & _ & _ & D1).
  rewrite E1. cbn [bind app]. rewrite foldM_cons.
  destruct (simulate_side_returns Hlaws sample match_id player_map
              evs_h rows_h rng1
              (fx_away match_info) (fx_away_goals match_info) away_xg)
    as (evs_a & rows_a & rng2 & E2 & Te2 & Tr2 & _ & _ & D2).
  rewrite E2. cbn [bind foldM].
  exists evs_h, rows_h, evs_a, rows_a, rng2. split; [reflexivity |].
  repeat (split; [assumption |]).
  destruct (_lineup_for_team sample (fx_home match_info) player_map rng)
    as [[lh bh] r1] eqn:L1.
  destruct (_lineup_for_team sample (fx_away match_info) player_map rng1)
    as [[la ba] r2] eqn:L2.
  specialize (D1 lh bh r1 eq_refl). specialize (D2 la ba r2 eq_refl).
  split.
  - intros Hnd events rows Hev Hrows.
    destruct (lineup_for_team_outcome sample Hsample _ _ _ _ _ _ Hnd L1)
      as (N & I & Em & Ll & Lb).
    exact (side_agrees_of_drawn _ lh bh _ _ _ _ _ events rows (D1 N) N I Em
             Ll Lb Hev Hrows).
  - intros Hnd events rows Hev Hrows.
    destruct (lineup_for_team_outcome sample Hsample _ _ _ _ _ _ Hnd L2)
      as (N & I & Em & Ll & Lb).
    exact (side_agrees_of_drawn _ la ba _ _ _ _ _ events rows (D2 N) N I Em
             Ll Lb Hev Hrows).
Qed.
End MatchSides.

(** X17.  With a random source and a sample that keep the promises of the
    library, squads without repetition and a home team other than the away
    team, the second half of [_simulate_match] returns, and for each side
    the events and the statistics rows agree with each other and with the
    score: the goal events are as many as the goals of the side (none when
    the team has no players), and as many as the goals in its rows; the
    assists in its rows are no more than its goals; the yellow cards in
    its rows are its yellow-card events, at most three, the red cards its
    red-card events, at most one; every event and every row is of the
    match and of a player of the squad, no player has two rows, at most
    eleven rows are starters and at most three are substitutes.  Every
    event and every row belongs to one of the two teams. *)
Theorem match_sides_agree (R : Type) `{RandomSource R}
  (sample : list Z -> Z -> R -> list Z * R) (rng : R) (match_id : Z)
  (match_info : Fixture) (home_xg away_xg : float)
  (player_map : list (Z * list Z)) :
  RandomSourceLaws R -> SampleLaws sample ->
  NoDup (squad player_map (fx_home match_info)) ->
  NoDup (squad player_map (fx_away match_info)) ->
  fx_home match_info <> fx_away match_info ->
  exists events rows rng',
    match_sides sample rng match_id match_info home_xg away_xg player_map
    = Ok (events, rows, rng') /\
    side_agrees (squad player_map (fx_home match_info)) match_id
                (fx_home match_info) (fx_home_goals match_info)
                events rows /\
    side_agrees (squad player_map (fx_away match_info)) match_id
                (fx_away match_info) (fx_away_goals match_info)
                events rows /\
    Forall (fun e => ev_team e = fx_home match_info \/
                     ev_team e = fx_away match_info) events /\
    Forall (fun r => ps_team_id r = fx_home match_info \/
                     ps_team_id r = fx_away match_info) rows.
Proof.
  intros Hlaws Hsample Hh Ha Hne.
  destruct (match_sides_outcome Hlaws sample Hsample rng match_id match_info
              home_xg away_xg player_map)
    as (evs_h & rows_h & evs_a & rows_a & rng' & E & Teh & Trh & Tea & Tra
        & Ah & Aa).
  exists (evs_h ++ evs_a), (rows_h ++ rows_a), rng'.
  split; [exact E |].
  assert (Fe : forall t l,
             Forall (fun e : EventTuple => ev_team e = t) l ->
             side_events t l = l).
  { intros t l Hl. apply filter_all. intros e He. apply Z.eqb_eq.
    exact (proj1 (Forall_forall _ _) Hl e He). }
  assert (Ne : forall t t' l,
             t' <> t -> Forall (fun e : EventTuple => ev_team e = t') l ->
             side_events t l = []).
  { intros t t' l Ht Hl. apply filter_none. intros e He. apply Z.eqb_neq.
    rewrite (proj1 (Forall_forall _ _) Hl e He). exact Ht. }
  assert (Fr : forall t l,
             Forall (fun r : PlayerStatRow => ps_team_id r = t) l ->
             side_rows t l = l).
  { intros t l Hl. apply filter_all. intros r Hr. apply Z.eqb_eq.
    exact (proj1 (Forall_forall _ _) Hl r Hr). }
  assert (Nr : forall t t' l,
             t' <> t ->
             Forall (fun r : PlayerStatRow => ps_team_id r = t') l ->
             side_rows t l = []).
  { intros t t' l Ht Hl. apply filter_none. intros r Hr. apply Z.eqb_neq.
    rewrite (proj1 (Forall_forall _ _) Hl r Hr). exact Ht. }
  split; [| split; [| split]].
  - apply (Ah Hh).
    + unfold side_events. rewrite filter_app.
      fold (side_events (fx_home match_info) evs_h).
      fold (side_events (fx_home match_info) evs_a).
      rewrite (Fe _ _ Teh), (Ne _ _ _ (not_eq_sym Hne) Tea).
      apply app_nil_r.
    + unfold side_rows. rewrite filter_app.
      fold (side_rows (fx_home match_info) rows_h).
      fold (side_rows (fx_home match_info) rows_a).
      rewrite (Fr _ _ Trh), (Nr _ _ _ (not_eq_sym Hne) Tra).
      apply app_nil_r.
  - apply (Aa Ha).
    + unfold side_events. rewrite filter_app.
      fold (side_events (fx_away match_info) evs_h).
      fold (side_events (fx_away match_info) evs_a).
      rewrite (Fe _ _ Tea), (Ne _ _ _ Hne Teh). reflexivity.
    + unfold side_rows. rewrite filter_app.
      fold (side_rows (fx_away match_info) rows_h).
      fold (side_rows (fx_away match_info) rows_a).
      rewrite (Fr _ _ Tra), (Nr _ _ _ Hne Trh). reflexivity.
  - apply Forall_app. split; [revert Teh | revert Tea];
      apply Forall_impl; intros e He; auto.
  - apply Forall_app. split; [revert Trh | revert Tra];
      apply Forall_impl; intros r Hr; auto.
Qed.

Lemma match_sides_agree_witness :
  exists events rows rng',
    match_sides first_sample (mixed_tape 200) 40 example_fixture
                float_1_5 float_0_7 example_player_map
    = Ok (events, rows, rng') /\
    side_agrees (squad example_player_map 1) 40 1 3 events rows /\
    side_agrees (squad example_player_map 2) 40 2 1 events rows /\
    Forall (fun e => ev_team e = 1 \/ ev_team e = 2) events /\
    Forall (fun r => ps_team_id r = 1 \/ ps_team_id r = 2) rows.
Proof.
  apply (match_sides_agree (list Z) first_sample (mixed_tape 200) 40
           example_fixture float_1_5 float_0_7 example_player_map
           TapeSource_laws (first_sample_laws (list Z))).
  - repeat (apply NoDup_cons; [simpl; intuition discriminate |]).
    apply NoDup_nil.
  - repeat (apply NoDup_cons; [simpl; intuition discriminate |]).
    apply NoDup_nil.
  - discriminate.
Defined.
(** ** The form of a team *)

Lemma OrderCmp_flip {A : Type} (c : A -> A -> comparison) :
  OrderCmp c -> OrderCmp (fun x y => c y x).
Proof.
  intros Hc. constructor.
  - intros x y. apply (cmp_antisym Hc).
  - intros x y z E. cbv beta in *.
    rewrite (cmp_antisym Hc x z), (cmp_antisym Hc y z). f_equal.
    assert (E' : c x y = Eq).
    { rewrite (cmp_antisym Hc y x), E. reflexivity. }
    exact (cmp_eq_l Hc x y z E').
  - intros x y z E1 E2. cbv beta in *. exact (cmp_lt_trans Hc z y x E2 E1).
Qed.

Lemma OrderCmp_recent : OrderCmp recent_compare.
Proof.
  unfold recent_compare.
  apply (OrderCmp_then (fun x y => String.compare (m_date y) (m_date x))
                       (fun x y => - m_id x ?= - m_id y)).
  - apply (OrderCmp_flip (fun x y => String.compare (m_date x) (m_date y))).
    apply OrderCmp_string.
  - apply OrderCmp_Z_desc.
Qed.

Lemma extend_history_app (entry : option (list string))
  (l1 l2 : list string) :
  extend_history (extend_history entry l1) l2 = extend_history entry (l1 ++ l2).
Proof.
  destruct l1 as [| a l1]; [reflexivity |].
  destruct l2 as [| b l2].
  - rewrite app_nil_r. reflexivity.
  - simpl. rewrite <- app_assoc. reflexivity.
Qed.

Lemma history_add_get (team : Z) (res : string)
  (history : list (Z * list string)) (t : Z) :
  dict_get Z.eqb t (history_add team res history)
  = extend_history (dict_get Z.eqb t history)
                   (if team =? t then [res] else []).
Proof.
  unfold history_add. destruct (Z.eqb_spec team t) as [-> | Hne].
  - rewrite (@dict_get_set_same Z (list string) Z.eqb Z.eqb_spec).
    unfold dict_get_default, extend_history.
    destruct (dict_get Z.eqb t history); reflexivity.
  - rewrite (@dict_get_set_other Z (list string) Z.eqb Z.eqb_spec
               team t _ history Hne).
    reflexivity.
Qed.

Lemma history_add_keys (team : Z) (res : string)
  (history : list (Z * list string)) :
  NoDup (dict_keys history) -> NoDup (dict_keys (history_add team res history)).
Proof.
  unfold history_add.
  apply (@dict_set_keys_NoDup Z (list string) Z.eqb Z.eqb_spec).
Qed.

(** The loop of [_last5_strings]: every team's entry grows by its results
    in the rows, in their order. *)
Lemma history_fold (rows : list MatchRow) :
  forall history t,
    NoDup (dict_keys history) ->
    let final :=
      fold_left (fun history m =>
                   let '(home_res, away_res) := match_letters m in
                   history_add (m_away_team_id m) away_res
                     (history_add (m_home_team_id m) home_res history))
                rows history in
    NoDup (dict_keys final) /\
    dict_get Z.eqb t final
    = extend_history (dict_get Z.eqb t history) (letters_of t rows).
Proof.
  induction rows as [| m rows IH]; intros history t Hnd; cbv zeta.
  - split; [exact Hnd | reflexivity].
  - cbn [fold_left].
    destruct (match_letters m) as [home_res away_res] eqn:El.
    assert (Hnd' : NoDup (dict_keys
                            (history_add (m_away_team_id m) away_res
                               (history_add (m_home_team_id m) home_res
                                            history)))).
    { apply history_add_keys, history_add_keys, Hnd. }
    destruct (IH _ t Hnd') as [N G]. split; [exact N |].
    rewrite G, !history_add_get, !extend_history_app.
    unfold letters_of. cbn [flat_map]. rewrite El. cbn [fst snd].
    rewrite <- app_assoc. reflexivity.
Qed.

Lemma dict_get_map_values {V W : Type} (f : V -> W) (d : list (Z * V))
  (t : Z) :
  dict_get Z.eqb t (map (fun item => (fst item, f (snd item))) d)
  = option_map f (dict_get Z.eqb t d).
Proof.
  induction d as [| [k v] d IH]; [reflexivity |].
  simpl. destruct (t =? k); [reflexivity | exact IH].
Qed.

Lemma letters_of_plays (t : Z) (rows : list MatchRow) :
  Forall (fun m => m_home_team_id m <> m_away_team_id m) rows ->
  letters_of t rows = map (letter t) (filter (plays t) rows).
Proof.
  unfold letters_of, plays, letter.
  induction 1 as [| m rows Hm _ IH]; [reflexivity |].
  cbn [flat_map filter]. rewrite IH.
  destruct (Z.eqb_spec (m_home_team_id m) t) as [Eh | Nh];
    destruct (Z.eqb_spec (m_away_team_id m) t) as [Ea | Na];
    cbn [orb app map]; try reflexivity.
  - congruence.
  - rewrite (proj2 (Z.eqb_eq _ _) Eh). reflexivity.
  - rewrite (proj2 (Z.eqb_neq _ _) Nh). reflexivity.
Qed.

(** X18.  [_last5_strings] reads the matches of the season and the stage
    (for ["anual"] also those of apertura and clausura) from the latest
    date, and among equal dates from the greatest id, downwards.  A team
    has an entry exactly when it has a result in these matches, and the
    entry is its first five results in that order, joined: when no match
    has a team against itself, the letters [W], [D], [L] of the five most
    recent matches of the team, the most recent first. *)
Theorem last5_most_recent (db : DB) (season : Z) (stage : string) (t : Z) :
  let recent := recent_matches db season stage in
  Permutation recent (filter (stage_or_anual season stage) (matches db)) /\
  sorted_by recent_compare recent /\
  dict_get Z.eqb t (Helper._last5_strings db season stage)
  = match letters_of t recent with
    | [] => None
    | results => Some (String.concat "" (firstn 5 results))
    end /\
  (Forall (fun m => m_home_team_id m <> m_away_team_id m) (matches db) ->
   dict_get Z.eqb t (Helper._last5_strings db season stage)
   = match filter (plays t) recent with
     | [] => None
     | played => Some (String.concat "" (map (letter t) (firstn 5 played)))
     end).
Proof.
  intros recent.
  assert (Hperm : Permutation recent
                    (filter (stage_or_anual season stage) (matches db))).
  { apply sort_by_perm. }
  assert (Hget : dict_get Z.eqb t (Helper._last5_strings db season stage)
                 = match letters_of t recent with
                   | [] => None
                   | results => Some (String.concat "" (firstn 5 results))
                   end).
  { unfold Helper._last5_strings. cbv zeta. fold recent.
    destruct (history_fold recent [] t (NoDup_nil _)) as [N G].
    cbv zeta in N, G.
    rewrite (@dict_of_list_NoDup Z string Z.eqb Z.eqb_spec).
    - rewrite (dict_get_map_values
                 (fun results => String.concat "" (firstn 5 results))), G.
      simpl. destruct (letters_of t recent); reflexivity.
    - rewrite map_map. exact N. }
  split; [exact Hperm |].
  split; [apply sort_by_sorted_by, OrderCmp_recent |].
  split; [exact Hget |].
  intros Hself. rewrite Hget.
  assert (Hrecent : Forall (fun m => m_home_team_id m <> m_away_team_id m)
                           recent).
  { apply Forall_forall. intros m Hm.
    apply (Permutation_in _ Hperm), filter_In in Hm.
    exact (proj1 (Forall_forall _ _) Hself m (proj1 Hm)). }
  rewrite (letters_of_plays t recent Hrecent).
  destruct (filter (plays t) recent) as [| m played]; [reflexivity |].
  cbn [map]. rewrite <- firstn_map. reflexivity.
Qed.
(** ** The discipline table: matches played and cards per match *)







(** ** The best attacks *)

Lemma OrderCmp_attack : OrderCmp attack_compare.
Proof.
  unfold attack_compare.
  apply (OrderCmp_then (fun x y => - tr_gf x ?= - tr_gf y));
    [apply OrderCmp_Z_desc | apply OrderCmp_string].
Qed.

Lemma StronglySorted_app_cross {A : Type} (Rel : A -> A -> Prop)
  (l1 l2 : list A) :
  StronglySorted Rel (l1 ++ l2) ->
  forall x y, In x l1 -> In y l2 -> Rel x y.
Proof.
  induction l1 as [| a l1 IH]; intros Hs x y Hx Hy; [contradiction |].
  simpl in Hs. apply StronglySorted_inv in Hs. destruct Hs as [Hs Hall].
  destruct Hx as [-> | Hx].
  - apply (proj1 (Forall_forall _ _) Hall). apply in_app_iff. right. exact Hy.
  - exact (IH Hs x y Hx Hy).
Qed.

Lemma attack_leb_gf (x y : TableRow) :
  attack_leb x y = true -> tr_gf y <= tr_gf x.
Proof.
  unfold attack_leb, attack_compare, not_gt, comparison_then.
  destruct (Z.compare_spec (- tr_gf x) (- tr_gf y)); intros E;
    first [lia | discriminate].
Qed.

(** X20.  [api_mejores_ataques] answers with rows of the default table
    (season 2024, apertura), ordered by goals for descending and then by
    team name, and [count] is their number.  For [top >= 0] they are the
    first [top] rows of that order, all of them when the table has fewer;
    for a negative [top] the slice drops the last [-top] rows instead, so
    [top = -1] returns all rows but the last.  No row left out has more
    goals for than a row returned. *)
Theorem best_attacks (db : DB) (utcnow : string) (top : Z) :
  let rows := tb_rows (compute_table db utcnow DEFAULT_SEASON DEFAULT_STAGE) in
  let answer := api_mejores_ataques db utcnow top in
  ar_count answer = Z.of_nat (length (ar_equipos answer)) /\
  (0 <= top -> ar_count answer = Z.min top (Z.of_nat (length rows))) /\
  (top < 0 -> ar_count answer = Z.max 0 (Z.of_nat (length rows) + top)) /\
  sorted_by attack_compare (ar_equipos answer) /\
  exists rest,
    Permutation (ar_equipos answer ++ rest) rows /\
    forall r r', In r (ar_equipos answer) -> In r' rest ->
                 tr_gf r' <= tr_gf r.
Proof.
  intros rows answer. unfold answer, api_mejores_ataques. cbv zeta.
  fold rows. cbn [ar_count ar_equipos].
  set (sorted_rows := sort_by attack_leb rows).
  assert (Hlen : length sorted_rows = length rows) by apply sort_by_length.
  assert (Hsorted : sorted_by attack_compare sorted_rows).
  { apply sort_by_sorted_by, OrderCmp_attack. }
  assert (Hpre : exists n, py_prefix top sorted_rows = firstn n sorted_rows).
  { unfold py_prefix. destruct (top <? 0); eauto. }
  split; [reflexivity |].
  split; [| split; [| split]].
  - intros Htop. unfold py_prefix.
    destruct (Z.ltb_spec top 0) as [Hneg | _]; [lia |].
    rewrite length_firstn, Hlen. lia.
  - intros Htop. unfold py_prefix.
    destruct (Z.ltb_spec top 0) as [_ | Hpos]; [| lia].
    rewrite length_firstn, Hlen. lia.
  - destruct Hpre as [n ->]. apply StronglySorted_firstn. exact Hsorted.
  - destruct Hpre as [n ->]. exists (skipn n sorted_rows). split.
    + rewrite firstn_skipn. apply sort_by_perm.
    + intros r r' Hr Hr'. apply attack_leb_gf.
      unfold sorted_by in Hsorted.
      rewrite <- (firstn_skipn n sorted_rows) in Hsorted.
      exact (StronglySorted_app_cross _ _ _ Hsorted r r' Hr Hr').
Qed.
(** ** Fixtures, as [list_fixtures] lists them *)

Lemma StronglySorted_filter {A : Type} (Rel : A -> A -> Prop)
  (f : A -> bool) (l : list A) :
  StronglySorted Rel l -> StronglySorted Rel (filter f l).
Proof.
  induction 1 as [| x l Hs IH Hall]; simpl; [constructor |].
  destruct (f x); [| exact IH].
  constructor; [exact IH |].
  apply Forall_forall. intros y Hy. apply filter_In in Hy.
  exact (proj1 (Forall_forall _ _) Hall y (proj1 Hy)).
Qed.

Lemma count_perm {A : Type} (f : A -> bool) (l l' : list A) :
  Permutation l l' -> count f l = count f l'.
Proof.
  induction 1 as [| x l l' _ IH | x y l | l l' l'' _ IH1 _ IH2].
  - reflexivity.
  - rewrite !count_cons, IH. reflexivity.
  - rewrite !count_cons. lia.
  - congruence.
Qed.

Lemma OrderCmp_Z_asc {A : Type} (f : A -> Z) :
  OrderCmp (fun x y => f x ?= f y).
Proof.
  constructor.
  - intros x y. apply Z.compare_antisym.
  - intros x y z E. apply Z.compare_eq in E. now rewrite E.
  - intros x y z. rewrite !Z.compare_lt_iff. lia.
Qed.

Lemma OrderCmp_by_date : OrderCmp by_date_compare.
Proof.
  unfold by_date_compare.
  apply (OrderCmp_then (fun x y => String.compare (m_date x) (m_date y))
                       (fun x y => m_id x ?= m_id y));
    [apply OrderCmp_string | apply OrderCmp_Z_asc].
Qed.

Lemma team_lookup_get (db : DB) (id : Z) :
  NoDup (map t_id (teams db)) ->
  dict_get Z.eqb id (team_lookup db)
  = option_map (fun t => (t_name t, t_logo_key t)) (team_with db id).
Proof.
  intros Hnd. unfold team_lookup, team_with.
  rewrite (@dict_of_list_NoDup Z (string * string) Z.eqb Z.eqb_spec)
    by (rewrite map_map; exact Hnd).
  clear Hnd. induction (teams db) as [| t l IH]; [reflexivity |].
  simpl. rewrite (Z.eqb_sym (t_id t) id).
  destruct (id =? t_id t); [reflexivity | exact IH].
Qed.

Lemma lookup_name_team (db : DB) (id : Z) :
  NoDup (map t_id (teams db)) ->
  lookup_name (team_lookup db) id = name_or_empty (team_with db id).
Proof.
  intros Hnd. unfold lookup_name. rewrite (team_lookup_get db id Hnd).
  destruct (team_with db id); reflexivity.
Qed.

Lemma lookup_logo_team (db : DB) (id : Z) :
  NoDup (map t_id (teams db)) ->
  lookup_logo_key (team_lookup db) id = logo_or_empty (team_with db id).
Proof.
  intros Hnd. unfold lookup_logo_key. rewrite (team_lookup_get db id Hnd).
  destruct (team_with db id); reflexivity.
Qed.

Lemma list_fixtures_rows (db : DB) (season : Z) (stage : string)
  (team_id : option Z) (round_number : option string) :
  NoDup (map t_id (teams db)) ->
  list_fixtures db season stage team_id round_number
  = map (fixture_row_of db)
        (filter (fixture_kept team_id round_number)
                (get_matches_for_conn db season stage)).
Proof.
  intros Hnd. unfold list_fixtures. cbv zeta. apply map_ext. intros m.
  unfold fixture_row_of.
  rewrite !(lookup_name_team db _ Hnd), !(lookup_logo_team db _ Hnd).
  reflexivity.
Qed.

Lemma fixture_kept_spec (team_id : option Z) (round_number : option string)
  (m : MatchRow) :
  fixture_kept team_id round_number m = true <->
  (forall t, team_id = Some t -> t <> 0 ->
             m_home_team_id m = t \/ m_away_team_id m = t) /\
  (forall r, round_number = Some r -> r <> ""%string -> m_round m = r).
Proof.
  unfold fixture_kept. rewrite andb_true_iff, !negb_true_iff. split.
  - intros [Ht Hr]. split.
    + intros t -> Hne.
      destruct (Z.eqb_spec t 0) as [| _]; [contradiction |].
      destruct (Z.eqb_spec (m_home_team_id m) t) as [| _]; [now left |].
      destruct (Z.eqb_spec (m_away_team_id m) t) as [| _]; [now right |].
      discriminate.
    + intros r -> Hne.
      destruct (String.eqb_spec r "") as [| _]; [contradiction |].
      destruct (String.eqb_spec (m_round m) r) as [| _]; [assumption |].
      discriminate.
  - intros [Ht Hr]. split.
    + destruct team_id as [t |]; [| reflexivity].
      destruct (Z.eqb_spec t 0) as [| Hne]; [reflexivity |].
      destruct (Ht t eq_refl Hne) as [E | E]; rewrite E, Z.eqb_refl; simpl;
        [reflexivity | apply andb_false_r].
    + destruct round_number as [r |]; [| reflexivity].
      destruct (String.eqb_spec r "") as [| Hne]; [reflexivity |].
      rewrite (Hr r eq_refl Hne), String.eqb_refl. reflexivity.
Qed.

(** X21.  With unique team ids, [list_fixtures] lists exactly the matches
    of the season and the (expanded) stage, of the team if a team other
    than 0 is given and of the round if a round other than the empty
    string is given, each match once, ordered by date and then by id, with
    the names and logo keys of the two teams, empty for an id that is no
    team of the store.  The team 0 and the empty round filter nothing. *)
Theorem fixtures_listed (db : DB) (season : Z) (stage : string)
  (team_id : option Z) (round_number : option string) :
  NoDup (map t_id (teams db)) ->
  let fixtures := list_fixtures db season stage team_id round_number in
  (forall f, In f fixtures <->
             exists m, In m (matches db) /\
                       fixture_wanted season stage team_id round_number m /\
                       f = fixture_row_of db m) /\
  sorted_by fixture_row_compare fixtures /\
  length fixtures
  = count (fixture_wantedb season stage team_id round_number) (matches db) /\
  list_fixtures db season stage (Some 0) round_number
  = list_fixtures db season stage None round_number /\
  list_fixtures db season stage team_id (Some ""%string)
  = list_fixtures db season stage team_id None.
Proof.
  intros Hnd fixtures. unfold fixtures.
  rewrite !(list_fixtures_rows db season stage _ _ Hnd).
  split; [| split; [| split; [| split]]].
  - intros f. rewrite in_map_iff. split.
    + intros (m & <- & Hm). exists m. apply filter_In in Hm.
      destruct Hm as [Hm Hk]. unfold get_matches_for_conn in Hm.
      apply (proj1 (sort_by_In by_date_leb _ _)), filter_In in Hm.
      destruct Hm as [Hm Hs]. apply andb_true_iff in Hs.
      destruct Hs as [Hs1 Hs2]. apply fixture_kept_spec in Hk.
      split; [exact Hm |]. split; [| reflexivity].
      split; [apply Z.eqb_eq; exact Hs1 |].
      split; [| exact Hk].
      unfold stage_in in Hs2. apply existsb_exists in Hs2.
      destruct Hs2 as (s & Hs & E). apply String.eqb_eq in E. subst s.
      exact Hs.
    + intros (m & Hm & (Hs1 & Hs2 & Hk) & ->). exists m.
      split; [reflexivity |]. apply filter_In. split.
      * unfold get_matches_for_conn.
        apply (proj2 (sort_by_In by_date_leb _ _)), filter_In.
        split; [exact Hm |]. apply andb_true_iff. split.
        -- apply Z.eqb_eq. exact Hs1.
        -- unfold stage_in. apply existsb_exists.
           exists (m_stage_code m). split; [exact Hs2 | apply String.eqb_refl].
      * apply fixture_kept_spec. exact Hk.
  - apply (sorted_by_map (fixture_row_of db) by_date_compare).
    + intros x y. reflexivity.
    + unfold sorted_by. apply StronglySorted_filter.
      unfold get_matches_for_conn.
      apply (sort_by_sorted_by by_date_compare), OrderCmp_by_date.
  - rewrite length_map.
    change (length (filter ?f ?l)) with (count f l).
    unfold get_matches_for_conn.
    rewrite (count_perm _ _ _ (sort_by_perm by_date_leb _)).
    rewrite count_filter_and. reflexivity.
  - reflexivity.
  - reflexivity.
Qed.

Lemma fixtures_listed_witness :
  (forall f, In f (list_fixtures scorers_db 2024 "apertura" (Some 1) None)
             <->
             exists m, In m (matches scorers_db) /\
                       fixture_wanted 2024 "apertura" (Some 1) None m /\
                       f = fixture_row_of scorers_db m) /\
  sorted_by fixture_row_compare
            (list_fixtures scorers_db 2024 "apertura" (Some 1) None) /\
  length (list_fixtures scorers_db 2024 "apertura" (Some 1) None)
  = count (fixture_wantedb 2024 "apertura" (Some 1) None)
          (matches scorers_db) /\
  list_fixtures scorers_db 2024 "apertura" (Some 0) None
  = list_fixtures scorers_db 2024 "apertura" None None /\
  list_fixtures scorers_db 2024 "apertura" (Some 1) (Some ""%string)
  = list_fixtures scorers_db 2024 "apertura" (Some 1) None.
Proof.
  apply (fixtures_listed scorers_db 2024 "apertura" (Some 1) None).
  repeat (apply NoDup_cons; [simpl; intuition discriminate |]).
  apply NoDup_nil.
Defined.
(** ** The events of a match, as [list_match_events] lists them *)

Lemma NoDup_map_eq {A : Type} (k : A -> Z) (l : list A) (a b : A) :
  NoDup (map k l) -> In a l -> In b l -> k a = k b -> a = b.
Proof.
  induction l as [| x l IH]; intros Hnd Ha Hb E; [contradiction |].
  simpl in Hnd. apply NoDup_cons_iff in Hnd. destruct Hnd as [Hx Hnd].
  destruct Ha as [-> | Ha], Hb as [-> | Hb].
  - reflexivity.
  - exfalso. apply Hx. rewrite E. apply in_map. exact Hb.
  - exfalso. apply Hx. rewrite <- E. apply in_map. exact Ha.
  - exact (IH Hnd Ha Hb E).
Qed.

Lemma filter_key_unique {A : Type} (k : A -> Z) (l : list A) (c : Z) :
  NoDup (map k l) -> (length (filter (fun a => Z.eqb c (k a)) l) <= 1)%nat.
Proof.
  induction l as [| x l IH]; intros Hnd; [simpl; lia |].
  simpl in Hnd. apply NoDup_cons_iff in Hnd. destruct Hnd as [Hx Hnd].
  simpl. destruct (Z.eqb_spec c (k x)) as [-> | _]; [| exact (IH Hnd)].
  assert (Hnone : filter (fun a => k x =? k a) l = []).
  { apply filter_none. intros a Ha. apply Z.eqb_neq. intros E.
    apply Hx. rewrite E. apply in_map. exact Ha. }
  rewrite Hnone. simpl. lia.
Qed.

Lemma existsb_filter {A : Type} (f : A -> bool) (l : list A) :
  existsb f l = match filter f l with
                | [] => false
                | _ => true
                end.
Proof.
  induction l as [| x l IH]; [reflexivity |].
  simpl. destruct (f x); [reflexivity | exact IH].
Qed.

Lemma filter_filter_and {A : Type} (f g : A -> bool) (l : list A) :
  filter f (filter g l) = filter (fun x => f x && g x) l.
Proof.
  induction l as [| x l IH]; [reflexivity |].
  simpl. destruct (g x); simpl.
  - destruct (f x); simpl; rewrite IH; reflexivity.
  - rewrite andb_false_r. exact IH.
Qed.

Lemma filter_map_comm {A B : Type} (f : B -> bool) (g : A -> B)
  (l : list A) :
  map g (filter (fun a => f (g a)) l) = filter f (map g l).
Proof.
  induction l as [| x l IH]; [reflexivity |].
  simpl. destruct (f (g x)); simpl; rewrite IH; reflexivity.
Qed.

Section Joins.
Context {A B : Type}.
Variable on : A -> B -> bool.
Variable table : list B.
Hypothesis Hone : forall a, (length (filter (on a) table) <= 1)%nat.

(** An inner join with at most one partner per row keeps the rows that
    have one, each once. *)
Lemma sql_join_fst (rows : list A) :
  map fst (sql_join on rows table)
  = filter (fun a => existsb (on a) table) rows.
Proof.
  unfold sql_join. induction rows as [| a rows IH]; [reflexivity |].
  cbn [flat_map filter]. rewrite map_app, IH, existsb_filter.
  pose proof (Hone a) as H1.
  destruct (filter (on a) table) as [| b [| b' rest]]; simpl in *;
    [reflexivity | reflexivity | lia].
Qed.

(** A left join with at most one partner per row keeps every row once. *)
Lemma sql_left_join_fst (rows : list A) :
  map fst (sql_left_join on rows table) = rows.
Proof.
  unfold sql_left_join. induction rows as [| a rows IH]; [reflexivity |].
  cbn [flat_map]. rewrite map_app, IH.
  pose proof (Hone a) as H1.
  destruct (filter (on a) table) as [| b [| b' rest]]; simpl in *;
    [reflexivity | reflexivity | lia].
Qed.
End Joins.

Lemma sql_left_join_In {A B : Type} (on : A -> B -> bool) (rows : list A)
  (table : list B) (a : A) (ob : option B) :
  In (a, ob) (sql_left_join on rows table) ->
  In a rows /\
  match ob with
  | Some b => In b table /\ on a b = true
  | None => forall b, In b table -> on a b = false
  end.
Proof.
  unfold sql_left_join. intros Hin. apply in_flat_map in Hin.
  destruct Hin as (a' & Ha' & Hin).
  destruct (filter (on a') table) as [| b0 rest] eqn:Ef.
  - destruct Hin as [E | []]. injection E as <- <-.
    split; [exact Ha' |]. intros b Hb.
    destruct (on a' b) eqn:Eon; [| reflexivity].
    assert (Hf : In b (filter (on a') table)).
    { apply filter_In. split; assumption. }
    rewrite Ef in Hf. contradiction.
  - apply in_map_iff in Hin. destruct Hin as (b & E & Hb).
    injection E as <- <-. split; [exact Ha' |].
    rewrite <- Ef in Hb. apply filter_In in Hb. exact Hb.
Qed.

Lemma Forall2_maps {A B C : Type} (Rel : B -> C -> Prop) (f : A -> B)
  (g : A -> C) (l : list A) :
  (forall x, In x l -> Rel (f x) (g x)) -> Forall2 Rel (map f l) (map g l).
Proof.
  induction l as [| x l IH]; intros Hl; simpl; constructor.
  - apply Hl. left. reflexivity.
  - apply IH. intros y Hy. apply Hl. right. exact Hy.
Qed.

Lemma OrderCmp_by_minute : OrderCmp by_minute_compare.
Proof.
  unfold by_minute_compare.
  apply (OrderCmp_then
           (fun x y : EventRow * TeamRow * option PlayerRow =>
              e_minute (fst (fst x)) ?= e_minute (fst (fst y)))
           (fun x y : EventRow * TeamRow * option PlayerRow =>
              e_id (fst (fst x)) ?= e_id (fst (fst y))));
    apply OrderCmp_Z_asc.
Qed.

Lemma player_partner_unique (db : DB) (et : EventRow * TeamRow) :
  NoDup (map p_id (players db)) ->
  (length (filter (fun p => option_Z_eqb (e_player_id (fst et)) (p_id p))
                  (players db)) <= 1)%nat.
Proof.
  intros Hnd. unfold option_Z_eqb.
  destruct (e_player_id (fst et)) as [c |].
  - exact (filter_key_unique p_id (players db) c Hnd).
  - rewrite filter_none by reflexivity. simpl. lia.
Qed.

(** X22.  With unique team ids and unique player ids, [list_match_events]
    lists exactly the events of the match whose team is a team of the
    store, each once, ordered by minute and then by event id; a row shows
    the minute, the team with its name, the type, the detail, the player id
    as stored, and the name of the player with that id, or no name when
    the event has no player or the id is no player of the store. *)
Theorem match_events_listed (db : DB) (match_id : Z) :
  NoDup (map t_id (teams db)) -> NoDup (map p_id (players db)) ->
  exists events,
    Permutation events
      (filter (fun e => (e_match_id e =? match_id)
                        && has_team db (e_team_id e))
              (match_events db)) /\
    sorted_by event_compare events /\
    Forall2 (lists_event db) events (list_match_events db match_id).
Proof.
  intros Ht Hp.
  exists (map (fun x : EventRow * TeamRow * option PlayerRow => fst (fst x))
              (match_event_rows db match_id)).
  split; [| split].
  - unfold match_event_rows.
    rewrite (Permutation_map _ (sort_by_perm by_minute_leb _)).
    rewrite (filter_map_comm (fun e => e_match_id e =? match_id)
               (fun x : EventRow * TeamRow * option PlayerRow =>
                  fst (fst x))).
    rewrite <- (map_map fst fst).
    rewrite (sql_left_join_fst _ _ (fun et => player_partner_unique db et Hp)).
    rewrite (sql_join_fst (fun e t => e_team_id e =? t_id t) (teams db)
               (fun e => filter_key_unique t_id (teams db) (e_team_id e) Ht)).
    rewrite filter_filter_and.
    erewrite filter_ext; [reflexivity |].
    intros e. cbv beta. f_equal. unfold has_team.
    clear. induction (teams db) as [| t l IH]; [reflexivity |].
    simpl. rewrite IH, (Z.eqb_sym (e_team_id e) (t_id t)). reflexivity.
  - apply (sorted_by_map
             (fun x : EventRow * TeamRow * option PlayerRow => fst (fst x))
             by_minute_compare).
    + intros x y. reflexivity.
    + unfold match_event_rows.
      apply (sort_by_sorted_by by_minute_compare), OrderCmp_by_minute.
  - unfold list_match_events. apply Forall2_maps.
    intros [[e t] p] Hin. unfold match_event_rows in Hin.
    apply (proj1 (sort_by_In by_minute_leb _ _)), filter_In in Hin.
    destruct Hin as [Hin _].
    apply sql_left_join_In in Hin. destruct Hin as [Het Hpl].
    apply sql_join_In in Het. destruct Het as (He & Hteam & Eon).
    apply Z.eqb_eq in Eon. cbn [fst] in *.
    unfold lists_event.
    cbn [me_minute me_team_id me_team me_player_id me_player me_type
         me_detail].
    repeat (split; [reflexivity |]).
    split; [exists t; auto |].
    destruct p as [b |].
    + destruct Hpl as [Hb Eb]. unfold option_Z_eqb in Eb.
      destruct (e_player_id e) as [c |] eqn:Ec; [| discriminate].
      apply Z.eqb_eq in Eb. subst c. split.
      * intros p' Hp' E'. injection E' as E'.
        rewrite (NoDup_map_eq p_id (players db) b p' Hp Hb Hp' E').
        reflexivity.
      * intros Hno. exfalso. exact (Hno b Hb eq_refl).
    + split; [| reflexivity].
      intros p' Hp' E'. specialize (Hpl p' Hp'). rewrite E' in Hpl.
      unfold option_Z_eqb in Hpl. rewrite Z.eqb_refl in Hpl. discriminate.
Qed.

Lemma match_events_listed_witness :
  exists events,
    Permutation events
      (filter (fun e => (e_match_id e =? 1)
                        && has_team scorers_db (e_team_id e))
              (match_events scorers_db)) /\
    sorted_by event_compare events /\
    Forall2 (lists_event scorers_db) events (list_match_events scorers_db 1).
Proof.
  apply (match_events_listed scorers_db 1).
  - repeat (apply NoDup_cons; [simpl; intuition discriminate |]).
    apply NoDup_nil.
  - repeat (apply NoDup_cons; [simpl; intuition discriminate |]).
    apply NoDup_nil.
Defined.
(** ** The adviser *)

Lemma valid_name_In (db : DB) (team : string) :
  existsb (String.eqb team) (map t_name (md_teams (get_metadata db))) = true
  <-> In team (map t_name (teams db)).
Proof.
  rewrite existsb_eqb_In_string. cbn [get_metadata md_teams].
  split; apply Permutation_in, Permutation_map;
    [| apply Permutation_sym]; apply sort_by_perm.
Qed.

Lemma recommendation_swap (a b : Summary) :
  su_last5 a = ""%string \/ su_last5 b = ""%string ->
  _build_recommendation (Some a) (Some b)
  = _build_recommendation (Some b) (Some a).
Proof.
  intros Hl. unfold _build_recommendation. cbv zeta.
  assert (Hf1 : negb (String.eqb (su_last5 a) "")
                && negb (String.eqb (su_last5 b) "") = false).
  { destruct Hl as [-> | ->]; [reflexivity | apply andb_false_r]. }
  assert (Hf2 : negb (String.eqb (su_last5 b) "")
                && negb (String.eqb (su_last5 a) "") = false).
  { rewrite andb_comm. exact Hf1. }
  rewrite Hf1, Hf2.
  replace (su_pts b * 2 + su_dg b - (su_pts a * 2 + su_dg a))
    with (- (su_pts a * 2 + su_dg a - (su_pts b * 2 + su_dg b))) by lia.
  rewrite Z.abs_opp.
  set (d := su_pts a * 2 + su_dg a - (su_pts b * 2 + su_dg b)).
  set (ca := su_amarillas a + su_rojas a).
  set (cb := su_amarillas b + su_rojas b).
  assert (Ebase :
            (if Z.abs d <? 3 then "Se espera un duelo parejo."%string
             else if 0 <? d
                  then (su_team a ++ " llega mejor posicionado que "
                        ++ su_team b ++ ".")%string
                  else (su_team b ++ " llega mejor posicionado que "
                        ++ su_team a ++ ".")%string)
            = (if Z.abs d <? 3 then "Se espera un duelo parejo."%string
               else if 0 <? - d
                    then (su_team b ++ " llega mejor posicionado que "
                          ++ su_team a ++ ".")%string
                    else (su_team a ++ " llega mejor posicionado que "
                          ++ su_team b ++ ".")%string)).
  { destruct (Z.ltb_spec (Z.abs d) 3) as [| Habs]; [reflexivity |].
    destruct (Z.ltb_spec 0 d), (Z.ltb_spec 0 (- d)); try reflexivity; lia. }
  assert (Ehint :
            (if cb <? ca
             then (" " ++ su_team a ++ " debe cuidar la disciplina.")%string
             else if ca <? cb
                  then (" " ++ su_team b
                        ++ " debe cuidar la disciplina.")%string
                  else ""%string)
            = (if ca <? cb
               then (" " ++ su_team b ++ " debe cuidar la disciplina.")%string
               else if cb <? ca
                    then (" " ++ su_team a
                          ++ " debe cuidar la disciplina.")%string
                    else ""%string)).
  { destruct (Z.ltb_spec cb ca), (Z.ltb_spec ca cb); try reflexivity; lia. }
  rewrite Ebase, Ehint. reflexivity.
Qed.

(** X23.  [consultor_advice] raises [ValueError] exactly when one of the
    two names is not the name of a team of the store; the season and the
    stage are not checked.  Otherwise its recommendation is built from the
    two summaries.  A team has a summary exactly when the table of the
    season and the stage has a row with its name, and without one of the
    summaries the recommendation is the no-data sentence.  When one of the
    two teams has no form string, the recommendation does not depend on
    the order of the teams. *)
Theorem advice_of_consultor (db : DB) (utcnow : string)
  (team_a team_b : string) (season : Z) (stage : string) :
  let names := map t_name (teams db) in
  let rows := tb_rows (compute_table db utcnow season stage) in
  let summary_a := summary_for_team db utcnow season stage team_a in
  let summary_b := summary_for_team db utcnow season stage team_b in
  (In team_a names /\ In team_b names ->
   consultor_advice db utcnow team_a team_b season stage
   = Ok (mkAdvice season stage summary_a summary_b
                  (_build_recommendation summary_a summary_b))) /\
  (~ (In team_a names /\ In team_b names) ->
   consultor_advice db utcnow team_a team_b season stage
   = Err (ValueError "Equipo no válido")) /\
  (summary_a = None <-> forall r, In r rows -> tr_team r <> team_a) /\
  (summary_a = None \/ summary_b = None ->
   _build_recommendation summary_a summary_b = NO_DATA) /\
  (forall a b, su_last5 a = ""%string \/ su_last5 b = ""%string ->
               _build_recommendation (Some a) (Some b)
               = _build_recommendation (Some b) (Some a)).
Proof.
  intros names rows summary_a summary_b.
  assert (Hrun : consultor_advice db utcnow team_a team_b season stage
                 = if negb (existsb (String.eqb team_a)
                              (map t_name (md_teams (get_metadata db))))
                      || negb (existsb (String.eqb team_b)
                                 (map t_name (md_teams (get_metadata db))))
                   then Err (ValueError "Equipo no válido")
                   else Ok (mkAdvice season stage summary_a summary_b
                              (_build_recommendation summary_a summary_b)))
    by reflexivity.
  rewrite Hrun.
  pose proof (valid_name_In db team_a) as Va.
  pose proof (valid_name_In db team_b) as Vb.
  fold names in Va, Vb.
  split; [| split; [| split; [| split]]].
  - intros [Ha Hb]. rewrite (proj2 Va Ha), (proj2 Vb Hb). reflexivity.
  - intros Hno.
    destruct (existsb (String.eqb team_a)
                (map t_name (md_teams (get_metadata db)))) eqn:Ea;
      [| reflexivity].
    destruct (existsb (String.eqb team_b)
                (map t_name (md_teams (get_metadata db)))) eqn:Eb;
      [| reflexivity].
    exfalso. apply Hno. split; [apply Va | apply Vb]; reflexivity.
  - unfold summary_a, summary_for_team. cbv zeta. fold rows.
    destruct (find (fun r => String.eqb (tr_team r) team_a) rows)
      as [row |] eqn:Ef.
    + split; [discriminate |]. intros Hno. exfalso.
      apply find_some in Ef. destruct Ef as [Hin E].
      apply String.eqb_eq in E. exact (Hno row Hin E).
    + split; [| reflexivity]. intros _ r Hr E.
      pose proof (find_none _ _ Ef r Hr) as Hn. cbv beta in Hn.
      rewrite E, String.eqb_refl in Hn. discriminate.
  - intros [-> | ->]; [reflexivity |].
    destruct summary_a; reflexivity.
  - exact recommendation_swap.
Qed.
(** ** Seeding: the score of a match and its goal events *)

Lemma next_id_gt (ids : list Z) (x : Z) : In x ids -> x < next_id ids.
Proof.
  unfold next_id. induction ids as [| y ids IH]; intros Hx; [contradiction |].
  cbn [fold_right]. destruct Hx as [-> | Hx]; [lia |].
  specialize (IH Hx). lia.
Qed.

Lemma goal_tuples_app (l1 l2 : list EventTuple) (match_id team_id : Z) :
  goal_tuples (l1 ++ l2) match_id team_id
  = goal_tuples l1 match_id team_id + goal_tuples l2 match_id team_id.
Proof. unfold goal_tuples. rewrite count_app. lia. Qed.

Lemma goal_tuples_other_match (l : list EventTuple) (id match_id team_id : Z) :
  Forall (fun e => ev_match e = id) l -> id <> match_id ->
  goal_tuples l match_id team_id = 0.
Proof.
  intros Hl Hne. unfold goal_tuples.
  rewrite (proj2 (count_zero_iff _ l)); [reflexivity |].
  intros e He. unfold is_goal_tuple.
  rewrite (proj1 (Forall_forall _ _) Hl e He).
  rewrite (proj2 (Z.eqb_neq _ _) Hne). reflexivity.
Qed.

Lemma goal_tuples_other_team (l : list EventTuple) (t match_id team_id : Z) :
  Forall (fun e => ev_team e = t) l -> t <> team_id ->
  goal_tuples l match_id team_id = 0.
Proof.
  intros Hl Hne. unfold goal_tuples.
  rewrite (proj2 (count_zero_iff _ l)); [reflexivity |].
  intros e He. unfold is_goal_tuple.
  rewrite (proj1 (Forall_forall _ _) Hl e He).
  rewrite (proj2 (Z.eqb_neq _ _) Hne), andb_false_r. reflexivity.
Qed.

Lemma goal_tuples_side (l : list EventTuple) (match_id team_id : Z) :
  Forall (fun e => ev_match e = match_id) l ->
  Forall (fun e => ev_team e = team_id) l ->
  goal_tuples l match_id team_id = events_of "goal" l.
Proof.
  intros Hm Ht. unfold goal_tuples, events_of. f_equal.
  unfold count. f_equal. apply filter_ext_in. intros e He.
  unfold is_goal_tuple.
  rewrite (proj1 (Forall_forall _ _) Hm e He),
    (proj1 (Forall_forall _ _) Ht e He), !Z.eqb_refl.
  reflexivity.
Qed.

Lemma goal_tuples_absent (l : list EventTuple) (ids : list Z)
  (match_id team_id : Z) :
  Forall (fun e => In (ev_match e) ids) l -> ~ In match_id ids ->
  goal_tuples l match_id team_id = 0.
Proof.
  intros Hl Hno. unfold goal_tuples.
  rewrite (proj2 (count_zero_iff _ l)); [reflexivity |].
  intros e He. unfold is_goal_tuple.
  destruct (Z.eqb_spec (ev_match e) match_id) as [E | _]; [| reflexivity].
  exfalso. apply Hno. rewrite <- E.
  exact (proj1 (Forall_forall _ _) Hl e He).
Qed.

Section SideGoals.
Context {R : Type} `{RandomSource R}.
Hypothesis Hlaws : RandomSourceLaws R.
Variable sample : list Z -> Z -> R -> list Z * R.

(** The second half of [_simulate_match] returns. *)
Lemma match_sides_total (rng : R) (match_id : Z) (match_info : Fixture)
  (home_xg away_xg : float) (player_map : list (Z * list Z)) :
  exists out,
    match_sides sample rng match_id match_info home_xg away_xg player_map
    = Ok out.
Proof.
  unfold match_sides. rewrite foldM_cons.
  destruct (simulate_side_returns Hlaws sample match_id player_map [] [] rng
              (fx_home match_info) (fx_home_goals match_info) home_xg)
    as (evs_h & rows_h & rng1 & E1 & _).
  rewrite E1. cbn [bind app]. rewrite foldM_cons.
  destruct (simulate_side_returns Hlaws sample match_id player_map
              evs_h rows_h rng1
              (fx_away match_info) (fx_away_goals match_info) away_xg)
    as (evs_a & rows_a & rng2 & E2 & _).
  rewrite E2. cbn [bind foldM]. eauto.
Qed.

Hypothesis Hsample : SampleLaws sample.

(** The goal events of the two sides of a match. *)
Lemma match_sides_goals (rng : R) (match_id : Z) (match_info : Fixture)
  (home_xg away_xg : float) (player_map : list (Z * list Z))
  (events : list EventTuple) (rows : list PlayerStatRow) (rng' : R) :
  match_sides sample rng match_id match_info home_xg away_xg player_map
  = Ok (events, rows, rng') ->
  Forall (fun e => ev_match e = match_id) events /\
  (fx_home match_info <> fx_away match_info ->
   goal_tuples events match_id (fx_home match_info)
   = expected_goals player_map (fx_home match_info)
                    (fx_home_goals match_info) /\
   goal_tuples events match_id (fx_away match_info)
   = expected_goals player_map (fx_away match_info)
                    (fx_away_goals match_info)).
Proof.
  unfold match_sides. rewrite foldM_cons.
  destruct (simulate_side_returns Hlaws sample match_id player_map [] [] rng
              (fx_home match_info) (fx_home_goals match_info) home_xg)
    as (evs_h & rows_h & rng1 & E1 & Th & _ & Mh & Gh & _).
  rewrite E1. cbn [bind app]. rewrite foldM_cons.
  destruct (simulate_side_returns Hlaws sample match_id player_map
              evs_h rows_h rng1
              (fx_away match_info) (fx_away_goals match_info) away_xg)
    as (evs_a & rows_a & rng2 & E2 & Ta & _ & Ma & Ga & _).
  rewrite E2. cbn [bind foldM]. intros E. injection E as <- _ _.
  split; [apply Forall_app; split; assumption |].
  intros Hne.
  destruct (_lineup_for_team sample (fx_home match_info) player_map rng)
    as [[lh bh] r1] eqn:L1.
  destruct (_lineup_for_team sample (fx_away match_info) player_map rng1)
    as [[la ba] r2] eqn:L2.
  destruct (lineup_for_team_size sample Hsample _ _ _ _ _ _ L1)
    as (_ & Eh & _).
  destruct (lineup_for_team_size sample Hsample _ _ _ _ _ _ L2)
    as (_ & Ea & _).
  rewrite !goal_tuples_app. unfold expected_goals. split.
  - rewrite (goal_tuples_side evs_h _ _ Mh Th),
      (goal_tuples_other_team evs_a _ _ _ Ta (not_eq_sym Hne)),
      (Gh lh bh r1 eq_refl), Eh.
    lia.
  - rewrite (goal_tuples_other_team evs_h _ _ _ Th Hne),
      (goal_tuples_side evs_a _ _ Ma Ta), (Ga la ba r2 eq_refl), Ea.
    lia.
Qed.
End SideGoals.

Lemma insert_events_fold (events : list EventTuple) : forall db db',
  foldM (fun db row => insert_event row db) db events = Ok db' ->
  exists rows,
    match_events db' = match_events db ++ rows /\
    matches db' = matches db /\
    Forall2 (fun t r => e_match_id r = ev_match t /\
                        e_team_id r = ev_team t /\ e_type r = ev_type t)
            events rows.
Proof.
  induction events as [| t rest IH]; intros db db' E.
  - simpl in E. injection E as <-. exists []. rewrite app_nil_r.
    repeat split. constructor.
  - rewrite foldM_cons in E. bind_inv E.
    destruct (IH _ _ E) as (rows & Ee & Em & Hrows).
    destruct t as [[[[[match_id minute] team_id] player_id] type] detail].
    unfold insert_event in E0. destruct (_ && _); [| discriminate].
    injection E0 as <-. cbn [match_events matches set_match_events] in *.
    eexists (_ :: rows). rewrite Ee, <- app_assoc. cbn [app].
    split; [reflexivity |]. split; [exact Em |].
    constructor; [| exact Hrows]. repeat split.
Qed.

Lemma goal_rows_tuples (events : list EventTuple) (rows : list EventRow)
  (match_id team_id : Z) :
  Forall2 (fun t r => e_match_id r = ev_match t /\
                      e_team_id r = ev_team t /\ e_type r = ev_type t)
          events rows ->
  count (is_goal_of match_id team_id) rows
  = count (is_goal_tuple match_id team_id) events.
Proof.
  induction 1 as [| t r events rows (E1 & E2 & E3) _ IH]; [reflexivity |].
  rewrite !count_cons, IH. unfold is_goal_of, is_goal_tuple.
  rewrite E1, E2, E3. reflexivity.
Qed.

Lemma played_frame (X : list MatchRow * list EventRow) :
  pending_frame (fun db => (matches db, match_events db))
                (fun c => (matches (pending c), match_events (pending c)) = X).
Proof. intros c db Hc E. simpl. congruence. Qed.

Lemma played_insert_players (X : list MatchRow * list EventRow)
  (teams_in : list TeamRow) (roster : list (string * RosterTeam)) :
  tx_keeps (fun c => (matches (pending c), match_events (pending c)) = X)
           (_insert_players teams_in roster).
Proof.
  unfold _insert_players. apply keeps_bind.
  - apply keeps_foldM. intros pm [team_name team_data].
    unfold insert_team_players.
    destruct (known_team_id _ team_name) as [team_id |];
      [| apply keeps_ret].
    apply keeps_bind; [apply keeps_lift | intros rows].
    apply keeps_bind.
    + eapply keeps_executemany; [apply played_frame |].
      intros row db db' E. apply insert_player_frame in E.
      destruct E as (p & -> & _). reflexivity.
    + intros _. apply keeps_bind; [apply keeps_fetchall | intros ids].
      apply keeps_ret.
  - intros pm. apply keeps_bind; [| intros _; apply keeps_ret].
    intros c Hc. exact Hc.
Qed.

Lemma played_persist_player_stats (X : list MatchRow * list EventRow)
  (stats : list PlayerStatRow) :
  tx_keeps (fun c => (matches (pending c), match_events (pending c)) = X)
           (_persist_player_stats stats).
Proof.
  unfold _persist_player_stats. apply keeps_bind.
  - eapply keeps_executemany; [apply played_frame |].
    intros row db db' E. apply insert_player_stat_frame in E.
    destruct E as (rows & ->). reflexivity.
  - intros _ c Hc. exact Hc.
Qed.

Section SeedGoals.
Context {R : Type} `{RandomSource R}.
Variable isoformat : PyDate -> string.
Variable helpers : Helpers.
Variable sample : list Z -> Z -> R -> list Z * R.
Variable simulate_sides :
  R -> Z -> Fixture -> float -> float -> list (Z * list Z) ->
  list EventTuple * list PlayerStatRow * R.
Hypothesis Hlaws : RandomSourceLaws R.
Hypothesis Hsample : SampleLaws sample.
Hypothesis Hsides :
  forall rng match_id match_info home_xg away_xg player_map,
    match_sides sample rng match_id match_info home_xg away_xg player_map
    = Ok (simulate_sides rng match_id match_info home_xg away_xg player_map).

(** What [_simulate_match] leaves when it returns. *)
Lemma simulate_match_inv rng season stage_code match_info player_map
  team_list c c' match_id events stats rng' :
  _simulate_match isoformat simulate_sides rng season stage_code match_info
                  player_map team_list c
  = (c', Ok (match_id, events, stats, rng')) ->
  exists row rng0 hx ax,
    pending c' = set_matches (pending c) (matches (pending c) ++ [row]) /\
    m_id row = match_id /\
    match_id = next_id (map m_id (matches (pending c))) /\
    m_season_year row = season /\
    m_home_team_id row = fx_home match_info /\
    m_away_team_id row = fx_away match_info /\
    m_home_goals row = fx_home_goals match_info /\
    m_away_goals row = fx_away_goals match_info /\
    simulate_sides rng0 match_id match_info hx ax player_map
    = (events, stats, rng').
Proof.
  unfold _simulate_match.
  destruct (_attendance_for_team (fx_home match_info)) as [min_att max_att].
  intros E. apply tx_bind_Ok_inv in E.
  destruct E as (c1 & [attendance rng1] & E1 & E).
  apply tx_lift_Ok_inv in E1. destruct E1 as [-> _].
  destruct (uniform float_zero float_1_5 rng1) as [u1 rng2].
  destruct (uniform float_zero float_1_4 rng2) as [u2 rng3].
  apply tx_bind_Ok_inv in E. destruct E as (c2 & [referee rng4] & E2 & E).
  apply tx_lift_Ok_inv in E2. destruct E2 as [-> _].
  apply tx_bind_Ok_inv in E. destruct E as (c3 & id & E3 & E).
  match type of E with
  | context [simulate_sides ?r ?i ?f ?hx ?ax ?pm] =>
      destruct (simulate_sides r i f hx ax pm) as [[ev st] rng5] eqn:Es
  end.
  unfold tx_ret in E. injection E as <- <- <- <- <-.
  apply execute_Ok_inv in E3. destruct E3 as (db & Ei & ->).
  unfold insert_match in Ei. destruct (_ && _); [| discriminate].
  injection Ei as <- <-.
  cbn [m_season_year m_stage_code m_round m_date m_time m_home_team_id
       m_away_team_id m_home_goals m_away_goals m_home_xg m_away_xg
       m_attendance m_venue m_referee] in *.
  eexists _, _, _, _. split; [reflexivity |].
  cbn [m_id m_season_year m_home_team_id m_away_team_id m_home_goals
       m_away_goals].
  repeat (split; [reflexivity |]). exact Es.
Qed.

Lemma seed_match_goals season player_map team_list stage_code old acc
  match_info c c' acc' :
  seed_match isoformat simulate_sides season player_map team_list stage_code
             acc match_info c = (c', Ok acc') ->
  sim_inv season player_map old (pending c) (snd (fst (fst acc))) ->
  sim_inv season player_map old (pending c') (snd (fst (fst acc'))) /\
  match_events (pending c') = match_events (pending c).
Proof.
  destruct acc as [[[all_matches events_rows] stats_rows] rng].
  unfold seed_match. intros E Hinv. apply tx_bind_Ok_inv in E.
  destruct E as (c1 & [[[match_id evs] match_stats] rng'] & E1 & E).
  unfold tx_ret in E. injection E as <- <-. cbn [fst snd] in *.
  destruct (simulate_match_inv _ _ _ _ _ _ _ _ _ _ _ _ E1)
    as (row & rng0 & hx & ax & Ep & Eid & Enext & Es & Eh & Ea & Ehg & Eag
        & Esides).
  pose proof (Hsides rng0 match_id match_info hx ax player_map) as Hm.
  rewrite Esides in Hm.
  destruct (match_sides_goals Hlaws sample Hsample _ _ _ _ _ _ _ _ _ Hm)
    as [Hall Hgoals].
  destruct Hinv as (new & Em & Hnew & Hev).
  assert (Hlt : forall m, In m (old ++ new) -> m_id m < match_id).
  { intros m Hin. rewrite Enext, Em. apply next_id_gt, in_map. exact Hin. }
  split; [| rewrite Ep; reflexivity].
  exists (new ++ [row]). split; [| split].
  - rewrite Ep. cbn [matches set_matches]. rewrite Em, app_assoc.
    reflexivity.
  - apply Forall_app. split.
    + apply Forall_forall. intros m Hin.
      destruct (proj1 (Forall_forall _ _) Hnew m Hin) as (S1 & S2 & S3).
      split; [exact S1 |]. split; [exact S2 |].
      intros Hne. destruct (S3 Hne) as [G1 G2].
      assert (Hid : match_id <> m_id m).
      { pose proof (Hlt m ltac:(apply in_app_iff; right; exact Hin)). lia. }
      rewrite !goal_tuples_app,
        !(goal_tuples_other_match evs match_id _ _ Hall Hid), G1, G2.
      split; lia.
    + constructor; [| constructor].
      split; [exact Es |]. split.
      * intros m0 Hm0. rewrite Eid. apply Hlt, in_app_iff. left. exact Hm0.
      * intros Hne. rewrite Eh, Ea in Hne. destruct (Hgoals Hne) as [G1 G2].
        assert (Hno : ~ In match_id (map m_id new)).
        { intros Hin. apply in_map_iff in Hin.
          destruct Hin as (m & Em' & Hin).
          pose proof (Hlt m ltac:(apply in_app_iff; right; exact Hin)). lia. }
        rewrite Eid, Eh, Ea, Ehg, Eag, !goal_tuples_app,
          !(goal_tuples_absent events_rows _ _ _ Hev Hno), G1, G2.
        split; reflexivity.
  - apply Forall_app. split.
    + revert Hev. apply Forall_impl. intros e He.
      rewrite map_app. apply in_app_iff. left. exact He.
    + revert Hall. apply Forall_impl. intros e He.
      rewrite map_app. apply in_app_iff. right. left.
      rewrite Eid. symmetry. exact He.
Qed.

Lemma seed_schedule_goals season player_map team_list stage_code old
  schedule :
  forall acc c c' acc',
  tx_foldM (seed_match isoformat simulate_sides season player_map team_list
                       stage_code) acc schedule c = (c', Ok acc') ->
  sim_inv season player_map old (pending c) (snd (fst (fst acc))) ->
  sim_inv season player_map old (pending c') (snd (fst (fst acc'))) /\
  match_events (pending c') = match_events (pending c).
Proof.
  induction schedule as [| match_info rest IH]; intros acc c c' acc' E Hinv.
  - simpl in E. unfold tx_ret in E. injection E as <- <-. auto.
  - simpl in E. apply tx_bind_Ok_inv in E. destruct E as (c1 & acc1 & E1 & E).
    destruct (seed_match_goals _ _ _ _ _ _ _ _ _ _ E1 Hinv) as [H1 M1].
    destruct (IH _ _ _ _ E H1) as [H2 M2].
    split; [exact H2 | congruence].
Qed.

Lemma seed_stages_goals season player_map team_list old fixtures :
  forall acc c c' acc',
  tx_foldM (seed_stage isoformat simulate_sides season player_map team_list)
           acc fixtures c = (c', Ok acc') ->
  sim_inv season player_map old (pending c) (snd (fst (fst acc))) ->
  sim_inv season player_map old (pending c') (snd (fst (fst acc'))) /\
  match_events (pending c') = match_events (pending c).
Proof.
  induction fixtures as [| item rest IH]; intros acc c c' acc' E Hinv.
  - simpl in E. unfold tx_ret in E. injection E as <- <-. auto.
  - simpl in E. apply tx_bind_Ok_inv in E. destruct E as (c1 & acc1 & E1 & E).
    unfold seed_stage in E1.
    destruct (seed_schedule_goals _ _ _ _ _ _ _ _ _ _ E1 Hinv) as [H1 M1].
    destruct (IH _ _ _ _ E H1) as [H2 M2].
    split; [exact H2 | congruence].
Qed.

Lemma seed_season_goals files team_list season c c' :
  Forall (fun e => In (e_match_id e) (map m_id (matches (pending c))))
         (match_events (pending c)) ->
  seed_season isoformat helpers simulate_sides files team_list tt season c
  = (c', Ok tt) ->
  exists roster c1 player_map,
    _load_rosters_for_season files season = Ok roster /\
    _insert_players team_list roster c = (c1, Ok player_map) /\
    forall m, In m (matches (committed c')) ->
              ~ In (m_id m) (map m_id (matches (pending c))) ->
              m_season_year m = season /\
              scored_as_drawn (goal_events (committed c')) player_map m.
Proof.
  intros Hfk. unfold seed_season. intros E.
  apply tx_bind_Ok_inv in E. destruct E as (c1 & roster & E1 & E).
  apply tx_lift_Ok_inv in E1. destruct E1 as [-> Eroster].
  apply tx_bind_Ok_inv in E. destruct E as (c2 & player_map & E2 & E).
  apply tx_bind_Ok_inv in E. destruct E as (c3 & [fixtures rng] & E3 & E).
  apply tx_lift_Ok_inv in E3. destruct E3 as [-> _].
  apply tx_bind_Ok_inv in E.
  destruct E as (c4 & [[[all_matches events_rows] stats_rows] rng'] & E4 & E).
  exists roster, c2, player_map. split; [exact Eroster |].
  split; [exact E2 |].
  pose proof (played_insert_players _ team_list roster c eq_refl) as H2.
  rewrite E2 in H2. cbn [fst] in H2. injection H2 as Hm2 He2.
  destruct (seed_stages_goals season player_map team_list
              (matches (pending c2)) fixtures _ _ _ _ E4) as [Hinv He4].
  { exists []. rewrite app_nil_r. repeat split; constructor. }
  cbn [fst snd] in Hinv.
  apply tx_bind_Ok_inv in E. destruct E as (c5 & [] & E5 & E).
  apply tx_bind_Ok_inv in E. destruct E as (c6 & [] & E6 & E).
  apply tx_bind_Ok_inv in E. destruct E as (c7 & [] & E7 & E).
  unfold _persist_events in E5. apply tx_bind_Ok_inv in E5.
  destruct E5 as (c4' & [] & E5 & E5').
  apply executemany_Ok_inv in E5. destruct E5 as [_ E5].
  destruct (insert_events_fold _ _ _ E5) as (rows & Erows & Emat & Hrows).
  unfold commit in E5'. injection E5' as <-.
  pose proof (played_persist_player_stats _ stats_rows
                (mkConn (pending c4') (pending c4')) eq_refl) as H6.
  rewrite E6 in H6. cbn [fst pending] in H6. injection H6 as Hm6 He6.
  apply execute_Ok_inv in E7. destruct E7 as (db7 & E7 & ->).
  destruct (_build_and_store_standings helpers (pending c6) season
              all_matches) as [db' |] eqn:Eb; [| discriminate].
  cbn [bind] in E7. injection E7 as <-.
  apply build_frame in Eb. destruct Eb as (srows & ->).
  unfold commit in E. injection E as <-.
  cbn [committed pending matches match_events set_standings].
  destruct Hinv as (new & Em & Hnew & Hev).
  intros m Hin Hfresh.
  rewrite Hm6, Emat, Em, Hm2 in Hin. apply in_app_iff in Hin.
  destruct Hin as [Hin | Hin];
    [exfalso; apply Hfresh; apply in_map; exact Hin |].
  destruct (proj1 (Forall_forall _ _) Hnew m Hin) as (S1 & _ & S3).
  split; [exact S1 |].
  assert (Hcount : forall t,
             goal_events
               (set_standings (pending c6) srows) (m_id m) t
             = goal_tuples events_rows (m_id m) t).
  { intros t. unfold goal_events, goal_tuples.
    cbn [match_events set_standings].
    rewrite He6, Erows, He4, He2, count_app,
      (goal_rows_tuples events_rows rows _ _ Hrows).
    rewrite (proj2 (count_zero_iff _ (match_events (pending c))));
      [reflexivity |].
    intros e He. unfold is_goal_of.
    destruct (Z.eqb_spec (e_match_id e) (m_id m)) as [Eid | _];
      [| reflexivity].
    exfalso. apply Hfresh. rewrite <- Eid.
    exact (proj1 (Forall_forall _ _) Hfk e He). }
  intros Hne. rewrite !Hcount. exact (S3 Hne).
Qed.
End SeedGoals.

Lemma sides_of_agrees (R : Type) `{RandomSource R}
  (sample : list Z -> Z -> R -> list Z * R) :
  RandomSourceLaws R ->
  forall rng match_id match_info home_xg away_xg player_map,
    match_sides sample rng match_id match_info home_xg away_xg player_map
    = Ok (sides_of sample rng match_id match_info home_xg away_xg
                   player_map).
Proof.
  intros Hlaws rng match_id match_info home_xg away_xg player_map.
  destruct (match_sides_total Hlaws sample rng match_id match_info home_xg
              away_xg player_map) as [out E].
  unfold sides_of. rewrite E. reflexivity.
Qed.

(** X24.  When the seeding of a season returns, on a store whose events
    are all of stored matches, with a random source and a sample that keep
    the promises of the library, every match it has inserted is of that
    season, and for a match between two different teams the goal events
    stored for each side are as many as the goals of that side in the
    match row, or none when [_insert_players] gave the team no players. *)
Theorem seeded_goals_match_scores (R : Type) `{RandomSource R}
  (isoformat : PyDate -> string) (helpers : Helpers)
  (sample : list Z -> Z -> R -> list Z * R)
  (simulate_sides :
     R -> Z -> Fixture -> float -> float -> list (Z * list Z) ->
     list EventTuple * list PlayerStatRow * R)
  (files : SeedFiles) (team_list : list TeamRow) (season : Z)
  (c c' : Conn) :
  RandomSourceLaws R -> SampleLaws sample ->
  (forall rng match_id match_info home_xg away_xg player_map,
     match_sides sample rng match_id match_info home_xg away_xg player_map
     = Ok (simulate_sides rng match_id match_info home_xg away_xg
                          player_map)) ->
  Forall (fun e => In (e_match_id e) (map m_id (matches (pending c))))
         (match_events (pending c)) ->
  seed_season isoformat helpers simulate_sides files team_list tt season c
  = (c', Ok tt) ->
  exists roster c1 player_map,
    _load_rosters_for_season files season = Ok roster /\
    _insert_players team_list roster c = (c1, Ok player_map) /\
    forall m, In m (matches (committed c')) ->
              ~ In (m_id m) (map m_id (matches (pending c))) ->
              m_season_year m = season /\
              scored_as_drawn (goal_events (committed c')) player_map m.
Proof.
  intros Hlaws Hsample Hsides Hfk E.
  exact (seed_season_goals isoformat helpers sample simulate_sides Hlaws
           Hsample Hsides files team_list season c c' Hfk E).
Qed.

Lemma CounterSource_laws : RandomSourceLaws Z.
Proof.
  intros n r Hn. cbn [rng_randbelow CounterSource fst].
  apply Z.mod_pos_bound. exact Hn.
Qed.

Lemma seeded_goals_match_scores_witness :
  exists roster c1 player_map,
    _load_rosters_for_season squad_files 2024 = Ok roster /\
    _insert_players nine_clubs roster
                    (fst (_insert_base_rows nine_clubs [2024] fresh_conn))
    = (c1, Ok player_map) /\
    forall m,
      In m (matches
              (committed
                 (fst (seed_season no_calendar no_helpers
                         (sides_of (@first_sample Z)) squad_files
                         nine_clubs tt 2024
                         (fst (_insert_base_rows nine_clubs [2024]
                                                 fresh_conn)))))) ->
      ~ In (m_id m)
           (map m_id
              (matches
                 (pending
                    (fst (_insert_base_rows nine_clubs [2024]
                                            fresh_conn))))) ->
      m_season_year m = 2024 /\
      scored_as_drawn
        (goal_events
           (committed
              (fst (seed_season no_calendar no_helpers
                      (sides_of (@first_sample Z)) squad_files
                      nine_clubs tt 2024
                      (fst (_insert_base_rows nine_clubs [2024]
                                              fresh_conn))))))
        player_map m.
Proof.
  apply (seeded_goals_match_scores Z no_calendar no_helpers
           (@first_sample Z) (sides_of (@first_sample Z))
           squad_files nine_clubs 2024
           (fst (_insert_base_rows nine_clubs [2024] fresh_conn))
           _ CounterSource_laws (first_sample_laws Z)
           (sides_of_agrees Z (@first_sample Z) CounterSource_laws)).
  - vm_compute. constructor.
  - vm_compute. reflexivity.
Defined.
(** ** Seeding: the row of a simulated match *)

Lemma attendance_band (team_id : Z) :
  fst (_attendance_for_team team_id) <= snd (_attendance_for_team team_id).
Proof.
  unfold _attendance_for_team.
  destruct (existsb (Z.eqb team_id) [1; 2]); [simpl; lia |].
  destruct (existsb (Z.eqb team_id) [3; 4; 5; 6; 10]); simpl; lia.
Qed.

Lemma tx_bind_lift_Ok {A B : Type} (a : A) (k : A -> tx B) (c : Conn) :
  tx_bind (tx_lift (Ok a)) k c = k a c.
Proof. reflexivity. Qed.

Section MatchRow.
Context {R : Type} `{RandomSource R}.
Variable isoformat : PyDate -> string.
Variable simulate_sides :
  R -> Z -> Fixture -> float -> float -> list (Z * list Z) ->
  list EventTuple * list PlayerStatRow * R.
Hypothesis Hlaws : RandomSourceLaws R.

Lemma simulate_match_outcome rng season stage_code match_info player_map
  team_list c :
  if match_insertable (pending c) season stage_code match_info
  then exists row events stats rng',
      _simulate_match isoformat simulate_sides rng season stage_code
                      match_info player_map team_list c
      = (mkConn (committed c)
                (set_matches (pending c) (matches (pending c) ++ [row])),
         Ok (m_id row, events, stats, rng')) /\
      match_row_of isoformat team_list season stage_code match_info row /\
      m_id row = next_id (map m_id (matches (pending c)))
  else _simulate_match isoformat simulate_sides rng season stage_code
                       match_info player_map team_list c
       = (c, Err IntegrityError).
Proof.
  unfold _simulate_match.
  pose proof (attendance_band (fx_home match_info)) as Hband.
  destruct (_attendance_for_team (fx_home match_info)) as [min_att max_att]
    eqn:Eband.
  cbn [fst snd] in Hband.
  destruct (randint_total min_att max_att rng Hband)
    as (attendance & rng1 & E1).
  pose proof (randint_range _ _ _ _ _ Hlaws E1) as Hatt.
  rewrite E1, tx_bind_lift_Ok. cbv beta iota.
  destruct (uniform float_zero float_1_5 rng1) as [u1 rng2].
  destruct (uniform float_zero float_1_4 rng2) as [u2 rng3].
  destruct (choice_total REFEREES rng3 ltac:(discriminate))
    as (referee & rng4 & E2).
  pose proof (choice_In Hlaws _ _ _ _ E2) as Href.
  rewrite E2, tx_bind_lift_Ok. cbv beta iota.
  unfold tx_bind, execute, insert_match.
  cbn [m_season_year m_stage_code m_round m_date m_time m_home_team_id
       m_away_team_id m_home_goals m_away_goals m_home_xg m_away_xg
       m_attendance m_venue m_referee].
  unfold match_insertable.
  destruct (has_team (pending c) (fx_home match_info)
            && has_team (pending c) (fx_away match_info)
            && existsb (Z.eqb season) (seasons (pending c))
            && existsb (fun r => String.eqb (fst r) stage_code)
                       (stages (pending c))); [| reflexivity].
  match goal with
  | |- context [simulate_sides ?r ?i ?f ?hx ?ax ?pm] =>
      destruct (simulate_sides r i f hx ax pm) as [[ev st] rng5]
  end.
  match goal with
  | |- context [matches (pending c) ++ [?row]] => exists row, ev, st, rng5
  end.
  split; [reflexivity |]. split; [| reflexivity].
  unfold match_row_of.
  cbn [m_season_year m_stage_code m_round m_date m_time m_home_team_id
       m_away_team_id m_home_goals m_away_goals m_attendance m_venue
       m_referee].
  rewrite Eband. cbn [fst snd].
  repeat (split; [reflexivity |]).
  split; [exact Hatt |]. split; [exact Href | reflexivity].
Qed.
End MatchRow.

(** X25.  With a random source that keeps the promise of [_randbelow],
    [_simulate_match] on a store that has both teams, the season and the
    stage appends one match row, with an id greater than every id of the
    table, the season, the stage and the fixture as given, an attendance
    within the band of the home team (18000..35000 for teams 1 and 2,
    8000..18000 for teams 3, 4, 5, 6 and 10, 500..12000 otherwise), one of
    the six referees and the stadium of the home team; it commits nothing.
    On a store that lacks one of them it raises [IntegrityError] and
    leaves the connection as it was. *)
Theorem simulate_match_row (R : Type) `{RandomSource R}
  (isoformat : PyDate -> string)
  (simulate_sides :
     R -> Z -> Fixture -> float -> float -> list (Z * list Z) ->
     list EventTuple * list PlayerStatRow * R)
  (rng : R) (season : Z) (stage_code : string) (match_info : Fixture)
  (player_map : list (Z * list Z)) (team_list : list TeamRow) (c : Conn) :
  RandomSourceLaws R ->
  (match_insertable (pending c) season stage_code match_info = true ->
   exists row events stats rng',
     _simulate_match isoformat simulate_sides rng season stage_code
                     match_info player_map team_list c
     = (mkConn (committed c)
               (set_matches (pending c) (matches (pending c) ++ [row])),
        Ok (m_id row, events, stats, rng')) /\
     match_row_of isoformat team_list season stage_code match_info row /\
     (forall m, In m (matches (pending c)) -> m_id m < m_id row)) /\
  (match_insertable (pending c) season stage_code match_info = false ->
   _simulate_match isoformat simulate_sides rng season stage_code
                   match_info player_map team_list c
   = (c, Err IntegrityError)).
Proof.
  intros Hlaws.
  pose proof (simulate_match_outcome isoformat simulate_sides Hlaws rng
                season stage_code match_info player_map team_list c) as Hout.
  destruct (match_insertable (pending c) season stage_code match_info).
  - split; [| discriminate]. intros _.
    destruct Hout as (row & events & stats & rng' & E & Hrow & Hid).
    exists row, events, stats, rng'. split; [exact E |].
    split; [exact Hrow |].
    intros m Hm. rewrite Hid. apply next_id_gt, in_map. exact Hm.
  - split; [discriminate | intros _; exact Hout].
Qed.

Lemma simulate_match_row_witness :
  RandomSourceLaws (list Z) /\
  match_insertable example_db 2024 "apertura" example_fixture = true /\
  exists row events stats rng',
    _simulate_match no_calendar (@no_sides (list Z)) (mixed_tape 4) 2024
                    "apertura" example_fixture example_player_map
                    example_teams (mkConn example_db example_db)
    = (mkConn example_db
              (set_matches example_db (matches example_db ++ [row])),
       Ok (m_id row, events, stats, rng')) /\
    match_row_of no_calendar example_teams 2024 "apertura" example_fixture
                 row /\
    (forall m, In m (matches example_db) -> m_id m < m_id row).
Proof.
  split; [exact TapeSource_laws |]. split; [vm_compute; reflexivity |].
  exact (proj1 (simulate_match_row (list Z) no_calendar (@no_sides (list Z))
                  (mixed_tape 4) 2024 "apertura" example_fixture
                  example_player_map example_teams
                  (mkConn example_db example_db) TapeSource_laws)
               eq_refl).
Defined.

(** ** Seeding: the player map *)

Lemma team_player_ids_app db ps team_id :
  team_player_ids (set_players db (players db ++ ps)) team_id
  = team_player_ids db team_id
    ++ map p_id (filter (fun p => p_team_id p =? team_id) ps).
Proof.
  unfold team_player_ids. destruct db; simpl.
  rewrite filter_app, map_app. reflexivity.
Qed.

(** The rows built for a team carry its id. *)
Lemma player_tuples_team team_id ps rows :
  mapM (player_tuple team_id) ps = Ok rows ->
  Forall (fun row => snd (fst (fst (fst row))) = team_id) rows.
Proof.
  revert rows. induction ps as [| p ps IH]; intros rows E; simpl in E.
  - injection E as <-. constructor.
  - bind_inv E. bind_inv E. injection E as <-.
    constructor; [| apply IH; assumption].
    unfold player_tuple in E0.
    destruct (rp_full_name p) as [name |]; simpl in E0; [| discriminate].
    destruct (contains "placeholder" (lower name)); [discriminate |].
    injection E0 as <-. reflexivity.
Qed.

(** Inserting rows of one team leaves the players of the other teams as
    they were. *)
Lemma insert_players_other team_id rows : forall db db',
  Forall (fun row => snd (fst (fst (fst row))) = team_id) rows ->
  foldM (fun db row => insert_player row db) db rows = Ok db' ->
  forall t, t <> team_id -> team_player_ids db' t = team_player_ids db t.
Proof.
  induction rows as [| row rows IH]; intros db db' Hrows E t Ht; simpl in E.
  - injection E as <-. reflexivity.
  - inversion Hrows as [| ? ? Hrow Hrest]; subst. bind_inv E.
    match goal with G : insert_player row db = Ok ?d |- _ =>
      rename G into E1; rename d into db1 end.
    rewrite (IH db1 db' Hrest E t Ht).
    destruct row as [[[[full_name tid] position] nationality] birth_year].
    cbn [fst snd] in Ht. unfold insert_player in E1.
    destruct (has_team db tid); [| discriminate]. injection E1 as <-.
    rewrite team_player_ids_app. cbn [filter p_team_id map].
    destruct (Z.eqb_spec tid t) as [-> | _]; [congruence |].
    apply app_nil_r.
Qed.

Section PlayerMap.
Variable teams_in : list TeamRow.

Lemma insert_team_players_outcome player_map item c c' player_map' :
  insert_team_players (team_lookup_of teams_in) player_map item c
  = (c', Ok player_map') ->
  match known_team_id (team_lookup_of teams_in) (fst item) with
  | None => c' = c /\ player_map' = player_map
  | Some team_id =>
      committed c' = committed c /\
      player_map'
      = dict_set Z.eqb team_id (team_player_ids (pending c') team_id)
                 player_map /\
      forall t, t <> team_id ->
                team_player_ids (pending c') t = team_player_ids (pending c) t
  end.
Proof.
  destruct item as [team_name team_data]. unfold insert_team_players.
  cbn [fst].
  destruct (known_team_id (team_lookup_of teams_in) team_name)
    as [team_id |].
  - intros E. apply tx_bind_Ok_inv in E. destruct E as (c1 & rows & E1 & E).
    apply tx_lift_Ok_inv in E1. destruct E1 as [-> Erows].
    apply tx_bind_Ok_inv in E. destruct E as (c2 & [] & E2 & E).
    apply executemany_Ok_inv in E2. destruct E2 as [Hcom Hins].
    apply tx_bind_Ok_inv in E. destruct E as (c3 & ids & E3 & E).
    unfold fetchall in E3. injection E3 as <- <-.
    unfold tx_ret in E. injection E as <- <-.
    split; [exact Hcom |]. split; [reflexivity |].
    apply (insert_players_other team_id rows); [| exact Hins].
    apply (player_tuples_team _ _ _ Erows).
  - unfold tx_ret. intros E. injection E as <- <-. split; reflexivity.
Qed.

Lemma insert_players_loop roster : forall player_map c c' player_map',
  tx_foldM (insert_team_players (team_lookup_of teams_in)) player_map roster c
  = (c', Ok player_map') ->
  forall t,
    dict_get Z.eqb t player_map'
    = (if in_roster teams_in roster t
       then Some (team_player_ids (pending c') t)
       else dict_get Z.eqb t player_map) /\
    (in_roster teams_in roster t = false ->
     team_player_ids (pending c') t = team_player_ids (pending c) t).
Proof.
  induction roster as [| item roster IH];
    intros player_map c c' player_map' E t; cbn [tx_foldM] in E.
  - unfold tx_ret in E. injection E as <- <-. split; reflexivity.
  - apply tx_bind_Ok_inv in E. destruct E as (c1 & pm1 & E1 & E).
    apply insert_team_players_outcome in E1.
    destruct (IH pm1 c1 c' player_map' E t) as [Hget Hsame].
    unfold in_roster in *. cbn [existsb].
    destruct (known_team_id (team_lookup_of teams_in) (fst item))
      as [team_id |].
    + destruct E1 as (_ & -> & Hother).
      destruct (Z.eqb_spec team_id t) as [-> | Hne]; cbn [orb].
      * split; [| discriminate]. rewrite Hget.
        destruct (existsb _ roster); [reflexivity |].
        rewrite (@dict_get_set_same Z (list Z) Z.eqb Z.eqb_spec).
        rewrite Hsame by reflexivity. reflexivity.
      * rewrite Hget.
        rewrite (@dict_get_set_other Z (list Z) Z.eqb Z.eqb_spec)
          by exact Hne.
        split; [reflexivity |]. intros Hr.
        rewrite (Hsame Hr). apply Hother. congruence.
    + destruct E1 as [-> ->]. cbn [orb]. split; [exact Hget | exact Hsame].
Qed.

Lemma empty_map_get (t : Z) :
  dict_get Z.eqb t
           (dict_of_list Z.eqb (map (fun x => (t_id x, @nil Z)) teams_in))
  = if existsb (Z.eqb t) (map t_id teams_in) then Some [] else None.
Proof.
  set (kvs := map (fun x => (t_id x, @nil Z)) teams_in).
  assert (Hkeys : map fst kvs = map t_id teams_in).
  { unfold kvs. rewrite map_map. reflexivity. }
  destruct (existsb (Z.eqb t) (map t_id teams_in)) eqn:Ein.
  - apply existsb_eqb_In_Z in Ein. rewrite <- Hkeys in Ein.
    apply dict_of_list_keys_In in Ein.
    destruct (dict_get Z.eqb t (dict_of_list Z.eqb kvs)) as [v |] eqn:Eg.
    + apply (@dict_get_In Z (list Z) Z.eqb Z.eqb_spec) in Eg.
      apply (dict_of_list_values Z.eqb (fun v => v = @nil Z) kvs) in Eg.
      * simpl in Eg. rewrite Eg. reflexivity.
      * intros kv Hkv. unfold kvs in Hkv. apply in_map_iff in Hkv.
        destruct Hkv as (x & <- & _). reflexivity.
    + apply (@dict_get_None Z (list Z) Z.eqb Z.eqb_spec) in Eg.
      contradiction.
  - apply (@dict_get_None Z (list Z) Z.eqb Z.eqb_spec). intros Hin.
    apply dict_of_list_keys_In in Hin. rewrite Hkeys in Hin.
    apply existsb_eqb_In_Z in Hin. congruence.
Qed.

Lemma in_roster_team roster t :
  in_roster teams_in roster t = true ->
  existsb (Z.eqb t) (map t_id teams_in) = true.
Proof.
  unfold in_roster. intros Hr. apply existsb_exists in Hr.
  destruct Hr as (item & _ & Hitem).
  destruct (known_team_id (team_lookup_of teams_in) (fst item))
    as [id |] eqn:Ek; [| discriminate].
  apply Z.eqb_eq in Hitem. subst id.
  apply known_team_id_In in Ek. apply existsb_eqb_In_Z. exact Ek.
Qed.

Lemma insert_players_map_get roster c player_map :
  snd (_insert_players teams_in roster c) = Ok player_map ->
  forall t,
    dict_get Z.eqb t player_map
    = if in_roster teams_in roster t
      then Some (team_player_ids
                   (pending (fst (_insert_players teams_in roster c))) t)
      else if existsb (Z.eqb t) (map t_id teams_in) then Some [] else None.
Proof.
  intros Hs t.
  destruct (tx_foldM (insert_team_players (team_lookup_of teams_in))
              (dict_of_list Z.eqb (map (fun x => (t_id x, @nil Z)) teams_in))
              roster c) as [c1 [pm1 | e]] eqn:E.
  - assert (Eq : _insert_players teams_in roster c
                 = (mkConn (pending c1) (pending c1), Ok pm1)).
    { unfold _insert_players, tx_bind. fold (team_lookup_of teams_in).
      rewrite E. reflexivity. }
    rewrite Eq in Hs |- *. cbn [fst snd pending] in *. injection Hs as <-.
    destruct (insert_players_loop _ _ _ _ _ E t) as [Hget _].
    rewrite Hget. destruct (in_roster teams_in roster t); [reflexivity |].
    apply empty_map_get.
  - exfalso. unfold _insert_players, tx_bind in Hs.
    fold (team_lookup_of teams_in) in Hs. rewrite E in Hs. discriminate.
Qed.
End PlayerMap.

(** X26.  When [_insert_players] returns, the player map holds, for a team
    that some roster entry names (by a name of [teams] with an id that is
    not 0), what [SELECT id FROM players WHERE team_id=?] gives on the
    store as it then is: the ids of all the players of that team, those
    that were there before the call included.  For a team of [teams] that
    no entry names it holds the empty list, whatever the store holds, and
    it has no other key. *)
Theorem insert_players_map (teams_in : list TeamRow)
  (roster : list (string * RosterTeam)) (c : Conn)
  (player_map : list (Z * list Z)) :
  snd (_insert_players teams_in roster c) = Ok player_map ->
  forall team_id,
    dict_get Z.eqb team_id player_map
    = if in_roster teams_in roster team_id
      then Some (team_player_ids
                   (pending (fst (_insert_players teams_in roster c)))
                   team_id)
      else if existsb (Z.eqb team_id) (map t_id teams_in)
           then Some [] else None.
Proof. apply insert_players_map_get. Qed.

Lemma insert_players_map_witness :
  snd (_insert_players example_teams squad_entries (mkConn squad_db squad_db))
  = Ok [(1, [1; 3; 4]); (2, []); (3, [])] /\
  team_player_ids
    (pending (fst (_insert_players example_teams squad_entries
                                   (mkConn squad_db squad_db)))) 3 = [2] /\
  forall team_id,
    dict_get Z.eqb team_id [(1, [1; 3; 4]); (2, []); (3, [])]
    = if in_roster example_teams squad_entries team_id
      then Some (team_player_ids
                   (pending (fst (_insert_players example_teams squad_entries
                                    (mkConn squad_db squad_db))))
                   team_id)
      else if existsb (Z.eqb team_id) (map t_id example_teams)
           then Some [] else None.
Proof.
  split; [vm_compute; reflexivity |]. split; [vm_compute; reflexivity |].
  exact (insert_players_map example_teams squad_entries
           (mkConn squad_db squad_db) [(1, [1; 3; 4]); (2, []); (3, [])]
           ltac:(vm_compute; reflexivity)).
Defined.
